(** * VirtualCrypto ledger: a shallow embedding of [virtualcrypto_core.py]

    The development follows the source file top to bottom:

    - [Dec]: the values of Python's [decimal.Decimal] that the ledger uses
      (finite numbers [coef * 10 ^ expo]) with [+] and [-] in the 28-digit
      context, unary [-], the comparisons and
      [quantize(..., rounding=ROUND_DOWN)];
    - the numbers of SQLite: 64-bit integers and doubles,
      [CAST(amount AS DECIMAL)] and [SUM] as SQLite computes them, and
      [Decimal(x)] for the [int] or the [float] that Python gets back;
    - the five relations of [ensure_db] as tables of rows with their
      AUTOINCREMENT counters;
    - a connection ([Conn]): the last committed tables, the tables as the
      connection sees them (committed + pending statements), a schedule of
      storage failures and the readings of the clock; the database functions
      are written in a state-and-exception monad over it;
    - the engine functions ([upsert_user] ... [get_guild_assets]),
      [format_currency_amount], and the command handlers that write to the
      ledger ([create_currency_command], [pay_currency_command],
      [give_currency_command], [delete_currency_command], [fix_database]);
    - the handlers that read ([balance_command], [treasury_command],
      [list_currencies], the two autocompletions of a symbol) with the
      queries behind them ([get_user_balances], [get_treasury_balances]).

    The theorems follow: arithmetic of Decimals against the rationals;
    what the functions do when the storage does not fail (provisioning,
    symbol uniqueness, postings and balances, deletion, repair); what they
    leave behind under any behaviour of the storage (atomicity, the
    quantized amount); the invariants of every database the commands can
    produce (zero sums, keys and references, guilds); who can take from an
    account; what the handlers that read show; and what no command does to
    the rows that are there.

    Two notions are kept apart: what an account holds of an asset ([held],
    the exact sum of the amounts of its entries) and its balance
    ([balance], what [balance_of] returns: the sum SQLite computes in
    integers and doubles, written out as a Decimal).  They agree on whole
    amounts and differ as soon as an amount such as 0.30 is summed.

    Not modelled: the layout and the wording of the messages (embeds, the
    ephemeral flag, /help), the schema migration of [ensure_db] (the five
    relations are taken as created), and other connections writing at the
    same time (one handler runs at a time).  The replies of the handlers
    are kinds of messages that carry the values shown, not the rendered
    text; the handlers call [format_currency_amount] where the source
    does, and an exception it raises leaves the handler at that place.

    Conventions.  A [str] is a [string] whose characters are code points
    below 256.  [str(guild_id)] and [str(discord_user_id)] are injective, so
    the TEXT columns holding them are kept as the integers themselves.  An
    amount column holds [str(d)] for a Decimal [d]; the table keeps [d],
    and [CAST(amount AS DECIMAL)] is computed from [d] as SQLite computes
    it from the text.  The double of a text is taken as the nearest one,
    doubles have no infinity, and [SUM] is the one of SQLite before 3.43
    (later versions add a correction term): the theorems do not depend on
    the digits of a sum of doubles, except the examples that compute one,
    which use rows on which none of this makes a difference.  Foreign keys
    are declared by the schema but SQLite enforces them only under
    [PRAGMA foreign_keys = ON], which the source never issues: they are
    not enforced here either. *)

From Stdlib Require Import ZArith QArith Qpower List String Ascii Bool Lia Lqa.
From Stdlib Require Import DecimalString DecimalZ DecimalPos.
Import ListNotations.
Local Open Scope string_scope.
Local Open Scope list_scope.
Local Open Scope Z_scope.

(* ====================================================================== *)
(** * Decimal *)

(** The integer nearest to [n / d] for [0 <= n] and [0 < d]; of two nearest
    ones, the even one (ROUND_HALF_EVEN, and the rounding of IEEE 754). *)
Definition round_half_even (n d : Z) : Z :=
  let q := n / d in
  let r := n mod d in
  if 2 * r <? d then q
  else if d <? 2 * r then q + 1
  else if Z.even q then q else q + 1.

Module Dec.

(** A finite Decimal: the number [coef * 10 ^ expo].  A zero has no sign
    here (in Python unary minus gives the positive zero back,
    [str(-Decimal('0.00'))] is ['0.00'], and zeros of either sign compare
    equal). *)
Record Decimal : Type := mk { coef : Z; expo : Z }.

(** [Decimal(str(n))] for an [int] [n]. *)
Definition of_int (n : Z) : Decimal := mk n 0.

(** [Decimal('0')]. *)
Definition zero : Decimal := of_int 0.

(** The coefficient of [a] written at the exponent [e <= expo a]. *)
Definition rescale (a : Decimal) (e : Z) : Z := coef a * 10 ^ (expo a - e).

(** The sum of [a] and [b] taken exactly, at the smaller of the two
    exponents: [a + b] before the context rounds it. *)
Definition add (a b : Decimal) : Decimal :=
  let e := Z.min (expo a) (expo b) in
  mk (rescale a e + rescale b e) e.

(** [-a]. *)
Definition neg (a : Decimal) : Decimal := mk (- coef a) (expo a).

(** The difference taken exactly. *)
Definition sub (a b : Decimal) : Decimal := add a (neg b).

(** The numerical comparison behind [<], [<=], [>], [==] and [!=]. *)
Definition compare (a b : Decimal) : comparison :=
  let e := Z.min (expo a) (expo b) in
  Z.compare (rescale a e) (rescale b e).

Definition ltb (a b : Decimal) : bool :=
  match compare a b with Lt => true | _ => false end.

Definition leb (a b : Decimal) : bool :=
  match compare a b with Gt => false | _ => true end.

Definition eqb (a b : Decimal) : bool :=
  match compare a b with Eq => true | _ => false end.

(** Truth value of a Decimal is [a != 0]; [is_zero a] is [not a]. *)
Definition is_zero (a : Decimal) : bool := coef a =? 0.

(** The context precision of the [decimal] module ([getcontext().prec]). *)
Definition prec : Z := 28.

(** [a.quantize(q, rounding=ROUND_DOWN)] where [q] has exponent [e].

    A zero keeps its value at the new exponent.  Otherwise [quantize]
    raises [InvalidOperation] ([None] here) when the result would have
    more than [prec] digits, i.e. when [a.adjusted() - e + 1 > prec]; with
    [k := prec - (expo a - e)] that is [10 ^ k <= |coef a|] (for [k < 0]
    the power is [0] in [Z], and every non-zero coefficient has a digit).
    The coefficient is padded with zeros when [e <= expo a] and cut
    towards zero ([Z.quot]) when digits have to go. *)
Definition quantize_down (a : Decimal) (e : Z) : option Decimal :=
  if coef a =? 0 then Some (mk 0 e)
  else if 10 ^ (prec - (expo a - e)) <=? Z.abs (coef a) then None
  else if e <=? expo a then Some (mk (coef a * 10 ^ (expo a - e)) e)
  else Some (mk (Z.quot (coef a) (10 ^ (e - expo a))) e).

(** The number of digits of [c >= 0], counted in at most [fuel + 1] steps. *)
Fixpoint digits_upto (fuel : nat) (c : Z) : Z :=
  match fuel with
  | O => 1
  | S fuel' => if c <? 10 then 1 else 1 + digits_upto fuel' (c / 10)
  end.

(** [len(str(abs(c)))]. *)
Definition digits (c : Z) : Z :=
  digits_upto (Z.to_nat (Z.log2 (Z.abs c))) (Z.abs c).

(** The rounding of the context, [prec] digits with ROUND_HALF_EVEN: a
    coefficient of more digits loses the last ones; when rounding up
    carries into one more digit, the last zero goes as well. *)
Definition round_prec (a : Decimal) : Decimal :=
  let k := digits (coef a) - prec in
  if k <=? 0 then a
  else
    let m := round_half_even (Z.abs (coef a)) (10 ^ k) in
    if m =? 10 ^ prec then mk (Z.sgn (coef a) * 10 ^ (prec - 1)) (expo a + k + 1)
    else mk (Z.sgn (coef a) * m) (expo a + k).

(** [a + b] and [a - b]: the exact result, rounded by the context. *)
Definition plus (a b : Decimal) : Decimal := round_prec (add a b).
Definition minus (a b : Decimal) : Decimal := round_prec (sub a b).

(** The exponent of [Decimal('0.1') ** decimals]. *)
Definition quantum_exponent (decimals : Z) : Z := - decimals.

(** The rational number a Decimal denotes. *)
Definition value (a : Decimal) : Q := (inject_Z (coef a) * 10 ^ expo a)%Q.

(** The sum of the numbers a list of Decimals denotes. *)
Definition total_value (l : list Decimal) : Q :=
  fold_right (fun d acc => (value d + acc)%Q) 0%Q l.

End Dec.

(* ====================================================================== *)
(** * Text *)

(** [str(n)] for an [int]. *)
Definition str_int (n : Z) : string := NilZero.string_of_int (Z.to_int n).

(** [c.isalnum()] for a code point below 256: the ASCII digits and letters,
    and in the Latin-1 block the letters (U+00AA, U+00B5, U+00BA,
    U+00C0..U+00FF without the signs U+00D7 and U+00F7), the superscript
    digits (U+00B2, U+00B3, U+00B9) and the fractions (U+00BC..U+00BE). *)
Definition char_isalnum (c : ascii) : bool :=
  let n := N_of_ascii c in
  (((48 <=? n) && (n <=? 57)) || ((65 <=? n) && (n <=? 90))
   || ((97 <=? n) && (n <=? 122))
   || (n =? 170) || (n =? 178) || (n =? 179) || (n =? 181) || (n =? 185)
   || (n =? 186) || ((188 <=? n) && (n <=? 190))
   || ((192 <=? n) && (n <=? 255) && negb (n =? 215) && negb (n =? 247)))%N.

(** [s.isalnum()]: every character is alphanumeric and there is at least
    one. *)
Definition isalnum (s : string) : bool :=
  negb (s =? EmptyString)%string && forallb char_isalnum (list_ascii_of_string s).

(** [len(s)]. *)
Definition len (s : string) : Z := Z.of_nat (String.length s).

(** A [str] used as a condition: the empty string is false. *)
Definition truthy (s : option string) : bool :=
  match s with
  | Some s => negb (s =? EmptyString)%string
  | None => false
  end.

(* ====================================================================== *)
(** * The relations of [ensure_db] *)

(** [type TEXT NOT NULL CHECK (type IN ('user','treasury','burn'))]. *)
Inductive account_type : Type := TUser | TTreasury | TBurn.

Definition account_type_eqb (a b : account_type) : bool :=
  match a, b with
  | TUser, TUser | TTreasury, TTreasury | TBurn, TBurn => true
  | _, _ => false
  end.

(** The texts the program writes into [transactions.description]:
    - [DescInitialSupply s]: the text of [create_asset], "initial supply: s";
    - [DescPay a b memo]: the text of [pay_currency_command],
      "transfer: a -> b", followed by " (memo)" when there is a memo;
    - [DescGive b memo]: the text of [give_currency_command],
      "issue: Treasury -> b", with the same optional memo;
    - [DescDbFix s]: the text of [fix_database],
      "DB repair: s Treasury balance adjustment". *)
Inductive description : Type :=
| DescInitialSupply (symbol : string)
| DescPay (from_name to_name : string) (memo : option string)
| DescGive (to_name : string) (memo : option string)
| DescDbFix (symbol : string).

(** [datetime.now(TZ).isoformat()], as an instant. *)
Definition timestamp : Type := Z.

Record user_row : Type := mk_user
  { u_id : Z;
    u_discord_user_id : Z }.

Record asset_row : Type := mk_asset
  { a_id : Z;
    a_guild_id : Z;
    a_symbol : string;
    a_name : string;
    a_decimals : Z }.

Record account_row : Type := mk_account
  { acc_id : Z;
    acc_user_id : option Z;
    acc_guild_id : Z;
    acc_name : string;
    acc_type : account_type;
    acc_is_active : Z }.

Record transaction_row : Type := mk_transaction
  { t_id : Z;
    t_guild_id : Z;
    t_description : description;
    t_created_at : timestamp }.

Record entry_row : Type := mk_entry
  { e_id : Z;
    e_transaction_id : Z;
    e_account_id : Z;
    e_asset_id : Z;
    e_amount : Dec.Decimal }.

(** A table with [INTEGER PRIMARY KEY AUTOINCREMENT]: the rows in rowid
    order and the largest rowid ever handed out (SQLite keeps it in
    [sqlite_sequence], inside the same transaction as the rows). *)
Record Table (A : Type) : Type := mk_table
  { rows : list A;
    seq : Z }.
Arguments mk_table {A} _ _.
Arguments rows {A} _.
Arguments seq {A} _.

Definition empty_table {A : Type} : Table A := mk_table [] 0.

(** An INSERT: the new row gets the rowid [seq + 1]; the statement also
    yields that id ([cursor.lastrowid]). *)
Definition insert_row {A : Type} (mk : Z -> A) (t : Table A) : Table A * Z :=
  let id := seq t + 1 in
  (mk_table (rows t ++ [mk id]) id, id).

(** A DELETE ... WHERE: the rows that do not satisfy the condition stay. *)
Definition delete_rows {A : Type} (cond : A -> bool) (t : Table A) : Table A :=
  mk_table (filter (fun r => negb (cond r)) (rows t)) (seq t).

Record Tables : Type := mk_tables
  { users : Table user_row;
    assets : Table asset_row;
    accounts : Table account_row;
    transactions : Table transaction_row;
    ledger_entries : Table entry_row }.

(** The database right after [ensure_db] created it. *)
Definition empty_db : Tables :=
  mk_tables empty_table empty_table empty_table empty_table empty_table.

Definition set_users (t : Table user_row) (d : Tables) : Tables :=
  mk_tables t (assets d) (accounts d) (transactions d) (ledger_entries d).
Definition set_assets (t : Table asset_row) (d : Tables) : Tables :=
  mk_tables (users d) t (accounts d) (transactions d) (ledger_entries d).
Definition set_accounts (t : Table account_row) (d : Tables) : Tables :=
  mk_tables (users d) (assets d) t (transactions d) (ledger_entries d).
Definition set_transactions (t : Table transaction_row) (d : Tables) : Tables :=
  mk_tables (users d) (assets d) (accounts d) t (ledger_entries d).
Definition set_ledger_entries (t : Table entry_row) (d : Tables) : Tables :=
  mk_tables (users d) (assets d) (accounts d) (transactions d) t.

(* ====================================================================== *)
(** * Connections and the database monad *)

(** The exceptions the modelled code can meet: a failure of the storage
    under a statement, a violated UNIQUE constraint, [quantize] out of
    precision, indexing [None], a [SUM] of integers that leaves the 64-bit
    range ("integer overflow"), [amount.quantize] on a number that is no
    [Decimal], and a negative precision in a format string. *)
Inductive exn : Type :=
| StorageError
| IntegrityError
| InvalidOperation
| TypeError
| OperationalError
| AttributeError
| ValueError.

Inductive result (A : Type) : Type :=
| Ok (a : A)
| Raise (e : exn).
Arguments Ok {A} _.
Arguments Raise {A} _.

(** An open [aiosqlite] connection.
    - [committed]: the tables every other connection reads;
    - [working]: the tables this connection reads, with its uncommitted
      statements applied;
    - [faults]: for each coming [db.execute], whether the storage fails
      under it (an empty schedule: no failure);
    - [clock]: the coming readings of [datetime.now(TZ)]. *)
Record Conn : Type := mk_conn
  { committed : Tables;
    working : Tables;
    faults : list bool;
    clock : list timestamp }.

Definition set_working (w : Tables) (c : Conn) : Conn :=
  mk_conn (committed c) w (faults c) (clock c).
Definition set_faults (f : list bool) (c : Conn) : Conn :=
  mk_conn (committed c) (working c) f (clock c).
Definition set_clock (t : list timestamp) (c : Conn) : Conn :=
  mk_conn (committed c) (working c) (faults c) t.

(** [aiosqlite.connect(DB_PATH)]. *)
Definition connect (db : Tables) (fs : list bool) (ts : list timestamp) : Conn :=
  mk_conn db db fs ts.

Definition M (A : Type) : Type := Conn -> result A * Conn.

Definition ret {A : Type} (a : A) : M A := fun c => (Ok a, c).

Definition bind {A B : Type} (m : M A) (f : A -> M B) : M B :=
  fun c =>
    match m c with
    | (Ok a, c') => f a c'
    | (Raise e, c') => (Raise e, c')
    end.

Definition raise {A : Type} (e : exn) : M A := fun c => (Raise e, c).

(** [try: m except Exception as e: h e]. *)
Definition try_except {A : Type} (m : M A) (h : exn -> M A) : M A :=
  fun c =>
    match m c with
    | (Ok a, c') => (Ok a, c')
    | (Raise e, c') => h e c'
    end.

Declare Scope db_scope.
Delimit Scope db_scope with db.
Notation "x <- m ;; k" := (bind m (fun x => k))
  (at level 61, m at next level, right associativity) : db_scope.
Notation "m ;;; k" := (bind m (fun _ => k))
  (at level 61, right associativity) : db_scope.
Local Open Scope db_scope.

(** [await db.execute(stmt, params)]: the storage may fail under the
    statement; otherwise the statement runs on the connection's tables and
    may itself raise, leaving them as they were. *)
Definition execute {A : Type} (stmt : Tables -> result (A * Tables)) : M A :=
  fun c =>
    match faults c with
    | true :: fs => (Raise StorageError, set_faults fs c)
    | fs =>
        let c1 := set_faults (tl fs) c in
        match stmt (working c) with
        | Ok (a, w) => (Ok a, set_working w c1)
        | Raise e => (Raise e, c1)
        end
    end.

(** [fetch_one(db, query, params)]: the first row of the result, if any. *)
Definition fetch_one {A : Type} (query : Tables -> list A) : M (option A) :=
  execute (fun d => Ok (hd_error (query d), d)).

(** [fetch_all(db, query, params)]. *)
Definition fetch_all {A : Type} (query : Tables -> list A) : M (list A) :=
  execute (fun d => Ok (query d, d)).

(** A query that SQLite may fail to evaluate (the ones with [SUM]), as a
    statement: its rows, or its exception. *)
Definition evaluate {A B : Type} (query : Tables -> result (list A))
    (rows_to : list A -> B) (d : Tables) : result (B * Tables) :=
  match query d with
  | Ok l => Ok (rows_to l, d)
  | Raise e => Raise e
  end.

(** [fetch_one] and [fetch_all] for such a query. *)
Definition fetch_one_sum {A : Type} (query : Tables -> result (list A))
    : M (option A) :=
  execute (evaluate query (@hd_error A)).

Definition fetch_all_sum {A : Type} (query : Tables -> result (list A))
    : M (list A) :=
  execute (evaluate query (fun l => l)).

(** [await db.commit()]. *)
Definition commit : M unit :=
  fun c => (Ok tt, mk_conn (working c) (working c) (faults c) (clock c)).

(** [await db.rollback()]. *)
Definition rollback : M unit :=
  fun c => (Ok tt, set_working (committed c) c).

(** [datetime.now(TZ).isoformat()]. *)
Definition datetime_now : M timestamp :=
  fun c =>
    match clock c with
    | t :: ts => (Ok t, set_clock ts c)
    | [] => (Ok 0, c)
    end.

(* ====================================================================== *)
(** * The numbers of SQLite *)

(** SQLite has no decimal type.  [CAST(amount AS DECIMAL)] has NUMERIC
    affinity: it turns the text of an amount into a 64-bit integer or into
    a double, and [SUM] adds integers and doubles.  Python gets an [int] or
    a [float]. *)

(** A finite double (IEEE 754 binary64), the number [mant * 2 ^ bexp], kept
    the way [float.as_integer_ratio] gives it: [bexp <= 0], and [mant] is
    odd unless [bexp = 0]. *)
Record double : Type := mk_double
  { mant : Z;
    bexp : Z }.

(** [p * 2 ^ (- k)] with the factors of two that cancel taken out. *)
Fixpoint strip_twos (p : positive) (k : nat) : positive * nat :=
  match p, k with
  | xO p', S k' => strip_twos p' k'
  | _, _ => (p, k)
  end.

(** The double [m * 2 ^ e]. *)
Definition normal (m e : Z) : double :=
  if 0 <=? e then mk_double (m * 2 ^ e) 0
  else
    match m with
    | 0 => mk_double 0 0
    | Zpos p =>
        let (p', k) := strip_twos p (Z.to_nat (- e)) in
        mk_double (Zpos p') (- Z.of_nat k)
    | Zneg p =>
        let (p', k) := strip_twos p (Z.to_nat (- e)) in
        mk_double (Zneg p') (- Z.of_nat k)
    end.

(** The double nearest to [n / d] for [0 < d], ties to the even mantissa:
    a mantissa of 53 bits at the binary exponent [k] of the number, of
    fewer bits below the smallest normal exponent.  (Numbers beyond the
    largest double, about 1.8e308, are rounded like the others: there is no
    infinity here.) *)
Definition nearest (n d : Z) : double :=
  if n =? 0 then mk_double 0 0
  else
    let a := Z.abs n in
    let k := Z.log2 a - Z.log2 d in
    let k := if a * 2 ^ Z.max 0 (- k) <? d * 2 ^ Z.max 0 k then k - 1 else k in
    let e := Z.max (k - 52) (-1074) in
    normal (Z.sgn n * round_half_even (a * 2 ^ Z.max 0 (- e)) (d * 2 ^ Z.max 0 e))
      e.

(** [x + y] on doubles. *)
Definition double_add (x y : double) : double :=
  let e := Z.min (bexp x) (bexp y) in
  nearest (mant x * 2 ^ (bexp x - e) + mant y * 2 ^ (bexp y - e)) (2 ^ (- e)).

(** [(double)i] for a 64-bit integer. *)
Definition double_of_int (i : Z) : double := nearest i 1.

(** The double SQLite reads from the text [str(a)] of a Decimal, taken as
    the nearest one.  (SQLite's own conversion keeps 19 significant digits
    and works in the [long double] of the platform; it can miss the nearest
    double by one unit in the last place.) *)
Definition double_of_text (a : Dec.Decimal) : double :=
  nearest (Dec.coef a * 10 ^ Z.max 0 (Dec.expo a)) (10 ^ Z.max 0 (- Dec.expo a)).

(** [Decimal(x)] for a [float] [x]: the binary expansion, digit by digit. *)
Definition decimal_of_double (x : double) : Dec.Decimal :=
  Dec.mk (mant x * 5 ^ (- bexp x)) (bexp x).

(** A value of SQLite that is a number: INTEGER or REAL. *)
Inductive number : Type :=
| Integer (i : Z)
| Real (r : double).

Definition int64 (i : Z) : bool := (- 2 ^ 63 <=? i) && (i <? 2 ^ 63).

(** [CAST(amount AS DECIMAL)] where [amount] holds [str(a)].  A text of
    digits only ([str(a)] for an exponent 0) is an INTEGER when it fits in
    64 bits.  Any other text is read as a double, and a double that is a
    whole number from [- 2 ^ 51] up to, not including, [2 ^ 51] becomes an
    INTEGER. *)
Definition cast_as_decimal (a : Dec.Decimal) : number :=
  if (Dec.expo a =? 0) && int64 (Dec.coef a) then Integer (Dec.coef a)
  else
    let r := double_of_text a in
    if (bexp r =? 0) && (- 2 ^ 51 <=? mant r) && (mant r <? 2 ^ 51)
    then Integer (mant r)
    else Real r.

(** The accumulator of [SUM] ([SumCtx] of SQLite before 3.43): the sum as
    a double, the sum as an integer, whether a REAL was met, and whether
    the integer sum left the 64-bit range. *)
Record SumCtx : Type := mk_sum
  { rSum : double;
    iSum : Z;
    approx : bool;
    overflow : bool }.

(** One row into the accumulator ([sumStep]). *)
Definition sumStep (p : SumCtx) (x : number) : SumCtx :=
  match x with
  | Integer v =>
      let r := double_add (rSum p) (double_of_int v) in
      if approx p || overflow p then mk_sum r (iSum p) (approx p) (overflow p)
      else if int64 (iSum p + v) then mk_sum r (iSum p + v) false false
      else mk_sum r (iSum p) true true
  | Real x => mk_sum (double_add (rSum p) x) (iSum p) true (overflow p)
  end.

(** [SUM(...)] over the selected rows, in their order: NULL when there is
    none; the integer sum when every row is an INTEGER; the sum of the
    doubles, rounded at every addition, when a row is a REAL; and the error
    "integer overflow" when the integers left the 64-bit range before any
    REAL came.  (From SQLite 3.43 on, [SUM] carries a correction term
    beside the double and returns a closer sum; nothing below depends on
    the digits of a sum of doubles, except the examples that compute one
    on rows for which the two agree.) *)
Definition sql_sum (l : list number) : result (option number) :=
  match l with
  | [] => Ok None
  | _ =>
      let p := fold_left sumStep l (mk_sum (mk_double 0 0) 0 false false) in
      if overflow p then Raise OperationalError
      else if approx p then Ok (Some (Real (rSum p)))
      else Ok (Some (Integer (iSum p)))
  end.

(** [Decimal(x)] for the [int] or the [float] Python gets. *)
Definition decimal_of_number (x : number) : Dec.Decimal :=
  match x with
  | Integer i => Dec.of_int i
  | Real r => decimal_of_double r
  end.

(** [Decimal(x or '0')] and [Decimal(x if ... and x else '0')]: a NULL or a
    zero gives [Decimal('0')]. *)
Definition or_zero (x : option number) : Dec.Decimal :=
  match x with
  | Some n =>
      if Dec.is_zero (decimal_of_number n) then Dec.zero else decimal_of_number n
  | None => Dec.zero
  end.

(* ====================================================================== *)
(** * The SQL statements of the source *)

(** A statement that selects one row [SUM(...)]: the row, or the error of
    the sum. *)
Definition sum_row (l : list number) : result (list (option number)) :=
  match sql_sum l with
  | Ok s => Ok [s]
  | Raise e => Raise e
  end.

(** The conditions [discord_user_id = ?], [name = ? AND guild_id = ?] and
    [guild_id = ? AND symbol = ?]; they are also the keys of the UNIQUE
    constraints of the three tables. *)
Definition user_key (discord_user_id : Z) (u : user_row) : bool :=
  u_discord_user_id u =? discord_user_id.

Definition account_key (name : string) (guild_id : Z) (a : account_row) : bool :=
  (acc_name a =? name)%string && (acc_guild_id a =? guild_id).

Definition asset_key (guild_id : Z) (symbol : string) (a : asset_row) : bool :=
  (a_guild_id a =? guild_id) && (a_symbol a =? symbol)%string.

(** [SELECT id FROM users WHERE discord_user_id = ?]. *)
Definition select_user_id (discord_user_id : Z) (d : Tables) : list Z :=
  map u_id (filter (user_key discord_user_id) (rows (users d))).

(** [INSERT INTO users (discord_user_id) VALUES (?)], under
    [discord_user_id TEXT NOT NULL UNIQUE]. *)
Definition insert_user (discord_user_id : Z) (d : Tables) : result (Z * Tables) :=
  if existsb (user_key discord_user_id) (rows (users d))
  then Raise IntegrityError
  else
    let (t, id) := insert_row (fun id => mk_user id discord_user_id) (users d) in
    Ok (id, set_users t d).

(** [SELECT id FROM accounts WHERE name = ? AND guild_id = ?]. *)
Definition select_account_id (name : string) (guild_id : Z) (d : Tables) : list Z :=
  map acc_id (filter (account_key name guild_id) (rows (accounts d))).

(** [INSERT INTO accounts (user_id, guild_id, name, type) VALUES (?, ?, ?, ?)],
    under [UNIQUE(guild_id, name)]; [is_active] takes its default 1. *)
Definition insert_account (user_id : option Z) (guild_id : Z) (name : string)
    (type : account_type) (d : Tables) : result (Z * Tables) :=
  if existsb (account_key name guild_id) (rows (accounts d))
  then Raise IntegrityError
  else
    let (t, id) :=
      insert_row (fun id => mk_account id user_id guild_id name type 1) (accounts d) in
    Ok (id, set_accounts t d).

(** [SELECT SUM(CAST(amount AS DECIMAL)) FROM ledger_entries
     WHERE account_id = ? AND asset_id = ?]: one row. *)
Definition select_balance (account_id asset_id : Z) (d : Tables)
    : result (list (option number)) :=
  sum_row
    (map (fun e => cast_as_decimal (e_amount e))
       (filter (fun e => (e_account_id e =? account_id) && (e_asset_id e =? asset_id))
          (rows (ledger_entries d)))).

(** [SELECT id FROM assets WHERE guild_id = ? AND symbol = ?]. *)
Definition select_asset_id (guild_id : Z) (symbol : string) (d : Tables) : list Z :=
  map a_id (filter (asset_key guild_id symbol) (rows (assets d))).

(** [INSERT INTO assets (guild_id, symbol, name, decimals) VALUES (?, ?, ?, ?)],
    under [UNIQUE(guild_id, symbol)]. *)
Definition insert_asset (guild_id : Z) (symbol name : string) (decimals : Z)
    (d : Tables) : result (Z * Tables) :=
  if existsb (asset_key guild_id symbol) (rows (assets d))
  then Raise IntegrityError
  else
    let (t, id) :=
      insert_row (fun id => mk_asset id guild_id symbol name decimals) (assets d) in
    Ok (id, set_assets t d).

(** [INSERT INTO transactions (guild_id, description, created_at)
     VALUES (?, ?, ?)]. *)
Definition insert_transaction (guild_id : Z) (desc : description)
    (created_at : timestamp) (d : Tables) : result (Z * Tables) :=
  let (t, id) :=
    insert_row (fun id => mk_transaction id guild_id desc created_at)
      (transactions d) in
  Ok (id, set_transactions t d).

(** [INSERT INTO ledger_entries (transaction_id, account_id, asset_id, amount)
     VALUES (?, ?, ?, ?)]. *)
Definition insert_ledger_entry (transaction_id account_id asset_id : Z)
    (amount : Dec.Decimal) (d : Tables) : result (Z * Tables) :=
  let (t, id) :=
    insert_row (fun id => mk_entry id transaction_id account_id asset_id amount)
      (ledger_entries d) in
  Ok (id, set_ledger_entries t d).

(** The row [(id, symbol, name, decimals)] of an asset query. *)
Definition asset_info : Type := (Z * string * string * Z)%type.

Definition asset_info_of (a : asset_row) : asset_info :=
  (a_id a, a_symbol a, a_name a, a_decimals a).

(** [SELECT id, symbol, name, decimals FROM assets
     WHERE guild_id = ? AND symbol = ?]. *)
Definition select_asset (guild_id : Z) (symbol : string) (d : Tables)
    : list asset_info :=
  map asset_info_of (filter (asset_key guild_id symbol) (rows (assets d))).

(** [ORDER BY symbol]: insertion into a list sorted by symbol. *)
Fixpoint insert_by_symbol (a : asset_row) (l : list asset_row) : list asset_row :=
  match l with
  | [] => [a]
  | b :: l' =>
      if String.leb (a_symbol a) (a_symbol b) then a :: l
      else b :: insert_by_symbol a l'
  end.

Definition order_by_symbol (l : list asset_row) : list asset_row :=
  fold_right insert_by_symbol [] l.

(** [SELECT id, symbol, name, decimals FROM assets WHERE guild_id = ?
     ORDER BY symbol]. *)
Definition select_guild_assets (guild_id : Z) (d : Tables) : list asset_info :=
  map asset_info_of
    (order_by_symbol (filter (fun a => a_guild_id a =? guild_id) (rows (assets d)))).

(** [SELECT SUM(CAST(amount AS DECIMAL)) as total_balance FROM ledger_entries
     WHERE asset_id = ?]: one row. *)
Definition select_total_balance (asset_id : Z) (d : Tables)
    : result (list (option number)) :=
  sum_row
    (map (fun e => cast_as_decimal (e_amount e))
       (filter (fun e => e_asset_id e =? asset_id) (rows (ledger_entries d)))).

(** [DELETE FROM ledger_entries WHERE asset_id = ?]. *)
Definition delete_entries_of_asset (asset_id : Z) (d : Tables)
    : result (unit * Tables) :=
  Ok (tt, set_ledger_entries
            (delete_rows (fun e => e_asset_id e =? asset_id) (ledger_entries d)) d).

(** [DELETE FROM assets WHERE id = ?]. *)
Definition delete_asset (asset_id : Z) (d : Tables) : result (unit * Tables) :=
  Ok (tt, set_assets (delete_rows (fun a => a_id a =? asset_id) (assets d)) d).

(** The amounts selected by
    [FROM ledger_entries le JOIN accounts a ON le.account_id = a.id
     WHERE le.asset_id = ? AND a.type = 'user' AND a.guild_id = ?]:
    one per pair of an entry and an account row it joins with. *)
Definition user_entry_amounts (asset_id guild_id : Z) (d : Tables)
    : list Dec.Decimal :=
  flat_map
    (fun le =>
       map (fun _ => e_amount le)
         (filter
            (fun a => (e_account_id le =? acc_id a)
                      && account_type_eqb (acc_type a) TUser
                      && (acc_guild_id a =? guild_id))
            (rows (accounts d))))
    (filter (fun le => e_asset_id le =? asset_id) (rows (ledger_entries d))).

(** [SELECT COALESCE(SUM(CAST(le.amount AS DECIMAL)), 0) as total ...]:
    one row. *)
Definition select_users_total (asset_id guild_id : Z) (d : Tables)
    : result (list number) :=
  match sql_sum (map cast_as_decimal (user_entry_amounts asset_id guild_id d)) with
  | Ok (Some s) => Ok [s]
  | Ok None => Ok [Integer 0]
  | Raise e => Raise e
  end.

(* ====================================================================== *)
(** * Users and accounts *)

Definition upsert_user (discord_user_id : Z) : M Z :=
  existing <- fetch_one (select_user_id discord_user_id) ;;
  match existing with
  | Some id => ret id
  | None => execute (insert_user discord_user_id)
  end.

(** [f"user:{discord_user_id}"]. *)
Definition user_account_name (discord_user_id : Z) : string :=
  "user:" ++ str_int discord_user_id.

Definition ensure_user_account (discord_user_id guild_id : Z) : M Z :=
  user_id <- upsert_user discord_user_id ;;
  let account_name := user_account_name discord_user_id in
  existing <- fetch_one (select_account_id account_name guild_id) ;;
  match existing with
  | Some id => ret id
  | None => execute (insert_account (Some user_id) guild_id account_name TUser)
  end.

Definition account_id_by_name (name : string) (guild_id : Z) : M (option Z) :=
  fetch_one (select_account_id name guild_id).

Definition balance_of (account_id asset_id : Z) : M Dec.Decimal :=
  result <- fetch_one_sum (select_balance account_id asset_id) ;;
  match result with
  | Some r => ret (or_zero r)
  | None => raise TypeError
  end.

(* ====================================================================== *)
(** * Currencies *)

Definition ensure_treasury_account (guild_id : Z) : M Z :=
  let treasury_name := "treasury" in
  existing <- fetch_one (select_account_id treasury_name guild_id) ;;
  match existing with
  | Some id => ret id
  | None => execute (insert_account None guild_id treasury_name TTreasury)
  end.

Definition ensure_burn_account (guild_id : Z) : M Z :=
  let burn_name := "burn" in
  existing <- fetch_one (select_account_id burn_name guild_id) ;;
  match existing with
  | Some id => ret id
  | None => execute (insert_account None guild_id burn_name TBurn)
  end.

(** The message of [create_asset]: the symbol exists already; the currency
    was created; creation failed with an exception. *)
Inductive create_message : Type :=
| MsgSymbolExists (symbol : string)
| MsgCreated (symbol name : string)
| MsgCreateError (e : exn).

Definition create_asset (guild_id : Z) (symbol name : string) (decimals : Z)
    (initial_supply : Dec.Decimal) : M (bool * create_message * option Z) :=
  try_except
    (existing <- fetch_one (select_asset_id guild_id symbol) ;;
     match existing with
     | Some _ => ret (false, MsgSymbolExists symbol, None)
     | None =>
         asset_id <- execute (insert_asset guild_id symbol name decimals) ;;
         treasury_account <- ensure_treasury_account guild_id ;;
         (if Dec.ltb Dec.zero initial_supply then
            now <- datetime_now ;;
            transaction_id <-
              execute (insert_transaction guild_id (DescInitialSupply symbol) now) ;;
            execute (insert_ledger_entry transaction_id treasury_account asset_id
                       initial_supply) ;;;
            ret tt
          else ret tt) ;;;
         commit ;;;
         ret (true, MsgCreated symbol name, Some asset_id)
     end)
    (fun e => rollback ;;; ret (false, MsgCreateError e, None)).

Definition issue_currency (guild_id from_account to_account asset_id : Z)
    (amount : Dec.Decimal) (desc : description) : M bool :=
  try_except
    (now <- datetime_now ;;
     transaction_id <- execute (insert_transaction guild_id desc now) ;;
     execute (insert_ledger_entry transaction_id from_account asset_id
                (Dec.neg amount)) ;;;
     execute (insert_ledger_entry transaction_id to_account asset_id amount) ;;;
     ret true)
    (fun e => rollback ;;; ret false).

Definition transfer_currency (guild_id from_account to_account asset_id : Z)
    (amount : Dec.Decimal) (desc : description) : M bool :=
  try_except
    (now <- datetime_now ;;
     transaction_id <- execute (insert_transaction guild_id desc now) ;;
     execute (insert_ledger_entry transaction_id from_account asset_id
                (Dec.neg amount)) ;;;
     execute (insert_ledger_entry transaction_id to_account asset_id amount) ;;;
     ret true)
    (fun e => rollback ;;; ret false).

Definition get_asset_by_symbol (guild_id : Z) (symbol : string)
    : M (option asset_info) :=
  fetch_one (select_asset guild_id symbol).

Definition get_guild_assets (guild_id : Z) : M (list asset_info) :=
  fetch_all (select_guild_assets guild_id).

Definition is_valid_currency_symbol (symbol : string) : bool :=
  isalnum symbol && (1 <=? len symbol) && (len symbol <=? 16).

(* ====================================================================== *)
(** * Amounts in messages *)

(** [s.rstrip(c)] for a one-character [c]. *)
Fixpoint rstrip (c : ascii) (s : string) : string :=
  match s with
  | EmptyString => EmptyString
  | String x s' =>
      match rstrip c s' with
      | EmptyString => if Ascii.eqb x c then EmptyString else String x EmptyString
      | r => String x r
      end
  end.

(** ['0' * n]. *)
Fixpoint zeros (n : nat) : string :=
  match n with
  | O => EmptyString
  | S n' => String "0" (zeros n')
  end.

(** What reaches [format_currency_amount] as [amount]: a [Decimal]
    ([balance_of] and the amounts of the commands), or a number as [SUM]
    hands it to Python in a result row, an [int] or a [float].  The number
    is kept as the Decimal of the same value ([decimal_of_number]). *)
Inductive amount_value : Type :=
| PyDecimal (d : Dec.Decimal)
| PyNumber (d : Dec.Decimal).

Inductive formatted : Type :=
| Text (s : string)
| FormatError (e : exn).

(** [int(amount)]: the integral part, cut towards zero. *)
Definition int_of (a : Dec.Decimal) : Z :=
  if 0 <=? Dec.expo a then Dec.coef a * 10 ^ Dec.expo a
  else Z.quot (Dec.coef a) (10 ^ (- Dec.expo a)).

(** [f"{quantized:.{decimals}f}"] without its sign, for a Decimal with the
    coefficient [c] and the exponent [- decimals]: the digits of [|c|],
    filled with zeros on the left up to [decimals + 1] digits, with the
    point before the last [decimals] of them. *)
Definition fixed_point (c : Z) (decimals : nat) : string :=
  let digits := str_int (Z.abs c) in
  let digits :=
    (zeros (S decimals - String.length digits) ++ digits)%string in
  let dotplace := (String.length digits - decimals)%nat in
  (substring 0 dotplace digits ++ "." ++ substring dotplace decimals digits)%string.

(** [format_currency_amount(amount, decimals)].  [quantize] keeps the sign
    of [amount], also on a result that is zero. *)
Definition format_currency_amount (amount : amount_value) (decimals : Z)
    : formatted :=
  if decimals =? 0 then
    match amount with
    | PyDecimal a | PyNumber a => Text (str_int (int_of a))
    end
  else
    match amount with
    | PyNumber _ => FormatError AttributeError
    | PyDecimal a =>
        match Dec.quantize_down a (Dec.quantum_exponent decimals) with
        | None => FormatError InvalidOperation
        | Some quantized =>
            if decimals <? 0 then FormatError ValueError
            else
              let sign := if Dec.coef a <? 0 then "-" else "" in
              Text (rstrip "."
                      (rstrip "0"
                         (sign ++ fixed_point (Dec.coef quantized)
                                    (Z.to_nat decimals))%string))
        end
    end.

(** The value of what reaches [format_currency_amount]. *)
Definition amount_of (amount : amount_value) : Dec.Decimal :=
  match amount with
  | PyDecimal a | PyNumber a => a
  end.

(** [format_currency_amount(amount, decimals)] inside the text of a
    message: its exception leaves the function that builds the message. *)
Definition render (amount : amount_value) (decimals : Z) : M string :=
  match format_currency_amount amount decimals with
  | Text s => ret s
  | FormatError e => raise e
  end.

(* ====================================================================== *)
(** * The command handlers *)

(** What a handler reads of [discord.Interaction]: the guild it was
    invoked in (if any), the invoking user and the two permission bits. *)
Record Interaction : Type := mk_interaction
  { i_guild : option Z;
    i_user_id : Z;
    i_display_name : string;
    i_manage_guild : bool;
    i_administrator : bool }.

(** What a handler reads of a [discord.Member] argument. *)
Record Member : Type := mk_member
  { m_id : Z;
    m_display_name : string }.

Definition is_guild_manager (interaction : Interaction) : bool :=
  match i_guild interaction with
  | None => false
  | Some _ => i_manage_guild interaction || i_administrator interaction
  end.

(** The messages the handlers send, one constructor per kind of message,
    named after the error taxonomy where there is one
    ([CreateError (MsgSymbolExists s)] is the duplicate-symbol error). *)
Inductive reply : Type :=
| PermissionError
| GuildOnlyError
| InvalidSymbol
| InvalidSupply
| InvalidAmount
| SelfPayError
| CurrencyNotFound (symbol : string)
| CreateDone (symbol name : string) (decimals : Z) (supply : Dec.Decimal)
| CreateError (message : create_message)
| InsufficientBalance (needed balance : Dec.Decimal)
| PayDone (amount : Dec.Decimal) (symbol : string)
| PayError
| TreasuryInsufficient (needed balance : Dec.Decimal)
| GiveDone (amount : Dec.Decimal) (symbol : string)
| GiveError
| AssetInUse (symbol : string) (total : Dec.Decimal)
| DeleteDone (symbol name : string)
| DeleteError (e : exn)
| ConfirmRequired
| FixDone (fixed : list (string * Dec.Decimal))
| FixNothing
| FixError (e : exn).

(** How a handler ends: it sent a message, or an exception left it. *)
Inductive outcome : Type :=
| Replied (r : reply)
| Unhandled (e : exn).

(** The world a handler runs in, besides the database: the failures of the
    storage and the readings of the clock it will meet. *)
Record Env : Type := mk_env
  { env_faults : list bool;
    env_clock : list timestamp }.

(** No failure of the storage; the clock reads 0. *)
Definition calm : Env := mk_env [] [].

(** [async with aiosqlite.connect(DB_PATH) as db: body]: the body runs on
    a fresh connection, and what it did not commit is lost when the
    connection closes.  ([ensure_db], called first by every handler,
    creates the missing tables and changes no row.) *)
Definition with_connection (env : Env) (db : Tables) (body : M reply)
    : Tables * outcome :=
  let (r, c) := body (connect db (env_faults env) (env_clock env)) in
  (committed c,
   match r with
   | Ok x => Replied x
   | Raise e => Unhandled e
   end).

(** [amount_decimal.quantize(Decimal('0.1') ** decimals, rounding=ROUND_DOWN)]. *)
Definition quantize (amount_decimal : Dec.Decimal) (decimals : Z) : M Dec.Decimal :=
  match Dec.quantize_down amount_decimal (Dec.quantum_exponent decimals) with
  | Some q => ret q
  | None => raise InvalidOperation
  end.

(** The optional [f" ({memo})"] of a description. *)
Definition memo_suffix (memo : option string) : option string :=
  if truthy memo then memo else None.

Definition create_currency_command (env : Env) (db : Tables)
    (interaction : Interaction) (symbol name : string) (decimals : Z)
    (initial_supply : Z) : Tables * outcome :=
  if negb (is_guild_manager interaction) then (db, Replied PermissionError)
  else
    match i_guild interaction with
    | None => (db, Replied GuildOnlyError)
    | Some guild_id =>
        if negb (is_valid_currency_symbol symbol) then (db, Replied InvalidSymbol)
        else
          let initial_supply_decimal := Dec.of_int initial_supply in
          if Dec.ltb initial_supply_decimal Dec.zero then (db, Replied InvalidSupply)
          else
            with_connection env db
              (r <- create_asset guild_id symbol name decimals
                      initial_supply_decimal ;;
               let '(success, message, asset_id) := r in
               if success : bool
               then
                 render (PyDecimal initial_supply_decimal) decimals ;;;
                 ret (CreateDone symbol name decimals initial_supply_decimal)
               else ret (CreateError message))
    end.

(** [amount] is the Decimal [Decimal(str(amount))] of the command's float
    argument (a finite number). *)
Definition pay_currency_command (env : Env) (db : Tables)
    (interaction : Interaction) (to_user : Member) (symbol : string)
    (amount : Dec.Decimal) (memo : option string) : Tables * outcome :=
  match i_guild interaction with
  | None => (db, Replied GuildOnlyError)
  | Some guild_id =>
      if m_id to_user =? i_user_id interaction then (db, Replied SelfPayError)
      else
        let amount_decimal := amount in
        if Dec.leb amount_decimal Dec.zero then (db, Replied InvalidAmount)
        else
          with_connection env db
            (asset <- get_asset_by_symbol guild_id symbol ;;
             match asset with
             | None => ret (CurrencyNotFound symbol)
             | Some (asset_id, symbol, asset_name, decimals) =>
                 amount_decimal <- quantize amount_decimal decimals ;;
                 from_account <-
                   ensure_user_account (i_user_id interaction) guild_id ;;
                 to_account <- ensure_user_account (m_id to_user) guild_id ;;
                 balance <- balance_of from_account asset_id ;;
                 if Dec.ltb balance amount_decimal
                 then
                   render (PyDecimal amount_decimal) decimals ;;;
                   render (PyDecimal balance) decimals ;;;
                   ret (InsufficientBalance amount_decimal balance)
                 else
                   let desc :=
                     DescPay (i_display_name interaction) (m_display_name to_user)
                       (memo_suffix memo) in
                   success <-
                     transfer_currency guild_id from_account to_account asset_id
                       amount_decimal desc ;;
                   if success : bool
                   then
                     commit ;;;
                     render (PyDecimal amount_decimal) decimals ;;;
                     ret (PayDone amount_decimal symbol)
                   else ret PayError
             end)
  end.

Definition give_currency_command (env : Env) (db : Tables)
    (interaction : Interaction) (user : Member) (symbol : string)
    (amount : Dec.Decimal) (memo : option string) : Tables * outcome :=
  if negb (is_guild_manager interaction) then (db, Replied PermissionError)
  else
    match i_guild interaction with
    | None => (db, Replied GuildOnlyError)
    | Some guild_id =>
        let amount_decimal := amount in
        if Dec.leb amount_decimal Dec.zero then (db, Replied InvalidAmount)
        else
          with_connection env db
            (asset <- get_asset_by_symbol guild_id symbol ;;
             match asset with
             | None => ret (CurrencyNotFound symbol)
             | Some (asset_id, symbol, asset_name, decimals) =>
                 amount_decimal <- quantize amount_decimal decimals ;;
                 treasury_account <- ensure_treasury_account guild_id ;;
                 user_account <- ensure_user_account (m_id user) guild_id ;;
                 treasury_balance <- balance_of treasury_account asset_id ;;
                 if Dec.ltb treasury_balance amount_decimal
                 then
                   render (PyDecimal amount_decimal) decimals ;;;
                   render (PyDecimal treasury_balance) decimals ;;;
                   ret (TreasuryInsufficient amount_decimal treasury_balance)
                 else
                   let desc := DescGive (m_display_name user) (memo_suffix memo) in
                   success <-
                     transfer_currency guild_id treasury_account user_account
                       asset_id amount_decimal desc ;;
                   if success : bool
                   then
                     commit ;;;
                     render (PyDecimal amount_decimal) decimals ;;;
                     ret (GiveDone amount_decimal symbol)
                   else ret GiveError
             end)
  end.

(** [balances[0][0] if balances and balances[0][0] else Decimal('0')]: the
    number of the row when it is not zero. *)
Definition total_of (balances : list (option number)) : amount_value :=
  match hd None balances with
  | Some n =>
      if Dec.is_zero (decimal_of_number n) then PyDecimal Dec.zero
      else PyNumber (decimal_of_number n)
  | None => PyDecimal Dec.zero
  end.

Definition delete_currency_command (env : Env) (db : Tables)
    (interaction : Interaction) (symbol : string) : Tables * outcome :=
  if negb (is_guild_manager interaction) then (db, Replied PermissionError)
  else
    match i_guild interaction with
    | None => (db, Replied GuildOnlyError)
    | Some guild_id =>
        with_connection env db
          (asset <- get_asset_by_symbol guild_id symbol ;;
           match asset with
           | None => ret (CurrencyNotFound symbol)
           | Some (asset_id, symbol, asset_name, decimals) =>
               balances <- fetch_all_sum (select_total_balance asset_id) ;;
               let total_balance := total_of balances in
               if negb (Dec.is_zero (amount_of total_balance))
               then
                 render total_balance decimals ;;;
                 ret (AssetInUse symbol (amount_of total_balance))
               else
                 try_except
                   (execute (delete_entries_of_asset asset_id) ;;;
                    execute (delete_asset asset_id) ;;;
                    commit ;;;
                    ret (DeleteDone symbol asset_name))
                   (fun e => rollback ;;; ret (DeleteError e))
           end)
    end.

(** The body of the [for] loop of [fix_database], for one asset. *)
Definition fix_asset (guild_id treasury_account : Z) (asset : asset_info)
    (fixed_currencies : list (string * Dec.Decimal))
    : M (list (string * Dec.Decimal)) :=
  let '(asset_id, curr_symbol, asset_name, decimals) := asset in
  treasury_balance <- balance_of treasury_account asset_id ;;
  users_total <- fetch_one_sum (select_users_total asset_id guild_id) ;;
  let users_balance := or_zero users_total in
  let target_treasury_balance := Dec.plus users_balance (Dec.of_int 1000000) in
  let adjustment := Dec.minus target_treasury_balance treasury_balance in
  if negb (Dec.is_zero adjustment) then
    now <- datetime_now ;;
    transaction_id <-
      execute (insert_transaction guild_id (DescDbFix curr_symbol) now) ;;
    execute (insert_ledger_entry transaction_id treasury_account asset_id
               adjustment) ;;;
    render (PyDecimal adjustment) decimals ;;;
    ret (fixed_currencies ++ [(curr_symbol, adjustment)])
  else ret fixed_currencies.

Fixpoint fix_assets (guild_id treasury_account : Z)
    (assets_to_fix : list asset_info)
    (fixed_currencies : list (string * Dec.Decimal))
    : M (list (string * Dec.Decimal)) :=
  match assets_to_fix with
  | [] => ret fixed_currencies
  | asset :: rest =>
      fixed_currencies <-
        fix_asset guild_id treasury_account asset fixed_currencies ;;
      fix_assets guild_id treasury_account rest fixed_currencies
  end.

(** The part of [fix_database] after [assets_to_fix] is known. *)
Definition fix_and_commit (guild_id treasury_account : Z)
    (assets_to_fix : list asset_info) : M reply :=
  fixed_currencies <- fix_assets guild_id treasury_account assets_to_fix [] ;;
  commit ;;;
  match fixed_currencies with
  | [] => ret FixNothing
  | _ => ret (FixDone fixed_currencies)
  end.

Definition fix_database (env : Env) (db : Tables) (inter : Interaction)
    (confirm : string) (symbol : option string) : Tables * outcome :=
  if negb (is_guild_manager inter) then (db, Replied PermissionError)
  else
    match i_guild inter with
    | None => (db, Replied GuildOnlyError)
    | Some guild_id =>
        if negb (confirm =? "YES")%string then (db, Replied ConfirmRequired)
        else
          with_connection env db
            (try_except
               (treasury_account <- ensure_treasury_account guild_id ;;
                if truthy symbol then
                  let symbol := match symbol with Some s => s | None => EmptyString end in
                  asset <- get_asset_by_symbol guild_id symbol ;;
                  match asset with
                  | None => ret (CurrencyNotFound symbol)
                  | Some asset =>
                      fix_and_commit guild_id treasury_account [asset]
                  end
                else
                  assets_to_fix <- get_guild_assets guild_id ;;
                  fix_and_commit guild_id treasury_account assets_to_fix)
               (fun e => ret (FixError e)))
    end.

(* ====================================================================== *)
(** * The handlers that read *)

(** ** Text *)

(** [c.lower()] for a code point below 256: the ASCII capitals and the
    capitals of the Latin-1 block (U+00C0..U+00DE without the sign U+00D7)
    move up by 32. *)
Definition char_lower (c : ascii) : ascii :=
  let n := N_of_ascii c in
  if (((65 <=? n) && (n <=? 90))
      || ((192 <=? n) && (n <=? 222) && negb (n =? 215)))%N
  then ascii_of_N (n + 32) else c.

(** [s.lower()]. *)
Fixpoint lower (s : string) : string :=
  match s with
  | EmptyString => EmptyString
  | String c s' => String (char_lower c) (lower s')
  end.

(** [sub in s] for two [str]: [sub] starts at some position of [s]. *)
Fixpoint contains (sub s : string) : bool :=
  String.prefix sub s
  || match s with
     | EmptyString => false
     | String _ s' => contains sub s'
     end.

(** ** The balance queries *)

(** A row [(symbol, name, balance, decimals)] of the two balance queries;
    [balance] is the number [SUM] returns, kept as the Decimal of the same
    value. *)
Definition balance_row : Type := (string * string * Dec.Decimal * Z)%type.

(** The groups of the two balance queries for the asset rows [l], one after
    the other: the row of every group that has an entry (and passes
    [HAVING]), or the error of a sum. *)
Fixpoint balance_groups (having : bool) (account_id : Z) (d : Tables)
    (l : list asset_row) : result (list balance_row) :=
  match l with
  | [] => Ok []
  | a :: l' =>
      match select_balance account_id (a_id a) d with
      | Raise e => Raise e
      | Ok sums =>
          match balance_groups having account_id d l' with
          | Raise e => Raise e
          | Ok rest =>
              match hd None sums with
              | None => Ok rest
              | Some total =>
                  if having && negb (Dec.ltb Dec.zero (decimal_of_number total))
                  then Ok rest
                  else Ok ((a_symbol a, a_name a, decimal_of_number total,
                            a_decimals a) :: rest)
              end
          end
      end
  end.

(** [SELECT a.symbol, a.name, SUM(CAST(le.amount AS DECIMAL)) as balance,
            a.decimals
     FROM ledger_entries le JOIN assets a ON le.asset_id = a.id
     WHERE le.account_id = ? AND a.guild_id = ?
     GROUP BY a.id, a.symbol, a.name, a.decimals
     [HAVING SUM(CAST(le.amount AS DECIMAL)) > 0]
     ORDER BY a.symbol].
    [id] is the primary key of [assets]: there is one group for each asset
    row of the guild that joins with an entry of the account, and its rows
    are the entries of the account in that asset. *)
Definition select_balances (having : bool) (account_id guild_id : Z)
    (d : Tables) : result (list balance_row) :=
  balance_groups having account_id d
    (order_by_symbol
       (filter (fun a => a_guild_id a =? guild_id) (rows (assets d)))).

Definition get_user_balances (user_account_id guild_id : Z)
    : M (list balance_row) :=
  fetch_all_sum (select_balances true user_account_id guild_id).

(** [if not treasury_account] is taken by [None] and by the id [0]. *)
Definition get_treasury_balances (guild_id : Z) : M (list balance_row) :=
  treasury_account <- account_id_by_name "treasury" guild_id ;;
  match treasury_account with
  | None => ret []
  | Some treasury_account =>
      if treasury_account =? 0 then ret []
      else fetch_all_sum (select_balances false treasury_account guild_id)
  end.

(** ** The handlers *)

(** A line [(formatted_balance, symbol, name)] of a list of balances. *)
Definition balance_line : Type := (string * string * string)%type.

(** The messages of the handlers that read, one constructor per kind of
    message. *)
Inductive report : Type :=
| Refusal (r : reply)
| BalanceReport (formatted_balance symbol : string)
| NoBalances
| BalancesReport (lines : list balance_line)
| TreasuryReport (formatted_balance symbol : string)
| NoTreasuryBalances
| TreasuryBalancesReport (lines : list balance_line)
| NoCurrencies
| CurrencyList (count : Z) (lines : list (string * string * Z))
| ListError (e : exn).

(** How a handler that reads ends: it sent a message, or an exception left
    it. *)
Inductive reading : Type :=
| Shown (r : report)
| Broke (e : exn).

(** [async with aiosqlite.connect(DB_PATH) as db: body], for a body that
    ends with its message or with an exception of the rendering. *)
Definition reading_connection (env : Env) (db : Tables) (body : M reading)
    : Tables * reading :=
  let (r, c) := body (connect db (env_faults env) (env_clock env)) in
  (committed c,
   match r with
   | Ok x => x
   | Raise e => Broke e
   end).

(** The loop [for symbol, name, balance, decimals in balances] of /bal and
    /treasury. *)
Fixpoint format_balances (balances : list balance_row)
    : list balance_line + exn :=
  match balances with
  | [] => inl []
  | (symbol, name, balance, decimals) :: rest =>
      match format_currency_amount (PyNumber balance) decimals with
      | FormatError e => inr e
      | Text formatted_balance =>
          match format_balances rest with
          | inr e => inr e
          | inl lines => inl ((formatted_balance, symbol, name) :: lines)
          end
      end
  end.

Definition balance_command (env : Env) (db : Tables)
    (interaction : Interaction) (symbol : option string) : Tables * reading :=
  match i_guild interaction with
  | None => (db, Shown (Refusal GuildOnlyError))
  | Some guild_id =>
      reading_connection env db
        (if truthy symbol then
           let symbol := match symbol with Some s => s | None => EmptyString end in
           asset <- get_asset_by_symbol guild_id symbol ;;
           match asset with
           | None => ret (Shown (Refusal (CurrencyNotFound symbol)))
           | Some (asset_id, symbol, asset_name, decimals) =>
               user_account <-
                 ensure_user_account (i_user_id interaction) guild_id ;;
               balance <- balance_of user_account asset_id ;;
               match format_currency_amount (PyDecimal balance) decimals with
               | Text formatted_balance =>
                   ret (Shown (BalanceReport formatted_balance symbol))
               | FormatError e => ret (Broke e)
               end
           end
         else
           user_account <-
             ensure_user_account (i_user_id interaction) guild_id ;;
           balances <- get_user_balances user_account guild_id ;;
           match balances with
           | [] => ret (Shown NoBalances)
           | _ =>
               match format_balances balances with
               | inl lines => ret (Shown (BalancesReport lines))
               | inr e => ret (Broke e)
               end
           end)
  end.

Definition treasury_command (env : Env) (db : Tables)
    (interaction : Interaction) (symbol : option string) : Tables * reading :=
  if negb (is_guild_manager interaction)
  then (db, Shown (Refusal PermissionError))
  else
    match i_guild interaction with
    | None => (db, Shown (Refusal GuildOnlyError))
    | Some guild_id =>
        reading_connection env db
          (if truthy symbol then
             let symbol := match symbol with Some s => s | None => EmptyString end in
             asset <- get_asset_by_symbol guild_id symbol ;;
             match asset with
             | None => ret (Shown (Refusal (CurrencyNotFound symbol)))
             | Some (asset_id, symbol, asset_name, decimals) =>
                 treasury_account <- ensure_treasury_account guild_id ;;
                 balance <- balance_of treasury_account asset_id ;;
                 match format_currency_amount (PyDecimal balance) decimals with
                 | Text formatted_balance =>
                     ret (Shown (TreasuryReport formatted_balance symbol))
                 | FormatError e => ret (Broke e)
                 end
             end
           else
             balances <- get_treasury_balances guild_id ;;
             match balances with
             | [] => ret (Shown NoTreasuryBalances)
             | _ =>
                 match format_balances balances with
                 | inl lines => ret (Shown (TreasuryBalancesReport lines))
                 | inr e => ret (Broke e)
                 end
             end)
    end.

(** /list; its [try] catches what the database raises. *)
Definition list_currencies (env : Env) (db : Tables) (inter : Interaction)
    : Tables * reading :=
  match i_guild inter with
  | None => (db, Shown (Refusal GuildOnlyError))
  | Some guild_id =>
      reading_connection env db
        (try_except
           (assets <- get_guild_assets guild_id ;;
            match assets with
            | [] => ret (Shown NoCurrencies)
            | _ =>
                ret (Shown
                       (CurrencyList (Z.of_nat (List.length assets))
                          (map (fun '(asset_id, symbol, name, decimals) =>
                                  (symbol, name, decimals))
                             assets)))
            end)
           (fun e => ret (Shown (ListError e))))
  end.

(** ** Autocompletion *)

(** The [name] of an [app_commands.Choice]:
    [symbol] with the formatted balance of the member, [symbol] with
    [name] and the remark that the member holds none, and
    [f"{symbol} - {name}"]. *)
Inductive choice_name : Type :=
| Owned (symbol balance_str : string)
| NotOwned (symbol name : string)
| Named (symbol name : string).

Record Choice : Type := mk_choice
  { choice_name_of : choice_name;
    choice_value : string }.

(** [current.lower() in symbol.lower() or current.lower() in name.lower()]. *)
Definition matches (current symbol name : string) : bool :=
  contains (lower current) (lower symbol) || contains (lower current) (lower name).

(** The loop of [pay_symbol_autocomplete]; an exception of
    [format_currency_amount] ends it. *)
Fixpoint pay_choices (current : string) (user_account : Z)
    (assets : list asset_info) (choices : list Choice)
    : M (list Choice + exn) :=
  match assets with
  | [] => ret (inl choices)
  | (asset_id, symbol, name, decimals) :: rest =>
      if matches current symbol name then
        balance <- balance_of user_account asset_id ;;
        match format_currency_amount (PyDecimal balance) decimals with
        | FormatError e => ret (inr e)
        | Text balance_str =>
            if Dec.ltb Dec.zero balance then
              pay_choices current user_account rest
                (choices ++ [mk_choice (Owned symbol balance_str) symbol])
            else
              pay_choices current user_account rest
                (choices ++ [mk_choice (NotOwned symbol name) symbol])
        end
      else pay_choices current user_account rest choices
  end.

(** [async with aiosqlite.connect(DB_PATH) as db: body] under
    [try: ... except Exception: return []]. *)
Definition choices_connection (env : Env) (db : Tables)
    (body : M (list Choice + exn)) : Tables * list Choice :=
  let (r, c) := body (connect db (env_faults env) (env_clock env)) in
  (committed c,
   match r with
   | Ok (inl choices) => choices
   | Ok (inr _) => []
   | Raise _ => []
   end).

Definition pay_symbol_autocomplete (env : Env) (db : Tables)
    (interaction : Interaction) (current : string) : Tables * list Choice :=
  match i_guild interaction with
  | None => (db, [])
  | Some guild_id =>
      choices_connection env db
        (assets <- get_guild_assets guild_id ;;
         user_account <- ensure_user_account (i_user_id interaction) guild_id ;;
         choices <- pay_choices current user_account assets [] ;;
         match choices with
         | inl choices => ret (inl (firstn 25 choices))
         | inr e => ret (inr e)
         end)
  end.

(** The loop of [general_symbol_autocomplete]. *)
Fixpoint general_choices (current : string) (assets : list asset_info)
    (choices : list Choice) : list Choice :=
  match assets with
  | [] => choices
  | (asset_id, symbol, name, decimals) :: rest =>
      if matches current symbol name then
        general_choices current rest
          (choices ++ [mk_choice (Named symbol name) symbol])
      else general_choices current rest choices
  end.

Definition general_symbol_autocomplete (env : Env) (db : Tables)
    (interaction : Interaction) (current : string) : Tables * list Choice :=
  match i_guild interaction with
  | None => (db, [])
  | Some guild_id =>
      choices_connection env db
        (assets <- get_guild_assets guild_id ;;
         ret (inl (firstn 25 (general_choices current assets []))))
  end.

(* ====================================================================== *)
(** * Histories of commands *)

(** The commands that write to the ledger. *)
Inductive command : Type :=
| Create (interaction : Interaction) (symbol name : string) (decimals : Z)
    (initial_supply : Z)
| Pay (interaction : Interaction) (to_user : Member) (symbol : string)
    (amount : Dec.Decimal) (memo : option string)
| Give (interaction : Interaction) (user : Member) (symbol : string)
    (amount : Dec.Decimal) (memo : option string)
| Delete (interaction : Interaction) (symbol : string)
| FixDb (interaction : Interaction) (confirm : string) (symbol : option string).

Definition run_command (env : Env) (cmd : command) (db : Tables)
    : Tables * outcome :=
  match cmd with
  | Create i symbol name decimals initial_supply =>
      create_currency_command env db i symbol name decimals initial_supply
  | Pay i to_user symbol amount memo =>
      pay_currency_command env db i to_user symbol amount memo
  | Give i user symbol amount memo =>
      give_currency_command env db i user symbol amount memo
  | Delete i symbol => delete_currency_command env db i symbol
  | FixDb i confirm symbol => fix_database env db i confirm symbol
  end.

(** The database after a history of commands, each in its own world. *)
Fixpoint run_history (h : list (Env * command)) (db : Tables) : Tables :=
  match h with
  | [] => db
  | (env, cmd) :: h' => run_history h' (fst (run_command env cmd db))
  end.

(** The databases the commands can produce from the empty one. *)
Inductive reachable : Tables -> Prop :=
| reachable_empty : reachable empty_db
| reachable_step (db : Tables) (env : Env) (cmd : command) :
    reachable db -> reachable (fst (run_command env cmd db)).

(* ====================================================================== *)
(** * Decimal arithmetic against the rationals *)

Module DecFacts.
Import Dec.

Lemma ten_nonzero : ~ (10 == 0)%Q.
Proof. discriminate. Qed.

Lemma ten_pow_pos (e : Z) : (0 < 10 ^ e)%Q.
Proof. apply Qpower_0_lt. reflexivity. Qed.

Lemma ten_pow_split (n m : Z) : (10 ^ (n + m) == 10 ^ n * 10 ^ m)%Q.
Proof. apply Qpower_plus, ten_nonzero. Qed.

Lemma inject_ten_pow (k : Z) : 0 <= k -> (inject_Z (10 ^ k) == 10 ^ k)%Q.
Proof. intros H. apply (Zpower_Qpower 10 k H). Qed.

Lemma rescale_value (a : Decimal) (e : Z) :
  e <= expo a -> (inject_Z (rescale a e) * 10 ^ e == value a)%Q.
Proof.
  intros H. unfold rescale, value.
  rewrite inject_Z_mult, inject_ten_pow by lia.
  replace (expo a) with ((expo a - e) + e) at 2 by lia.
  rewrite ten_pow_split. ring.
Qed.

Lemma value_add (a b : Decimal) : (value (add a b) == value a + value b)%Q.
Proof.
  unfold add.
  set (e := Z.min (expo a) (expo b)).
  rewrite <- (rescale_value a e), <- (rescale_value b e) by (subst e; lia).
  unfold value; simpl. rewrite inject_Z_plus. ring.
Qed.

Lemma value_neg (a : Decimal) : (value (neg a) == - value a)%Q.
Proof. unfold value, neg; simpl. rewrite inject_Z_opp. ring. Qed.

Lemma value_sub (a b : Decimal) : (value (sub a b) == value a - value b)%Q.
Proof. unfold sub. rewrite value_add, value_neg. ring. Qed.

Lemma value_of_int (n : Z) : (value (of_int n) == inject_Z n)%Q.
Proof. unfold value, of_int; simpl. ring. Qed.

Lemma value_zero : (value zero == 0)%Q.
Proof. reflexivity. Qed.

Lemma is_zero_value (a : Decimal) : is_zero a = true <-> (value a == 0)%Q.
Proof.
  unfold is_zero, value. rewrite Z.eqb_eq. split.
  - intros ->. ring.
  - intros H. apply Qmult_integral in H. destruct H as [H | H].
    + unfold Qeq in H; simpl in H. lia.
    + exfalso. pose proof (ten_pow_pos (expo a)) as P. rewrite H in P.
      apply (Qlt_irrefl 0), P.
Qed.

Lemma compare_value (a b : Decimal) : compare a b = (value a ?= value b)%Q.
Proof.
  unfold compare. set (e := Z.min (expo a) (expo b)).
  assert (Ha : e <= expo a) by (subst e; lia).
  assert (Hb : e <= expo b) by (subst e; lia).
  pose proof (rescale_value a e Ha) as Va.
  pose proof (rescale_value b e Hb) as Vb.
  rewrite <- Va, <- Vb.
  pose proof (ten_pow_pos e) as P.
  destruct (Z.compare_spec (rescale a e) (rescale b e)) as [E | L | G]; symmetry.
  - rewrite E. apply Qeq_alt. reflexivity.
  - apply Qlt_alt. apply Qmult_lt_r; [exact P|]. rewrite <- Zlt_Qlt. exact L.
  - apply Qgt_alt. apply Qmult_lt_r; [exact P|]. rewrite <- Zlt_Qlt. exact G.
Qed.

Lemma ltb_value (a b : Decimal) : ltb a b = true <-> (value a < value b)%Q.
Proof.
  unfold ltb. rewrite compare_value, Qlt_alt.
  destruct (value a ?= value b)%Q; split; congruence.
Qed.

Lemma leb_value (a b : Decimal) : leb a b = true <-> (value a <= value b)%Q.
Proof.
  unfold leb. rewrite compare_value, Qle_alt.
  destruct (value a ?= value b)%Q; split; congruence.
Qed.

Lemma value_sign (a : Decimal) : (0 <= value a)%Q <-> 0 <= coef a.
Proof.
  unfold value. pose proof (ten_pow_pos (expo a)) as P. split.
  - intros H. destruct (Z.le_gt_cases 0 (coef a)) as [L | G]; [exact L | exfalso].
    rewrite Zlt_Qlt in G. apply (Qmult_lt_r _ _ _ P) in G.
    rewrite Qmult_0_l in G. exact (Qlt_not_le _ _ G H).
  - intros H. apply Qmult_le_0_compat; [|apply Qlt_le_weak, P].
    rewrite (Zle_Qle 0 (coef a)) in H. exact H.
Qed.

Lemma cut_value (c ea e : Z) :
  ea < e ->
  (inject_Z c * 10 ^ ea - inject_Z (Z.quot c (10 ^ (e - ea))) * 10 ^ e
   == inject_Z (Z.rem c (10 ^ (e - ea))) * 10 ^ ea)%Q.
Proof.
  intros H. set (p := 10 ^ (e - ea)).
  assert (Hc : (inject_Z c == inject_Z p * inject_Z (Z.quot c p)
                              + inject_Z (Z.rem c p))%Q)
    by (rewrite <- inject_Z_mult, <- inject_Z_plus, <- Z.quot_rem'; reflexivity).
  assert (He : (10 ^ e == inject_Z p * 10 ^ ea)%Q).
  { subst p. rewrite inject_ten_pow by lia. rewrite <- ten_pow_split.
    replace (e - ea + ea) with e by lia. reflexivity. }
  rewrite He, Hc. ring.
Qed.

Lemma quantize_down_spec (a q : Decimal) (e : Z) :
  quantize_down a e = Some q ->
  expo q = e /\
  ((0 <= value a)%Q ->
   (0 <= value q)%Q /\ (value q <= value a)%Q /\ (value a - value q < 10 ^ e)%Q).
Proof.
  unfold quantize_down.
  pose proof (ten_pow_pos e) as Pe.
  destruct (coef a =? 0) eqn:Ez.
  { intros [= <-]. split; [reflexivity|]. intros _.
    apply Z.eqb_eq in Ez.
    assert (Va : (value a == 0)%Q) by (unfold value; rewrite Ez; ring).
    assert (Vq : (value (mk 0 e) == 0)%Q) by (unfold value; simpl; ring).
    rewrite Va, Vq. repeat split; try apply Qle_refl.
    setoid_replace (0 - 0)%Q with 0%Q by ring. exact Pe. }
  destruct (10 ^ (prec - (expo a - e)) <=? Z.abs (coef a)); [discriminate|].
  destruct (e <=? expo a) eqn:Ee.
  { intros [= <-]. split; [reflexivity|]. intros Ha.
    apply Z.leb_le in Ee.
    assert (Vq : (value (mk (coef a * 10 ^ (expo a - e)) e) == value a)%Q)
      by (rewrite <- (rescale_value a e Ee); reflexivity).
    rewrite Vq. repeat split; [exact Ha | apply Qle_refl |].
    setoid_replace (value a - value a)%Q with 0%Q by ring. exact Pe. }
  intros [= <-]. split; [reflexivity|]. intros Ha.
  apply Z.leb_gt in Ee. apply value_sign in Ha.
  set (k := e - expo a). set (p := 10 ^ k).
  assert (Hp : 0 < p) by (subst p; apply Z.pow_pos_nonneg; lia).
  pose proof (Z.quot_rem' (coef a) p) as D.
  pose proof (Z.rem_bound_pos (coef a) p Ha Hp) as B.
  assert (Hq : 0 <= Z.quot (coef a) p) by (apply Z.quot_pos; lia).
  assert (Vd : (value a - value (mk (Z.quot (coef a) p) e)
                == inject_Z (Z.rem (coef a) p) * 10 ^ expo a)%Q).
  { unfold value; simpl. subst p k. apply cut_value. exact Ee. }
  pose proof (ten_pow_pos (expo a)) as Pa.
  assert (R0 : (0 <= inject_Z (Z.rem (coef a) p) * 10 ^ expo a)%Q).
  { apply Qmult_le_0_compat; [|apply Qlt_le_weak, Pa].
    rewrite (Zle_Qle 0 _) in B. apply B. }
  repeat split.
  - apply value_sign. exact Hq.
  - assert (Va : (value a == value (mk (Z.quot (coef a) p) e)
                              + inject_Z (Z.rem (coef a) p) * 10 ^ expo a)%Q)
      by (rewrite <- Vd; ring).
    rewrite Va.
    apply Qle_trans with (value (mk (Z.quot (coef a) p) e) + 0)%Q;
      [rewrite Qplus_0_r; apply Qle_refl | apply Qplus_le_r; exact R0].
  - rewrite Vd.
    replace e with (k + expo a) by (subst k; lia).
    rewrite ten_pow_split. apply Qmult_lt_r; [exact Pa|].
    rewrite <- (inject_ten_pow k) by (subst k; lia).
    rewrite <- Zlt_Qlt. apply B.
Qed.
End DecFacts.

(* ====================================================================== *)
(** * A guild, its manager and two members *)

Definition admin : Interaction := mk_interaction (Some 7) 1 "admin" true false.
Definition alice : Member := mk_member 2 "alice".
Definition bob : Member := mk_member 3 "bob".

(** The interaction of the member alice, who is no manager. *)
Definition alice_interaction : Interaction :=
  mk_interaction (Some 7) 2 "alice" false false.

(** The ledger after a currency was created with a supply of 1000 and 100
    of it were issued to alice. *)
Definition gold_ledger : Tables :=
  run_history
    [(calm, Create admin "GOLD" "Gold" 2 1000);
     (calm, Give admin alice "GOLD" (Dec.mk 100 0) None)]
    empty_db.

(* ====================================================================== *)
(** * Sums of amounts *)

Section Sums.
Import Dec DecFacts.

Lemma total_value_app (l1 l2 : list Decimal) :
  (total_value (l1 ++ l2) == total_value l1 + total_value l2)%Q.
Proof.
  induction l1 as [|x l1 IH]; simpl.
  - ring.
  - rewrite IH. ring.
Qed.

Lemma value_fold_add (l : list Decimal) (a : Decimal) :
  (value (fold_left add l a) == value a + total_value l)%Q.
Proof.
  revert a. induction l as [|x l IH]; intros a; simpl.
  - ring.
  - rewrite IH, value_add. ring.
Qed.

(** The sum of a list of Decimals, taken exactly. *)
Definition exact_sum (l : list Decimal) : Decimal := fold_left add l zero.

Lemma value_exact_sum (l : list Decimal) :
  (value (exact_sum l) == total_value l)%Q.
Proof. unfold exact_sum. rewrite value_fold_add, value_zero. ring. Qed.

End Sums.

(* ====================================================================== *)
(** * Lists of rows *)

Section Rows.
Context {A B : Type}.

Lemma filter_none_existsb (p : A -> bool) (f : A -> B) (l : list A) :
  hd_error (map f (filter p l)) = None -> existsb p l = false.
Proof.
  induction l as [|x l IH]; simpl; [reflexivity|].
  destruct (p x); simpl; [discriminate | exact IH].
Qed.

Lemma filter_none_app (p : A -> bool) (f : A -> B) (l : list A) (x : A) :
  hd_error (map f (filter p l)) = None -> p x = true ->
  hd_error (map f (filter p (l ++ [x]))) = Some (f x).
Proof.
  intros H Hx. induction l as [|y l IH]; simpl in *.
  - rewrite Hx. reflexivity.
  - destruct (p y); simpl in *; [discriminate | auto].
Qed.

End Rows.

(* ====================================================================== *)
(** * Statements when the storage does not fail *)

Lemma set_working_same (c : Conn) : set_working (working c) c = c.
Proof. destruct c; reflexivity. Qed.

Lemma execute_calm {A : Type} (stmt : Tables -> result (A * Tables)) (c : Conn) :
  faults c = [] ->
  execute stmt c =
  match stmt (working c) with
  | Ok (a, w) => (Ok a, set_working w c)
  | Raise e => (Raise e, c)
  end.
Proof.
  intros H. unfold execute. rewrite H. simpl.
  replace (set_faults [] c) with c by (destruct c; simpl in *; subst; reflexivity).
  reflexivity.
Qed.

Lemma fetch_one_calm {A : Type} (query : Tables -> list A) (c : Conn) :
  faults c = [] -> fetch_one query c = (Ok (hd_error (query (working c))), c).
Proof.
  intros H. unfold fetch_one. rewrite execute_calm by exact H.
  rewrite set_working_same. reflexivity.
Qed.

Lemma fetch_all_calm {A : Type} (query : Tables -> list A) (c : Conn) :
  faults c = [] -> fetch_all query c = (Ok (query (working c)), c).
Proof.
  intros H. unfold fetch_all. rewrite execute_calm by exact H.
  rewrite set_working_same. reflexivity.
Qed.

Lemma fetch_one_sum_calm {A : Type} (query : Tables -> result (list A))
    (c : Conn) :
  faults c = [] ->
  fetch_one_sum query c
  = match query (working c) with
    | Ok l => (Ok (hd_error l), c)
    | Raise e => (Raise e, c)
    end.
Proof.
  intros H. unfold fetch_one_sum, evaluate. rewrite execute_calm by exact H.
  destruct (query (working c)); [rewrite set_working_same|]; reflexivity.
Qed.

Lemma fetch_all_sum_calm {A : Type} (query : Tables -> result (list A))
    (c : Conn) :
  faults c = [] ->
  fetch_all_sum query c
  = match query (working c) with
    | Ok l => (Ok l, c)
    | Raise e => (Raise e, c)
    end.
Proof.
  intros H. unfold fetch_all_sum, evaluate. rewrite execute_calm by exact H.
  destruct (query (working c)); [rewrite set_working_same|]; reflexivity.
Qed.

(** The find-or-create shape shared by [upsert_user] and the [ensure_*]
    functions: a first call returns an id and leaves the connection in a
    state in which the same call finds that id and changes nothing. *)
Lemma upsert_user_calm (u : Z) (c : Conn) :
  faults c = [] ->
  exists id c1,
    upsert_user u c = (Ok id, c1) /\ faults c1 = [] /\
    committed c1 = committed c /\
    accounts (working c1) = accounts (working c) /\
    hd_error (select_user_id u (working c1)) = Some id.
Proof.
  intros H. unfold upsert_user, bind. rewrite fetch_one_calm by exact H.
  destruct (hd_error (select_user_id u (working c))) as [id|] eqn:E.
  - exists id, c. auto.
  - rewrite execute_calm by exact H. unfold insert_user.
    rewrite (filter_none_existsb _ _ _ E). simpl.
    eexists _, _. split; [reflexivity|]. simpl. repeat split; try assumption.
    unfold select_user_id. simpl.
    apply (filter_none_app _ u_id _ (mk_user _ _) E).
    unfold user_key. simpl. apply Z.eqb_refl.
Qed.

Lemma upsert_user_found (u id : Z) (c : Conn) :
  faults c = [] -> hd_error (select_user_id u (working c)) = Some id ->
  upsert_user u c = (Ok id, c).
Proof.
  intros H E. unfold upsert_user, bind.
  rewrite fetch_one_calm by exact H. rewrite E. reflexivity.
Qed.

Lemma string_eqb_refl (s : string) : (s =? s)%string = true.
Proof. apply String.eqb_refl. Qed.

Lemma ensure_user_account_calm (u g : Z) (c : Conn) :
  faults c = [] ->
  exists id c1,
    ensure_user_account u g c = (Ok id, c1) /\ faults c1 = [] /\
    committed c1 = committed c /\
    (exists uid, hd_error (select_user_id u (working c1)) = Some uid) /\
    hd_error (select_account_id (user_account_name u) g (working c1)) = Some id.
Proof.
  intros H. unfold ensure_user_account, bind.
  destruct (upsert_user_calm u c H) as (uid & c0 & -> & H0 & Hc & Ha & Hu).
  rewrite fetch_one_calm by exact H0.
  destruct (hd_error (select_account_id (user_account_name u) g (working c0)))
    as [id|] eqn:E.
  - exists id, c0. repeat split; eauto.
  - rewrite execute_calm by exact H0. unfold insert_account.
    rewrite (filter_none_existsb _ _ _ E). simpl.
    eexists _, _. split; [reflexivity|]. simpl. repeat split; try assumption.
    + exists uid. exact Hu.
    + unfold select_account_id. simpl.
      apply (filter_none_app _ acc_id _ (mk_account _ _ _ _ _ _) E).
      unfold account_key. simpl.
      rewrite string_eqb_refl, Z.eqb_refl. reflexivity.
Qed.

Lemma ensure_user_account_found (u g id uid : Z) (c : Conn) :
  faults c = [] ->
  hd_error (select_user_id u (working c)) = Some uid ->
  hd_error (select_account_id (user_account_name u) g (working c)) = Some id ->
  ensure_user_account u g c = (Ok id, c).
Proof.
  intros H Eu Ea. unfold ensure_user_account, bind.
  rewrite (upsert_user_found u uid c H Eu).
  rewrite fetch_one_calm by exact H. rewrite Ea. reflexivity.
Qed.

(** C6.  Without a failure of the storage, [ensure_user_account] returns an
    account id, and a second call with the same user and guild returns the
    same id and leaves the connection (its tables included) exactly as the
    first call left it: the second call inserts no [users] row and no
    [accounts] row. *)
Theorem ensure_user_account_idempotent (discord_user_id guild_id : Z) (c : Conn) :
  faults c = [] ->
  exists id c1,
    ensure_user_account discord_user_id guild_id c = (Ok id, c1) /\
    ensure_user_account discord_user_id guild_id c1 = (Ok id, c1).
Proof.
  intros H.
  destruct (ensure_user_account_calm discord_user_id guild_id c H)
    as (id & c1 & E & H1 & _ & (uid & Hu) & Ha).
  exists id, c1. split; [exact E|].
  exact (ensure_user_account_found _ _ _ _ _ H1 Hu Ha).
Qed.

Lemma ensure_user_account_idempotent_witness :
  exists id c1,
    ensure_user_account 42 7 (connect empty_db [] []) = (Ok id, c1) /\
    ensure_user_account 42 7 c1 = (Ok id, c1).
Proof. apply ensure_user_account_idempotent. reflexivity. Defined.

Lemma set_accounts_same (d : Tables) : set_accounts (accounts d) d = d.
Proof. destruct d; reflexivity. Qed.

(** Find-or-create of an account row: only the [accounts] table of the
    connection may change, and the row is found afterwards. *)
Lemma ensure_treasury_account_calm (g : Z) (c : Conn) :
  faults c = [] ->
  exists id t,
    ensure_treasury_account g c = (Ok id, set_working (set_accounts t (working c)) c)
    /\ hd_error (map acc_id (filter (account_key "treasury" g) (rows t))) = Some id
    /\ (t = accounts (working c) \/
        t = mk_table (rows (accounts (working c))
                        ++ [mk_account id None g "treasury" TTreasury 1]) id).
Proof.
  intros H. unfold ensure_treasury_account, bind.
  rewrite fetch_one_calm by exact H.
  destruct (hd_error (select_account_id "treasury" g (working c))) as [id|] eqn:E.
  - exists id, (accounts (working c)).
    rewrite set_accounts_same, set_working_same. auto.
  - rewrite execute_calm by exact H. unfold insert_account.
    rewrite (filter_none_existsb _ _ _ E). simpl.
    eexists _, _. split; [reflexivity|]. split; [|right; reflexivity].
    simpl. apply (filter_none_app _ acc_id _ (mk_account _ _ _ _ _ _) E).
    unfold account_key. simpl. rewrite Z.eqb_refl. reflexivity.
Qed.

Lemma create_asset_exists (g : Z) (s name : string) (dec : Z)
    (supply : Dec.Decimal) (id0 : Z) (c : Conn) :
  faults c = [] ->
  hd_error (select_asset_id g s (working c)) = Some id0 ->
  create_asset g s name dec supply c = (Ok (false, MsgSymbolExists s, None), c).
Proof.
  intros H E. unfold create_asset, try_except, bind.
  rewrite fetch_one_calm by exact H. rewrite E. reflexivity.
Qed.

Lemma create_asset_fresh (g : Z) (s name : string) (dec : Z)
    (supply : Dec.Decimal) (c : Conn) :
  faults c = [] ->
  hd_error (select_asset_id g s (working c)) = None ->
  exists c1,
    let id := seq (assets (working c)) + 1 in
    create_asset g s name dec supply c = (Ok (true, MsgCreated s name, Some id), c1)
    /\ faults c1 = [] /\ committed c1 = working c1
    /\ rows (assets (working c1))
       = rows (assets (working c)) ++ [mk_asset id g s name dec].
Proof.
  intros H E. unfold create_asset, try_except, bind.
  rewrite fetch_one_calm by exact H. rewrite E.
  rewrite execute_calm by exact H. unfold insert_asset.
  rewrite (filter_none_existsb _ _ _ E). simpl.
  match goal with |- context [ensure_treasury_account g ?c0] =>
    destruct (ensure_treasury_account_calm g c0 H) as (tid & t & -> & _ & _) end.
  destruct (Dec.ltb Dec.zero supply).
  - unfold datetime_now. simpl. destruct (clock c); simpl.
    + rewrite execute_calm by exact H. simpl.
      rewrite execute_calm by exact H. simpl.
      eexists. unfold commit. simpl. repeat split. exact H.
    + rewrite execute_calm by exact H. simpl.
      rewrite execute_calm by exact H. simpl.
      eexists. unfold commit. simpl. repeat split. exact H.
  - eexists. unfold ret, commit. simpl. repeat split. exact H.
Qed.

Lemma select_asset_id_other_guild (g g' : Z) (s name : string) (dec id : Z)
    (l : list asset_row) :
  g' <> g ->
  hd_error (map a_id (filter (asset_key g' s) l)) = None ->
  hd_error (map a_id (filter (asset_key g' s) (l ++ [mk_asset id g s name dec])))
  = None.
Proof.
  intros Hg E. rewrite filter_app, map_app. simpl.
  unfold asset_key at 2. simpl.
  replace (g =? g') with false by (symmetry; apply Z.eqb_neq; congruence).
  simpl. rewrite app_nil_r. exact E.
Qed.

(** C5.  Without a failure of the storage: when the guild already has an
    asset with the symbol, [create_asset] answers "the symbol exists" and
    leaves the connection exactly as it was (nothing is inserted); when it
    has none, [create_asset] succeeds and commits the new row, after which
    - a second creation with the same guild and symbol fails in that way,
      inserting nothing, and
    - a creation of the same symbol in another guild that does not have it
      succeeds. *)
Theorem create_asset_symbol_unique (guild_id : Z) (symbol name : string)
    (decimals : Z) (initial_supply : Dec.Decimal) (c : Conn) :
  faults c = [] ->
  (forall id0,
      hd_error (select_asset_id guild_id symbol (working c)) = Some id0 ->
      create_asset guild_id symbol name decimals initial_supply c
      = (Ok (false, MsgSymbolExists symbol, None), c))
  /\
  (hd_error (select_asset_id guild_id symbol (working c)) = None ->
   exists id c1,
     create_asset guild_id symbol name decimals initial_supply c
     = (Ok (true, MsgCreated symbol name, Some id), c1)
     /\ committed c1 = working c1
     /\ rows (assets (working c1))
        = rows (assets (working c)) ++ [mk_asset id guild_id symbol name decimals]
     /\ (forall name' decimals' supply',
            create_asset guild_id symbol name' decimals' supply' c1
            = (Ok (false, MsgSymbolExists symbol, None), c1))
     /\ (forall guild_id' name' decimals' supply',
            guild_id' <> guild_id ->
            hd_error (select_asset_id guild_id' symbol (working c)) = None ->
            exists id' c2,
              create_asset guild_id' symbol name' decimals' supply' c1
              = (Ok (true, MsgCreated symbol name', Some id'), c2))).
Proof.
  intros H. split.
  - intros id0 E. exact (create_asset_exists _ _ _ _ _ _ _ H E).
  - intros E.
    destruct (create_asset_fresh guild_id symbol name decimals initial_supply c H E)
      as (c1 & Hrun & H1 & Hc & Hrows).
    eexists _, c1. split; [exact Hrun|]. split; [exact Hc|]. split; [exact Hrows|].
    split.
    + intros name' decimals' supply'.
      apply (create_asset_exists _ _ _ _ _ (seq (assets (working c)) + 1) _ H1).
      unfold select_asset_id. rewrite Hrows.
      apply (filter_none_app _ a_id _ (mk_asset _ _ _ _ _) E).
      unfold asset_key. simpl. rewrite Z.eqb_refl, string_eqb_refl. reflexivity.
    + intros g' name' decimals' supply' Hg E'.
      assert (E1 : hd_error (select_asset_id g' symbol (working c1)) = None).
      { unfold select_asset_id. rewrite Hrows.
        apply select_asset_id_other_guild; assumption. }
      destruct (create_asset_fresh g' symbol name' decimals' supply' c1 H1 E1)
        as (c2 & Hrun2 & _).
      eexists _, c2. exact Hrun2.
Qed.

Lemma create_asset_symbol_unique_witness :
  (forall id0,
      hd_error (select_asset_id 7 "GOLD" (working (connect empty_db [] []))) = Some id0 ->
      create_asset 7 "GOLD" "Gold" 2 (Dec.of_int 1000) (connect empty_db [] [])
      = (Ok (false, MsgSymbolExists "GOLD", None), connect empty_db [] []))
  /\
  (hd_error (select_asset_id 7 "GOLD" (working (connect empty_db [] []))) = None ->
   exists id c1,
     create_asset 7 "GOLD" "Gold" 2 (Dec.of_int 1000) (connect empty_db [] [])
     = (Ok (true, MsgCreated "GOLD" "Gold", Some id), c1)
     /\ committed c1 = working c1
     /\ rows (assets (working c1))
        = rows (assets (working (connect empty_db [] [])))
            ++ [mk_asset id 7 "GOLD" "Gold" 2]
     /\ (forall name' decimals' supply',
            create_asset 7 "GOLD" name' decimals' supply' c1
            = (Ok (false, MsgSymbolExists "GOLD", None), c1))
     /\ (forall guild_id' name' decimals' supply',
            guild_id' <> 7 ->
            hd_error (select_asset_id guild_id' "GOLD"
                        (working (connect empty_db [] []))) = None ->
            exists id' c2,
              create_asset guild_id' "GOLD" name' decimals' supply' c1
              = (Ok (true, MsgCreated "GOLD" name', Some id'), c2))).
Proof.
  apply (create_asset_symbol_unique 7 "GOLD" "Gold" 2 (Dec.of_int 1000)
           (connect empty_db [] [])).
  reflexivity.
Defined.

(** [create_asset] has no check of the symbol: on the empty database it
    creates a currency whose symbol has a space in it, which
    [is_valid_currency_symbol] rejects. *)
Lemma create_asset_accepts_invalid_symbol :
  is_valid_currency_symbol "a b" = false /\
  exists c1,
    create_asset 7 "a b" "Coin" 2 Dec.zero (connect empty_db [] [])
    = (Ok (true, MsgCreated "a b" "Coin", Some 1), c1)
    /\ rows (assets (committed c1)) = [mk_asset 1 7 "a b" "Coin" 2].
Proof.
  split; [reflexivity|]. eexists. split; reflexivity.
Qed.

(** C8 (amended).  The symbol rule is enforced by the command handler, not
    by [create_asset]: for a symbol that [is_valid_currency_symbol]
    rejects, [create_currency_command] leaves the database as it is and
    replies with the invalid-symbol message (or, to a caller who is not a
    manager of a guild, with the permission message); no connection is
    opened. *)
Theorem create_currency_command_rejects_invalid_symbol (env : Env) (db : Tables)
    (interaction : Interaction) (symbol name : string) (decimals initial_supply : Z) :
  is_valid_currency_symbol symbol = false ->
  create_currency_command env db interaction symbol name decimals initial_supply
  = (db, Replied (if is_guild_manager interaction then InvalidSymbol
                  else PermissionError)).
Proof.
  intros H. unfold create_currency_command.
  destruct (is_guild_manager interaction) eqn:M; simpl; [|reflexivity].
  unfold is_guild_manager in M.
  destruct (i_guild interaction); [|discriminate].
  rewrite H. reflexivity.
Qed.

Lemma create_currency_command_rejects_invalid_symbol_witness :
  create_currency_command calm empty_db (mk_interaction (Some 7) 1 "admin" true false)
    "a b" "Coin" 2 0
  = (empty_db, Replied InvalidSymbol).
Proof.
  apply (create_currency_command_rejects_invalid_symbol calm empty_db
           (mk_interaction (Some 7) 1 "admin" true false) "a b" "Coin" 2 0).
  reflexivity.
Defined.

(* ====================================================================== *)
(** * Balances and postings *)

(** The condition [account_id = ? AND asset_id = ?] of [balance_of]. *)
Definition entry_of (account_id asset_id : Z) (e : entry_row) : bool :=
  (e_account_id e =? account_id) && (e_asset_id e =? asset_id).

(** What [balance_of] computes on given tables: the exception of the sum,
    or the Decimal made of the number SQLite returns. *)
Definition read_balance (d : Tables) (account_id asset_id : Z)
    : result Dec.Decimal :=
  match select_balance account_id asset_id d with
  | Ok sums =>
      match hd_error sums with
      | Some r => Ok (or_zero r)
      | None => Raise TypeError
      end
  | Raise e => Raise e
  end.

(** The Decimal [balance_of] computes on given tables (zero where it
    raises). *)
Definition balance (d : Tables) (account_id asset_id : Z) : Dec.Decimal :=
  match read_balance d account_id asset_id with
  | Ok b => b
  | Raise _ => Dec.zero
  end.

(** What an account holds of an asset: the sum of the amounts of its
    entries in the asset, taken exactly. *)
Definition held (d : Tables) (account_id asset_id : Z) : Dec.Decimal :=
  exact_sum
    (map e_amount (filter (entry_of account_id asset_id) (rows (ledger_entries d)))).

(** The tables after the three INSERTs of a posting read at [now]. *)
Definition posted (guild_id from_account to_account asset_id : Z)
    (amount : Dec.Decimal) (desc : description) (now : timestamp) (d : Tables)
    : Tables :=
  let tid := seq (transactions d) + 1 in
  let eid := seq (ledger_entries d) + 1 in
  mk_tables (users d) (assets d) (accounts d)
    (mk_table (rows (transactions d) ++ [mk_transaction tid guild_id desc now]) tid)
    (mk_table
       (rows (ledger_entries d)
          ++ [mk_entry eid tid from_account asset_id (Dec.neg amount);
              mk_entry (eid + 1) tid to_account asset_id amount])
       (eid + 1)).

(** Row ids never exceed the counters, and entries refer to transaction ids
    that were handed out. *)
Definition ledger_bounded (d : Tables) : Prop :=
  Forall (fun t => t_id t <= seq (transactions d)) (rows (transactions d)) /\
  Forall (fun e => e_transaction_id e <= seq (transactions d))
    (rows (ledger_entries d)).

Lemma balance_of_calm (a x : Z) (c : Conn) :
  faults c = [] ->
  balance_of a x c
  = match read_balance (working c) a x with
    | Ok b => (Ok b, c)
    | Raise e => (Raise e, c)
    end.
Proof.
  intros H. unfold balance_of, bind, read_balance.
  rewrite fetch_one_sum_calm by exact H.
  destruct (select_balance a x (working c)) as [sums|e]; [|reflexivity].
  destruct (hd_error sums); reflexivity.
Qed.

(** When [balance_of] returns, it returns [balance]. *)
Lemma read_balance_ok (d : Tables) (a x : Z) (b : Dec.Decimal) :
  read_balance d a x = Ok b -> balance d a x = b.
Proof. intros E. unfold balance. rewrite E. reflexivity. Qed.


Lemma held_value (d : Tables) (a x : Z) :
  (Dec.value (held d a x)
   == Dec.total_value
        (map e_amount (filter (entry_of a x) (rows (ledger_entries d)))))%Q.
Proof. unfold held. apply value_exact_sum. Qed.

Lemma transfer_currency_calm (g A B x : Z) (n : Dec.Decimal) (desc : description)
    (c : Conn) :
  faults c = [] ->
  transfer_currency g A B x n desc c
  = (Ok true,
     mk_conn (committed c) (posted g A B x n desc (hd 0 (clock c)) (working c))
       [] (tl (clock c))).
Proof.
  intros H. destruct c as [cm w fs ts]. simpl in H. subst fs.
  unfold transfer_currency, try_except, bind, datetime_now, execute, posted.
  destruct ts; simpl; rewrite <- app_assoc; simpl;
    rewrite <- Z.add_assoc; reflexivity.
Qed.

Lemma entry_of_mk (a y i t acc x : Z) (n : Dec.Decimal) :
  entry_of a y (mk_entry i t acc x n) = (acc =? a) && (x =? y).
Proof. reflexivity. Qed.

Lemma held_posted (g A B x : Z) (n : Dec.Decimal) (desc : description)
    (now : timestamp) (d : Tables) (a y : Z) :
  (Dec.value (held (posted g A B x n desc now d) a y)
   == Dec.value (held d a y)
      + (if (A =? a) && (x =? y) then - Dec.value n else 0)
      + (if (B =? a) && (x =? y) then Dec.value n else 0))%Q.
Proof.
  rewrite !held_value. unfold posted. simpl.
  rewrite filter_app, map_app, total_value_app. simpl.
  rewrite !entry_of_mk.
  destruct ((A =? a) && (x =? y)), ((B =? a) && (x =? y)); simpl;
    rewrite ?DecFacts.value_neg; ring.
Qed.





(** ** Whole amounts *)

(** The sum of the absolute values of the coefficients. *)
Definition magnitude (l : list Dec.Decimal) : Z :=
  fold_right (fun a m => Z.abs (Dec.coef a) + m) 0 l.

(** The sum of the coefficients. *)
Definition coefficients (l : list Dec.Decimal) : Z :=
  fold_right (fun a m => Dec.coef a + m) 0 l.

Lemma magnitude_not_negative (l : list Dec.Decimal) : 0 <= magnitude l.
Proof. induction l as [|a l IH]; simpl; lia. Qed.

Lemma sumStep_whole (p : SumCtx) (a : Dec.Decimal) :
  approx p = false -> overflow p = false -> Dec.expo a = 0 ->
  int64 (Dec.coef a) = true -> int64 (iSum p + Dec.coef a) = true ->
  sumStep p (cast_as_decimal a)
  = mk_sum (double_add (rSum p) (double_of_int (Dec.coef a)))
      (iSum p + Dec.coef a) false false.
Proof.
  intros A O W Fa Fs. unfold cast_as_decimal. rewrite W, Z.eqb_refl, Fa.
  cbn [andb]. unfold sumStep. rewrite A, O, Fs. reflexivity.
Qed.

(** [SUM] over whole amounts that stay within 64 bits adds integers. *)
Lemma sum_of_whole_amounts (l : list Dec.Decimal) :
  forall p,
    approx p = false -> overflow p = false ->
    Forall (fun a => Dec.expo a = 0) l ->
    Z.abs (iSum p) + magnitude l < 2 ^ 63 ->
    approx (fold_left sumStep (map cast_as_decimal l) p) = false /\
    overflow (fold_left sumStep (map cast_as_decimal l) p) = false /\
    iSum (fold_left sumStep (map cast_as_decimal l) p)
    = iSum p + coefficients l.
Proof.
  induction l as [|a l IH]; intros p A O W B;
    cbn [map fold_left fold_right coefficients].
  - repeat split; try assumption. lia.
  - inversion W as [|? ? Wa Wl]; subst. cbn [magnitude fold_right] in B.
    fold (magnitude l) in B. fold (coefficients l). pose proof (magnitude_not_negative l) as M.
    assert (Fa : int64 (Dec.coef a) = true).
    { unfold int64. apply andb_true_iff. split; [apply Z.leb_le | apply Z.ltb_lt]; lia. }
    assert (Fs : int64 (iSum p + Dec.coef a) = true).
    { unfold int64. apply andb_true_iff. split; [apply Z.leb_le | apply Z.ltb_lt]; lia. }
    rewrite (sumStep_whole p a A O Wa Fa Fs).
    match goal with |- context [fold_left sumStep _ ?q] =>
      destruct (IH q) as (A' & O' & S'); try reflexivity; try assumption end.
    + cbn [iSum]. lia.
    + cbn [iSum] in S'.
      split; [exact A'|]. split; [exact O'|]. rewrite S'. lia.
Qed.

(** [balance_of] of a pair whose entries are whole amounts, of absolute
    values that sum to less than [2 ^ 63]: the exact sum. *)
Lemma read_whole_amounts (d : Tables) (a x : Z) :
  let amounts :=
    map e_amount (filter (entry_of a x) (rows (ledger_entries d))) in
  Forall (fun n => Dec.expo n = 0) amounts ->
  magnitude amounts < 2 ^ 63 ->
  exists b,
    read_balance d a x = Ok b /\
    (Dec.value b == Dec.value (held d a x))%Q.
Proof.
  intros amounts W B. unfold read_balance, select_balance.
  change (fun e => (e_account_id e =? a) && (e_asset_id e =? x))
    with (entry_of a x).
  rewrite <- (map_map e_amount cast_as_decimal). fold amounts.
  pose proof (held_value d a x) as HV. fold amounts in HV.
  destruct (sum_of_whole_amounts amounts (mk_sum (mk_double 0 0) 0 false false)
              eq_refl eq_refl W) as (A & O & S); [cbn [iSum]; lia|].
  assert (V : (inject_Z (coefficients amounts) == Dec.total_value amounts)%Q).
  { clear - W. induction amounts as [|n l IH]; [reflexivity|].
    inversion W as [|? ? Wn Wl]; subst.
    cbn [coefficients fold_right Dec.total_value]. fold (coefficients l).
    rewrite inject_Z_plus, (IH Wl). fold (Dec.total_value l).
    apply Qplus_inj_r. unfold Dec.value. rewrite Wn. simpl. ring. }
  clearbody amounts. unfold sum_row, sql_sum.
  destruct amounts as [|n l].
  - exists Dec.zero. split; [reflexivity|]. rewrite HV. reflexivity.
  - cbn [map] in *. rewrite O, A, S. cbn [hd_error iSum]. rewrite Z.add_0_l.
    eexists. split; [reflexivity|]. rewrite HV, <- V.
    cbn [or_zero decimal_of_number].
    destruct (Dec.is_zero _) eqn:Z0; [|apply DecFacts.value_of_int].
    apply DecFacts.is_zero_value in Z0.
    rewrite <- Z0. apply DecFacts.value_of_int.
Qed.

(** X26.  Whole amounts are read exactly.  When the entries of an account
    in an asset are all whole numbers (exponent 0, as every amount of an
    asset with 0 decimals is written) and their absolute values sum to
    less than [2 ^ 63], SQLite adds them as 64-bit integers, nothing is
    rounded, and without a failure of the storage [balance_of] returns
    their exact sum and leaves the connection as it was. *)
Theorem whole_amounts_are_read_exactly (account_id asset_id : Z) (c : Conn) :
  faults c = [] ->
  Forall (fun n => Dec.expo n = 0)
    (map e_amount
       (filter (entry_of account_id asset_id) (rows (ledger_entries (working c))))) ->
  magnitude
    (map e_amount
       (filter (entry_of account_id asset_id) (rows (ledger_entries (working c)))))
  < 2 ^ 63 ->
  exists b : Dec.Decimal,
    balance_of account_id asset_id c = (Ok b, c) /\
    (Dec.value b
     == Dec.total_value
          (map e_amount
             (filter (entry_of account_id asset_id)
                (rows (ledger_entries (working c))))))%Q.
Proof.
  intros H W B.
  destruct (read_whole_amounts (working c) account_id asset_id W B)
    as (b & Rb & Vb).
  exists b. rewrite balance_of_calm by exact H. rewrite Rb.
  split; [reflexivity|]. rewrite Vb. apply held_value.
Qed.

Lemma whole_amounts_are_read_exactly_witness :
  let c := connect
             (fst (create_currency_command calm empty_db admin "GOLD" "Gold" 0 1000))
             [] [] in
  exists b : Dec.Decimal,
    balance_of 1 1 c = (Ok b, c) /\
    (Dec.value b
     == Dec.total_value
          (map e_amount (filter (entry_of 1 1) (rows (ledger_entries (working c))))))%Q.
Proof.
  apply (whole_amounts_are_read_exactly 1 1
           (connect
              (fst (create_currency_command calm empty_db admin "GOLD" "Gold" 0 1000))
              [] [])).
  - reflexivity.
  - vm_compute. repeat constructor.
  - vm_compute. reflexivity.
Defined.

(** C2: the code falls short of the claim.  [balance_of] does not return
    the sum of the entries: SQLite has no decimal type, [CAST(amount AS DECIMAL)] turns
    the text of an amount that is no whole number into a double, and
    [Decimal(...)] writes that double out.  After /create GOLD with 2
    decimals and a supply of 1000 and /give of 0.30 to alice, the only
    entry of alice's account is 0.30, and [balance_of] returns
    0.299999999999999988897769753748434595763683319091796875 for it; so
    her /pay of the 0.30 she holds is refused for an insufficient balance,
    and the balance of the treasury, 1000 - 0.30, reads
    999.700000000000045474735088646411895751953125. *)
Theorem balance_of_is_not_the_sum :
  let db := run_history
              [(calm, Create admin "GOLD" "Gold" 2 1000);
               (calm, Give admin alice "GOLD" (Dec.mk 30 (-2)) None)]
              empty_db in
  let read :=
    Dec.mk 299999999999999988897769753748434595763683319091796875 (-54) in
  map e_amount (filter (entry_of 2 1) (rows (ledger_entries db)))
  = [Dec.mk 30 (-2)] /\
  balance_of 2 1 (connect db [] []) = (Ok read, connect db [] []) /\
  (Dec.value read < Dec.value (Dec.mk 30 (-2)))%Q /\
  pay_currency_command calm db alice_interaction bob "GOLD" (Dec.mk 30 (-2)) None
  = (db, Replied (InsufficientBalance (Dec.mk 30 (-2)) read)) /\
  map e_amount (filter (entry_of 1 1) (rows (ledger_entries db)))
  = [Dec.mk 1000 0; Dec.mk (-30) (-2)] /\
  balance_of 1 1 (connect db [] [])
  = (Ok (Dec.mk 999700000000000045474735088646411895751953125 (-42)),
     connect db [] []).
Proof. vm_compute. repeat split. Qed.

(* ====================================================================== *)
(** * Atomicity of a posting *)

Lemma issue_currency_is_transfer (g A B x : Z) (n : Dec.Decimal)
    (desc : description) :
  issue_currency g A B x n desc = transfer_currency g A B x n desc.
Proof. reflexivity. Qed.

(** Whatever the storage does, a posting never touches the committed
    tables, and it ends in one of two ways: [True] with the three rows
    pending on the connection, or [False] with the connection rolled back
    to the committed tables. *)
Lemma transfer_currency_outcomes (g A B x : Z) (n : Dec.Decimal)
    (desc : description) (c : Conn) :
  committed (snd (transfer_currency g A B x n desc c)) = committed c /\
  ((fst (transfer_currency g A B x n desc c) = Ok true /\
    working (snd (transfer_currency g A B x n desc c))
    = posted g A B x n desc (hd 0 (clock c)) (working c))
   \/
   (fst (transfer_currency g A B x n desc c) = Ok false /\
    working (snd (transfer_currency g A B x n desc c)) = committed c)).
Proof.
  destruct c as [cm w fs ts].
  unfold transfer_currency, try_except, bind, datetime_now, execute, posted.
  destruct ts; simpl;
    (destruct fs as [|[] [|[] [|[] fs]]]; simpl; split; try reflexivity;
     try (right; split; reflexivity);
     left; split; try reflexivity;
     rewrite <- app_assoc; simpl; rewrite <- Z.add_assoc; reflexivity).
Qed.

Lemma transfer_currency_fails_midway (g A B x : Z) (n : Dec.Decimal)
    (desc : description) (c : Conn) (fs : list bool) :
  faults c = false :: true :: fs \/ faults c = false :: false :: true :: fs ->
  fst (transfer_currency g A B x n desc c) = Ok false /\
  working (snd (transfer_currency g A B x n desc c)) = committed c.
Proof.
  destruct c as [cm w fs0 ts]. simpl.
  unfold transfer_currency, try_except, bind, datetime_now, execute.
  intros [-> | ->]; destruct ts; simpl; split; reflexivity.
Qed.

Lemma bounded_no_fresh_rows (d : Tables) (tid : Z) :
  ledger_bounded d -> seq (transactions d) < tid ->
  filter (fun t => t_id t =? tid) (rows (transactions d)) = [] /\
  filter (fun e => e_transaction_id e =? tid) (rows (ledger_entries d)) = [].
Proof.
  intros [HT HE] Hlt. split.
  - induction HT as [|t l Ht _ IH]; simpl; [reflexivity|].
    replace (t_id t =? tid) with false by (symmetry; apply Z.eqb_neq; lia).
    exact IH.
  - induction HE as [|e l He _ IH]; simpl; [reflexivity|].
    replace (e_transaction_id e =? tid) with false
      by (symmetry; apply Z.eqb_neq; lia).
    exact IH.
Qed.

(** C3.  A posting ([transfer_currency]; [issue_currency] is the same
    function) never changes the committed tables, so no other connection
    ever reads a part of it.  When the storage fails under the second or
    the third INSERT (after the transaction row went in, before both
    entries did), the posting returns [False] and the connection is rolled
    back to the committed tables: the connection itself reads the last
    committed state again.  On a connection whose pending statements did
    not write to [transactions] (as in the handlers) and whose committed
    tables are [ledger_bounded], that state holds no transaction row with
    the id the posting had taken and no entry referring to it. *)
Theorem posting_atomic (guild_id from_account to_account asset_id : Z)
    (amount : Dec.Decimal) (desc : description) (c : Conn) (fs : list bool) :
  faults c = false :: true :: fs \/ faults c = false :: false :: true :: fs ->
  issue_currency guild_id from_account to_account asset_id amount desc
  = transfer_currency guild_id from_account to_account asset_id amount desc
  /\
  let r := transfer_currency guild_id from_account to_account asset_id amount desc c in
  let tid := seq (transactions (working c)) + 1 in
  fst r = Ok false
  /\ committed (snd r) = committed c
  /\ working (snd r) = committed c
  /\ (ledger_bounded (committed c) ->
      transactions (working c) = transactions (committed c) ->
      filter (fun t => t_id t =? tid) (rows (transactions (working (snd r)))) = []
      /\ filter (fun e => e_transaction_id e =? tid)
           (rows (ledger_entries (working (snd r)))) = []).
Proof.
  intros Hf. split; [reflexivity|]. cbv zeta.
  destruct (transfer_currency_fails_midway guild_id from_account to_account
              asset_id amount desc c fs Hf) as [Hr Hw].
  destruct (transfer_currency_outcomes guild_id from_account to_account
              asset_id amount desc c) as [Hc _].
  split; [exact Hr|]. split; [exact Hc|]. split; [exact Hw|].
  intros Hb Ht. rewrite Hw. apply bounded_no_fresh_rows; [exact Hb|].
  rewrite Ht. lia.
Qed.

Lemma posting_atomic_witness :
  issue_currency 7 1 2 1 (Dec.of_int 5) (DescGive "bob" None)
  = transfer_currency 7 1 2 1 (Dec.of_int 5) (DescGive "bob" None)
  /\
  let c := connect empty_db [false; true] [] in
  let r := transfer_currency 7 1 2 1 (Dec.of_int 5) (DescGive "bob" None) c in
  let tid := seq (transactions (working c)) + 1 in
  fst r = Ok false
  /\ committed (snd r) = committed c
  /\ working (snd r) = committed c
  /\ (ledger_bounded (committed c) ->
      transactions (working c) = transactions (committed c) ->
      filter (fun t => t_id t =? tid) (rows (transactions (working (snd r)))) = []
      /\ filter (fun e => e_transaction_id e =? tid)
           (rows (ledger_entries (working (snd r)))) = []).
Proof.
  apply (posting_atomic 7 1 2 1 (Dec.of_int 5) (DescGive "bob" None)
           (connect empty_db [false; true] []) []).
  left. reflexivity.
Defined.

(* ====================================================================== *)
(** * Deleting a currency *)

(** [UNIQUE(guild_id, symbol)] on [assets]. *)
Definition unique_symbols (d : Tables) : Prop :=
  NoDup (map (fun a => (a_guild_id a, a_symbol a)) (rows (assets d))).

(** The tables after the two DELETEs of [delete_currency_command]. *)
Definition deleted (asset_id : Z) (d : Tables) : Tables :=
  set_assets (delete_rows (fun a => a_id a =? asset_id) (assets d))
    (set_ledger_entries
       (delete_rows (fun e => e_asset_id e =? asset_id) (ledger_entries d)) d).

(** The sum of all amounts posted in an asset, over every account. *)
Definition asset_total (asset_id : Z) (d : Tables) : Q :=
  Dec.total_value
    (map e_amount
       (filter (fun e => e_asset_id e =? asset_id) (rows (ledger_entries d)))).

Lemma asset_key_spec (g : Z) (s : string) (a : asset_row) :
  asset_key g s a = true <-> (a_guild_id a, a_symbol a) = (g, s).
Proof.
  unfold asset_key. rewrite andb_true_iff, Z.eqb_eq, String.eqb_eq.
  split; [intros [-> ->]; reflexivity | intros [= -> ->]; auto].
Qed.

Lemma unique_key_filter {A K : Type} (key : A -> K) (p : A -> bool) (k : K)
    (l : list A) :
  (forall a, p a = true -> key a = k) ->
  NoDup (map key l) ->
  forall a, hd_error (filter p l) = Some a -> filter p l = [a].
Proof.
  intros Hp. induction l as [|x l IH]; simpl; intros ND a E; [discriminate|].
  inversion ND as [|? ? Hx ND']; subst.
  destruct (p x) eqn:Px.
  - simpl in E. injection E as <-. f_equal.
    destruct (filter p l) as [|y l'] eqn:F; [reflexivity|exfalso].
    assert (Hy : In y (filter p l)) by (rewrite F; left; reflexivity).
    apply filter_In in Hy. destruct Hy as [Hin Py].
    apply Hx. rewrite (Hp x Px), <- (Hp y Py). apply in_map, Hin.
  - apply IH; assumption.
Qed.

Lemma filter_comm {A : Type} (p q : A -> bool) (l : list A) :
  filter p (filter q l) = filter q (filter p l).
Proof.
  induction l as [|x l IH]; simpl; [reflexivity|].
  destruct (p x) eqn:P, (q x) eqn:Q; simpl; rewrite ?P, ?Q, IH; reflexivity.
Qed.

Lemma filter_delete_rows {A : Type} (p : A -> bool) (t : Table A) :
  filter p (rows (delete_rows p t)) = [].
Proof.
  unfold delete_rows. simpl.
  induction (rows t) as [|x l IH]; simpl; [reflexivity|].
  destruct (p x) eqn:P; simpl; rewrite ?P; exact IH.
Qed.

Lemma select_asset_deleted (g : Z) (symbol : string) (info : asset_info)
    (d : Tables) :
  unique_symbols d ->
  hd_error (select_asset g symbol d) = Some info ->
  select_asset g symbol (deleted (fst (fst (fst info))) d) = [].
Proof.
  intros U E. unfold select_asset in *. unfold deleted. simpl.
  destruct (hd_error (filter (asset_key g symbol) (rows (assets d))))
    as [r|] eqn:F.
  - pose proof (unique_key_filter (fun a => (a_guild_id a, a_symbol a))
                  (asset_key g symbol) (g, symbol) (rows (assets d))
                  (fun a => proj1 (asset_key_spec g symbol a)) U r F) as One.
    rewrite One in E. simpl in E. injection E as <-.
    rewrite filter_comm, One. simpl. rewrite Z.eqb_refl. reflexivity.
  - destruct (filter (asset_key g symbol) (rows (assets d))); discriminate.
Qed.

(** [delete_currency_command] for a manager, on an asset that exists,
    when the storage does not fail: the error of the sum leaves the
    handler; a total that is not zero is rendered for the message, which
    [format_currency_amount] can do for a number only when the asset has 0
    decimals; on NULL or zero the two DELETEs are committed. *)
Lemma delete_currency_command_calm (env : Env) (db : Tables)
    (interaction : Interaction) (guild_id : Z) (symbol : string) (asset_id : Z)
    (s name : string) (decimals : Z) :
  env_faults env = [] ->
  is_guild_manager interaction = true ->
  i_guild interaction = Some guild_id ->
  hd_error (select_asset guild_id symbol db) = Some (asset_id, s, name, decimals) ->
  delete_currency_command env db interaction symbol
  = match select_total_balance asset_id db with
    | Raise e => (db, Unhandled e)
    | Ok balances =>
        if negb (Dec.is_zero (amount_of (total_of balances))) then
          (db,
           match format_currency_amount (total_of balances) decimals with
           | Text _ => Replied (AssetInUse s (amount_of (total_of balances)))
           | FormatError e => Unhandled e
           end)
        else (deleted asset_id db, Replied (DeleteDone s name))
    end.
Proof.
  intros Hf Hm Hg E.
  unfold delete_currency_command. rewrite Hm, Hg. simpl.
  unfold with_connection, connect, get_asset_by_symbol, bind, try_except.
  rewrite Hf.
  rewrite fetch_one_calm by reflexivity. simpl. rewrite E.
  rewrite fetch_all_sum_calm by reflexivity. simpl.
  destruct (select_total_balance asset_id db) as [balances|e]; [|reflexivity].
  destruct (Dec.is_zero (amount_of (total_of balances))); simpl.
  - reflexivity.
  - unfold render.
    destruct (format_currency_amount (total_of balances) decimals); reflexivity.
Qed.

(** A total that is not zero is a number, not a [Decimal]. *)
Lemma total_of_number (balances : list (option number)) :
  Dec.is_zero (amount_of (total_of balances)) = false ->
  total_of balances = PyNumber (amount_of (total_of balances)).
Proof.
  unfold total_of. destruct (hd None balances) as [n|]; [|discriminate].
  destruct (Dec.is_zero (decimal_of_number n)); [discriminate|reflexivity].
Qed.

(** X24.  The guard of /delete.  For a manager of the guild, an existing asset
    and a storage that does not fail, under the UNIQUE constraint of
    [assets]: the command removes rows only when the sum SQLite computes
    over the entries of the asset is NULL or zero, and then the database is
    the old one without the entries of the asset and without the asset row,
    the reply is the success message, and a lookup of the symbol finds
    nothing; in every other case the database is unchanged, and the
    "asset in use" message is sent only for an asset with 0 decimals:
    with other decimals the handler is left by an [AttributeError]. *)
Theorem delete_guard (env : Env) (db : Tables) (interaction : Interaction)
    (guild_id : Z) (symbol : string) (asset_id : Z) (s name : string)
    (decimals : Z) :
  env_faults env = [] ->
  is_guild_manager interaction = true ->
  i_guild interaction = Some guild_id ->
  unique_symbols db ->
  hd_error (select_asset guild_id symbol db) = Some (asset_id, s, name, decimals) ->
  (forall balances,
     select_total_balance asset_id db = Ok balances ->
     Dec.is_zero (amount_of (total_of balances)) = true ->
     delete_currency_command env db interaction symbol
     = (deleted asset_id db, Replied (DeleteDone s name))
     /\ filter (fun e => e_asset_id e =? asset_id)
          (rows (ledger_entries (deleted asset_id db))) = []
     /\ filter (fun a => a_id a =? asset_id) (rows (assets (deleted asset_id db))) = []
     /\ fst (get_asset_by_symbol guild_id symbol (connect (deleted asset_id db) [] []))
        = Ok None)
  /\
  (forall balances,
     select_total_balance asset_id db = Ok balances ->
     Dec.is_zero (amount_of (total_of balances)) = false ->
     delete_currency_command env db interaction symbol
     = (db,
        if decimals =? 0
        then Replied (AssetInUse s (amount_of (total_of balances)))
        else Unhandled AttributeError))
  /\
  (forall e,
     select_total_balance asset_id db = Raise e ->
     delete_currency_command env db interaction symbol = (db, Unhandled e)).
Proof.
  intros Hf Hm Hg U E.
  pose proof (delete_currency_command_calm env db interaction guild_id symbol
                asset_id s name decimals Hf Hm Hg E) as Run.
  split; [|split].
  - intros balances S Z0. rewrite S, Z0 in Run. simpl in Run.
    split; [exact Run|]. repeat split.
    + apply (filter_delete_rows (fun e => e_asset_id e =? asset_id)).
    + apply (filter_delete_rows (fun a => a_id a =? asset_id)).
    + pose proof (select_asset_deleted guild_id symbol _ db U E) as SD.
      cbn [fst] in SD.
      unfold get_asset_by_symbol. rewrite fetch_one_calm by reflexivity.
      cbn [fst working connect]. rewrite SD. reflexivity.
  - intros balances S NZ. rewrite S, NZ in Run. simpl in Run.
    rewrite Run. rewrite (total_of_number balances NZ).
    unfold format_currency_amount. cbn [amount_of].
    destruct (decimals =? 0); reflexivity.
  - intros e S. rewrite S in Run. exact Run.
Qed.

Lemma delete_guard_witness :
  let db := fst (create_currency_command calm empty_db admin "GOLD" "Gold" 2 1000) in
  (forall balances,
     select_total_balance 1 db = Ok balances ->
     Dec.is_zero (amount_of (total_of balances)) = true ->
     delete_currency_command calm db admin "GOLD"
     = (deleted 1 db, Replied (DeleteDone "GOLD" "Gold"))
     /\ filter (fun e => e_asset_id e =? 1) (rows (ledger_entries (deleted 1 db))) = []
     /\ filter (fun a => a_id a =? 1) (rows (assets (deleted 1 db))) = []
     /\ fst (get_asset_by_symbol 7 "GOLD" (connect (deleted 1 db) [] [])) = Ok None)
  /\
  (forall balances,
     select_total_balance 1 db = Ok balances ->
     Dec.is_zero (amount_of (total_of balances)) = false ->
     delete_currency_command calm db admin "GOLD"
     = (db,
        if 2 =? 0
        then Replied (AssetInUse "GOLD" (amount_of (total_of balances)))
        else Unhandled AttributeError))
  /\
  (forall e,
     select_total_balance 1 db = Raise e ->
     delete_currency_command calm db admin "GOLD" = (db, Unhandled e)).
Proof.
  apply (delete_guard calm
           (fst (create_currency_command calm empty_db admin "GOLD" "Gold" 2 1000))
           admin 7 "GOLD" 1 "GOLD" "Gold" 2).
  - reflexivity.
  - reflexivity.
  - reflexivity.
  - vm_compute. repeat constructor. intros [].
  - vm_compute. reflexivity.
Defined.

(** C4: the code falls short of the claim.  A currency GOLD with 2
    decimals and a supply of 1000 is in use: the entries of the asset sum to 1000.  /delete GOLD by
    a manager removes nothing, but it does not answer "asset in use": the
    total is the [int] SQLite returned, [format_currency_amount] calls
    [quantize] on it to build the message, and the [AttributeError] leaves
    the handler before anything is sent.  The same currency with 0
    decimals gets the message. *)
Theorem delete_in_use_sends_nothing :
  let db := fst (create_currency_command calm empty_db admin "GOLD" "Gold" 2 1000) in
  let db0 := fst (create_currency_command calm empty_db admin "GOLD" "Gold" 0 1000) in
  (asset_total 1 db == 1000)%Q /\
  delete_currency_command calm db admin "GOLD" = (db, Unhandled AttributeError) /\
  delete_currency_command calm db0 admin "GOLD"
  = (db0, Replied (AssetInUse "GOLD" (Dec.of_int 1000))).
Proof. vm_compute. repeat split. Qed.

(* ====================================================================== *)
(** * What the database functions do under any storage *)

(** The tables differ at most in [users] and [accounts]. *)
Definition quiet (d d' : Tables) : Prop :=
  assets d' = assets d /\ transactions d' = transactions d /\
  ledger_entries d' = ledger_entries d.

Lemma quiet_refl (d : Tables) : quiet d d.
Proof. repeat split. Qed.

Lemma quiet_trans (d1 d2 d3 : Tables) : quiet d1 d2 -> quiet d2 d3 -> quiet d1 d3.
Proof. intros (A1 & T1 & E1) (A2 & T2 & E2). repeat split; congruence. Qed.

(** One statement: the committed tables and the clock stay; the
    connection's tables change as the statement says, or not at all when
    it raises. *)
Lemma execute_sound {A : Type} (stmt : Tables -> result (A * Tables)) (c : Conn) :
  committed (snd (execute stmt c)) = committed c /\
  clock (snd (execute stmt c)) = clock c /\
  match fst (execute stmt c) with
  | Ok a => stmt (working c) = Ok (a, working (snd (execute stmt c)))
  | Raise _ => working (snd (execute stmt c)) = working c
  end.
Proof.
  unfold execute. destruct (faults c) as [|[] fs]; simpl; auto;
    destruct (stmt (working c)) as [[a w]|e]; simpl; auto.
Qed.

Lemma fetch_one_sound {A : Type} (query : Tables -> list A) (c : Conn) :
  committed (snd (fetch_one query c)) = committed c /\
  clock (snd (fetch_one query c)) = clock c /\
  working (snd (fetch_one query c)) = working c /\
  forall r, fst (fetch_one query c) = Ok r -> r = hd_error (query (working c)).
Proof.
  unfold fetch_one, execute. destruct (faults c) as [|[] fs]; simpl;
    repeat split; auto; intros r [=]; congruence.
Qed.

Lemma fetch_all_sound {A : Type} (query : Tables -> list A) (c : Conn) :
  committed (snd (fetch_all query c)) = committed c /\
  clock (snd (fetch_all query c)) = clock c /\
  working (snd (fetch_all query c)) = working c /\
  forall r, fst (fetch_all query c) = Ok r -> r = query (working c).
Proof.
  unfold fetch_all, execute. destruct (faults c) as [|[] fs]; simpl;
    repeat split; auto; intros r [=]; congruence.
Qed.

Lemma fetch_one_sum_sound {A : Type} (query : Tables -> result (list A))
    (c : Conn) :
  committed (snd (fetch_one_sum query c)) = committed c /\
  clock (snd (fetch_one_sum query c)) = clock c /\
  working (snd (fetch_one_sum query c)) = working c /\
  forall r, fst (fetch_one_sum query c) = Ok r ->
            exists l, query (working c) = Ok l /\ r = hd_error l.
Proof.
  unfold fetch_one_sum, evaluate, execute. destruct (faults c) as [|[] fs]; simpl;
    try (repeat split; auto; intros r [=]; fail);
    destruct (query (working c)) as [l|e]; simpl; repeat split; auto;
    intros r [=]; eauto.
Qed.

Lemma fetch_all_sum_sound {A : Type} (query : Tables -> result (list A))
    (c : Conn) :
  committed (snd (fetch_all_sum query c)) = committed c /\
  clock (snd (fetch_all_sum query c)) = clock c /\
  working (snd (fetch_all_sum query c)) = working c /\
  forall r, fst (fetch_all_sum query c) = Ok r -> query (working c) = Ok r.
Proof.
  unfold fetch_all_sum, evaluate, execute. destruct (faults c) as [|[] fs]; simpl;
    try (repeat split; auto; intros r [=]; fail);
    destruct (query (working c)) as [l|e]; simpl; repeat split; auto;
    intros r [=]; congruence.
Qed.

Lemma insert_user_quiet (u : Z) (d d' : Tables) (id : Z) :
  insert_user u d = Ok (id, d') -> quiet d d'.
Proof.
  unfold insert_user. destruct (existsb _ _); [discriminate|].
  intros [= _ <-]. repeat split.
Qed.

Lemma insert_account_quiet (uid : option Z) (g : Z) (name : string)
    (ty : account_type) (d d' : Tables) (id : Z) :
  insert_account uid g name ty d = Ok (id, d') -> quiet d d'.
Proof.
  unfold insert_account. destruct (existsb _ _); [discriminate|].
  intros [= _ <-]. repeat split.
Qed.

(** Running [m] from [c] keeps the committed tables and the clock, and
    changes the connection's tables quietly. *)
Definition runs_quietly {A : Type} (m : M A) : Prop :=
  forall c,
    committed (snd (m c)) = committed c /\ clock (snd (m c)) = clock c /\
    quiet (working c) (working (snd (m c))).

Lemma runs_quietly_bind {A B : Type} (m : M A) (f : A -> M B) :
  runs_quietly m -> (forall a, runs_quietly (f a)) -> runs_quietly (bind m f).
Proof.
  intros Hm Hf c. unfold bind. specialize (Hm c).
  destruct (m c) as [[a|e] c1]; simpl in *; [|exact Hm].
  destruct Hm as (C1 & K1 & Q1). specialize (Hf a c1).
  destruct Hf as (C2 & K2 & Q2).
  split; [congruence|]. split; [congruence|]. exact (quiet_trans _ _ _ Q1 Q2).
Qed.

Lemma runs_quietly_ret {A : Type} (a : A) : runs_quietly (ret a).
Proof. intros c. simpl. split; [|split]; auto using quiet_refl. Qed.

Lemma runs_quietly_raise {A : Type} (e : exn) : runs_quietly (@raise A e).
Proof. intros c. simpl. split; [|split]; auto using quiet_refl. Qed.

Lemma runs_quietly_execute {A : Type} (stmt : Tables -> result (A * Tables)) :
  (forall d a d', stmt d = Ok (a, d') -> quiet d d') ->
  runs_quietly (execute stmt).
Proof.
  intros H c. destruct (execute_sound stmt c) as (C & K & W).
  split; [exact C|]. split; [exact K|].
  destruct (fst (execute stmt c)).
  - exact (H _ _ _ W).
  - rewrite W. apply quiet_refl.
Qed.

Lemma runs_quietly_fetch_one {A : Type} (query : Tables -> list A) :
  runs_quietly (fetch_one query).
Proof.
  intros c. destruct (fetch_one_sound query c) as (C & K & W & _).
  rewrite W. split; [|split]; auto using quiet_refl.
Qed.

Lemma runs_quietly_fetch_all {A : Type} (query : Tables -> list A) :
  runs_quietly (fetch_all query).
Proof.
  intros c. destruct (fetch_all_sound query c) as (C & K & W & _).
  rewrite W. split; [|split]; auto using quiet_refl.
Qed.

Lemma upsert_user_quiet (u : Z) : runs_quietly (upsert_user u).
Proof.
  apply runs_quietly_bind; [apply runs_quietly_fetch_one|].
  intros [id|]; [apply runs_quietly_ret|].
  apply runs_quietly_execute. intros d a d'. apply insert_user_quiet.
Qed.

Lemma ensure_user_account_quiet (u g : Z) : runs_quietly (ensure_user_account u g).
Proof.
  apply runs_quietly_bind; [apply upsert_user_quiet|]. intros uid.
  apply runs_quietly_bind; [apply runs_quietly_fetch_one|].
  intros [id|]; [apply runs_quietly_ret|].
  apply runs_quietly_execute. intros d a d'. apply insert_account_quiet.
Qed.

Lemma ensure_treasury_account_quiet (g : Z) : runs_quietly (ensure_treasury_account g).
Proof.
  apply runs_quietly_bind; [apply runs_quietly_fetch_one|].
  intros [id|]; [apply runs_quietly_ret|].
  apply runs_quietly_execute. intros d a d'. apply insert_account_quiet.
Qed.

Lemma balance_of_sound (a x : Z) (c : Conn) :
  committed (snd (balance_of a x c)) = committed c /\
  clock (snd (balance_of a x c)) = clock c /\
  working (snd (balance_of a x c)) = working c /\
  forall b, fst (balance_of a x c) = Ok b ->
            read_balance (working c) a x = Ok b /\ b = balance (working c) a x.
Proof.
  unfold balance_of, bind.
  destruct (fetch_one_sum_sound (select_balance a x) c) as (C & K & W & R).
  destruct (fetch_one_sum (select_balance a x) c) as [[r|e] c1]; simpl in *.
  - destruct (R r eq_refl) as (l & Q & ->).
    assert (RB : read_balance (working c) a x
                 = match hd_error l with
                   | Some r => Ok (or_zero r)
                   | None => Raise TypeError
                   end)
      by (unfold read_balance; rewrite Q; reflexivity).
    destruct (hd_error l) as [r|]; simpl;
      (split; [exact C|]); (split; [exact K|]); (split; [exact W|]);
      intros b [= <-].
    split; [exact RB | symmetry; apply read_balance_ok, RB].
  - split; [exact C|]. split; [exact K|]. split; [exact W|]. discriminate.
Qed.

Lemma render_sound (amount : amount_value) (decimals : Z) (c : Conn) :
  snd (render amount decimals c) = c.
Proof.
  unfold render. destruct (format_currency_amount amount decimals); reflexivity.
Qed.

Lemma quantize_sound (a : Dec.Decimal) (decimals : Z) (c : Conn) :
  snd (quantize a decimals c) = c /\
  forall q, fst (quantize a decimals c) = Ok q ->
            Dec.quantize_down a (Dec.quantum_exponent decimals) = Some q.
Proof.
  unfold quantize. destruct (Dec.quantize_down _ _); simpl; split; auto;
    intros q' [=]; congruence.
Qed.

(* ====================================================================== *)
(** * The two posting commands, case by case *)

(** Steps of a symbolic run: name what a call returned and what it left. *)
Ltac run_quiet lem c C K Q :=
  destruct (lem c) as (C & K & Q).

(** The command ended without a posting and without a word on balances. *)
Tactic Notation "quit" tactic(tac) :=
  left; split; [tac | split; intros; discriminate].

Lemma pay_currency_command_cases (env : Env) (db : Tables) (i : Interaction)
    (to_user : Member) (symbol : string) (amount : Dec.Decimal)
    (memo : option string) :
  (fst (pay_currency_command env db i to_user symbol amount memo) = db /\
   (forall q s, snd (pay_currency_command env db i to_user symbol amount memo)
                <> Replied (PayDone q s)) /\
   (forall q b, snd (pay_currency_command env db i to_user symbol amount memo)
                <> Replied (InsufficientBalance q b)))
  \/
  (exists g aid s nm dec q d0 A,
    i_guild i = Some g /\
    hd_error (select_asset g symbol db) = Some (aid, s, nm, dec) /\
    Dec.leb amount Dec.zero = false /\
    Dec.quantize_down amount (Dec.quantum_exponent dec) = Some q /\
    quiet db d0 /\
    read_balance d0 A aid = Ok (balance d0 A aid) /\
    Dec.ltb (balance d0 A aid) q = true /\
    fst (pay_currency_command env db i to_user symbol amount memo) = db /\
    (snd (pay_currency_command env db i to_user symbol amount memo)
     = Replied (InsufficientBalance q (balance d0 A aid)) \/
     exists e, snd (pay_currency_command env db i to_user symbol amount memo) = Unhandled e))
  \/
  exists g aid s nm dec q d0 A B now,
    i_guild i = Some g /\
    hd_error (select_asset g symbol db) = Some (aid, s, nm, dec) /\
    Dec.leb amount Dec.zero = false /\
    Dec.quantize_down amount (Dec.quantum_exponent dec) = Some q /\
    quiet db d0 /\
    read_balance d0 A aid = Ok (balance d0 A aid) /\
    Dec.ltb (balance d0 A aid) q = false /\
    fst (pay_currency_command env db i to_user symbol amount memo)
    = posted g A B aid q
        (DescPay (i_display_name i) (m_display_name to_user) (memo_suffix memo))
        now d0 /\
    (snd (pay_currency_command env db i to_user symbol amount memo)
     = Replied (PayDone q s) \/
     exists e, snd (pay_currency_command env db i to_user symbol amount memo)
               = Unhandled e).
Proof.
  unfold pay_currency_command.
  destruct (i_guild i) as [g|] eqn:G; [|quit reflexivity].
  destruct (m_id to_user =? i_user_id i); [quit reflexivity|].
  destruct (Dec.leb amount Dec.zero) eqn:Pos;
    [quit reflexivity|].
  unfold with_connection, get_asset_by_symbol, bind.
  set (c0 := connect db (env_faults env) (env_clock env)).
  destruct (fetch_one_sound (select_asset g symbol) c0) as (C1 & K1 & W1 & R1).
  destruct (fetch_one (select_asset g symbol) c0) as [[asset|e] c1]; simpl in *;
    [|quit (exact C1)].
  specialize (R1 asset eq_refl).
  destruct asset as [[[[aid s] nm] dec]|]; simpl;
    [|quit (exact C1)].
  destruct (quantize_sound amount dec c1) as (S2 & R2).
  destruct (quantize amount dec c1) as [[q|e] c2]; simpl in *; subst c2;
    [|quit (exact C1)].
  specialize (R2 q eq_refl).
  run_quiet (ensure_user_account_quiet (i_user_id i) g) c1 C3 K3 Q3.
  destruct (ensure_user_account (i_user_id i) g c1) as [[A|e] c3]; simpl in *;
    [|quit congruence].
  run_quiet (ensure_user_account_quiet (m_id to_user) g) c3 C4 K4 Q4.
  destruct (ensure_user_account (m_id to_user) g c3) as [[B|e] c4]; simpl in *;
    [|quit congruence].
  destruct (balance_of_sound A aid c4) as (C5 & K5 & W5 & R5).
  destruct (balance_of A aid c4) as [[bal|e] c5]; simpl in *;
    [|quit congruence].
  destruct (R5 bal eq_refl) as (RB & R5'). clear R5.
  assert (Q5 : quiet db (working c4))
    by (apply (quiet_trans _ (working c3)); [rewrite W1 in Q3; exact Q3 | exact Q4]).
  destruct (Dec.ltb bal q) eqn:L; simpl.
  { right; left. exists g, aid, s, nm, dec, q, (working c4), A.
    split; [reflexivity|]. split; [symmetry; exact R1|].
    split; [reflexivity|]. split; [exact R2|].
    split; [exact Q5|]. split; [rewrite <- R5'; exact RB|].
    split; [rewrite <- R5'; exact L|].
    rewrite <- R5'. unfold render.
    destruct (format_currency_amount (PyDecimal q) dec); simpl;
      [destruct (format_currency_amount (PyDecimal bal) dec); simpl|];
      (split; [congruence|]); eauto. }
  match goal with |- context [transfer_currency g A B aid q ?d c5] =>
    destruct (transfer_currency_outcomes g A B aid q d c5) as (C6 & [[F W] | [F W]]);
    destruct (transfer_currency g A B aid q d c5) as [[b|e] c6]; simpl in *;
    try discriminate; injection F as ->; simpl
  end.
  - right; right.
    exists g, aid, s, nm, dec, q, (working c5), A, B, (hd 0 (clock c5)).
    split; [reflexivity|]. split; [symmetry; exact R1|].
    split; [reflexivity|]. split; [exact R2|]. split; [rewrite W5; exact Q5|].
    split; [rewrite W5, <- R5'; exact RB|].
    split; [rewrite W5, <- R5'; exact L|].
    unfold render.
    destruct (format_currency_amount (PyDecimal q) dec); simpl;
      (split; [exact W|]); eauto.
  - quit congruence.
Qed.

Lemma give_currency_command_cases (env : Env) (db : Tables) (i : Interaction)
    (user : Member) (symbol : string) (amount : Dec.Decimal)
    (memo : option string) :
  (fst (give_currency_command env db i user symbol amount memo) = db /\
   (forall q s, snd (give_currency_command env db i user symbol amount memo)
                <> Replied (GiveDone q s)) /\
   (forall q b, snd (give_currency_command env db i user symbol amount memo)
                <> Replied (TreasuryInsufficient q b)))
  \/
  (exists g aid s nm dec q d0 A,
    i_guild i = Some g /\
    hd_error (select_asset g symbol db) = Some (aid, s, nm, dec) /\
    Dec.leb amount Dec.zero = false /\
    Dec.quantize_down amount (Dec.quantum_exponent dec) = Some q /\
    quiet db d0 /\
    read_balance d0 A aid = Ok (balance d0 A aid) /\
    Dec.ltb (balance d0 A aid) q = true /\
    fst (give_currency_command env db i user symbol amount memo) = db /\
    (snd (give_currency_command env db i user symbol amount memo)
     = Replied (TreasuryInsufficient q (balance d0 A aid)) \/
     exists e, snd (give_currency_command env db i user symbol amount memo) = Unhandled e))
  \/
  exists g aid s nm dec q d0 A B now,
    i_guild i = Some g /\
    hd_error (select_asset g symbol db) = Some (aid, s, nm, dec) /\
    Dec.leb amount Dec.zero = false /\
    Dec.quantize_down amount (Dec.quantum_exponent dec) = Some q /\
    quiet db d0 /\
    read_balance d0 A aid = Ok (balance d0 A aid) /\
    Dec.ltb (balance d0 A aid) q = false /\
    fst (give_currency_command env db i user symbol amount memo)
    = posted g A B aid q (DescGive (m_display_name user) (memo_suffix memo)) now d0 /\
    (snd (give_currency_command env db i user symbol amount memo)
     = Replied (GiveDone q s) \/
     exists e, snd (give_currency_command env db i user symbol amount memo)
               = Unhandled e).
Proof.
  unfold give_currency_command.
  destruct (is_guild_manager i); simpl; [|quit reflexivity].
  destruct (i_guild i) as [g|] eqn:G; [|quit reflexivity].
  destruct (Dec.leb amount Dec.zero) eqn:Pos;
    [quit reflexivity|].
  unfold with_connection, get_asset_by_symbol, bind.
  set (c0 := connect db (env_faults env) (env_clock env)).
  destruct (fetch_one_sound (select_asset g symbol) c0) as (C1 & K1 & W1 & R1).
  destruct (fetch_one (select_asset g symbol) c0) as [[asset|e] c1]; simpl in *;
    [|quit (exact C1)].
  specialize (R1 asset eq_refl).
  destruct asset as [[[[aid s] nm] dec]|]; simpl;
    [|quit (exact C1)].
  destruct (quantize_sound amount dec c1) as (S2 & R2).
  destruct (quantize amount dec c1) as [[q|e] c2]; simpl in *; subst c2;
    [|quit (exact C1)].
  specialize (R2 q eq_refl).
  run_quiet (ensure_treasury_account_quiet g) c1 C3 K3 Q3.
  destruct (ensure_treasury_account g c1) as [[A|e] c3]; simpl in *;
    [|quit congruence].
  run_quiet (ensure_user_account_quiet (m_id user) g) c3 C4 K4 Q4.
  destruct (ensure_user_account (m_id user) g c3) as [[B|e] c4]; simpl in *;
    [|quit congruence].
  destruct (balance_of_sound A aid c4) as (C5 & K5 & W5 & R5).
  destruct (balance_of A aid c4) as [[bal|e] c5]; simpl in *;
    [|quit congruence].
  destruct (R5 bal eq_refl) as (RB & R5'). clear R5.
  assert (Q5 : quiet db (working c4))
    by (apply (quiet_trans _ (working c3)); [rewrite W1 in Q3; exact Q3 | exact Q4]).
  destruct (Dec.ltb bal q) eqn:L; simpl.
  { right; left. exists g, aid, s, nm, dec, q, (working c4), A.
    split; [reflexivity|]. split; [symmetry; exact R1|].
    split; [reflexivity|]. split; [exact R2|].
    split; [exact Q5|]. split; [rewrite <- R5'; exact RB|].
    split; [rewrite <- R5'; exact L|].
    rewrite <- R5'. unfold render.
    destruct (format_currency_amount (PyDecimal q) dec); simpl;
      [destruct (format_currency_amount (PyDecimal bal) dec); simpl|];
      (split; [congruence|]); eauto. }
  match goal with |- context [transfer_currency g A B aid q ?d c5] =>
    destruct (transfer_currency_outcomes g A B aid q d c5) as (C6 & [[F W] | [F W]]);
    destruct (transfer_currency g A B aid q d c5) as [[b|e] c6]; simpl in *;
    try discriminate; injection F as ->; simpl
  end.
  - right; right.
    exists g, aid, s, nm, dec, q, (working c5), A, B, (hd 0 (clock c5)).
    split; [reflexivity|]. split; [symmetry; exact R1|].
    split; [reflexivity|]. split; [exact R2|]. split; [rewrite W5; exact Q5|].
    split; [rewrite W5, <- R5'; exact RB|].
    split; [rewrite W5, <- R5'; exact L|].
    unfold render.
    destruct (format_currency_amount (PyDecimal q) dec); simpl;
      (split; [exact W|]); eauto.
  - quit congruence.
Qed.

(* ====================================================================== *)
(** * The amount a command posts *)

(** [q] is [amount] cut to [decimals] places towards zero, for an amount
    that is not negative. *)
Definition truncation_of (q amount : Dec.Decimal) (decimals : Z) : Prop :=
  Dec.expo q = - decimals /\
  (0 <= Dec.value q)%Q /\ (Dec.value q <= Dec.value amount)%Q /\
  (Dec.value amount - Dec.value q < 10 ^ (- decimals))%Q.

Lemma quantized_is_truncation (amount q : Dec.Decimal) (decimals : Z) :
  Dec.leb amount Dec.zero = false ->
  Dec.quantize_down amount (Dec.quantum_exponent decimals) = Some q ->
  truncation_of q amount decimals.
Proof.
  intros Pos E. apply DecFacts.quantize_down_spec in E. destruct E as [Ex V].
  split; [exact Ex|]. apply V.
  destruct (Qlt_le_dec (Dec.value amount) 0) as [Neg|Ok0]; [|exact Ok0].
  exfalso. apply Qlt_le_weak in Neg.
  rewrite <- DecFacts.value_zero in Neg. apply DecFacts.leb_value in Neg.
  congruence.
Qed.



(* ====================================================================== *)
(** * The repair command *)

(** The tables after the two INSERTs of a one-entry transaction (the
    initial supply of [create_asset], the adjustment of [fix_database]). *)
Definition posted_single (guild_id account_id asset_id : Z)
    (amount : Dec.Decimal) (desc : description) (now : timestamp) (d : Tables)
    : Tables :=
  let tid := seq (transactions d) + 1 in
  let eid := seq (ledger_entries d) + 1 in
  mk_tables (users d) (assets d) (accounts d)
    (mk_table (rows (transactions d) ++ [mk_transaction tid guild_id desc now]) tid)
    (mk_table
       (rows (ledger_entries d) ++ [mk_entry eid tid account_id asset_id amount])
       eid).

(** The total [fix_database] selects: the amounts of the entries of the
    asset on the user accounts of the guild. *)
Definition users_total (d : Tables) (asset_id guild_id : Z) : Q :=
  Dec.total_value (user_entry_amounts asset_id guild_id d).

(** The primary key of [accounts], and what the program names its
    accounts: a user account is never called "treasury". *)
Definition accounts_wf (d : Tables) : Prop :=
  NoDup (map acc_id (rows (accounts d))) /\
  Forall (fun a => acc_type a = TUser -> acc_name a <> "treasury")
    (rows (accounts d)).

(** The adjustment [fix_database] computes for an asset: the total of the
    user accounts as SQLite sums it, plus 1,000,000, minus the balance of
    the treasury as [balance_of] reads it, in the arithmetic of the
    context; or the exception of one of the two sums. *)
Definition adjustment (d : Tables) (treasury asset_id guild_id : Z)
    : result Dec.Decimal :=
  match read_balance d treasury asset_id with
  | Raise e => Raise e
  | Ok treasury_balance =>
      match select_users_total asset_id guild_id d with
      | Raise e => Raise e
      | Ok users_total =>
          Ok (Dec.minus
                (Dec.plus (or_zero (hd_error users_total)) (Dec.of_int 1000000))
                treasury_balance)
      end
  end.

(** One round of the loop of [fix_database] when the storage does not
    fail.  The exception of a sum ends it.  An adjustment of zero posts
    nothing.  Any other adjustment is posted as a transaction with one
    entry, and then rendered for the message: when
    [format_currency_amount] raises, the round ends with the posting
    pending and not committed. *)
Lemma fix_asset_calm (g T aid : Z) (sym nm : string) (dec : Z)
    (fixed : list (string * Dec.Decimal)) (c : Conn) :
  faults c = [] ->
  fix_asset g T (aid, sym, nm, dec) fixed c
  = match adjustment (working c) T aid g with
    | Raise e => (Raise e, c)
    | Ok adj =>
        if Dec.is_zero adj then (Ok fixed, c)
        else
          (match format_currency_amount (PyDecimal adj) dec with
           | Text _ => Ok (fixed ++ [(sym, adj)])
           | FormatError e => Raise e
           end,
           mk_conn (committed c)
             (posted_single g T aid adj (DescDbFix sym) (hd 0 (clock c)) (working c))
             [] (tl (clock c)))
    end.
Proof.
  intros H. unfold fix_asset, bind, adjustment.
  rewrite balance_of_calm by exact H.
  destruct (read_balance (working c) T aid) as [tb|e]; [|reflexivity].
  rewrite fetch_one_sum_calm by exact H.
  destruct (select_users_total aid g (working c)) as [ut|e]; [|reflexivity].
  destruct (Dec.is_zero _); simpl; [reflexivity|].
  destruct c as [cm w fs ts]. simpl in H. subst fs.
  unfold datetime_now, execute, posted_single, render.
  destruct ts; simpl; destruct (format_currency_amount _ dec); reflexivity.
Qed.

Lemma held_posted_single (g acc x : Z) (n : Dec.Decimal) (desc : description)
    (now : timestamp) (d : Tables) (a y : Z) :
  (Dec.value (held (posted_single g acc x n desc now d) a y)
   == Dec.value (held d a y)
      + (if (acc =? a) && (x =? y) then Dec.value n else 0))%Q.
Proof.
  rewrite !held_value. unfold posted_single. simpl.
  rewrite filter_app, map_app, total_value_app. simpl.
  rewrite entry_of_mk.
  destruct ((acc =? a) && (x =? y)); simpl; ring.
Qed.

Lemma filter_nothing {A : Type} (p : A -> bool) (l : list A) :
  (forall a, In a l -> p a = false) -> filter p l = [].
Proof.
  induction l as [|x l IH]; simpl; intros H; [reflexivity|].
  rewrite (H x (or_introl eq_refl)). apply IH. intros a Ha. apply H. right. exact Ha.
Qed.

Lemma filter_everything {A : Type} (p : A -> bool) (l : list A) :
  Forall (fun a => p a = true) l -> filter p l = l.
Proof.
  induction 1 as [|x l Hx _ IH]; simpl; [reflexivity|]. rewrite Hx, IH. reflexivity.
Qed.

Lemma NoDup_map_injective {A B : Type} (f : A -> B) (l : list A) (x y : A) :
  NoDup (map f l) -> In x l -> In y l -> f x = f y -> x = y.
Proof.
  induction l as [|z l IH]; simpl; intros ND Hx Hy E; [contradiction|].
  inversion ND as [|? ? Hz ND']; subst.
  destruct Hx as [-> | Hx], Hy as [-> | Hy]; auto.
  - exfalso. apply Hz. rewrite E. apply in_map, Hy.
  - exfalso. apply Hz. rewrite <- E. apply in_map, Hx.
Qed.

Lemma hd_error_filter_In {A B : Type} (f : A -> B) (p : A -> bool) (l : list A)
    (y : B) :
  hd_error (map f (filter p l)) = Some y ->
  exists x, In x l /\ p x = true /\ f x = y.
Proof.
  induction l as [|x l IH]; simpl; [discriminate|].
  destruct (p x) eqn:P; simpl.
  - intros [= <-]. exists x. auto.
  - intros H. destruct (IH H) as (x' & I & P' & F). exists x'. auto.
Qed.

Lemma ensure_treasury_account_found (g T : Z) (c : Conn) :
  faults c = [] ->
  hd_error (select_account_id "treasury" g (working c)) = Some T ->
  ensure_treasury_account g c = (Ok T, c).
Proof.
  intros H E. unfold ensure_treasury_account, bind.
  rewrite fetch_one_calm by exact H. rewrite E. reflexivity.
Qed.

(** The id column of an asset query row. *)
Definition asset_id_of (a : asset_info) : Z := fst (fst (fst a)).


(** X25.  What /fix_db commits for one currency.  By a manager of the
    guild, confirmed with YES, for an existing asset of a guild that has
    its treasury account, when the storage does not fail: the adjustment
    is the total of the user accounts as SQLite sums it, plus 1,000,000,
    minus the balance of the treasury as [balance_of] reads it.  When one
    of the two sums raises, nothing changes and the error is reported.
    When the adjustment is zero, nothing is posted.  Otherwise one
    transaction with one entry, the adjustment on the treasury, is posted,
    and kept only when [format_currency_amount] can render the adjustment
    for the message: when it raises, the posting is dropped and the error
    is reported. *)
Theorem fix_database_of_one_currency (env : Env) (db : Tables)
    (i : Interaction) (symbol : string) (guild_id treasury asset_id : Z)
    (s name : string) (decimals : Z) :
  env_faults env = [] ->
  is_guild_manager i = true ->
  i_guild i = Some guild_id ->
  symbol <> EmptyString ->
  hd_error (select_account_id "treasury" guild_id db) = Some treasury ->
  hd_error (select_asset guild_id symbol db) = Some (asset_id, s, name, decimals) ->
  fix_database env db i "YES" (Some symbol)
  = match adjustment db treasury asset_id guild_id with
    | Raise e => (db, Replied (FixError e))
    | Ok adj =>
        if Dec.is_zero adj then (db, Replied FixNothing)
        else
          match format_currency_amount (PyDecimal adj) decimals with
          | Text _ =>
              (posted_single guild_id treasury asset_id adj (DescDbFix s)
                 (hd 0 (env_clock env)) db,
               Replied (FixDone [(s, adj)]))
          | FormatError e => (db, Replied (FixError e))
          end
    end.
Proof.
  intros Hf Hm Hg Ns Ft Fa. unfold fix_database. rewrite Hm, Hg. cbn [negb].
  change (negb ("YES" =? "YES")%string) with false. cbv iota.
  assert (Tr : truthy (Some symbol) = true).
  { unfold truthy. destruct (String.eqb_spec symbol EmptyString);
      [contradiction | reflexivity]. }
  rewrite Tr.
  unfold with_connection, try_except. unfold bind at 1.
  set (c0 := connect db (env_faults env) (env_clock env)).
  assert (H0 : faults c0 = []) by exact Hf.
  rewrite (ensure_treasury_account_found guild_id treasury c0 H0 Ft).
  unfold get_asset_by_symbol. unfold bind at 1.
  rewrite fetch_one_calm by exact H0.
  change (working c0) with db. rewrite Fa.
  unfold fix_and_commit. cbn [fix_assets]. unfold bind.
  rewrite fix_asset_calm by exact H0. change (working c0) with db.
  destruct (adjustment db treasury asset_id guild_id) as [adj|e];
    [|reflexivity].
  destruct (Dec.is_zero adj); [reflexivity|].
  destruct (format_currency_amount (PyDecimal adj) decimals); reflexivity.
Qed.

Lemma fix_database_of_one_currency_witness :
  let db := fst (create_currency_command calm empty_db admin "GOLD" "Gold" 2 1000) in
  fix_database calm db admin "YES" (Some "GOLD")
  = match adjustment db 1 1 7 with
    | Raise e => (db, Replied (FixError e))
    | Ok adj =>
        if Dec.is_zero adj then (db, Replied FixNothing)
        else
          match format_currency_amount (PyDecimal adj) 2 with
          | Text _ =>
              (posted_single 7 1 1 adj (DescDbFix "GOLD") (hd 0 (env_clock calm)) db,
               Replied (FixDone [("GOLD", adj)]))
          | FormatError e => (db, Replied (FixError e))
          end
    end.
Proof.
  apply (fix_database_of_one_currency calm
           (fst (create_currency_command calm empty_db admin "GOLD" "Gold" 2 1000))
           admin "GOLD" 7 1 1 "GOLD" "Gold" 2).
  - reflexivity.
  - reflexivity.
  - reflexivity.
  - discriminate.
  - vm_compute. reflexivity.
  - vm_compute. reflexivity.
Defined.

(** C9: the code falls short of the claim.  After /create GOLD with 2
    decimals and a supply of 1000 and /give of 0.30 to alice, the treasury holds 999.70 and the
    user accounts hold 0.30; the target of the treasury is 1000000.30.
    /fix_db reads both sums as doubles and posts the adjustment
    999000.5999999999999545141629, after which the treasury holds
    1000000.2999999999999545141629: not the total of the user accounts
    plus 1,000,000.  A second /fix_db does not find the treasury at its
    target either and posts another entry.  And for a currency with
    negative decimals the adjustment is posted but cannot be rendered for
    the message: the exception is raised inside the [try], before the
    commit, and nothing of the repair is kept. *)
Theorem fix_database_misses_the_target :
  let db := run_history
              [(calm, Create admin "GOLD" "Gold" 2 1000);
               (calm, Give admin alice "GOLD" (Dec.mk 30 (-2)) None)]
              empty_db in
  let db' := fst (fix_database calm db admin "YES" None) in
  let db'' := fst (fix_database calm db' admin "YES" None) in
  let iron := fst (create_currency_command calm empty_db admin "IRON" "Iron" (-1) 1000) in
  hd_error (select_account_id "treasury" 7 db) = Some 1 /\
  (users_total db 1 7 == 30 # 100)%Q /\
  rows (ledger_entries db')
  = rows (ledger_entries db)
      ++ [mk_entry 4 3 1 1 (Dec.mk 9990005999999999999545141629 (-22))] /\
  held db' 1 1 = Dec.mk 10000002999999999999545141629 (-22) /\
  (users_total db' 1 7 == 30 # 100)%Q /\
  ~ (Dec.value (held db' 1 1) == users_total db' 1 7 + 1000000)%Q /\
  List.length (rows (ledger_entries db''))
  = S (List.length (rows (ledger_entries db'))) /\
  rows (ledger_entries iron) = [mk_entry 1 1 1 1 (Dec.of_int 1000)] /\
  fix_database calm iron admin "YES" None = (iron, Replied (FixError ValueError)).
Proof. vm_compute. repeat split; discriminate. Qed.

(* ====================================================================== *)
(** * Transactions and their entries *)

(** Only [users], [accounts] and [assets] differ. *)
Definition ledger_eq (d d' : Tables) : Prop :=
  transactions d' = transactions d /\ ledger_entries d' = ledger_entries d.

(** The descriptions of the two-entry postings of [transfer_currency]; the
    others belong to the one-entry transactions of [create_asset] and
    [fix_database]. *)
Definition two_legged (desc : description) : bool :=
  match desc with
  | DescPay _ _ _ | DescGive _ _ => true
  | DescInitialSupply _ | DescDbFix _ => false
  end.

(** The entries of a transaction, and those of them in one asset. *)
Definition entries_of_transaction (tid : Z) (d : Tables) : list entry_row :=
  filter (fun e => e_transaction_id e =? tid) (rows (ledger_entries d)).

Definition transaction_asset_amounts (tid asset_id : Z) (d : Tables)
    : list Dec.Decimal :=
  map e_amount
    (filter (fun e => e_asset_id e =? asset_id) (entries_of_transaction tid d)).

(** How the commands change [transactions] and [ledger_entries]: not at
    all, by a two-entry posting, by a one-entry transaction with a
    non-zero amount, or (for [with_delete = true]) by the deletion of the
    entries of an asset; and by several of these in a row. *)
Inductive ledger_step (with_delete : bool) : Tables -> Tables -> Prop :=
| step_same (d d' : Tables) : ledger_eq d d' -> ledger_step with_delete d d'
| step_posted (d : Tables) (g A B x : Z) (n : Dec.Decimal) (desc : description)
    (now : timestamp) :
    two_legged desc = true ->
    ledger_step with_delete d (posted g A B x n desc now d)
| step_single (d : Tables) (g acc x : Z) (n : Dec.Decimal) (desc : description)
    (now : timestamp) :
    two_legged desc = false -> Dec.is_zero n = false ->
    ledger_step with_delete d (posted_single g acc x n desc now d)
| step_deleted (d : Tables) (asset_id : Z) :
    with_delete = true -> ledger_step with_delete d (deleted asset_id d)
| step_trans (d1 d2 d3 : Tables) :
    ledger_step with_delete d1 d2 -> ledger_step with_delete d2 d3 ->
    ledger_step with_delete d1 d3.

Lemma ledger_eq_refl (d : Tables) : ledger_eq d d.
Proof. split; reflexivity. Qed.

Lemma step_refl (b : bool) (d : Tables) : ledger_step b d d.
Proof. apply step_same, ledger_eq_refl. Qed.

Lemma quiet_ledger_eq (d d' : Tables) : quiet d d' -> ledger_eq d d'.
Proof. intros (_ & T & E). split; assumption. Qed.

(** The invariant of the ledger:
    - ids are bounded by the counters ([ledger_bounded]);
    - the entries of a two-entry posting sum to zero in every asset;
    - a one-entry transaction has at most one entry, with a non-zero amount;
    - every entry belongs to a transaction row. *)
Record ledger_inv (d : Tables) : Prop := mk_ledger_inv
  { inv_bounded : ledger_bounded d;
    inv_zero_sum :
      forall t, In t (rows (transactions d)) ->
                two_legged (t_description t) = true ->
                forall x,
                  (Dec.total_value (transaction_asset_amounts (t_id t) x d) == 0)%Q;
    inv_single :
      forall t, In t (rows (transactions d)) ->
                two_legged (t_description t) = false ->
                (List.length (entries_of_transaction (t_id t) d) <= 1)%nat /\
                Forall (fun e => Dec.is_zero (e_amount e) = false)
                  (entries_of_transaction (t_id t) d);
    inv_entry_has_transaction :
      forall e, In e (rows (ledger_entries d)) ->
                exists t, In t (rows (transactions d)) /\
                          t_id t = e_transaction_id e }.

(** Every transaction row has an entry. *)
Definition transactions_have_entries (d : Tables) : Prop :=
  forall t, In t (rows (transactions d)) ->
            exists e, In e (rows (ledger_entries d)) /\
                      e_transaction_id e = t_id t.

Lemma ledger_inv_empty : ledger_inv empty_db.
Proof.
  split; simpl.
  - split; constructor.
  - contradiction.
  - contradiction.
  - contradiction.
Qed.

Lemma ledger_inv_eq (d d' : Tables) : ledger_eq d d' -> ledger_inv d -> ledger_inv d'.
Proof.
  intros [T E] [B Z S H].
  unfold ledger_bounded, transaction_asset_amounts, entries_of_transaction in *.
  split; unfold ledger_bounded, transaction_asset_amounts, entries_of_transaction;
    rewrite ?T, ?E; assumption.
Qed.

(** Entries of transactions that exist already are not touched by rows
    that carry a fresh transaction id. *)
Lemma old_entries_app (d : Tables) (t : transaction_row) (new : list entry_row) :
  ledger_bounded d -> In t (rows (transactions d)) ->
  Forall (fun e => e_transaction_id e = seq (transactions d) + 1) new ->
  filter (fun e => e_transaction_id e =? t_id t) (rows (ledger_entries d) ++ new)
  = filter (fun e => e_transaction_id e =? t_id t) (rows (ledger_entries d)).
Proof.
  intros [BT _] Ht Hn. rewrite filter_app.
  rewrite Forall_forall in BT. specialize (BT t Ht).
  rewrite (filter_nothing _ new); [apply app_nil_r|].
  intros e He. rewrite Forall_forall in Hn. rewrite (Hn e He).
  apply Z.eqb_neq. lia.
Qed.

Lemma fresh_entries_app (d : Tables) (new : list entry_row) :
  ledger_bounded d ->
  Forall (fun e => e_transaction_id e = seq (transactions d) + 1) new ->
  filter (fun e => e_transaction_id e =? seq (transactions d) + 1)
    (rows (ledger_entries d) ++ new)
  = new.
Proof.
  intros [_ BE] Hn. rewrite filter_app.
  rewrite (filter_nothing _ (rows (ledger_entries d))).
  - simpl. apply filter_everything. eapply Forall_impl; [|exact Hn].
    intros e ->. apply Z.eqb_refl.
  - intros e He. rewrite Forall_forall in BE. specialize (BE e He).
    apply Z.eqb_neq. lia.
Qed.

Lemma bounded_after_insert (d : Tables) (t : transaction_row) (new : list entry_row) :
  ledger_bounded d -> t_id t = seq (transactions d) + 1 ->
  Forall (fun e => e_transaction_id e = seq (transactions d) + 1) new ->
  Forall (fun t' => t_id t' <= seq (transactions d) + 1)
    (rows (transactions d) ++ [t]) /\
  Forall (fun e => e_transaction_id e <= seq (transactions d) + 1)
    (rows (ledger_entries d) ++ new).
Proof.
  intros [BT BE] Ht Hn. split; apply Forall_app; split.
  - eapply Forall_impl; [|exact BT]. simpl. intros; lia.
  - constructor; [lia|constructor].
  - eapply Forall_impl; [|exact BE]. simpl. intros; lia.
  - eapply Forall_impl; [|exact Hn]. simpl. intros; lia.
Qed.

(** A new transaction row with a fresh id and its entries keep the
    invariant when the entries are balanced (two-entry posting) or at most
    one and non-zero (one-entry transaction). *)
Lemma ledger_inv_insert (d d' : Tables) (t : transaction_row) (new : list entry_row) :
  ledger_inv d ->
  transactions d'
  = mk_table (rows (transactions d) ++ [t]) (seq (transactions d) + 1) ->
  t_id t = seq (transactions d) + 1 ->
  rows (ledger_entries d') = rows (ledger_entries d) ++ new ->
  Forall (fun e => e_transaction_id e = seq (transactions d) + 1) new ->
  (two_legged (t_description t) = true ->
   forall x, (Dec.total_value
                (map e_amount (filter (fun e => e_asset_id e =? x) new)) == 0)%Q) ->
  (two_legged (t_description t) = false ->
   (List.length new <= 1)%nat /\
   Forall (fun e => Dec.is_zero (e_amount e) = false) new) ->
  ledger_inv d'.
Proof.
  intros [B Z S H] HT Ht HE Hn Hz Hs.
  destruct (bounded_after_insert d t new B Ht Hn) as [BT' BE'].
  assert (Old : forall t0, In t0 (rows (transactions d)) ->
                 entries_of_transaction (t_id t0) d'
                 = entries_of_transaction (t_id t0) d).
  { intros t0 H0. unfold entries_of_transaction. rewrite HE.
    apply old_entries_app; assumption. }
  assert (New : entries_of_transaction (t_id t) d' = new).
  { unfold entries_of_transaction. rewrite HE, Ht.
    apply fresh_entries_app; assumption. }
  split.
  - unfold ledger_bounded. rewrite HT, HE. simpl. split; assumption.
  - intros t0 H0 L x. rewrite HT in H0. simpl in H0.
    apply in_app_or in H0. destruct H0 as [H0 | [<- | []]].
    + unfold transaction_asset_amounts. rewrite (Old t0 H0). apply (Z t0 H0 L).
    + unfold transaction_asset_amounts. rewrite New. apply (Hz L).
  - intros t0 H0 L. rewrite HT in H0. simpl in H0.
    apply in_app_or in H0. destruct H0 as [H0 | [<- | []]].
    + rewrite (Old t0 H0). apply (S t0 H0 L).
    + rewrite New. apply (Hs L).
  - intros e He. rewrite HE in He. rewrite HT. simpl.
    apply in_app_or in He. destruct He as [He | He].
    + destruct (H e He) as (t0 & H0 & E0). exists t0. split; [|exact E0].
      apply in_or_app. left. exact H0.
    + exists t. split; [apply in_or_app; right; left; reflexivity|].
      rewrite Forall_forall in Hn. rewrite (Hn e He). exact Ht.
Qed.

Lemma ledger_inv_posted (d : Tables) (g A B x : Z) (n : Dec.Decimal)
    (desc : description) (now : timestamp) :
  two_legged desc = true -> ledger_inv d ->
  ledger_inv (posted g A B x n desc now d).
Proof.
  intros L I.
  apply (ledger_inv_insert d _
           (mk_transaction (seq (transactions d) + 1) g desc now)
           [mk_entry (seq (ledger_entries d) + 1) (seq (transactions d) + 1)
              A x (Dec.neg n);
            mk_entry (seq (ledger_entries d) + 1 + 1) (seq (transactions d) + 1)
              B x n] I); try reflexivity.
  - repeat constructor.
  - intros _ y. simpl. destruct (x =? y); simpl; [|reflexivity].
    rewrite DecFacts.value_neg. ring.
  - simpl. congruence.
Qed.

Lemma ledger_inv_posted_single (d : Tables) (g acc x : Z) (n : Dec.Decimal)
    (desc : description) (now : timestamp) :
  two_legged desc = false -> Dec.is_zero n = false -> ledger_inv d ->
  ledger_inv (posted_single g acc x n desc now d).
Proof.
  intros L NZ I.
  apply (ledger_inv_insert d _
           (mk_transaction (seq (transactions d) + 1) g desc now)
           [mk_entry (seq (ledger_entries d) + 1) (seq (transactions d) + 1)
              acc x n] I); try reflexivity.
  - repeat constructor.
  - simpl. congruence.
  - intros _. simpl. split; [lia|]. repeat constructor. exact NZ.
Qed.

Lemma filter_filter_implied {A : Type} (p q : A -> bool) (l : list A) :
  (forall a, p a = true -> q a = true) -> filter p (filter q l) = filter p l.
Proof.
  intros H. induction l as [|x l IH]; simpl; [reflexivity|].
  destruct (q x) eqn:Q; simpl.
  - rewrite IH. reflexivity.
  - destruct (p x) eqn:P; [|exact IH]. rewrite (H x P) in Q. discriminate.
Qed.

Lemma filter_length_le {A : Type} (p : A -> bool) (l : list A) :
  (List.length (filter p l) <= List.length l)%nat.
Proof.
  induction l as [|x l IH]; simpl; [lia|]. destruct (p x); simpl; lia.
Qed.

Lemma Forall_filter {A : Type} (P : A -> Prop) (p : A -> bool) (l : list A) :
  Forall P l -> Forall P (filter p l).
Proof.
  intros H. rewrite Forall_forall in *. intros a Ha.
  apply filter_In in Ha. apply H, Ha.
Qed.

Lemma entries_of_transaction_deleted (tid a : Z) (d : Tables) :
  entries_of_transaction tid (deleted a d)
  = filter (fun e => negb (e_asset_id e =? a)) (entries_of_transaction tid d).
Proof. unfold entries_of_transaction, deleted. simpl. apply filter_comm. Qed.

Lemma ledger_inv_deleted (d : Tables) (a : Z) :
  ledger_inv d -> ledger_inv (deleted a d).
Proof.
  intros [[BT BE] Z S H]. split.
  - split; [exact BT|]. unfold deleted. simpl. apply Forall_filter, BE.
  - intros t Ht L x. unfold transaction_asset_amounts.
    rewrite entries_of_transaction_deleted.
    destruct (Z.eqb_spec x a) as [-> | N].
    + rewrite (filter_nothing (fun e => e_asset_id e =? a)); [reflexivity|].
      intros e He. apply filter_In in He. destruct He as [_ He].
      destruct (e_asset_id e =? a); [discriminate|reflexivity].
    + rewrite filter_filter_implied; [apply (Z t Ht L)|].
      intros e He. apply Z.eqb_eq in He.
      replace (e_asset_id e =? a) with false
        by (symmetry; apply Z.eqb_neq; congruence).
      reflexivity.
  - intros t Ht L. rewrite entries_of_transaction_deleted.
    destruct (S t Ht L) as [Len NZ]. split.
    + etransitivity; [apply filter_length_le | exact Len].
    + apply Forall_filter, NZ.
  - intros e He. unfold deleted in He. simpl in He.
    apply filter_In in He. apply (H e), He.
Qed.

(** The invariant holds along every step. *)
Lemma ledger_inv_step (b : bool) (d d' : Tables) :
  ledger_step b d d' -> ledger_inv d -> ledger_inv d'.
Proof.
  induction 1 as [d d' E | | | d a F | d1 d2 d3 _ IH1 _ IH2]; intros I.
  - exact (ledger_inv_eq _ _ E I).
  - apply ledger_inv_posted; assumption.
  - apply ledger_inv_posted_single; assumption.
  - apply ledger_inv_deleted; assumption.
  - auto.
Qed.

(** Without deletions every transaction row keeps an entry. *)
Lemma transactions_have_entries_step (d d' : Tables) :
  ledger_step false d d' ->
  transactions_have_entries d -> transactions_have_entries d'.
Proof.
  induction 1 as [d d' [T E] | | | d a F | d1 d2 d3 _ IH1 _ IH2]; intros I.
  - unfold transactions_have_entries. rewrite T, E. exact I.
  - intros t Ht. unfold posted in *. simpl in *.
    apply in_app_or in Ht. destruct Ht as [Ht | [<- | []]].
    + destruct (I t Ht) as (e & He & Ee). exists e. split; [|exact Ee].
      apply in_or_app. left. exact He.
    + eexists. split; [apply in_or_app; right; left; reflexivity|]. reflexivity.
  - intros t Ht. unfold posted_single in *. simpl in *.
    apply in_app_or in Ht. destruct Ht as [Ht | [<- | []]].
    + destruct (I t Ht) as (e & He & Ee). exists e. split; [|exact Ee].
      apply in_or_app. left. exact He.
    + eexists. split; [apply in_or_app; right; left; reflexivity|]. reflexivity.
  - discriminate.
  - auto.
Qed.

(* ====================================================================== *)
(** * What a run leaves behind, under any storage *)

(** [after (m c) Pok Perr]: when [m] returns [a] from [c] it leaves a
    connection with [Pok a]; when it raises it leaves one with [Perr]. *)
Definition after {A : Type} (rc : result A * Conn) (Pok : A -> Conn -> Prop)
    (Perr : Conn -> Prop) : Prop :=
  match rc with
  | (Ok a, c) => Pok a c
  | (Raise _, c) => Perr c
  end.

Lemma after_weaken {A : Type} (rc : result A * Conn) (P1 P2 : A -> Conn -> Prop)
    (E1 E2 : Conn -> Prop) :
  after rc P1 E1 ->
  (forall a c, P1 a c -> P2 a c) -> (forall c, E1 c -> E2 c) ->
  after rc P2 E2.
Proof. destruct rc as [[a|e] c]; simpl; auto. Qed.

Lemma after_ret {A : Type} (a : A) (c : Conn) (Pok : A -> Conn -> Prop)
    (Perr : Conn -> Prop) :
  Pok a c -> after (ret a c) Pok Perr.
Proof. auto. Qed.

Lemma after_bind {A B : Type} (m : M A) (f : A -> M B) (c : Conn)
    (Pok : B -> Conn -> Prop) (Perr : Conn -> Prop) :
  after (m c) (fun a c1 => after (f a c1) Pok Perr) Perr ->
  after (bind m f c) Pok Perr.
Proof. unfold bind. destruct (m c) as [[a|e] c1]; simpl; auto. Qed.

Lemma after_try {A : Type} (m : M A) (h : exn -> M A) (c : Conn)
    (Pok : A -> Conn -> Prop) (Perr : Conn -> Prop) :
  after (m c) Pok (fun c1 => forall e, after (h e c1) Pok Perr) ->
  after (try_except m h c) Pok Perr.
Proof. unfold try_except. destruct (m c) as [[a|e] c1]; simpl; auto. Qed.

Lemma execute_after {A : Type} (stmt : Tables -> result (A * Tables)) (c : Conn) :
  after (execute stmt c)
    (fun a c1 => committed c1 = committed c /\
                 stmt (working c) = Ok (a, working c1))
    (fun c1 => committed c1 = committed c).
Proof.
  destruct (execute_sound stmt c) as (C & _ & W). unfold after.
  destruct (execute stmt c) as [[a|e] c1]; simpl in *; auto.
Qed.

Lemma fetch_one_after {A : Type} (query : Tables -> list A) (c : Conn) :
  after (fetch_one query c)
    (fun r c1 => committed c1 = committed c /\ working c1 = working c /\
                 r = hd_error (query (working c)))
    (fun c1 => committed c1 = committed c).
Proof.
  destruct (fetch_one_sound query c) as (C & _ & W & R). unfold after.
  destruct (fetch_one query c) as [[a|e] c1]; simpl in *; auto.
Qed.

Lemma fetch_all_after {A : Type} (query : Tables -> list A) (c : Conn) :
  after (fetch_all query c)
    (fun r c1 => committed c1 = committed c /\ working c1 = working c /\
                 r = query (working c))
    (fun c1 => committed c1 = committed c).
Proof.
  destruct (fetch_all_sound query c) as (C & _ & W & R). unfold after.
  destruct (fetch_all query c) as [[a|e] c1]; simpl in *; auto.
Qed.

Lemma fetch_one_sum_after {A : Type} (query : Tables -> result (list A))
    (c : Conn) :
  after (fetch_one_sum query c)
    (fun _ c1 => committed c1 = committed c /\ working c1 = working c)
    (fun c1 => committed c1 = committed c).
Proof.
  destruct (fetch_one_sum_sound query c) as (C & _ & W & R). unfold after.
  destruct (fetch_one_sum query c) as [[a|e] c1]; simpl in *; auto.
Qed.

Lemma fetch_all_sum_after {A : Type} (query : Tables -> result (list A))
    (c : Conn) :
  after (fetch_all_sum query c)
    (fun _ c1 => committed c1 = committed c /\ working c1 = working c)
    (fun c1 => committed c1 = committed c).
Proof.
  destruct (fetch_all_sum_sound query c) as (C & _ & W & R). unfold after.
  destruct (fetch_all_sum query c) as [[a|e] c1]; simpl in *; auto.
Qed.

Lemma render_after (amount : amount_value) (decimals : Z) (c : Conn) :
  after (render amount decimals c) (fun _ c1 => c1 = c) (fun c1 => c1 = c).
Proof.
  unfold render, after.
  destruct (format_currency_amount amount decimals); reflexivity.
Qed.

Lemma quietly_after {A : Type} (m : M A) (c : Conn) :
  runs_quietly m ->
  after (m c)
    (fun _ c1 => committed c1 = committed c /\ quiet (working c) (working c1))
    (fun c1 => committed c1 = committed c).
Proof.
  intros H. destruct (H c) as (C & _ & Q). unfold after.
  destruct (m c) as [[a|e] c1]; simpl in *; auto.
Qed.

Lemma balance_of_after (a x : Z) (c : Conn) :
  after (balance_of a x c)
    (fun b c1 => committed c1 = committed c /\ working c1 = working c /\
                 b = balance (working c) a x)
    (fun c1 => committed c1 = committed c).
Proof.
  destruct (balance_of_sound a x c) as (C & _ & W & R). unfold after.
  destruct (balance_of a x c) as [[b|e] c1]; simpl in *; auto.
  split; [exact C|]. split; [exact W|]. apply (R b eq_refl).
Qed.

(** The two INSERTs of a one-entry transaction, as a block. *)
Lemma single_posting_after {A : Type} (g acc x : Z) (n : Dec.Decimal)
    (desc : description) (a : A) (c : Conn) :
  after
    (bind datetime_now
       (fun now =>
          bind (execute (insert_transaction g desc now))
            (fun tid =>
               bind (execute (insert_ledger_entry tid acc x n))
                 (fun _ => ret a))) c)
    (fun _ c1 => committed c1 = committed c /\
                 working c1
                 = posted_single g acc x n desc (hd 0 (clock c)) (working c))
    (fun c1 => committed c1 = committed c).
Proof.
  destruct c as [cm w fs ts].
  unfold after, bind, datetime_now, execute, posted_single.
  destruct ts; simpl; destruct fs as [|[] [|[] fs]]; simpl; auto.
Qed.

(** The same block, followed by more. *)
Lemma single_posting_then {A : Type} (g acc x : Z) (n : Dec.Decimal)
    (desc : description) (k : M A) (c : Conn) (Pok : A -> Conn -> Prop)
    (Perr : Conn -> Prop) :
  (forall c1, committed c1 = committed c ->
              working c1 = posted_single g acc x n desc (hd 0 (clock c)) (working c) ->
              after (k c1) Pok Perr) ->
  (forall c1, committed c1 = committed c -> Perr c1) ->
  after
    (bind datetime_now
       (fun now =>
          bind (execute (insert_transaction g desc now))
            (fun tid =>
               bind (execute (insert_ledger_entry tid acc x n))
                 (fun _ => k))) c)
    Pok Perr.
Proof.
  intros K E. destruct c as [cm w fs ts].
  unfold bind, datetime_now, execute, posted_single in *.
  destruct ts; simpl; destruct fs as [|[] [|[] fs]]; simpl;
    try (apply E; reflexivity); apply K; reflexivity.
Qed.

Section Runs.

(** The database a command starts from, and whether its steps may delete. *)
Variable with_delete : bool.
Variable db : Tables.

(** The connection has committed nothing yet, and what it has pending is a
    step of the ledger. *)
Definition pending (c : Conn) : Prop :=
  committed c = db /\ ledger_step with_delete db (working c).

(** What is committed is a step of the ledger away from [db]. *)
Definition settled (c : Conn) : Prop :=
  ledger_step with_delete db (committed c).

Lemma pending_settled (c : Conn) : pending c -> settled c.
Proof. intros [C _]. unfold settled. rewrite C. apply step_refl. Qed.

Lemma untouched_settled (c : Conn) : committed c = db -> settled c.
Proof. intros C. unfold settled. rewrite C. apply step_refl. Qed.

Lemma pending_connect (fs : list bool) (ts : list timestamp) :
  pending (connect db fs ts).
Proof. split; [reflexivity | apply step_refl]. Qed.

Lemma pending_same (c c1 : Conn) :
  pending c -> committed c1 = committed c -> working c1 = working c -> pending c1.
Proof. intros [C S] C1 W1. split; [congruence | rewrite W1; exact S]. Qed.

Lemma pending_ledger_eq (c c1 : Conn) :
  pending c -> committed c1 = committed c ->
  ledger_eq (working c) (working c1) -> pending c1.
Proof.
  intros [C S] C1 Q. split; [congruence|].
  apply (step_trans _ _ _ _ S). apply step_same, Q.
Qed.

Lemma pending_quiet (c c1 : Conn) :
  pending c -> committed c1 = committed c -> quiet (working c) (working c1) ->
  pending c1.
Proof.
  intros [C S] C1 Q. split; [congruence|].
  apply (step_trans _ _ _ _ S). apply step_same, quiet_ledger_eq, Q.
Qed.

Lemma positive_not_zero (a : Dec.Decimal) :
  Dec.ltb Dec.zero a = true -> Dec.is_zero a = false.
Proof.
  intros L. apply DecFacts.ltb_value in L. rewrite DecFacts.value_zero in L.
  destruct (Dec.is_zero a) eqn:Z0; [|reflexivity].
  apply DecFacts.is_zero_value in Z0. rewrite Z0 in L.
  exfalso. exact (Qlt_irrefl 0 L).
Qed.

Lemma rollback_settles {A : Type} (x : A) (c : Conn) :
  committed c = db ->
  after ((rollback ;;; ret x) c) (fun _ c1 => settled c1) settled.
Proof. intros C. apply untouched_settled. exact C. Qed.

Lemma create_asset_settles (g : Z) (s nm : string) (dec : Z) (supply : Dec.Decimal)
    (c : Conn) :
  pending c ->
  after (create_asset g s nm dec supply c) (fun _ c1 => settled c1) settled.
Proof.
  intros P. unfold create_asset. apply after_try.
  assert (Err : forall c1 : Conn,
             committed c1 = db ->
             forall e : exn,
               after ((rollback ;;; ret (false, MsgCreateError e, @None Z)) c1)
                 (fun _ c2 => settled c2) settled)
    by (intros c1 C1 e; apply rollback_settles, C1).
  apply after_bind.
  eapply after_weaken; [apply fetch_one_after | | intros c1 C1; apply Err; destruct P; congruence].
  intros existing c1 (C1 & W1 & _).
  assert (P1 : pending c1) by (apply (pending_same c); assumption).
  destruct existing as [id|]; [apply after_ret, pending_settled, P1|].
  apply after_bind.
  eapply after_weaken; [apply execute_after | | intros c2 C2; apply Err; destruct P1; congruence].
  intros aid c2 (C2 & I2).
  assert (P2 : pending c2).
  { apply (pending_ledger_eq c1); [exact P1 | exact C2 |].
    unfold insert_asset in I2. destruct (existsb _ _); [discriminate|].
    simpl in I2. injection I2 as _ <-. split; reflexivity. }
  apply after_bind.
  eapply after_weaken;
    [apply quietly_after, ensure_treasury_account_quiet | |
     intros c3 C3; apply Err; destruct P2; congruence].
  intros T c3 (C3 & Q3).
  assert (P3 : pending c3) by (apply (pending_quiet c2); assumption).
  apply after_bind.
  assert (Fin : forall c4, pending c4 ->
            after (bind commit
                     (fun _ => ret (true, MsgCreated s nm, Some aid)) c4)
              (fun _ c5 => settled c5)
              (fun c5 => forall e,
                   after ((rollback ;;; ret (false, MsgCreateError e, @None Z)) c5)
                     (fun _ c6 => settled c6) settled)).
  { intros c4 [_ S4]. exact S4. }
  destruct (Dec.ltb Dec.zero supply) eqn:L.
  - eapply after_weaken;
      [apply single_posting_after | |
       intros c4 C4; apply Err; destruct P3; congruence].
    intros u c4 (C4 & W4). apply Fin. destruct P3 as [C S]. split; [congruence|].
    rewrite W4. apply (step_trans _ _ _ _ S).
    apply step_single; [reflexivity | apply positive_not_zero, L].
  - apply after_ret. apply Fin, P3.
Qed.

Lemma with_connection_step (env : Env) (body : M reply) :
  after (body (connect db (env_faults env) (env_clock env)))
    (fun _ c => settled c) settled ->
  ledger_step with_delete db (fst (with_connection env db body)).
Proof.
  unfold with_connection, after, settled.
  destruct (body _) as [[r|e] c]; simpl; auto.
Qed.

Lemma create_currency_command_step (env : Env) (i : Interaction)
    (s nm : string) (dec supply : Z) :
  ledger_step with_delete db
    (fst (create_currency_command env db i s nm dec supply)).
Proof.
  unfold create_currency_command.
  destruct (negb (is_guild_manager i)); [apply step_refl|].
  destruct (i_guild i) as [g|]; [|apply step_refl].
  destruct (negb (is_valid_currency_symbol s)); [apply step_refl|].
  destruct (Dec.ltb (Dec.of_int supply) Dec.zero); [apply step_refl|].
  apply with_connection_step. apply after_bind.
  eapply after_weaken;
    [apply create_asset_settles, pending_connect | | intros c S; exact S].
  intros [[success message] asset_id] c S.
  destruct success; [|apply after_ret; exact S].
  apply after_bind.
  eapply after_weaken; [apply render_after | |]; cbv beta.
  - intros _ c1 ->. apply after_ret. exact S.
  - intros c1 ->. exact S.
Qed.

Lemma pay_currency_command_step (env : Env) (i : Interaction) (to_user : Member)
    (symbol : string) (amount : Dec.Decimal) (memo : option string) :
  ledger_step with_delete db
    (fst (pay_currency_command env db i to_user symbol amount memo)).
Proof.
  destruct (pay_currency_command_cases env db i to_user symbol amount memo)
    as [(E & _) | [(g & aid & s & nm & dec & q & d0 & A & _ & _ & _ & _ & _ & _ & _
                    & E & _)
                  | (g & aid & s & nm & dec & q & d0 & A & B & now
                     & _ & _ & _ & _ & Q & _ & _ & E & _)]];
    rewrite E; simpl.
  - apply step_refl.
  - apply step_refl.
  - apply (step_trans _ _ d0); [apply step_same, quiet_ledger_eq, Q|].
    apply step_posted. reflexivity.
Qed.

Lemma give_currency_command_step (env : Env) (i : Interaction) (user : Member)
    (symbol : string) (amount : Dec.Decimal) (memo : option string) :
  ledger_step with_delete db
    (fst (give_currency_command env db i user symbol amount memo)).
Proof.
  destruct (give_currency_command_cases env db i user symbol amount memo)
    as [(E & _) | [(g & aid & s & nm & dec & q & d0 & A & _ & _ & _ & _ & _ & _ & _
                    & E & _)
                  | (g & aid & s & nm & dec & q & d0 & A & B & now
                     & _ & _ & _ & _ & Q & _ & _ & E & _)]];
    rewrite E; simpl.
  - apply step_refl.
  - apply step_refl.
  - apply (step_trans _ _ d0); [apply step_same, quiet_ledger_eq, Q|].
    apply step_posted. reflexivity.
Qed.

Lemma delete_currency_command_step (env : Env) (i : Interaction) (symbol : string) :
  with_delete = true ->
  ledger_step with_delete db (fst (delete_currency_command env db i symbol)).
Proof.
  intros D. unfold delete_currency_command.
  destruct (negb (is_guild_manager i)); [apply step_refl|].
  destruct (i_guild i) as [g|]; [|apply step_refl].
  apply with_connection_step. unfold get_asset_by_symbol. apply after_bind.
  eapply after_weaken;
    [apply fetch_one_after | | intros c C; apply untouched_settled, C].
  intros asset c1 (C1 & W1 & _). simpl in C1, W1.
  destruct asset as [[[[aid s] nm] dec]|];
    [|apply after_ret, untouched_settled, C1].
  apply after_bind.
  eapply after_weaken;
    [apply fetch_all_sum_after | | intros c C; apply untouched_settled; congruence].
  intros balances c2 (C2 & W2).
  destruct (negb (Dec.is_zero (amount_of (total_of balances)))).
  { apply after_bind.
    eapply after_weaken; [apply render_after | |]; cbv beta.
    - intros _ c3 ->. apply after_ret, untouched_settled. congruence.
    - intros c3 ->. apply untouched_settled. congruence. }
  apply after_try. apply after_bind.
  assert (Err : forall c3 : Conn,
             committed c3 = db ->
             forall e : exn,
               after ((rollback ;;; ret (DeleteError e)) c3)
                 (fun _ c4 => settled c4) settled)
    by (intros c3 C3 e; apply rollback_settles, C3).
  eapply after_weaken;
    [apply execute_after | | intros c3 C3; apply Err; congruence].
  intros u c3 (C3 & I3). apply after_bind.
  eapply after_weaken;
    [apply execute_after | | intros c4 C4; apply Err; congruence].
  intros u' c4 (C4 & I4).
  unfold delete_entries_of_asset in I3. unfold delete_asset in I4.
  injection I3 as _ E3. injection I4 as _ E4.
  change (settled (mk_conn (working c4) (working c4) (faults c4) (clock c4))).
  unfold settled. simpl. rewrite <- E4, <- E3, W2, W1.
  exact (step_deleted with_delete db aid D).
Qed.

Lemma fix_asset_pending (g T : Z) (asset : asset_info)
    (fixed : list (string * Dec.Decimal)) (c : Conn) :
  pending c ->
  after (fix_asset g T asset fixed c) (fun _ c1 => pending c1)
    (fun c1 => committed c1 = db).
Proof.
  intros P. destruct asset as [[[aid sym] nm] dec]. unfold fix_asset.
  apply after_bind.
  eapply after_weaken;
    [apply balance_of_after | | intros c1 C1; destruct P; congruence].
  intros bal c1 (C1 & W1 & _).
  assert (P1 : pending c1) by (apply (pending_same c); assumption).
  apply after_bind.
  eapply after_weaken;
    [apply fetch_one_sum_after | | intros c2 C2; destruct P1; congruence].
  intros users c2 (C2 & W2).
  assert (P2 : pending c2) by (apply (pending_same c1); assumption).
  destruct (negb (Dec.is_zero _)) eqn:NZ; [|apply after_ret, P2].
  apply single_posting_then; [|intros c3 C3; destruct P2; congruence].
  intros c3 C3 W3.
  assert (P3 : pending c3).
  { destruct P2 as [C S]. split; [congruence|].
    rewrite W3. apply (step_trans _ _ _ _ S).
    apply step_single; [reflexivity|].
    apply negb_true_iff in NZ. exact NZ. }
  apply after_bind.
  eapply after_weaken; [apply render_after | |]; cbv beta.
  - intros _ c4 ->. apply after_ret, P3.
  - intros c4 ->. apply P3.
Qed.

Lemma fix_assets_pending (g T : Z) (l : list asset_info) :
  forall (fixed : list (string * Dec.Decimal)) (c : Conn),
    pending c ->
    after (fix_assets g T l fixed c) (fun _ c1 => pending c1)
      (fun c1 => committed c1 = db).
Proof.
  induction l as [|asset l IH]; intros fixed c P.
  - apply after_ret, P.
  - cbn [fix_assets]. apply after_bind.
    eapply after_weaken; [apply fix_asset_pending, P | | auto].
    intros fixed1 c1 P1. apply IH, P1.
Qed.

Lemma fix_and_commit_settles (g T : Z) (l : list asset_info) (c : Conn) :
  pending c ->
  after (fix_and_commit g T l c) (fun _ c1 => settled c1)
    (fun c1 => committed c1 = db).
Proof.
  intros P. unfold fix_and_commit. apply after_bind.
  eapply after_weaken; [apply fix_assets_pending, P | | auto].
  intros fixed c1 [_ S1].
  destruct fixed; exact S1.
Qed.

Lemma fix_database_step (env : Env) (i : Interaction) (confirm : string)
    (symbol : option string) :
  ledger_step with_delete db (fst (fix_database env db i confirm symbol)).
Proof.
  unfold fix_database.
  destruct (negb (is_guild_manager i)); [apply step_refl|].
  destruct (i_guild i) as [g|]; [|apply step_refl].
  destruct (negb (confirm =? "YES")%string); [apply step_refl|].
  apply with_connection_step. apply after_try. apply after_bind.
  assert (Err : forall c1 : Conn,
             committed c1 = db ->
             forall e : exn,
               after (ret (FixError e) c1) (fun _ c2 => settled c2) settled)
    by (intros c1 C1 e; apply untouched_settled, C1).
  eapply after_weaken;
    [apply quietly_after, ensure_treasury_account_quiet | |
     intros c1 C1; apply Err, C1].
  intros T c1 (C1 & Q1).
  assert (P1 : pending c1)
    by (apply (pending_quiet (connect db (env_faults env) (env_clock env)));
        [apply pending_connect | exact C1 | exact Q1]).
  destruct (truthy symbol).
  - unfold get_asset_by_symbol. apply after_bind.
    eapply after_weaken;
      [apply fetch_one_after | | intros c2 C2; apply Err; destruct P1; congruence].
    intros asset c2 (C2 & W2 & _).
    assert (P2 : pending c2) by (apply (pending_same c1); assumption).
    destruct asset as [asset|]; [|apply after_ret, pending_settled, P2].
    eapply after_weaken;
      [apply fix_and_commit_settles, P2 | auto | intros c3 C3; apply Err, C3].
  - unfold get_guild_assets. apply after_bind.
    eapply after_weaken;
      [apply fetch_all_after | | intros c2 C2; apply Err; destruct P1; congruence].
    intros assets_to_fix c2 (C2 & W2 & _).
    assert (P2 : pending c2) by (apply (pending_same c1); assumption).
    eapply after_weaken;
      [apply fix_and_commit_settles, P2 | auto | intros c3 C3; apply Err, C3].
Qed.

End Runs.

(* ====================================================================== *)
(** * Every database the commands can produce *)

Definition is_delete (cmd : command) : bool :=
  match cmd with
  | Delete _ _ => true
  | _ => false
  end.

Lemma run_command_step (env : Env) (cmd : command) (db : Tables) :
  ledger_step true db (fst (run_command env cmd db)).
Proof.
  destruct cmd; simpl.
  - apply create_currency_command_step.
  - apply pay_currency_command_step.
  - apply give_currency_command_step.
  - apply delete_currency_command_step. reflexivity.
  - apply fix_database_step.
Qed.

Lemma run_command_step_no_delete (env : Env) (cmd : command) (db : Tables) :
  is_delete cmd = false -> ledger_step false db (fst (run_command env cmd db)).
Proof.
  destruct cmd; simpl; intros D.
  - apply create_currency_command_step.
  - apply pay_currency_command_step.
  - apply give_currency_command_step.
  - discriminate.
  - apply fix_database_step.
Qed.

Lemma reachable_ledger_inv (d : Tables) : reachable d -> ledger_inv d.
Proof.
  induction 1 as [|db env cmd _ IH].
  - apply ledger_inv_empty.
  - exact (ledger_inv_step _ _ _ (run_command_step env cmd db) IH).
Qed.

Lemma run_history_reachable (h : list (Env * command)) :
  forall db, reachable db -> reachable (run_history h db).
Proof.
  induction h as [|[env cmd] h IH]; intros db R; simpl.
  - exact R.
  - apply IH. apply reachable_step. exact R.
Qed.

Lemma run_history_keeps_entries (h : list (Env * command)) :
  Forall (fun ec => is_delete (snd ec) = false) h ->
  forall db, transactions_have_entries db ->
             transactions_have_entries (run_history h db).
Proof.
  induction 1 as [|[env cmd] h D _ IH]; intros db T; simpl.
  - exact T.
  - apply IH.
    exact (transactions_have_entries_step _ _
             (run_command_step_no_delete env cmd db D) T).
Qed.

Lemma gold_ledger_reachable : reachable gold_ledger.
Proof. apply run_history_reachable, reachable_empty. Qed.

(** The amount of /pay is cut before it is posted: 30.019 of a currency
    with two decimals is posted as 30.01. *)
Lemma pay_posts_truncated_amount :
  snd (pay_currency_command calm gold_ledger alice_interaction bob "GOLD"
         (Dec.mk 30019 (-3)) None)
  = Replied (PayDone (Dec.mk 3001 (-2)) "GOLD").
Proof. vm_compute. reflexivity. Qed.

(** The scenario of the specification: supply 1000, issue 100.00 to alice,
    transfer 30.00 from alice to bob; then the treasury holds 900, alice
    70 and bob 30, which is also what [balance_of] reads (the amounts are
    whole numbers); the entries of the currency sum to 1000, and /delete
    removes nothing and is left by the [AttributeError] of the rendering
    of that total. *)
Lemma gold_scenario :
  let db := fst (pay_currency_command calm gold_ledger alice_interaction bob
                   "GOLD" (Dec.mk 30 0) None) in
  Dec.eqb (held db 1 1) (Dec.of_int 900) = true /\
  Dec.eqb (held db 2 1) (Dec.of_int 70) = true /\
  Dec.eqb (held db 3 1) (Dec.of_int 30) = true /\
  read_balance db 1 1 = Ok (Dec.of_int 900) /\
  read_balance db 2 1 = Ok (Dec.of_int 70) /\
  read_balance db 3 1 = Ok (Dec.of_int 30) /\
  (asset_total 1 db == 1000)%Q /\
  delete_currency_command calm db admin "GOLD" = (db, Unhandled AttributeError).
Proof. vm_compute. repeat split. Qed.

(** C1 fails as stated: the transaction [create_asset] commits for an
    initial supply has a single entry, so its entries in the asset sum to
    the supply, here 1000. *)
Lemma genesis_transaction_not_zero_sum :
  let db := fst (create_currency_command calm empty_db admin "GOLD" "Gold" 2 1000) in
  reachable db /\
  rows (transactions db) = [mk_transaction 1 7 (DescInitialSupply "GOLD") 0] /\
  transaction_asset_amounts 1 1 db = [Dec.of_int 1000] /\
  ~ (Dec.total_value (transaction_asset_amounts 1 1 db) == 0)%Q.
Proof.
  cbv zeta. split; [|split; [|split]].
  - apply (reachable_step empty_db calm (Create admin "GOLD" "Gold" 2 1000)).
    apply reachable_empty.
  - reflexivity.
  - reflexivity.
  - vm_compute. discriminate.
Qed.

(** C1 (amended).  In every database the commands can produce, the
    entries of every transaction posted by [transfer_currency] (the
    postings of /pay and /give) sum to zero in every asset; a transaction
    of [create_asset] (initial supply) or of [fix_database] (adjustment)
    has at most one entry, and its amount is not zero. *)
Theorem zero_sum_of_postings (d : Tables) (t : transaction_row) :
  reachable d ->
  In t (rows (transactions d)) ->
  (two_legged (t_description t) = true ->
   forall asset_id,
     (Dec.total_value (transaction_asset_amounts (t_id t) asset_id d) == 0)%Q)
  /\
  (two_legged (t_description t) = false ->
   (List.length (entries_of_transaction (t_id t) d) <= 1)%nat /\
   Forall (fun e => Dec.is_zero (e_amount e) = false)
     (entries_of_transaction (t_id t) d)).
Proof.
  intros R Ht. destruct (reachable_ledger_inv d R) as [_ Z S _].
  split; intros L.
  - exact (Z t Ht L).
  - exact (S t Ht L).
Qed.

Lemma zero_sum_of_postings_witness :
  (two_legged (DescGive "alice" None) = true ->
   forall asset_id,
     (Dec.total_value (transaction_asset_amounts 2 asset_id gold_ledger) == 0)%Q)
  /\
  (two_legged (DescGive "alice" None) = false ->
   (List.length (entries_of_transaction 2 gold_ledger) <= 1)%nat /\
   Forall (fun e => Dec.is_zero (e_amount e) = false)
     (entries_of_transaction 2 gold_ledger)).
Proof.
  apply (zero_sum_of_postings gold_ledger
           (mk_transaction 2 7 (DescGive "alice" None) 0)).
  - exact gold_ledger_reachable.
  - right. left. reflexivity.
Defined.

(** C7 fails as stated: create a currency without supply, issue an amount
    that is cut to 0.00, delete the currency.  The transaction row of the
    issuance is still there; its entries are gone. *)
Lemma transaction_without_entries :
  let db := run_history
              [(calm, Create admin "GOLD" "Gold" 2 0);
               (calm, Give admin alice "GOLD" (Dec.mk 1 (-3)) None);
               (calm, Delete admin "GOLD")]
              empty_db in
  reachable db /\
  rows (transactions db) = [mk_transaction 1 7 (DescGive "alice" None) 0] /\
  rows (ledger_entries db) = [].
Proof.
  cbv zeta. split; [|split].
  - apply run_history_reachable, reachable_empty.
  - reflexivity.
  - reflexivity.
Qed.

(** C7 (amended).  In every database the commands can produce, every
    ledger entry refers to a transaction row that exists.  After a history
    without /delete, every transaction row has an entry as well.  The
    deletion of a currency removes entries and leaves [transactions] as it
    is, so after it the rows of the removed entries stay without them. *)
Theorem entries_and_transactions :
  (forall d, reachable d ->
     forall e, In e (rows (ledger_entries d)) ->
       exists t, In t (rows (transactions d)) /\ t_id t = e_transaction_id e)
  /\
  (forall h, Forall (fun ec => is_delete (snd ec) = false) h ->
     forall t, In t (rows (transactions (run_history h empty_db))) ->
       exists e, In e (rows (ledger_entries (run_history h empty_db))) /\
                 e_transaction_id e = t_id t)
  /\
  (forall d asset_id, transactions (deleted asset_id d) = transactions d).
Proof.
  split; [|split].
  - intros d R. exact (inv_entry_has_transaction d (reachable_ledger_inv d R)).
  - intros h D. apply (run_history_keeps_entries h D empty_db).
    intros t [].
  - reflexivity.
Qed.

(* ====================================================================== *)
(** * The constraints of the schema hold in every reachable database *)

(** The UNIQUE constraint of [assets], the primary key of [accounts] with
    its counter, and the naming of accounts. *)
Definition tables_wf (d : Tables) : Prop :=
  unique_symbols d /\ accounts_wf d /\
  Forall (fun a => acc_id a <= seq (accounts d)) (rows (accounts d)).

Lemma NoDup_snoc {A : Type} (l : list A) (x : A) :
  NoDup l -> ~ In x l -> NoDup (l ++ [x]).
Proof.
  intros ND NI. induction ND as [|y l Hy ND IH]; simpl.
  - constructor; [intros []|constructor].
  - constructor.
    + intros H. apply in_app_or in H. destruct H as [H | [-> | []]].
      * exact (Hy H).
      * apply NI. left. reflexivity.
    + apply IH. intros H. apply NI. right. exact H.
Qed.

(** A DELETE keeps a UNIQUE constraint. *)
Lemma delete_rows_unique {A K : Type} (key : A -> K) (cond : A -> bool)
    (t : Table A) :
  NoDup (map key (rows t)) -> NoDup (map key (rows (delete_rows cond t))).
Proof.
  unfold delete_rows. simpl. intros ND.
  induction (rows t) as [|r rs IH]; simpl; [constructor|].
  inversion ND as [|? ? Fresh ND']; subst.
  destruct (cond r); simpl; [exact (IH ND')|].
  constructor; [|exact (IH ND')].
  intros H. apply Fresh. apply in_map_iff in H. destruct H as (r' & E & Hr').
  apply filter_In in Hr'. rewrite <- E. apply in_map, Hr'.
Qed.

Lemma existsb_false_not_in {A K : Type} (key : A -> K) (p : A -> bool) (k : K)
    (l : list A) :
  (forall a, key a = k -> p a = true) ->
  existsb p l = false -> ~ In k (map key l).
Proof.
  intros Hp E H. apply in_map_iff in H. destruct H as (a & Ka & Ha).
  assert (existsb p l = true) by (apply existsb_exists; exists a; auto).
  congruence.
Qed.

Lemma empty_db_wf : tables_wf empty_db.
Proof.
  repeat split; simpl; constructor.
Qed.

Lemma insert_asset_wf (g : Z) (s nm : string) (dec : Z) (d d' : Tables) (id : Z) :
  tables_wf d -> insert_asset g s nm dec d = Ok (id, d') -> tables_wf d'.
Proof.
  intros (U & A & B). unfold insert_asset.
  destruct (existsb _ _) eqn:E; [discriminate|]. intros [= _ <-].
  split; [|split; assumption].
  unfold unique_symbols. simpl. rewrite map_app. apply NoDup_snoc; [exact U|].
  simpl. apply (existsb_false_not_in _ (asset_key g s)); [|exact E].
  intros a Ka. apply asset_key_spec. exact Ka.
Qed.

Lemma insert_account_wf (uid : option Z) (g : Z) (name : string)
    (ty : account_type) (d d' : Tables) (id : Z) :
  (ty = TUser -> name <> "treasury") ->
  tables_wf d -> insert_account uid g name ty d = Ok (id, d') -> tables_wf d'.
Proof.
  intros Hn (U & (ND & Names) & B). unfold insert_account.
  destruct (existsb _ _); [discriminate|]. intros [= _ <-].
  split; [exact U|]. split; [split|]; simpl.
  - rewrite map_app. apply NoDup_snoc; [exact ND|]. simpl.
    intros H. apply in_map_iff in H. destruct H as (a & Ia & Ha).
    rewrite Forall_forall in B. specialize (B a Ha). lia.
  - apply Forall_app. split; [exact Names|]. constructor; [exact Hn|constructor].
  - apply Forall_app. split.
    + eapply Forall_impl; [|exact B]. simpl. intros; lia.
    + constructor; [simpl; lia|constructor].
Qed.

Lemma delete_asset_wf (aid : Z) (d d' : Tables) (u : unit) :
  tables_wf d -> delete_asset aid d = Ok (u, d') -> tables_wf d'.
Proof.
  intros (U & A & B). unfold delete_asset. intros [= _ <-].
  split; [|split; [exact A | exact B]].
  exact (delete_rows_unique _ _ (assets d) U).
Qed.

(** Running [m] keeps the constraints on both sides of the connection. *)
Definition keeps_wf {A : Type} (m : M A) : Prop :=
  forall c, tables_wf (committed c) -> tables_wf (working c) ->
            tables_wf (committed (snd (m c))) /\ tables_wf (working (snd (m c))).

Lemma keeps_wf_ret {A : Type} (a : A) : keeps_wf (ret a).
Proof. intros c; simpl; auto. Qed.

Lemma keeps_wf_raise {A : Type} (e : exn) : keeps_wf (@raise A e).
Proof. intros c; simpl; auto. Qed.

Lemma keeps_wf_commit : keeps_wf commit.
Proof. intros c; simpl; auto. Qed.

Lemma keeps_wf_rollback : keeps_wf rollback.
Proof. intros c; simpl; auto. Qed.

Lemma keeps_wf_now : keeps_wf datetime_now.
Proof. intros c. unfold datetime_now. destruct (clock c); simpl; auto. Qed.

Lemma keeps_wf_bind {A B : Type} (m : M A) (f : A -> M B) :
  keeps_wf m -> (forall a, keeps_wf (f a)) -> keeps_wf (bind m f).
Proof.
  intros Hm Hf c C W. unfold bind. specialize (Hm c C W).
  destruct (m c) as [[a|e] c1]; simpl in *; [|exact Hm].
  destruct Hm as [C1 W1]. exact (Hf a c1 C1 W1).
Qed.

Lemma keeps_wf_try {A : Type} (m : M A) (h : exn -> M A) :
  keeps_wf m -> (forall e, keeps_wf (h e)) -> keeps_wf (try_except m h).
Proof.
  intros Hm Hh c C W. unfold try_except. specialize (Hm c C W).
  destruct (m c) as [[a|e] c1]; simpl in *; [exact Hm|].
  destruct Hm as [C1 W1]. exact (Hh e c1 C1 W1).
Qed.

Lemma keeps_wf_execute {A : Type} (stmt : Tables -> result (A * Tables)) :
  (forall d a d', tables_wf d -> stmt d = Ok (a, d') -> tables_wf d') ->
  keeps_wf (execute stmt).
Proof.
  intros H c C W. destruct (execute_sound stmt c) as (C1 & _ & W1).
  rewrite C1. split; [exact C|].
  destruct (fst (execute stmt c)).
  - exact (H _ _ _ W W1).
  - rewrite W1. exact W.
Qed.

Lemma keeps_wf_fetch_one {A : Type} (query : Tables -> list A) :
  keeps_wf (fetch_one query).
Proof.
  apply keeps_wf_execute. intros d a d' W [= _ <-]. exact W.
Qed.

Lemma keeps_wf_fetch_all {A : Type} (query : Tables -> list A) :
  keeps_wf (fetch_all query).
Proof.
  apply keeps_wf_execute. intros d a d' W [= _ <-]. exact W.
Qed.

Lemma keeps_wf_fetch_one_sum {A : Type} (query : Tables -> result (list A)) :
  keeps_wf (fetch_one_sum query).
Proof.
  apply keeps_wf_execute. intros d a d' W. unfold evaluate.
  destruct (query d); [|discriminate]. intros [= _ <-]. exact W.
Qed.

Lemma keeps_wf_fetch_all_sum {A : Type} (query : Tables -> result (list A)) :
  keeps_wf (fetch_all_sum query).
Proof.
  apply keeps_wf_execute. intros d a d' W. unfold evaluate.
  destruct (query d); [|discriminate]. intros [= _ <-]. exact W.
Qed.

Lemma keeps_wf_render (amount : amount_value) (decimals : Z) :
  keeps_wf (render amount decimals).
Proof. intros c C W. rewrite render_sound. auto. Qed.

Lemma keeps_wf_other_tables {A : Type} (stmt : Tables -> result (A * Tables)) :
  (forall d a d', stmt d = Ok (a, d') ->
                  assets d' = assets d /\ accounts d' = accounts d) ->
  keeps_wf (execute stmt).
Proof.
  intros H. apply keeps_wf_execute. intros d a d' W E.
  destruct (H d a d' E) as [EA EC].
  unfold tables_wf, unique_symbols, accounts_wf in *. rewrite EA, EC. exact W.
Qed.

Lemma user_account_name_not_treasury (u : Z) : user_account_name u <> "treasury".
Proof. unfold user_account_name. simpl. discriminate. Qed.

(** One step of a proof that a function keeps the constraints. *)
Ltac keeps_wf_step :=
  first
    [ apply keeps_wf_ret | apply keeps_wf_raise | apply keeps_wf_commit
    | apply keeps_wf_rollback | apply keeps_wf_now
    | apply keeps_wf_fetch_one | apply keeps_wf_fetch_all
    | apply keeps_wf_fetch_one_sum | apply keeps_wf_fetch_all_sum
    | apply keeps_wf_render
    | apply keeps_wf_bind; [|intros ?]
    | apply keeps_wf_try; [|intros ?]
    | apply keeps_wf_execute;
      let W := fresh "W" in
      let E := fresh "E" in
      intros ? ? ? W E;
      first [ exact (insert_asset_wf _ _ _ _ _ _ _ W E)
            | exact (delete_asset_wf _ _ _ _ W E)
            | refine (insert_account_wf _ _ _ _ _ _ _ _ W E);
              first [discriminate
                    | intros _; apply user_account_name_not_treasury] ]
    | apply keeps_wf_other_tables; intros ? ? ?;
      first [ unfold insert_user; destruct (existsb _ _); [discriminate|]
            | unfold insert_transaction | unfold insert_ledger_entry
            | unfold delete_entries_of_asset ];
      intros [= _ <-]; split; reflexivity
    | match goal with
      | |- keeps_wf (match ?x with _ => _ end) => destruct x
      end
    | progress cbv beta zeta ].

Lemma upsert_user_wf (u : Z) : keeps_wf (upsert_user u).
Proof. unfold upsert_user. repeat keeps_wf_step. Qed.

Lemma ensure_user_account_wf (u g : Z) : keeps_wf (ensure_user_account u g).
Proof.
  unfold ensure_user_account.
  apply keeps_wf_bind; [apply upsert_user_wf|]. intros uid.
  repeat keeps_wf_step.
Qed.

Lemma ensure_treasury_account_wf (g : Z) : keeps_wf (ensure_treasury_account g).
Proof. unfold ensure_treasury_account. repeat keeps_wf_step. Qed.

Lemma balance_of_wf (a x : Z) : keeps_wf (balance_of a x).
Proof. unfold balance_of. repeat keeps_wf_step. Qed.

Lemma quantize_wf (a : Dec.Decimal) (dec : Z) : keeps_wf (quantize a dec).
Proof. unfold quantize. repeat keeps_wf_step. Qed.

Lemma transfer_currency_wf (g A B x : Z) (n : Dec.Decimal) (desc : description) :
  keeps_wf (transfer_currency g A B x n desc).
Proof. unfold transfer_currency. repeat keeps_wf_step. Qed.

Lemma create_asset_wf (g : Z) (s nm : string) (dec : Z) (supply : Dec.Decimal) :
  keeps_wf (create_asset g s nm dec supply).
Proof.
  unfold create_asset.
  apply keeps_wf_try; [|intros e; repeat keeps_wf_step].
  apply keeps_wf_bind; [keeps_wf_step|]. intros [id|]; [keeps_wf_step|].
  apply keeps_wf_bind; [keeps_wf_step|]. intros aid.
  apply keeps_wf_bind; [apply ensure_treasury_account_wf|]. intros T.
  repeat keeps_wf_step.
Qed.

Lemma fix_asset_wf (g T : Z) (asset : asset_info)
    (fixed : list (string * Dec.Decimal)) :
  keeps_wf (fix_asset g T asset fixed).
Proof.
  destruct asset as [[[aid sym] nm] dec]. unfold fix_asset.
  apply keeps_wf_bind; [apply balance_of_wf|]. intros bal.
  repeat keeps_wf_step.
Qed.

Lemma fix_assets_wf (g T : Z) (l : list asset_info) :
  forall fixed, keeps_wf (fix_assets g T l fixed).
Proof.
  induction l as [|asset l IH]; intros fixed; cbn [fix_assets].
  - keeps_wf_step.
  - apply keeps_wf_bind; [apply fix_asset_wf | exact IH].
Qed.

Lemma fix_and_commit_wf (g T : Z) (l : list asset_info) :
  keeps_wf (fix_and_commit g T l).
Proof.
  unfold fix_and_commit.
  apply keeps_wf_bind; [apply fix_assets_wf|]. intros fixed.
  repeat keeps_wf_step.
Qed.

Lemma with_connection_wf (env : Env) (db : Tables) (body : M reply) :
  tables_wf db -> keeps_wf body -> tables_wf (fst (with_connection env db body)).
Proof.
  intros W K. unfold with_connection.
  specialize (K (connect db (env_faults env) (env_clock env)) W W).
  destruct (body _) as [r c]. simpl in *. apply K.
Qed.

Lemma run_command_wf (env : Env) (cmd : command) (db : Tables) :
  tables_wf db -> tables_wf (fst (run_command env cmd db)).
Proof.
  intros W. destruct cmd; simpl.
  - unfold create_currency_command.
    repeat match goal with
           | |- tables_wf (fst (if ?b then _ else _)) => destruct b
           | |- tables_wf (fst (match ?x with _ => _ end)) => destruct x
           end; try exact W.
    apply with_connection_wf; [exact W|].
    apply keeps_wf_bind; [apply create_asset_wf|]. intros [[success message] aid].
    repeat keeps_wf_step.
  - unfold pay_currency_command.
    repeat match goal with
           | |- tables_wf (fst (if ?b then _ else _)) => destruct b
           | |- tables_wf (fst (match ?x with _ => _ end)) => destruct x
           end; try exact W.
    apply with_connection_wf; [exact W|].
    unfold get_asset_by_symbol.
    apply keeps_wf_bind; [keeps_wf_step|]. intros [[[[aid s] nm] dec]|];
      [|keeps_wf_step].
    apply keeps_wf_bind; [apply quantize_wf|]. intros q.
    apply keeps_wf_bind; [apply ensure_user_account_wf|]. intros A.
    apply keeps_wf_bind; [apply ensure_user_account_wf|]. intros B.
    apply keeps_wf_bind; [apply balance_of_wf|]. intros bal.
    destruct (Dec.ltb bal q); [repeat keeps_wf_step|].
    apply keeps_wf_bind; [apply transfer_currency_wf|]. intros success.
    repeat keeps_wf_step.
  - unfold give_currency_command.
    repeat match goal with
           | |- tables_wf (fst (if ?b then _ else _)) => destruct b
           | |- tables_wf (fst (match ?x with _ => _ end)) => destruct x
           end; try exact W.
    apply with_connection_wf; [exact W|].
    unfold get_asset_by_symbol.
    apply keeps_wf_bind; [keeps_wf_step|]. intros [[[[aid s] nm] dec]|];
      [|keeps_wf_step].
    apply keeps_wf_bind; [apply quantize_wf|]. intros q.
    apply keeps_wf_bind; [apply ensure_treasury_account_wf|]. intros A.
    apply keeps_wf_bind; [apply ensure_user_account_wf|]. intros B.
    apply keeps_wf_bind; [apply balance_of_wf|]. intros bal.
    destruct (Dec.ltb bal q); [repeat keeps_wf_step|].
    apply keeps_wf_bind; [apply transfer_currency_wf|]. intros success.
    repeat keeps_wf_step.
  - unfold delete_currency_command.
    repeat match goal with
           | |- tables_wf (fst (if ?b then _ else _)) => destruct b
           | |- tables_wf (fst (match ?x with _ => _ end)) => destruct x
           end; try exact W.
    apply with_connection_wf; [exact W|].
    unfold get_asset_by_symbol. repeat keeps_wf_step.
  - unfold fix_database.
    repeat match goal with
           | |- tables_wf (fst (if ?b then _ else _)) => destruct b
           | |- tables_wf (fst (match ?x with _ => _ end)) => destruct x
           end; try exact W.
    apply with_connection_wf; [exact W|].
    apply keeps_wf_try; [|intros e; keeps_wf_step].
    apply keeps_wf_bind; [apply ensure_treasury_account_wf|]. intros T.
    destruct (truthy symbol).
    + unfold get_asset_by_symbol.
      apply keeps_wf_bind; [keeps_wf_step|]. intros [asset|]; [|keeps_wf_step].
      apply fix_and_commit_wf.
    + unfold get_guild_assets.
      apply keeps_wf_bind; [keeps_wf_step|]. intros l.
      apply fix_and_commit_wf.
Qed.

(** The hypotheses [unique_symbols] and [accounts_wf] of the theorems on
    [delete_currency_command] and [fix_database] hold in every database
    the commands can produce. *)
Lemma reachable_wf (d : Tables) :
  reachable d -> unique_symbols d /\ accounts_wf d.
Proof.
  intros R.
  assert (W : tables_wf d).
  { induction R as [|db env cmd _ IH]; [apply empty_db_wf|].
    apply run_command_wf, IH. }
  destruct W as (U & A & _). split; assumption.
Qed.

(* ====================================================================== *)
(** * Failures of the storage cancel a command, they never cut it short *)

(** The world of [env] without its failures of the storage. *)
Definition without_faults (env : Env) : Env := mk_env [] (env_clock env).

(** The connection with an empty schedule of failures. *)
Definition calmed (c : Conn) : Conn := set_faults [] c.

(** From [c], [m] does what it does when the storage never fails. *)
Definition unhindered {A : Type} (m : M A) (c : Conn) : Prop :=
  m (calmed c) = (fst (m c), calmed (snd (m c))).

(** From [c], [m] committed nothing, and when it returns, it returns a value
    that says so ([K]). *)
Definition cancelled {A : Type} (K : A -> Prop) (m : M A) (c : Conn) : Prop :=
  committed (snd (m c)) = committed c /\ forall a, fst (m c) = Ok a -> K a.

(** Every run of [m] is of one of the two kinds. *)
Definition steady {A : Type} (K : A -> Prop) (m : M A) : Prop :=
  forall c, unhindered m c \/ cancelled K m c.

(** [m] never commits. *)
Definition no_commit {A : Type} (m : M A) : Prop :=
  forall c, committed (snd (m c)) = committed c.

(** [m] does not touch the storage. *)
Definition pure_step {A : Type} (m : M A) : Prop :=
  forall c, unhindered m c.

Lemma steady_pure {A : Type} (K : A -> Prop) (m : M A) : pure_step m -> steady K m.
Proof. intros H c. left. apply H. Qed.

Lemma pure_ret {A : Type} (a : A) : pure_step (ret a).
Proof. intros c. reflexivity. Qed.

Lemma pure_raise {A : Type} (e : exn) : pure_step (@raise A e).
Proof. intros c. reflexivity. Qed.

Lemma pure_commit : pure_step commit.
Proof. intros c. reflexivity. Qed.

Lemma pure_rollback : pure_step rollback.
Proof. intros c. reflexivity. Qed.

Lemma pure_now : pure_step datetime_now.
Proof. intros c. unfold unhindered, datetime_now. simpl. destruct (clock c); reflexivity. Qed.

Lemma pure_bind {A B : Type} (m : M A) (f : A -> M B) :
  pure_step m -> (forall a, pure_step (f a)) -> pure_step (bind m f).
Proof.
  intros Hm Hf c. unfold unhindered, bind in *. rewrite (Hm c).
  destruct (m c) as [[a|e] c1]; simpl; [apply Hf | reflexivity].
Qed.

Lemma pure_quantize (a : Dec.Decimal) (dec : Z) : pure_step (quantize a dec).
Proof.
  unfold quantize. destruct (Dec.quantize_down _ _); [apply pure_ret | apply pure_raise].
Qed.

Lemma pure_render (amount : amount_value) (decimals : Z) :
  pure_step (render amount decimals).
Proof.
  unfold render.
  destruct (format_currency_amount amount decimals); [apply pure_ret | apply pure_raise].
Qed.

Lemma steady_execute {A : Type} (K : A -> Prop)
    (stmt : Tables -> result (A * Tables)) :
  steady K (execute stmt).
Proof.
  intros c. unfold unhindered, cancelled, calmed, execute. simpl.
  destruct (faults c) as [|[] fs]; simpl.
  - left. destruct (stmt (working c)) as [[a w]|e]; reflexivity.
  - right. split; [reflexivity | discriminate].
  - left. destruct (stmt (working c)) as [[a w]|e]; reflexivity.
Qed.

Lemma no_commit_execute {A : Type} (stmt : Tables -> result (A * Tables)) :
  no_commit (execute stmt).
Proof. intros c. apply execute_sound. Qed.

Lemma no_commit_ret {A : Type} (a : A) : no_commit (ret a).
Proof. intros c. reflexivity. Qed.

Lemma no_commit_raise {A : Type} (e : exn) : no_commit (@raise A e).
Proof. intros c. reflexivity. Qed.

Lemma no_commit_now : no_commit datetime_now.
Proof. intros c. unfold datetime_now. destruct (clock c); reflexivity. Qed.

Lemma no_commit_rollback : no_commit rollback.
Proof. intros c. reflexivity. Qed.

Lemma no_commit_bind {A B : Type} (m : M A) (f : A -> M B) :
  no_commit m -> (forall a, no_commit (f a)) -> no_commit (bind m f).
Proof.
  intros Hm Hf c. unfold bind. specialize (Hm c).
  destruct (m c) as [[a|e] c1]; simpl in *; [|exact Hm].
  rewrite (Hf a c1). exact Hm.
Qed.

Lemma no_commit_try {A : Type} (m : M A) (h : exn -> M A) :
  no_commit m -> (forall e, no_commit (h e)) -> no_commit (try_except m h).
Proof.
  intros Hm Hh c. unfold try_except. specialize (Hm c).
  destruct (m c) as [[a|e] c1]; simpl in *; [exact Hm|].
  rewrite (Hh e c1). exact Hm.
Qed.

Lemma no_commit_render (amount : amount_value) (decimals : Z) :
  no_commit (render amount decimals).
Proof. intros c. rewrite render_sound. reflexivity. Qed.

Lemma no_commit_quietly {A : Type} (m : M A) : runs_quietly m -> no_commit m.
Proof. intros H c. apply H. Qed.

(** Sequencing: after a run that was cancelled, what follows must not
    commit either. *)
Lemma steady_bind {A B : Type} (K : A -> Prop) (K' : B -> Prop)
    (m : M A) (f : A -> M B) :
  steady K m -> no_commit m -> (forall a, steady K' (f a)) ->
  (forall a, K a -> forall c, cancelled K' (f a) c) ->
  steady K' (bind m f).
Proof.
  intros Hm Nm Hf Hk c. unfold unhindered, cancelled, bind.
  specialize (Nm c). destruct (Hm c) as [U | [C V]].
  - unfold unhindered in U. rewrite U.
    destruct (m c) as [[a|e] c1]; simpl in *; [|left; reflexivity].
    destruct (Hf a c1) as [U1 | [C1 V1]].
    + left. exact U1.
    + right. split; [congruence | exact V1].
  - destruct (m c) as [[a|e] c1]; simpl in *.
    + right. destruct (Hk a (V a eq_refl) c1) as [C1 V1].
      split; [congruence | exact V1].
    + right. split; [exact C | discriminate].
Qed.

(** The same when what follows does not touch the storage. *)
Lemma steady_bind_pure {A B : Type} (K : A -> Prop) (K' : B -> Prop)
    (m : M A) (f : A -> M B) :
  steady K m -> (forall a, pure_step (f a)) ->
  (forall a, K a -> forall c, cancelled K' (f a) c) ->
  steady K' (bind m f).
Proof.
  intros Hm Hf Hk c. unfold unhindered, cancelled, bind.
  destruct (Hm c) as [U | [C V]].
  - left. unfold unhindered in U. rewrite U.
    destruct (m c) as [[a|e] c1]; simpl in *; [apply Hf | reflexivity].
  - right. destruct (m c) as [[a|e] c1]; simpl in *.
    + destruct (Hk a (V a eq_refl) c1) as [C1 V1]. split; [congruence | exact V1].
    + split; [exact C | discriminate].
Qed.

(** [try: m except: h]: the handler does not touch the storage, and after
    it nothing is committed. *)
Lemma steady_try {A : Type} (K K' : A -> Prop) (m : M A) (h : exn -> M A) :
  steady K m -> (forall a, K a -> K' a) ->
  (forall e, pure_step (h e)) -> (forall e c, cancelled K' (h e) c) ->
  steady K' (try_except m h).
Proof.
  intros Hm Hk Hp Hh c. unfold unhindered, cancelled, try_except.
  destruct (Hm c) as [U | [C V]].
  - left. unfold unhindered in U. rewrite U.
    destruct (m c) as [[a|e] c1]; simpl in *; [reflexivity | apply Hp].
  - right. destruct (m c) as [[a|e] c1]; simpl in *.
    + split; [exact C | intros a' [= <-]; apply Hk, V; reflexivity].
    + destruct (Hh e c1) as [C1 V1]. split; [congruence | exact V1].
Qed.

Lemma steady_weaken {A : Type} (K K' : A -> Prop) (m : M A) :
  steady K m -> (forall a, K a -> K' a) -> steady K' m.
Proof.
  intros H W c. destruct (H c) as [U | [C V]]; [left; exact U|].
  right. split; [exact C | intros a E; apply W, V, E].
Qed.

Lemma cancelled_no_commit {A : Type} (K : A -> Prop) (m : M A) (c : Conn) :
  no_commit m -> (forall a, fst (m c) = Ok a -> K a) -> cancelled K m c.
Proof. intros N V. split; [apply N | exact V]. Qed.

(** A handler's body that is steady either commits nothing or runs as it
    does when the storage never fails. *)
Lemma with_connection_steady (K : reply -> Prop) (env : Env) (db : Tables)
    (body : M reply) :
  steady K body ->
  fst (with_connection env db body) = db \/
  with_connection env db body = with_connection (without_faults env) db body.
Proof.
  intros H. unfold with_connection, without_faults. cbn [env_faults env_clock].
  change (connect db [] (env_clock env))
    with (calmed (connect db (env_faults env) (env_clock env))).
  destruct (H (connect db (env_faults env) (env_clock env))) as [U | [C _]].
  - right. unfold unhindered in U. rewrite U.
    destruct (body (connect _ _ _)) as [r c]; reflexivity.
  - left. destruct (body (connect _ _ _)) as [r c]; simpl in *. exact C.
Qed.

(** ** The functions of the engine *)

Definition never {A : Type} : A -> Prop := fun _ => False.

Lemma steady_fetch_one {A : Type} (query : Tables -> list A) :
  steady never (fetch_one query).
Proof. apply steady_execute. Qed.

Lemma steady_fetch_all {A : Type} (query : Tables -> list A) :
  steady never (fetch_all query).
Proof. apply steady_execute. Qed.

Lemma no_commit_fetch_one {A : Type} (query : Tables -> list A) :
  no_commit (fetch_one query).
Proof. apply no_commit_execute. Qed.

Lemma no_commit_fetch_all {A : Type} (query : Tables -> list A) :
  no_commit (fetch_all query).
Proof. apply no_commit_execute. Qed.

Lemma steady_fetch_one_sum {A : Type} (query : Tables -> result (list A)) :
  steady never (fetch_one_sum query).
Proof. apply steady_execute. Qed.

Lemma steady_fetch_all_sum {A : Type} (query : Tables -> result (list A)) :
  steady never (fetch_all_sum query).
Proof. apply steady_execute. Qed.

Lemma no_commit_fetch_one_sum {A : Type} (query : Tables -> result (list A)) :
  no_commit (fetch_one_sum query).
Proof. apply no_commit_execute. Qed.

Lemma no_commit_fetch_all_sum {A : Type} (query : Tables -> result (list A)) :
  no_commit (fetch_all_sum query).
Proof. apply no_commit_execute. Qed.

Lemma never_cancelled {A B : Type} (K : B -> Prop) (f : A -> M B) :
  forall a, never a -> forall c, cancelled K (f a) c.
Proof. intros a []. Qed.

(** One step of a proof that a function without [try] is steady. *)
Ltac steady_step :=
  first
    [ apply steady_fetch_one | apply steady_fetch_all
    | apply steady_fetch_one_sum | apply steady_fetch_all_sum
    | apply steady_execute
    | apply steady_pure;
      first [ apply pure_ret | apply pure_raise | apply pure_now
            | apply pure_quantize | apply pure_render ]
    | apply (steady_bind never);
      [ | | intros ? | apply never_cancelled ]
    | match goal with
      | |- steady _ (match ?x with _ => _ end) => destruct x
      end
    | progress cbv beta zeta ].

Ltac no_commit_step :=
  first
    [ apply no_commit_fetch_one | apply no_commit_fetch_all
    | apply no_commit_fetch_one_sum | apply no_commit_fetch_all_sum
    | apply no_commit_render
    | apply no_commit_execute | apply no_commit_ret | apply no_commit_raise
    | apply no_commit_now | apply no_commit_rollback
    | apply no_commit_bind; [|intros ?]
    | apply no_commit_try; [|intros ?]
    | match goal with
      | |- no_commit (match ?x with _ => _ end) => destruct x
      end
    | progress cbv beta zeta ].

Lemma steady_upsert_user (u : Z) : steady never (upsert_user u).
Proof. unfold upsert_user. repeat steady_step. apply no_commit_fetch_one. Qed.

Lemma no_commit_upsert_user (u : Z) : no_commit (upsert_user u).
Proof. apply no_commit_quietly, upsert_user_quiet. Qed.

Lemma steady_ensure_user_account (u g : Z) : steady never (ensure_user_account u g).
Proof.
  unfold ensure_user_account.
  apply (steady_bind never); [apply steady_upsert_user | apply no_commit_upsert_user | | apply never_cancelled].
  intros uid. repeat steady_step. apply no_commit_fetch_one.
Qed.

Lemma no_commit_ensure_user_account (u g : Z) : no_commit (ensure_user_account u g).
Proof. apply no_commit_quietly, ensure_user_account_quiet. Qed.

Lemma steady_ensure_treasury_account (g : Z) : steady never (ensure_treasury_account g).
Proof. unfold ensure_treasury_account. repeat steady_step. apply no_commit_fetch_one. Qed.

Lemma no_commit_ensure_treasury_account (g : Z) : no_commit (ensure_treasury_account g).
Proof. apply no_commit_quietly, ensure_treasury_account_quiet. Qed.

Lemma steady_balance_of (a x : Z) : steady never (balance_of a x).
Proof. unfold balance_of. repeat steady_step. apply no_commit_fetch_one_sum. Qed.

Lemma no_commit_balance_of (a x : Z) : no_commit (balance_of a x).
Proof. intros c. apply balance_of_sound. Qed.

Lemma no_commit_quantize (a : Dec.Decimal) (dec : Z) : no_commit (quantize a dec).
Proof. intros c. rewrite (proj1 (quantize_sound a dec c)). reflexivity. Qed.

(** A posting that returns [False] was cancelled. *)
Lemma steady_transfer_currency (g A B x : Z) (n : Dec.Decimal) (desc : description) :
  steady (fun success => success = false) (transfer_currency g A B x n desc).
Proof.
  unfold transfer_currency.
  apply (steady_try never); [| intros a [] | |].
  - repeat steady_step; repeat no_commit_step.
  - intros e. apply pure_bind; [apply pure_rollback | intros; apply pure_ret].
  - intros e c. split; [reflexivity|]. intros a [= <-]. reflexivity.
Qed.

Lemma no_commit_transfer_currency (g A B x : Z) (n : Dec.Decimal) (desc : description) :
  no_commit (transfer_currency g A B x n desc).
Proof. intros c. apply transfer_currency_outcomes. Qed.

(** A creation that does not report success was cancelled. *)
Lemma steady_create_asset (g : Z) (s nm : string) (dec : Z) (supply : Dec.Decimal) :
  steady (fun r => fst (fst r) = false) (create_asset g s nm dec supply).
Proof.
  unfold create_asset.
  apply (steady_try never); [| intros a [] | |].
  - apply (steady_bind never);
      [apply steady_fetch_one | apply no_commit_fetch_one | | apply never_cancelled].
    intros [id|]; [repeat steady_step|].
    apply (steady_bind never);
      [apply steady_execute | apply no_commit_execute | | apply never_cancelled].
    intros aid.
    apply (steady_bind never);
      [apply steady_ensure_treasury_account | apply no_commit_ensure_treasury_account
      | | apply never_cancelled].
    intros T.
    apply (steady_bind never); [| | | apply never_cancelled].
    + destruct (Dec.ltb Dec.zero supply); repeat steady_step; repeat no_commit_step.
    + destruct (Dec.ltb Dec.zero supply); repeat no_commit_step.
    + intros u. apply steady_pure.
      apply pure_bind; [apply pure_commit | intros; apply pure_ret].
  - intros e. apply pure_bind; [apply pure_rollback | intros; apply pure_ret].
  - intros e c. split; [reflexivity|]. intros a [= <-]. reflexivity.
Qed.

Lemma steady_fix_asset (g T : Z) (asset : asset_info)
    (fixed : list (string * Dec.Decimal)) :
  steady never (fix_asset g T asset fixed).
Proof.
  destruct asset as [[[aid sym] nm] dec]. unfold fix_asset.
  apply (steady_bind never);
    [apply steady_balance_of | apply no_commit_balance_of | | apply never_cancelled].
  intros bal. repeat steady_step; repeat no_commit_step.
Qed.

Lemma no_commit_fix_asset (g T : Z) (asset : asset_info)
    (fixed : list (string * Dec.Decimal)) :
  no_commit (fix_asset g T asset fixed).
Proof.
  destruct asset as [[[aid sym] nm] dec]. unfold fix_asset.
  apply no_commit_bind; [apply no_commit_balance_of|]. intros bal.
  repeat no_commit_step.
Qed.

Lemma steady_fix_assets (g T : Z) (l : list asset_info) :
  forall fixed, steady never (fix_assets g T l fixed).
Proof.
  induction l as [|asset l IH]; intros fixed; cbn [fix_assets].
  - apply steady_pure, pure_ret.
  - apply (steady_bind never);
      [apply steady_fix_asset | apply no_commit_fix_asset | exact IH
      | apply never_cancelled].
Qed.

Lemma no_commit_fix_assets (g T : Z) (l : list asset_info) :
  forall fixed, no_commit (fix_assets g T l fixed).
Proof.
  induction l as [|asset l IH]; intros fixed; cbn [fix_assets].
  - apply no_commit_ret.
  - apply no_commit_bind; [apply no_commit_fix_asset | exact IH].
Qed.

Lemma steady_fix_and_commit (g T : Z) (l : list asset_info) :
  steady never (fix_and_commit g T l).
Proof.
  unfold fix_and_commit.
  apply (steady_bind never);
    [apply steady_fix_assets | apply no_commit_fix_assets | | apply never_cancelled].
  intros fixed. apply steady_pure.
  apply pure_bind; [apply pure_commit|]. intros _.
  destruct fixed; apply pure_ret.
Qed.

(** ** The command handlers *)

Definition anything {A : Type} : A -> Prop := fun _ => True.

Lemma create_currency_command_atomic (env : Env) (db : Tables) (i : Interaction)
    (s nm : string) (dec supply : Z) :
  fst (create_currency_command env db i s nm dec supply) = db \/
  create_currency_command env db i s nm dec supply
  = create_currency_command (without_faults env) db i s nm dec supply.
Proof.
  unfold create_currency_command.
  destruct (negb (is_guild_manager i)); [left; reflexivity|].
  destruct (i_guild i) as [g|]; [|left; reflexivity].
  destruct (negb (is_valid_currency_symbol s)); [left; reflexivity|].
  destruct (Dec.ltb (Dec.of_int supply) Dec.zero); [left; reflexivity|].
  apply (with_connection_steady anything).
  eapply steady_bind_pure; [apply steady_create_asset | |].
  - intros [[success message] aid]. destruct success; [|apply pure_ret].
    apply pure_bind; [apply pure_render | intros; apply pure_ret].
  - intros [[success message] aid] F c. simpl in F. subst success.
    split; [reflexivity | intros; exact I].
Qed.

Lemma posting_command_steady (g A B x : Z) (q : Dec.Decimal) (desc : description)
    (done : M reply) (failed : reply) :
  pure_step done ->
  steady anything
    (success <- transfer_currency g A B x q desc ;;
     if success : bool then commit ;;; done else ret failed).
Proof.
  intros P.
  eapply steady_bind;
    [apply steady_transfer_currency | apply no_commit_transfer_currency | |].
  - intros [|]; apply steady_pure;
      [apply pure_bind; [apply pure_commit | intros; exact P] | apply pure_ret].
  - intros success -> c. split; [reflexivity | intros; exact I].
Qed.

(** The messages built from rendered amounts. *)
Lemma pure_rendered_reply (a : amount_value) (dec : Z) (r : reply) :
  pure_step (render a dec ;;; ret r).
Proof. apply pure_bind; [apply pure_render | intros; apply pure_ret]. Qed.

Lemma pure_rendered_twice (a b : amount_value) (dec : Z) (r : reply) :
  pure_step (render a dec ;;; render b dec ;;; ret r).
Proof. apply pure_bind; [apply pure_render | intros; apply pure_rendered_reply]. Qed.

Lemma pay_currency_command_atomic (env : Env) (db : Tables) (i : Interaction)
    (to_user : Member) (symbol : string) (amount : Dec.Decimal)
    (memo : option string) :
  fst (pay_currency_command env db i to_user symbol amount memo) = db \/
  pay_currency_command env db i to_user symbol amount memo
  = pay_currency_command (without_faults env) db i to_user symbol amount memo.
Proof.
  unfold pay_currency_command.
  destruct (i_guild i) as [g|]; [|left; reflexivity].
  destruct (m_id to_user =? i_user_id i); [left; reflexivity|].
  destruct (Dec.leb amount Dec.zero); [left; reflexivity|].
  apply (with_connection_steady anything). unfold get_asset_by_symbol.
  apply (steady_bind never);
    [apply steady_fetch_one | apply no_commit_fetch_one | | apply never_cancelled].
  intros [[[[aid s] nm] dec]|]; [|apply steady_pure, pure_ret].
  apply (steady_bind never);
    [apply steady_pure, pure_quantize | apply no_commit_quantize | | apply never_cancelled].
  intros q.
  apply (steady_bind never);
    [apply steady_ensure_user_account | apply no_commit_ensure_user_account
    | | apply never_cancelled].
  intros A.
  apply (steady_bind never);
    [apply steady_ensure_user_account | apply no_commit_ensure_user_account
    | | apply never_cancelled].
  intros B.
  apply (steady_bind never);
    [apply steady_balance_of | apply no_commit_balance_of | | apply never_cancelled].
  intros bal.
  destruct (Dec.ltb bal q); [apply steady_pure, pure_rendered_twice|].
  apply posting_command_steady, pure_rendered_reply.
Qed.

Lemma give_currency_command_atomic (env : Env) (db : Tables) (i : Interaction)
    (user : Member) (symbol : string) (amount : Dec.Decimal)
    (memo : option string) :
  fst (give_currency_command env db i user symbol amount memo) = db \/
  give_currency_command env db i user symbol amount memo
  = give_currency_command (without_faults env) db i user symbol amount memo.
Proof.
  unfold give_currency_command.
  destruct (negb (is_guild_manager i)); [left; reflexivity|].
  destruct (i_guild i) as [g|]; [|left; reflexivity].
  destruct (Dec.leb amount Dec.zero); [left; reflexivity|].
  apply (with_connection_steady anything). unfold get_asset_by_symbol.
  apply (steady_bind never);
    [apply steady_fetch_one | apply no_commit_fetch_one | | apply never_cancelled].
  intros [[[[aid s] nm] dec]|]; [|apply steady_pure, pure_ret].
  apply (steady_bind never);
    [apply steady_pure, pure_quantize | apply no_commit_quantize | | apply never_cancelled].
  intros q.
  apply (steady_bind never);
    [apply steady_ensure_treasury_account | apply no_commit_ensure_treasury_account
    | | apply never_cancelled].
  intros A.
  apply (steady_bind never);
    [apply steady_ensure_user_account | apply no_commit_ensure_user_account
    | | apply never_cancelled].
  intros B.
  apply (steady_bind never);
    [apply steady_balance_of | apply no_commit_balance_of | | apply never_cancelled].
  intros bal.
  destruct (Dec.ltb bal q); [apply steady_pure, pure_rendered_twice|].
  apply posting_command_steady, pure_rendered_reply.
Qed.

Lemma delete_currency_command_atomic (env : Env) (db : Tables) (i : Interaction)
    (symbol : string) :
  fst (delete_currency_command env db i symbol) = db \/
  delete_currency_command env db i symbol
  = delete_currency_command (without_faults env) db i symbol.
Proof.
  unfold delete_currency_command.
  destruct (negb (is_guild_manager i)); [left; reflexivity|].
  destruct (i_guild i) as [g|]; [|left; reflexivity].
  apply (with_connection_steady anything). unfold get_asset_by_symbol.
  apply (steady_bind never);
    [apply steady_fetch_one | apply no_commit_fetch_one | | apply never_cancelled].
  intros [[[[aid s] nm] dec]|]; [|apply steady_pure, pure_ret].
  apply (steady_bind never);
    [apply steady_fetch_all_sum | apply no_commit_fetch_all_sum | | apply never_cancelled].
  intros balances. cbv zeta.
  destruct (negb (Dec.is_zero (amount_of (total_of balances))));
    [apply steady_pure, pure_rendered_reply|].
  apply (steady_try never); [| intros a [] | |].
  - apply (steady_bind never);
      [apply steady_execute | apply no_commit_execute | | apply never_cancelled].
    intros u.
    apply (steady_bind never);
      [apply steady_execute | apply no_commit_execute | | apply never_cancelled].
    intros u'. apply steady_pure.
    apply pure_bind; [apply pure_commit | intros; apply pure_ret].
  - intros e. apply pure_bind; [apply pure_rollback | intros; apply pure_ret].
  - intros e c. split; [reflexivity | intros; exact I].
Qed.

Lemma fix_database_atomic (env : Env) (db : Tables) (i : Interaction)
    (confirm : string) (symbol : option string) :
  fst (fix_database env db i confirm symbol) = db \/
  fix_database env db i confirm symbol
  = fix_database (without_faults env) db i confirm symbol.
Proof.
  unfold fix_database.
  destruct (negb (is_guild_manager i)); [left; reflexivity|].
  destruct (i_guild i) as [g|]; [|left; reflexivity].
  destruct (negb (confirm =? "YES")%string); [left; reflexivity|].
  apply (with_connection_steady anything).
  apply (steady_try never); [| intros a [] | |].
  - apply (steady_bind never);
      [apply steady_ensure_treasury_account | apply no_commit_ensure_treasury_account
      | | apply never_cancelled].
    intros T. destruct (truthy symbol).
    + unfold get_asset_by_symbol.
      apply (steady_bind never);
        [apply steady_fetch_one | apply no_commit_fetch_one | | apply never_cancelled].
      intros [asset|]; [apply steady_fix_and_commit | apply steady_pure, pure_ret].
    + unfold get_guild_assets.
      apply (steady_bind never);
        [apply steady_fetch_all | apply no_commit_fetch_all | | apply never_cancelled].
      intros l. apply steady_fix_and_commit.
  - intros e. apply pure_ret.
  - intros e c. split; [reflexivity | intros; exact I].
Qed.

(** X1.  Whatever the storage does under a command, the command either
    leaves the database exactly as it was, or it does (to the database and
    in its reply) exactly what it does when the storage never fails: a
    failure cancels a command, it never leaves a part of its work
    committed. *)
Theorem storage_failure_cancels (env : Env) (cmd : command) (db : Tables) :
  fst (run_command env cmd db) = db \/
  run_command env cmd db = run_command (without_faults env) cmd db.
Proof.
  destruct cmd; simpl.
  - apply create_currency_command_atomic.
  - apply pay_currency_command_atomic.
  - apply give_currency_command_atomic.
  - apply delete_currency_command_atomic.
  - apply fix_database_atomic.
Qed.

(* ====================================================================== *)
(** * What a command commits, step by step *)

(** The guild has an asset row, or an account row, with the id. *)
Definition asset_in (d : Tables) (asset_id guild_id : Z) : Prop :=
  exists a, In a (rows (assets d)) /\ a_id a = asset_id /\ a_guild_id a = guild_id.

Definition account_in (d : Tables) (account_id guild_id : Z) : Prop :=
  exists a, In a (rows (accounts d)) /\ acc_id a = account_id /\
            acc_guild_id a = guild_id.

(** The changes a command commits: the INSERT of a user, of a user's
    account, of a treasury account or of an asset; a posting between two
    accounts of the guild of the asset, of an amount that is not negative;
    the initial supply and the adjustment of a repair on an account of the
    guild of the asset; the deletion of an asset; and several of these in
    a row. *)
Inductive tx_step : Tables -> Tables -> Prop :=
| tx_refl (d : Tables) : tx_step d d
| tx_trans (d1 d2 d3 : Tables) : tx_step d1 d2 -> tx_step d2 d3 -> tx_step d1 d3
| tx_user (u : Z) (d d' : Tables) (id : Z) :
    insert_user u d = Ok (id, d') -> tx_step d d'
| tx_user_account (u uid g : Z) (d d' : Tables) (id : Z) :
    In (mk_user uid u) (rows (users d)) ->
    insert_account (Some uid) g (user_account_name u) TUser d = Ok (id, d') ->
    tx_step d d'
| tx_treasury (g : Z) (d d' : Tables) (id : Z) :
    insert_account None g "treasury" TTreasury d = Ok (id, d') -> tx_step d d'
| tx_asset (g : Z) (s nm : string) (dec : Z) (d d' : Tables) (id : Z) :
    insert_asset g s nm dec d = Ok (id, d') -> tx_step d d'
| tx_posted (d : Tables) (g A B x : Z) (q : Dec.Decimal) (desc : description)
    (now : timestamp) :
    two_legged desc = true ->
    asset_in d x g -> account_in d A g -> account_in d B g ->
    (0 <= Dec.value q)%Q ->
    tx_step d (posted g A B x q desc now d)
| tx_genesis (d : Tables) (g T x : Z) (supply : Dec.Decimal) (s : string)
    (now : timestamp) :
    asset_in d x g -> account_in d T g -> (0 < Dec.value supply)%Q ->
    tx_step d (posted_single g T x supply (DescInitialSupply s) now d)
| tx_fix (d : Tables) (g T x : Z) (adj : Dec.Decimal) (s : string)
    (now : timestamp) :
    asset_in d x g -> account_in d T g ->
    Dec.is_zero adj = false ->
    tx_step d (posted_single g T x adj (DescDbFix s) now d)
| tx_deleted (d : Tables) (x : Z) : tx_step d (deleted x d).

(** ** Rows that are found are there *)

Lemma selected_user (u id : Z) (d : Tables) :
  hd_error (select_user_id u d) = Some id -> In (mk_user id u) (rows (users d)).
Proof.
  intros H. destruct (hd_error_filter_In _ _ _ _ H) as ([i v] & I & K & E).
  unfold user_key in K. simpl in *. apply Z.eqb_eq in K. subst. exact I.
Qed.

Lemma selected_account (name : string) (g id : Z) (d : Tables) :
  hd_error (select_account_id name g d) = Some id -> account_in d id g.
Proof.
  intros H. destruct (hd_error_filter_In _ _ _ _ H) as (a & I & K & E).
  unfold account_key in K. apply andb_true_iff in K. destruct K as [_ K].
  apply Z.eqb_eq in K. exists a. auto.
Qed.

Lemma selected_asset (g : Z) (symbol : string) (info : asset_info) (d : Tables) :
  hd_error (select_asset g symbol d) = Some info ->
  asset_in d (asset_id_of info) g.
Proof.
  intros H. destruct (hd_error_filter_In _ _ _ _ H) as (a & I & K & E).
  unfold asset_key in K. apply andb_true_iff in K. destruct K as [K _].
  apply Z.eqb_eq in K. exists a. subst info. auto.
Qed.

Lemma in_insert_by_symbol (a b : asset_row) (l : list asset_row) :
  In b (insert_by_symbol a l) <-> b = a \/ In b l.
Proof.
  induction l as [|c l IH]; simpl.
  - split; intros [H | H]; auto; contradiction.
  - destruct (String.leb (a_symbol a) (a_symbol c)); simpl.
    + split; intros [H | H]; auto.
    + rewrite IH. split; intros H; tauto.
Qed.

Lemma in_order_by_symbol (b : asset_row) (l : list asset_row) :
  In b (order_by_symbol l) <-> In b l.
Proof.
  induction l as [|a l IH]; simpl; [tauto|].
  rewrite in_insert_by_symbol, IH. split; intros [H | H]; auto.
Qed.

Lemma listed_asset (g : Z) (info : asset_info) (d : Tables) :
  In info (select_guild_assets g d) -> asset_in d (asset_id_of info) g.
Proof.
  unfold select_guild_assets. intros H. apply in_map_iff in H.
  destruct H as (a & E & I). apply (proj1 (in_order_by_symbol _ _)) in I.
  apply filter_In in I. destruct I as [I K]. apply Z.eqb_eq in K.
  exists a. subst info. auto.
Qed.

Lemma asset_in_same (d d' : Tables) (x g : Z) :
  assets d' = assets d -> asset_in d x g -> asset_in d' x g.
Proof. intros E H. unfold asset_in. rewrite E. exact H. Qed.

Lemma account_in_same (d d' : Tables) (a g : Z) :
  accounts d' = accounts d -> account_in d a g -> account_in d' a g.
Proof. intros E H. unfold account_in. rewrite E. exact H. Qed.

(** Account rows are never removed. *)
Lemma tx_step_keeps_accounts (d d' : Tables) :
  tx_step d d' ->
  forall a, In a (rows (accounts d)) -> In a (rows (accounts d')).
Proof.
  induction 1 as [d | d1 d2 d3 _ IH1 _ IH2 | u d d' id E | u uid g d d' id _ E
                 | g d d' id E | g s nm dec d d' id E | | | |];
    intros a Ha; auto.
  - unfold insert_user in E. destruct (existsb _ _); [discriminate|].
    injection E as _ <-. exact Ha.
  - unfold insert_account in E. destruct (existsb _ _); [discriminate|].
    injection E as _ <-. simpl. apply in_or_app. left. exact Ha.
  - unfold insert_account in E. destruct (existsb _ _); [discriminate|].
    injection E as _ <-. simpl. apply in_or_app. left. exact Ha.
  - unfold insert_asset in E. destruct (existsb _ _); [discriminate|].
    injection E as _ <-. exact Ha.
Qed.

Lemma tx_step_account_in (d d' : Tables) (a g : Z) :
  tx_step d d' -> account_in d a g -> account_in d' a g.
Proof.
  intros S (r & I & F). exists r. split; [|exact F].
  exact (tx_step_keeps_accounts d d' S r I).
Qed.

(** ** The find-or-create functions when the storage does not fail *)

Lemma upsert_user_tx (u : Z) (c : Conn) :
  faults c = [] ->
  exists id c1,
    upsert_user u c = (Ok id, c1) /\ faults c1 = [] /\
    tx_step (working c) (working c1) /\
    In (mk_user id u) (rows (users (working c1))).
Proof.
  intros H. unfold upsert_user, bind. rewrite fetch_one_calm by exact H.
  destruct (hd_error (select_user_id u (working c))) as [id|] eqn:E.
  - exists id, c. split; [reflexivity|]. split; [exact H|].
    split; [apply tx_refl | apply selected_user, E].
  - rewrite execute_calm by exact H.
    destruct (insert_user u (working c)) as [[id d']|e] eqn:I.
    + exists id, (set_working d' c). split; [reflexivity|]. split; [exact H|].
      split; [exact (tx_user u _ _ _ I)|]. simpl.
      unfold insert_user in I. destruct (existsb _ _); [discriminate|].
      injection I as <- <-. simpl. apply in_or_app. right. left. reflexivity.
    + exfalso. unfold insert_user in I.
      rewrite (filter_none_existsb _ _ _ E) in I. discriminate.
Qed.

Lemma ensure_user_account_tx (u g : Z) (c : Conn) :
  faults c = [] ->
  exists id c1,
    ensure_user_account u g c = (Ok id, c1) /\ faults c1 = [] /\
    tx_step (working c) (working c1) /\ account_in (working c1) id g.
Proof.
  intros H. unfold ensure_user_account, bind.
  destruct (upsert_user_tx u c H) as (uid & c0 & -> & H0 & S0 & U0).
  rewrite fetch_one_calm by exact H0.
  destruct (hd_error (select_account_id (user_account_name u) g (working c0)))
    as [id|] eqn:E.
  - exists id, c0. split; [reflexivity|]. split; [exact H0|].
    split; [exact S0 | exact (selected_account _ _ _ _ E)].
  - rewrite execute_calm by exact H0.
    destruct (insert_account (Some uid) g (user_account_name u) TUser (working c0))
      as [[id d']|e] eqn:I.
    + exists id, (set_working d' c0). split; [reflexivity|]. split; [exact H0|].
      split; [exact (tx_trans _ _ _ S0 (tx_user_account u uid g _ _ _ U0 I))|].
      simpl. unfold insert_account in I. destruct (existsb _ _); [discriminate|].
      injection I as <- <-.
      eexists (mk_account _ _ _ _ _ _). split; [|split; reflexivity].
      simpl. apply in_or_app. right. left. reflexivity.
    + exfalso. unfold insert_account in I.
      rewrite (filter_none_existsb _ _ _ E) in I. discriminate.
Qed.

Lemma ensure_treasury_account_tx (g : Z) (c : Conn) :
  faults c = [] ->
  exists id c1,
    ensure_treasury_account g c = (Ok id, c1) /\ faults c1 = [] /\
    tx_step (working c) (working c1) /\ account_in (working c1) id g.
Proof.
  intros H. unfold ensure_treasury_account, bind.
  rewrite fetch_one_calm by exact H.
  destruct (hd_error (select_account_id "treasury" g (working c))) as [id|] eqn:E.
  - exists id, c. split; [reflexivity|]. split; [exact H|].
    split; [apply tx_refl | exact (selected_account _ _ _ _ E)].
  - rewrite execute_calm by exact H.
    destruct (insert_account None g "treasury" TTreasury (working c))
      as [[id d']|e] eqn:I.
    + exists id, (set_working d' c). split; [reflexivity|]. split; [exact H|].
      split; [exact (tx_treasury g _ _ _ I)|].
      simpl. unfold insert_account in I. destruct (existsb _ _); [discriminate|].
      injection I as <- <-.
      eexists (mk_account _ _ _ _ _ _). split; [|split; reflexivity].
      simpl. apply in_or_app. right. left. reflexivity.
    + exfalso. unfold insert_account in I.
      rewrite (filter_none_existsb _ _ _ E) in I. discriminate.
Qed.

(** What a find-or-create left of the rest of the connection. *)
Lemma quietly_run {A : Type} (m : M A) (c c1 : Conn) (r : result A) :
  runs_quietly m -> m c = (r, c1) ->
  committed c1 = committed c /\ clock c1 = clock c /\
  quiet (working c) (working c1).
Proof. intros Q E. specialize (Q c). rewrite E in Q. exact Q. Qed.

(** ** The commands when the storage does not fail *)

Lemma quantized_not_negative (amount q : Dec.Decimal) (dec : Z) :
  Dec.leb amount Dec.zero = false ->
  Dec.quantize_down amount (Dec.quantum_exponent dec) = Some q ->
  (0 <= Dec.value q)%Q.
Proof. intros P E. apply (quantized_is_truncation _ _ _ P E). Qed.

Lemma posting_tx (ts : list timestamp) (db : Tables) (g aid dec : Z)
    (provide : M Z) (B_user : Z) (q : Dec.Decimal) (desc : description)
    (needed : Dec.Decimal -> reply) (done failed : reply) (c : Conn) :
  faults c = [] -> committed c = db -> working c = db ->
  asset_in db aid g -> (0 <= Dec.value q)%Q -> two_legged desc = true ->
  runs_quietly provide ->
  (forall c0, faults c0 = [] ->
     exists id c1, provide c0 = (Ok id, c1) /\ faults c1 = [] /\
                   tx_step (working c0) (working c1) /\
                   account_in (working c1) id g) ->
  tx_step db
    (committed
       (snd
          ((from_account <- provide ;;
            to_account <- ensure_user_account B_user g ;;
            balance <- balance_of from_account aid ;;
            if Dec.ltb balance q then
              render (PyDecimal q) dec ;;;
              render (PyDecimal balance) dec ;;;
              ret (needed balance)
            else
              success <- transfer_currency g from_account to_account aid q desc ;;
              if success : bool
              then commit ;;; render (PyDecimal q) dec ;;; ret done
              else ret failed) c))).
Proof.
  intros H C W As Pos Two Qp Hp. unfold bind.
  destruct (Hp c H) as (A & c1 & E1 & H1 & S1 & A1).
  destruct (quietly_run _ _ _ _ Qp E1) as (C1 & _ & Q1). rewrite E1.
  destruct (ensure_user_account_tx B_user g c1 H1) as (B & c2 & E2 & H2 & S2 & B2).
  destruct (quietly_run _ _ _ _ (ensure_user_account_quiet B_user g) E2)
    as (C2 & _ & Q2).
  rewrite E2. rewrite balance_of_calm by exact H2.
  destruct (read_balance (working c2) A aid) as [bal|e];
    [|simpl; rewrite C2, C1, C; apply tx_refl].
  destruct (Dec.ltb bal q) eqn:L.
  - unfold render.
    destruct (format_currency_amount (PyDecimal q) dec); simpl;
      [destruct (format_currency_amount (PyDecimal bal) dec); simpl|];
      rewrite C2, C1, C; apply tx_refl.
  - rewrite transfer_currency_calm by exact H2. simpl.
    assert (S : tx_step db
                  (posted g A B aid q desc (hd 0 (clock c2)) (working c2))).
    { rewrite <- W. apply (tx_trans _ _ _ S1). apply (tx_trans _ _ _ S2).
      apply tx_posted.
      + exact Two.
      + apply (asset_in_same (working c1)); [apply Q2|].
        apply (asset_in_same (working c)); [apply Q1|]. rewrite W. exact As.
      + exact (tx_step_account_in _ _ _ _ S2 A1).
      + exact B2.
      + exact Pos. }
    unfold render.
    destruct (format_currency_amount (PyDecimal q) dec); simpl; exact S.
Qed.

Lemma pay_currency_command_tx (env : Env) (db : Tables) (i : Interaction)
    (to_user : Member) (symbol : string) (amount : Dec.Decimal)
    (memo : option string) :
  env_faults env = [] ->
  tx_step db (fst (pay_currency_command env db i to_user symbol amount memo)).
Proof.
  intros Hf. unfold pay_currency_command.
  destruct (i_guild i) as [g|]; [|apply tx_refl].
  destruct (m_id to_user =? i_user_id i); [apply tx_refl|].
  destruct (Dec.leb amount Dec.zero) eqn:Pos; [apply tx_refl|].
  unfold with_connection, get_asset_by_symbol.
  set (c0 := connect db (env_faults env) (env_clock env)).
  assert (H0 : faults c0 = []) by exact Hf.
  unfold bind at 1. rewrite fetch_one_calm by exact H0.
  destruct (hd_error (select_asset g symbol (working c0)))
    as [[[[aid s] nm] dec]|] eqn:Sel; [|apply tx_refl].
  unfold bind at 1. unfold quantize.
  destruct (Dec.quantize_down amount (Dec.quantum_exponent dec)) as [q|] eqn:Qz;
    [|apply tx_refl].
  unfold ret at 1.
  match goal with
  | |- tx_step db (fst (let (r, c) := ?body c0 in _)) =>
      assert (T : tx_step db (committed (snd (body c0))));
      [|destruct (body c0) as [r c]; exact T]
  end.
  apply (posting_tx (env_clock env) db g aid dec
           (ensure_user_account (i_user_id i) g) (m_id to_user) q _
           (fun b => InsufficientBalance q b)); try reflexivity.
  - exact H0.
  - exact (selected_asset _ _ _ _ Sel).
  - exact (quantized_not_negative _ _ _ Pos Qz).
  - apply ensure_user_account_quiet.
  - intros c1. apply ensure_user_account_tx.
Qed.

Lemma give_currency_command_tx (env : Env) (db : Tables) (i : Interaction)
    (user : Member) (symbol : string) (amount : Dec.Decimal)
    (memo : option string) :
  env_faults env = [] ->
  tx_step db (fst (give_currency_command env db i user symbol amount memo)).
Proof.
  intros Hf. unfold give_currency_command.
  destruct (negb (is_guild_manager i)); [apply tx_refl|].
  destruct (i_guild i) as [g|]; [|apply tx_refl].
  destruct (Dec.leb amount Dec.zero) eqn:Pos; [apply tx_refl|].
  unfold with_connection, get_asset_by_symbol.
  set (c0 := connect db (env_faults env) (env_clock env)).
  assert (H0 : faults c0 = []) by exact Hf.
  unfold bind at 1. rewrite fetch_one_calm by exact H0.
  destruct (hd_error (select_asset g symbol (working c0)))
    as [[[[aid s] nm] dec]|] eqn:Sel; [|apply tx_refl].
  unfold bind at 1. unfold quantize.
  destruct (Dec.quantize_down amount (Dec.quantum_exponent dec)) as [q|] eqn:Qz;
    [|apply tx_refl].
  unfold ret at 1.
  match goal with
  | |- tx_step db (fst (let (r, c) := ?body c0 in _)) =>
      assert (T : tx_step db (committed (snd (body c0))));
      [|destruct (body c0) as [r c]; exact T]
  end.
  apply (posting_tx (env_clock env) db g aid dec
           (ensure_treasury_account g) (m_id user) q _
           (fun b => TreasuryInsufficient q b)); try reflexivity.
  - exact H0.
  - exact (selected_asset _ _ _ _ Sel).
  - exact (quantized_not_negative _ _ _ Pos Qz).
  - apply ensure_treasury_account_quiet.
  - intros c1. apply ensure_treasury_account_tx.
Qed.

(** The two INSERTs of a one-entry transaction when the storage does not
    fail. *)
Lemma single_posting_calm {A : Type} (g acc x : Z) (n : Dec.Decimal)
    (desc : description) (a : A) (c : Conn) :
  faults c = [] ->
  (now <- datetime_now ;;
   transaction_id <- execute (insert_transaction g desc now) ;;
   execute (insert_ledger_entry transaction_id acc x n) ;;;
   ret a) c
  = (Ok a,
     mk_conn (committed c) (posted_single g acc x n desc (hd 0 (clock c)) (working c))
       [] (tl (clock c))).
Proof.
  intros H. destruct c as [cm w fs ts]. simpl in H. subst fs.
  unfold bind, datetime_now, execute, posted_single. destruct ts; reflexivity.
Qed.

Lemma positive_value (a : Dec.Decimal) :
  Dec.ltb Dec.zero a = true -> (0 < Dec.value a)%Q.
Proof.
  intros L. apply DecFacts.ltb_value in L. rewrite DecFacts.value_zero in L. exact L.
Qed.

Lemma create_asset_tx (g : Z) (s nm : string) (dec : Z) (supply : Dec.Decimal)
    (c : Conn) :
  faults c = [] ->
  exists r c1,
    create_asset g s nm dec supply c = (r, c1) /\
    (committed c1 = committed c \/ tx_step (working c) (committed c1)).
Proof.
  intros H. unfold create_asset, try_except. unfold bind at 1.
  rewrite fetch_one_calm by exact H.
  destruct (hd_error (select_asset_id g s (working c))) as [id0|] eqn:E;
    [eexists _, _; split; [reflexivity | left; reflexivity]|].
  unfold bind at 1. rewrite execute_calm by exact H.
  destruct (insert_asset g s nm dec (working c)) as [[aid d1]|e] eqn:I;
    [|eexists _, _; split; [reflexivity | left; reflexivity]].
  assert (As : asset_in d1 aid g).
  { unfold insert_asset in I. destruct (existsb _ _); [discriminate|].
    injection I as <- <-. eexists (mk_asset _ _ _ _ _).
    split; [|split; reflexivity]. simpl. apply in_or_app. right. left. reflexivity. }
  unfold bind at 1.
  destruct (ensure_treasury_account_tx g (set_working d1 c) H)
    as (T & c2 & E2 & H2 & S2 & A2).
  destruct (quietly_run _ _ _ _ (ensure_treasury_account_quiet g) E2)
    as (C2 & _ & Q2).
  rewrite E2. simpl in S2, Q2.
  assert (S1 : tx_step (working c) (working c2))
    by exact (tx_trans _ _ _ (tx_asset g s nm dec _ _ _ I) S2).
  destruct (Dec.ltb Dec.zero supply) eqn:L.
  - unfold bind at 1. rewrite single_posting_calm by exact H2.
    eexists _, _. split; [reflexivity|]. right. simpl.
    apply (tx_trans _ _ _ S1). apply tx_genesis.
    + exact (asset_in_same _ _ _ _ (proj1 Q2) As).
    + exact A2.
    + exact (positive_value _ L).
  - eexists _, _. split; [reflexivity|]. right. simpl. exact S1.
Qed.

Lemma create_currency_command_tx (env : Env) (db : Tables) (i : Interaction)
    (s nm : string) (dec supply : Z) :
  env_faults env = [] ->
  tx_step db (fst (create_currency_command env db i s nm dec supply)).
Proof.
  intros Hf. unfold create_currency_command.
  destruct (negb (is_guild_manager i)); [apply tx_refl|].
  destruct (i_guild i) as [g|]; [|apply tx_refl].
  destruct (negb (is_valid_currency_symbol s)); [apply tx_refl|].
  destruct (Dec.ltb (Dec.of_int supply) Dec.zero); [apply tx_refl|].
  unfold with_connection, bind.
  set (c0 := connect db (env_faults env) (env_clock env)).
  assert (H0 : faults c0 = []) by exact Hf.
  destruct (create_asset_tx g s nm dec (Dec.of_int supply) c0 H0)
    as (r & c1 & -> & T).
  assert (T' : tx_step db (committed c1))
    by (destruct T as [-> | T]; [apply tx_refl | exact T]).
  destruct r as [[[success message] aid]|e]; [destruct success|]; try exact T'.
  unfold render.
  destruct (format_currency_amount (PyDecimal (Dec.of_int supply)) dec);
    exact T'.
Qed.

Lemma delete_currency_command_tx (env : Env) (db : Tables) (i : Interaction)
    (symbol : string) :
  env_faults env = [] ->
  tx_step db (fst (delete_currency_command env db i symbol)).
Proof.
  intros Hf. unfold delete_currency_command.
  destruct (negb (is_guild_manager i)); [apply tx_refl|].
  destruct (i_guild i) as [g|]; [|apply tx_refl].
  unfold with_connection, connect, get_asset_by_symbol, bind, try_except.
  rewrite Hf. rewrite fetch_one_calm by reflexivity. simpl.
  destruct (hd_error (select_asset g symbol db)) as [[[[aid s] nm] dec]|];
    [|apply tx_refl].
  rewrite fetch_all_sum_calm by reflexivity. simpl.
  destruct (select_total_balance aid db) as [balances|e]; [|apply tx_refl].
  destruct (Dec.is_zero _) eqn:Z0; simpl; [apply (tx_deleted db aid)|].
  unfold render.
  destruct (format_currency_amount (total_of balances) dec); apply tx_refl.
Qed.

Lemma fix_assets_tx (g T : Z) (l : list asset_info) :
  forall (fixed : list (string * Dec.Decimal)) (c : Conn),
    faults c = [] -> account_in (working c) T g ->
    (forall info, In info l -> asset_in (working c) (asset_id_of info) g) ->
    committed (snd (fix_assets g T l fixed c)) = committed c /\
    forall fixed', fst (fix_assets g T l fixed c) = Ok fixed' ->
                   tx_step (working c) (working (snd (fix_assets g T l fixed c))).
Proof.
  induction l as [|[[[aid sym] nm] dec] l IH]; intros fixed c H A As.
  - split; [reflexivity | intros; apply tx_refl].
  - cbn [fix_assets]. unfold bind. rewrite fix_asset_calm by exact H.
    destruct (adjustment (working c) T aid g) as [adj|e];
      [|split; [reflexivity | discriminate]].
    destruct (Dec.is_zero adj) eqn:Z0.
    + apply IH; [exact H | exact A |]. intros info I. apply As. right. exact I.
    + destruct (format_currency_amount (PyDecimal adj) dec);
        [|split; [reflexivity | discriminate]].
      match goal with
      | |- context [fix_assets g T l ?f ?c1] =>
          destruct (IH f c1) as (C & S)
      end.
      * reflexivity.
      * exact A.
      * intros info I. apply (As info). right. exact I.
      * split; [exact C|]. intros fixed' E.
        refine (tx_trans _ _ _ _ (S fixed' E)). apply tx_fix; [|exact A|exact Z0].
        apply (As (aid, sym, nm, dec)). left. reflexivity.
Qed.

Lemma fix_and_commit_tx (g T : Z) (l : list asset_info) (c : Conn) :
  faults c = [] -> account_in (working c) T g ->
  (forall info, In info l -> asset_in (working c) (asset_id_of info) g) ->
  committed (snd (fix_and_commit g T l c)) = committed c \/
  tx_step (working c) (committed (snd (fix_and_commit g T l c))).
Proof.
  intros H A As. unfold fix_and_commit, bind.
  destruct (fix_assets_tx g T l [] c H A As) as (C & S).
  destruct (fix_assets g T l [] c) as [[fixed|e] c1]; simpl in *.
  - right. destruct fixed; simpl; apply (S _ eq_refl).
  - left. exact C.
Qed.

Lemma fix_database_tx (env : Env) (db : Tables) (i : Interaction)
    (confirm : string) (symbol : option string) :
  env_faults env = [] ->
  tx_step db (fst (fix_database env db i confirm symbol)).
Proof.
  intros Hf. unfold fix_database.
  destruct (negb (is_guild_manager i)); [apply tx_refl|].
  destruct (i_guild i) as [g|]; [|apply tx_refl].
  destruct (negb (confirm =? "YES")%string); [apply tx_refl|].
  unfold with_connection, try_except. unfold bind at 1.
  set (c0 := connect db (env_faults env) (env_clock env)).
  assert (H0 : faults c0 = []) by exact Hf.
  destruct (ensure_treasury_account_tx g c0 H0) as (T & c1 & E1 & H1 & S1 & A1).
  destruct (quietly_run _ _ _ _ (ensure_treasury_account_quiet g) E1)
    as (C1 & _ & Q1).
  rewrite E1. simpl in S1, C1, Q1.
  destruct (truthy symbol).
  - unfold get_asset_by_symbol, bind. rewrite fetch_one_calm by exact H1.
    destruct (hd_error (select_asset g _ (working c1))) as [asset|] eqn:Sel.
    + destruct (fix_and_commit_tx g T [asset] c1 H1 A1) as [C2 | S2].
      * intros info [<- | []]. exact (selected_asset _ _ _ _ Sel).
      * destruct (fix_and_commit g T [asset] c1) as [[r|e] c2]; simpl in *;
          rewrite C2, C1; apply tx_refl.
      * destruct (fix_and_commit g T [asset] c1) as [[r|e] c2]; simpl in *;
          exact (tx_trans _ _ _ S1 S2).
    + simpl. rewrite C1. apply tx_refl.
  - unfold get_guild_assets, bind. rewrite fetch_all_calm by exact H1.
    destruct (fix_and_commit_tx g T (select_guild_assets g (working c1)) c1 H1 A1)
      as [C2 | S2].
    + intros info I. exact (listed_asset _ _ _ I).
    + destruct (fix_and_commit g T _ c1) as [[r|e] c2]; simpl in *;
        rewrite C2, C1; apply tx_refl.
    + destruct (fix_and_commit g T _ c1) as [[r|e] c2]; simpl in *;
        exact (tx_trans _ _ _ S1 S2).
Qed.

(** Whatever the storage does, what a command commits is made of the
    steps above. *)
Lemma run_command_tx (env : Env) (cmd : command) (db : Tables) :
  tx_step db (fst (run_command env cmd db)).
Proof.
  assert (Calm : tx_step db (fst (run_command (without_faults env) cmd db))).
  { destruct cmd; simpl.
    - apply create_currency_command_tx. reflexivity.
    - apply pay_currency_command_tx. reflexivity.
    - apply give_currency_command_tx. reflexivity.
    - apply delete_currency_command_tx. reflexivity.
    - apply fix_database_tx. reflexivity. }
  assert (At : fst (run_command env cmd db) = db \/
               run_command env cmd db = run_command (without_faults env) cmd db).
  { destruct cmd; simpl.
    - apply create_currency_command_atomic.
    - apply pay_currency_command_atomic.
    - apply give_currency_command_atomic.
    - apply delete_currency_command_atomic.
    - apply fix_database_atomic. }
  destruct At as [-> | ->]; [apply tx_refl | exact Calm].
Qed.

(** An invariant of the steps holds in every database the commands can
    produce. *)
Lemma reachable_tx_invariant (P : Tables -> Prop) :
  P empty_db -> (forall d d', tx_step d d' -> P d -> P d') ->
  forall d, reachable d -> P d.
Proof.
  intros P0 Step d R. induction R as [|db env cmd _ IH]; [exact P0|].
  exact (Step _ _ (run_command_tx env cmd db) IH).
Qed.

(* ====================================================================== *)
(** * Balances depend on the entries alone *)

Lemma read_balance_same_entries (d d' : Tables) (a x : Z) :
  ledger_entries d' = ledger_entries d -> read_balance d' a x = read_balance d a x.
Proof. unfold read_balance, select_balance. intros ->. reflexivity. Qed.

Lemma held_same_entries (d d' : Tables) (a x : Z) :
  ledger_entries d' = ledger_entries d -> held d' a x = held d a x.
Proof. unfold held. intros ->. reflexivity. Qed.

(* ====================================================================== *)
(** * Primary keys and references *)

(** The primary keys of [assets], [accounts] and [transactions], with
    their counters. *)
Record keyed (d : Tables) : Prop := mk_keyed
  { assets_key : NoDup (map a_id (rows (assets d)));
    assets_seq : Forall (fun a => a_id a <= seq (assets d)) (rows (assets d));
    accounts_key : NoDup (map acc_id (rows (accounts d)));
    accounts_seq :
      Forall (fun a => acc_id a <= seq (accounts d)) (rows (accounts d));
    transactions_key : NoDup (map t_id (rows (transactions d)));
    transactions_seq :
      Forall (fun t => t_id t <= seq (transactions d)) (rows (transactions d)) }.

(** The guild has a transaction row with the id. *)
Definition transaction_in (d : Tables) (transaction_id guild_id : Z) : Prop :=
  exists t, In t (rows (transactions d)) /\ t_id t = transaction_id /\
            t_guild_id t = guild_id.

(** What the schema declares as foreign keys: an entry refers to a
    transaction, an account and an asset, and they are rows of one guild;
    the user of an account is a row of [users]. *)
Record linked (d : Tables) : Prop := mk_linked
  { entry_links :
      forall e, In e (rows (ledger_entries d)) ->
        exists g, transaction_in d (e_transaction_id e) g /\
                  account_in d (e_account_id e) g /\
                  asset_in d (e_asset_id e) g;
    account_user :
      forall a uid, In a (rows (accounts d)) -> acc_user_id a = Some uid ->
        exists u, In u (rows (users d)) /\ u_id u = uid }.

(** An INSERT hands out a fresh id. *)
Lemma insert_row_keyed {A : Type} (key : A -> Z) (mk : Z -> A) (t : Table A) :
  (forall id, key (mk id) = id) ->
  NoDup (map key (rows t)) -> Forall (fun r => key r <= seq t) (rows t) ->
  NoDup (map key (rows (fst (insert_row mk t)))) /\
  Forall (fun r => key r <= seq (fst (insert_row mk t)))
    (rows (fst (insert_row mk t))).
Proof.
  intros Hk ND B. unfold insert_row. simpl. split.
  - rewrite map_app. apply NoDup_snoc; [exact ND|]. simpl. rewrite Hk.
    intros H. apply in_map_iff in H. destruct H as (r & E & I).
    rewrite Forall_forall in B. specialize (B r I). lia.
  - apply Forall_app. split.
    + eapply Forall_impl; [|exact B]. simpl. intros; lia.
    + constructor; [rewrite Hk; lia | constructor].
Qed.

Lemma insert_account_rows (uid : option Z) (g : Z) (name : string)
    (ty : account_type) (d d' : Tables) (id : Z) :
  insert_account uid g name ty d = Ok (id, d') ->
  d' = set_accounts
         (fst (insert_row (fun id => mk_account id uid g name ty 1) (accounts d))) d.
Proof.
  unfold insert_account. destruct (existsb _ _); [discriminate|].
  intros [= _ <-]. reflexivity.
Qed.

Lemma insert_asset_rows (g : Z) (s nm : string) (dec : Z) (d d' : Tables) (id : Z) :
  insert_asset g s nm dec d = Ok (id, d') ->
  d' = set_assets
         (fst (insert_row (fun id => mk_asset id g s nm dec) (assets d))) d.
Proof.
  unfold insert_asset. destruct (existsb _ _); [discriminate|].
  intros [= _ <-]. reflexivity.
Qed.

Lemma insert_user_rows (u : Z) (d d' : Tables) (id : Z) :
  insert_user u d = Ok (id, d') ->
  d' = set_users (fst (insert_row (fun id => mk_user id u) (users d))) d.
Proof.
  unfold insert_user. destruct (existsb _ _); [discriminate|].
  intros [= _ <-]. reflexivity.
Qed.

Lemma keyed_new_account (uid : option Z) (g : Z) (name : string)
    (ty : account_type) (d d' : Tables) (id : Z) :
  insert_account uid g name ty d = Ok (id, d') -> keyed d -> keyed d'.
Proof.
  intros E [AK AS CK CS TK TS]. rewrite (insert_account_rows _ _ _ _ _ _ _ E).
  destruct (insert_row_keyed acc_id (fun id => mk_account id uid g name ty 1)
              (accounts d) (fun _ => eq_refl) CK CS) as [CK' CS'].
  split; assumption.
Qed.

Lemma keyed_new_transaction (d d' : Tables) (g : Z) (desc : description)
    (now : timestamp) :
  assets d' = assets d -> accounts d' = accounts d ->
  transactions d'
  = fst (insert_row (fun id => mk_transaction id g desc now) (transactions d)) ->
  keyed d -> keyed d'.
Proof.
  intros EA EC ET [AK AS CK CS TK TS].
  destruct (insert_row_keyed t_id (fun id => mk_transaction id g desc now)
              (transactions d) (fun _ => eq_refl) TK TS) as [TK' TS'].
  split; rewrite ?EA, ?EC, ?ET; assumption.
Qed.

Lemma keyed_step (d d' : Tables) : tx_step d d' -> keyed d -> keyed d'.
Proof.
  induction 1 as [d | d1 d2 d3 _ IH1 _ IH2 | u d d' id E | u uid g d d' id _ E
                 | g d d' id E | g s nm dec d d' id E
                 | d g A B x q desc now _ _ _ _ _
                 | d g T x supply s now _ _ _
                 | d g T x adj s now _ _ _
                 | d x];
    intros K; auto.
  - rewrite (insert_user_rows _ _ _ _ E). destruct K. split; assumption.
  - exact (keyed_new_account _ _ _ _ _ _ _ E K).
  - exact (keyed_new_account _ _ _ _ _ _ _ E K).
  - rewrite (insert_asset_rows _ _ _ _ _ _ _ E).
    destruct K as [AK AS CK CS TK TS].
    destruct (insert_row_keyed a_id (fun id => mk_asset id g s nm dec)
                (assets d) (fun _ => eq_refl) AK AS) as [AK' AS'].
    split; assumption.
  - apply (keyed_new_transaction d _ g desc now); try reflexivity. exact K.
  - apply (keyed_new_transaction d _ g (DescInitialSupply s) now);
      try reflexivity. exact K.
  - apply (keyed_new_transaction d _ g (DescDbFix s) now); try reflexivity. exact K.
  - destruct K as [AK AS CK CS TK TS]. split; try assumption.
    + exact (delete_rows_unique a_id _ (assets d) AK).
    + unfold deleted, delete_rows. simpl. apply Forall_filter, AS.
Qed.

Lemma keyed_empty : keyed empty_db.
Proof. split; simpl; constructor. Qed.

Lemma reachable_keyed (d : Tables) : reachable d -> keyed d.
Proof. apply reachable_tx_invariant; [exact keyed_empty | exact keyed_step]. Qed.

(** ** References *)

Lemma transaction_in_more (d d' : Tables) (tid g : Z) :
  (forall t, In t (rows (transactions d)) -> In t (rows (transactions d'))) ->
  transaction_in d tid g -> transaction_in d' tid g.
Proof. intros H (t & I & F). exists t. auto. Qed.

Lemma account_in_more (d d' : Tables) (a g : Z) :
  (forall r, In r (rows (accounts d)) -> In r (rows (accounts d'))) ->
  account_in d a g -> account_in d' a g.
Proof. intros H (r & I & F). exists r. auto. Qed.

Lemma asset_in_more (d d' : Tables) (x g : Z) :
  (forall r, In r (rows (assets d)) -> In r (rows (assets d'))) ->
  asset_in d x g -> asset_in d' x g.
Proof. intros H (r & I & F). exists r. auto. Qed.

(** Rows were added to tables other than [ledger_entries]. *)
Lemma linked_more_rows (d d' : Tables) :
  ledger_entries d' = ledger_entries d ->
  (forall u, In u (rows (users d)) -> In u (rows (users d'))) ->
  (forall t, In t (rows (transactions d)) -> In t (rows (transactions d'))) ->
  (forall r, In r (rows (assets d)) -> In r (rows (assets d'))) ->
  (forall r, In r (rows (accounts d')) ->
     In r (rows (accounts d)) \/
     forall uid, acc_user_id r = Some uid ->
                 exists u, In u (rows (users d)) /\ u_id u = uid) ->
  (forall r, In r (rows (accounts d)) -> In r (rows (accounts d'))) ->
  linked d -> linked d'.
Proof.
  intros EE HU HT HA HC HC' [L U]. split.
  - intros e He. rewrite EE in He. destruct (L e He) as (g & T & C & A).
    exists g. split; [exact (transaction_in_more _ _ _ _ HT T)|].
    split; [exact (account_in_more _ _ _ _ HC' C) | exact (asset_in_more _ _ _ _ HA A)].
  - intros a uid Ha Eu. destruct (HC a Ha) as [Old | New].
    + destruct (U a uid Old Eu) as (u & I & F). exists u. auto.
    + destruct (New uid Eu) as (u & I & F). exists u. auto.
Qed.

(** A transaction row and its entries were added. *)
Lemma linked_new_entries (d d' : Tables) (g : Z) (t : transaction_row)
    (new : list entry_row) :
  users d' = users d -> assets d' = assets d -> accounts d' = accounts d ->
  rows (transactions d') = rows (transactions d) ++ [t] ->
  rows (ledger_entries d') = rows (ledger_entries d) ++ new ->
  t_guild_id t = g ->
  Forall (fun e => e_transaction_id e = t_id t /\
                   account_in d (e_account_id e) g /\
                   asset_in d (e_asset_id e) g) new ->
  linked d -> linked d'.
Proof.
  intros EU EA EC ET EE Tg New [L U]. split.
  - intros e He. rewrite EE in He. apply in_app_or in He.
    assert (More : forall r, In r (rows (transactions d)) ->
                             In r (rows (transactions d')))
      by (intros r I; rewrite ET; apply in_or_app; left; exact I).
    destruct He as [He | He].
    + destruct (L e He) as (g' & T & C & A). exists g'.
      split; [exact (transaction_in_more _ _ _ _ More T)|].
      split; [exact (account_in_same _ _ _ _ EC C) | exact (asset_in_same _ _ _ _ EA A)].
    + rewrite Forall_forall in New. destruct (New e He) as (Et & C & A).
      exists g. split; [|split].
      * exists t. split; [rewrite ET; apply in_or_app; right; left; reflexivity|].
        split; [symmetry; exact Et | exact Tg].
      * exact (account_in_same _ _ _ _ EC C).
      * exact (asset_in_same _ _ _ _ EA A).
  - intros a uid. rewrite EC, EU. apply U.
Qed.

Lemma linked_step (d d' : Tables) : tx_step d d' -> linked d -> linked d'.
Proof.
  induction 1 as [d | d1 d2 d3 _ IH1 _ IH2 | u d d' id E | u uid g d d' id Hu E
                 | g d d' id E | g s nm dec d d' id E
                 | d g A B x q desc now _ As Aa Ab _
                 | d g T x supply s now As At _
                 | d g T x adj s now As At _
                 | d x];
    intros K; auto.
  - rewrite (insert_user_rows _ _ _ _ E).
    apply (linked_more_rows d); simpl; auto.
    intros r I. apply in_or_app. left. exact I.
  - rewrite (insert_account_rows _ _ _ _ _ _ _ E).
    apply (linked_more_rows d); simpl; auto.
    + intros r I. apply in_app_or in I. destruct I as [I | [<- | []]]; [left; exact I|].
      right. simpl. intros uid' [= <-]. exists (mk_user uid u). auto.
    + intros r I. apply in_or_app. left. exact I.
  - rewrite (insert_account_rows _ _ _ _ _ _ _ E).
    apply (linked_more_rows d); simpl; auto.
    + intros r I. apply in_app_or in I. destruct I as [I | [<- | []]]; [left; exact I|].
      right. simpl. discriminate.
    + intros r I. apply in_or_app. left. exact I.
  - rewrite (insert_asset_rows _ _ _ _ _ _ _ E).
    apply (linked_more_rows d); simpl; auto.
    intros r I. apply in_or_app. left. exact I.
  - apply (linked_new_entries d _ g
             (mk_transaction (seq (transactions d) + 1) g desc now)
             [mk_entry (seq (ledger_entries d) + 1) (seq (transactions d) + 1)
                A x (Dec.neg q);
              mk_entry (seq (ledger_entries d) + 1 + 1) (seq (transactions d) + 1)
                B x q]); try reflexivity; [|exact K].
    repeat constructor; assumption.
  - apply (linked_new_entries d _ g
             (mk_transaction (seq (transactions d) + 1) g (DescInitialSupply s) now)
             [mk_entry (seq (ledger_entries d) + 1) (seq (transactions d) + 1)
                T x supply]); try reflexivity; [|exact K].
    repeat constructor; assumption.
  - apply (linked_new_entries d _ g
             (mk_transaction (seq (transactions d) + 1) g (DescDbFix s) now)
             [mk_entry (seq (ledger_entries d) + 1) (seq (transactions d) + 1)
                T x adj]); try reflexivity; [|exact K].
    repeat constructor; assumption.
  - destruct K as [L U]. split; [|exact U].
    intros e He. unfold deleted, delete_rows in He. simpl in He.
    apply filter_In in He. destruct He as [He Ne].
    destruct (L e He) as (g & T & C & (a & Ia & Fa & Ga)).
    exists g. split; [exact T|]. split; [exact C|].
    exists a. split; [|auto]. unfold deleted, delete_rows. simpl.
    apply filter_In. split; [exact Ia|]. rewrite Fa. exact Ne.
Qed.

Lemma linked_empty : linked empty_db.
Proof. split; simpl; intros; contradiction. Qed.

Lemma reachable_linked (d : Tables) : reachable d -> linked d.
Proof. apply reachable_tx_invariant; [exact linked_empty | exact linked_step]. Qed.

(** X3.  The schema declares foreign keys that SQLite does not enforce
    (the program never turns them on); the commands keep them all the
    same.  In every database they can produce, every ledger entry refers
    to a transaction row, an account row and an asset row that exist, and
    the user of every account is a row of [users]. *)
Theorem references_resolve (d : Tables) :
  reachable d ->
  (forall e, In e (rows (ledger_entries d)) ->
     (exists t, In t (rows (transactions d)) /\ t_id t = e_transaction_id e) /\
     (exists a, In a (rows (accounts d)) /\ acc_id a = e_account_id e) /\
     (exists a, In a (rows (assets d)) /\ a_id a = e_asset_id e))
  /\
  (forall a user_id, In a (rows (accounts d)) -> acc_user_id a = Some user_id ->
     exists u, In u (rows (users d)) /\ u_id u = user_id).
Proof.
  intros R. destruct (reachable_linked d R) as [L U]. split; [|exact U].
  intros e He.
  destruct (L e He) as (g & (t & It & Ft & _) & (c & Ic & Fc & _) & (a & Ia & Fa & _)).
  split; [exists t; auto|]. split; [exists c; auto | exists a; auto].
Qed.

Lemma references_resolve_witness :
  (forall e, In e (rows (ledger_entries gold_ledger)) ->
     (exists t, In t (rows (transactions gold_ledger)) /\
                t_id t = e_transaction_id e) /\
     (exists a, In a (rows (accounts gold_ledger)) /\ acc_id a = e_account_id e) /\
     (exists a, In a (rows (assets gold_ledger)) /\ a_id a = e_asset_id e))
  /\
  (forall a user_id,
     In a (rows (accounts gold_ledger)) -> acc_user_id a = Some user_id ->
     exists u, In u (rows (users gold_ledger)) /\ u_id u = user_id).
Proof. apply (references_resolve gold_ledger). exact gold_ledger_reachable. Defined.

(** X4.  Guilds do not mix.  In every database the commands can produce,
    the transaction, the account and the asset of a ledger entry are rows
    of one guild: no entry moves an asset of one guild on an account of
    another, and none is booked under a transaction of another. *)
Theorem entries_stay_in_one_guild (d : Tables) (e : entry_row)
    (t : transaction_row) (account : account_row) (asset : asset_row) :
  reachable d ->
  In e (rows (ledger_entries d)) ->
  In t (rows (transactions d)) -> t_id t = e_transaction_id e ->
  In account (rows (accounts d)) -> acc_id account = e_account_id e ->
  In asset (rows (assets d)) -> a_id asset = e_asset_id e ->
  t_guild_id t = a_guild_id asset /\ acc_guild_id account = a_guild_id asset.
Proof.
  intros R He It Ft Ic Fc Ia Fa.
  destruct (reachable_keyed d R) as [AK _ CK _ TK _].
  destruct (reachable_linked d R) as [L _].
  destruct (L e He) as (g & (t' & It' & Ft' & Gt) & (c' & Ic' & Fc' & Gc)
                          & (a' & Ia' & Fa' & Ga)).
  assert (t = t')
    by (apply (NoDup_map_injective t_id _ _ _ TK It It'); congruence).
  assert (account = c')
    by (apply (NoDup_map_injective acc_id _ _ _ CK Ic Ic'); congruence).
  assert (asset = a')
    by (apply (NoDup_map_injective a_id _ _ _ AK Ia Ia'); congruence).
  subst. split; congruence.
Qed.

Lemma entries_stay_in_one_guild_witness :
  t_guild_id (mk_transaction 2 7 (DescGive "alice" None) 0)
  = a_guild_id (mk_asset 1 7 "GOLD" "Gold" 2) /\
  acc_guild_id (mk_account 2 (Some 1) 7 "user:2" TUser 1)
  = a_guild_id (mk_asset 1 7 "GOLD" "Gold" 2).
Proof.
  apply (entries_stay_in_one_guild gold_ledger
           (mk_entry 3 2 2 1 (Dec.mk 10000 (-2)))
           (mk_transaction 2 7 (DescGive "alice" None) 0)
           (mk_account 2 (Some 1) 7 "user:2" TUser 1)
           (mk_asset 1 7 "GOLD" "Gold" 2)).
  - exact gold_ledger_reachable.
  - vm_compute. auto.
  - vm_compute. auto.
  - reflexivity.
  - vm_compute. auto.
  - reflexivity.
  - vm_compute. auto.
  - reflexivity.
Defined.

(* ====================================================================== *)
(** * Payments move money, they do not make it *)

Lemma asset_total_same_entries (d d' : Tables) (x : Z) :
  ledger_entries d' = ledger_entries d -> asset_total x d' = asset_total x d.
Proof. unfold asset_total. intros ->. reflexivity. Qed.

Lemma asset_total_posted (g A B x : Z) (q : Dec.Decimal) (desc : description)
    (now : timestamp) (d : Tables) (y : Z) :
  (asset_total y (posted g A B x q desc now d) == asset_total y d)%Q.
Proof.
  unfold asset_total, posted. simpl.
  rewrite filter_app, map_app, total_value_app. simpl.
  destruct (x =? y); simpl; rewrite ?DecFacts.value_neg; ring.
Qed.

(** X5.  Whatever the storage does, /pay and /give leave the total of
    every asset (the sum of all its entries, over all accounts) as it
    was: what one account loses another one gains. *)
Theorem payments_conserve_supply (env : Env) (db : Tables) (i : Interaction)
    (member : Member) (symbol : string) (amount : Dec.Decimal)
    (memo : option string) (asset_id : Z) :
  (asset_total asset_id
     (fst (pay_currency_command env db i member symbol amount memo))
   == asset_total asset_id db)%Q
  /\
  (asset_total asset_id
     (fst (give_currency_command env db i member symbol amount memo))
   == asset_total asset_id db)%Q.
Proof.
  split.
  - destruct (pay_currency_command_cases env db i member symbol amount memo)
      as [(E & _) | [(g & aid & s & nm & dec & q & d0 & A
                       & _ & _ & _ & _ & _ & _ & _ & E & _)
                    | (g & aid & s & nm & dec & q & d0 & A & B & now
                       & _ & _ & _ & _ & Q & _ & _ & E & _)]];
      rewrite E; simpl; try reflexivity.
    rewrite asset_total_posted.
    rewrite (asset_total_same_entries db d0); [reflexivity | apply Q].
  - destruct (give_currency_command_cases env db i member symbol amount memo)
      as [(E & _) | [(g & aid & s & nm & dec & q & d0 & A
                       & _ & _ & _ & _ & _ & _ & _ & E & _)
                    | (g & aid & s & nm & dec & q & d0 & A & B & now
                       & _ & _ & _ & _ & Q & _ & _ & E & _)]];
      rewrite E; simpl; try reflexivity.
    rewrite asset_total_posted.
    rewrite (asset_total_same_entries db d0); [reflexivity | apply Q].
Qed.

(* ====================================================================== *)
(** * /pay and /give when the storage does not fail *)

Lemma found_stays_found {A B : Type} (f : A -> B) (p : A -> bool)
    (l extra : list A) (y : B) :
  hd_error (map f (filter p l)) = Some y ->
  hd_error (map f (filter p (l ++ extra))) = Some y.
Proof.
  intros H. rewrite filter_app, map_app.
  destruct (map f (filter p l)); [discriminate | exact H].
Qed.

(** A find-or-create of an account appends at most to [users] and
    [accounts], and afterwards the account is found under its name. *)
Definition provides (name : string) (g : Z) (m : M Z) : Prop :=
  forall c, faults c = [] ->
    exists id c1 extra,
      m c = (Ok id, c1) /\ faults c1 = [] /\
      rows (accounts (working c1)) = rows (accounts (working c)) ++ extra /\
      hd_error (select_account_id name g (working c1)) = Some id.

Lemma ensure_user_account_provides (u g : Z) :
  provides (user_account_name u) g (ensure_user_account u g).
Proof.
  intros c H. unfold ensure_user_account, bind.
  destruct (upsert_user_calm u c H) as (uid & c0 & -> & H0 & Hc & Ha & Hu).
  rewrite fetch_one_calm by exact H0.
  destruct (hd_error (select_account_id (user_account_name u) g (working c0)))
    as [id|] eqn:E.
  - exists id, c0, []. rewrite app_nil_r, Ha. auto.
  - rewrite execute_calm by exact H0. unfold insert_account.
    rewrite (filter_none_existsb _ _ _ E). simpl.
    eexists _, _, [_]. split; [reflexivity|]. simpl. split; [exact H0|].
    split; [rewrite Ha; reflexivity|].
    unfold select_account_id. simpl.
    apply (filter_none_app _ acc_id _ (mk_account _ _ _ _ _ _) E).
    unfold account_key. simpl. rewrite string_eqb_refl, Z.eqb_refl. reflexivity.
Qed.

Lemma ensure_treasury_account_provides (g : Z) :
  provides "treasury" g (ensure_treasury_account g).
Proof.
  intros c H.
  destruct (ensure_treasury_account_calm g c H) as (id & t & -> & F & [-> | ->]).
  - exists id, (set_working (set_accounts (accounts (working c)) (working c)) c), [].
    rewrite app_nil_r. simpl. auto.
  - eexists _, _, [_]. split; [reflexivity|]. simpl. split; [exact H|].
    split; [reflexivity | exact F].
Qed.

(** The part of /pay and /give after the amount was quantized, when the
    storage does not fail: both accounts are found or created; then the
    balance of the paying account is read, and the posting is committed
    when the balance read is not below the amount; nothing is committed
    when it is below, or when it cannot be read. *)
Lemma posting_command_calm (db : Tables) (g aid dec : Z) (name : string)
    (provide : M Z) (B_user : Z) (q : Dec.Decimal) (desc : description)
    (needed : Dec.Decimal -> reply) (done failed : reply) (c : Conn) :
  faults c = [] -> committed c = db -> working c = db ->
  runs_quietly provide -> provides name g provide ->
  exists d0 A B extra,
    quiet db d0 /\
    rows (accounts d0) = rows (accounts db) ++ extra /\
    hd_error (select_account_id name g d0) = Some A /\
    hd_error (select_account_id (user_account_name B_user) g d0) = Some B /\
    committed
      (snd
         ((from_account <- provide ;;
           to_account <- ensure_user_account B_user g ;;
           balance <- balance_of from_account aid ;;
           if Dec.ltb balance q then
             render (PyDecimal q) dec ;;;
             render (PyDecimal balance) dec ;;;
             ret (needed balance)
           else
             success <- transfer_currency g from_account to_account aid q desc ;;
             if success : bool
             then commit ;;; render (PyDecimal q) dec ;;; ret done
             else ret failed) c))
    = match read_balance db A aid with
      | Ok b => if Dec.ltb b q then db
                else posted g A B aid q desc (hd 0 (clock c)) d0
      | Raise _ => db
      end.
Proof.
  intros H C W Qp Hp. unfold bind.
  destruct (Hp c H) as (A & c1 & x1 & E1 & H1 & R1 & F1).
  destruct (quietly_run _ _ _ _ Qp E1) as (C1 & K1 & Q1). rewrite E1.
  destruct (ensure_user_account_provides B_user g c1 H1)
    as (B & c2 & x2 & E2 & H2 & R2 & F2).
  destruct (quietly_run _ _ _ _ (ensure_user_account_quiet B_user g) E2)
    as (C2 & K2 & Q2).
  rewrite E2. rewrite balance_of_calm by exact H2.
  assert (Q : quiet db (working c2))
    by (rewrite <- W; exact (quiet_trans _ _ _ Q1 Q2)).
  assert (Bal : read_balance (working c2) A aid = read_balance db A aid)
    by (apply read_balance_same_entries, Q).
  exists (working c2), A, B, (x1 ++ x2).
  split; [exact Q|].
  split; [rewrite R2, R1, W, app_assoc; reflexivity|].
  split; [unfold select_account_id; rewrite R2; apply found_stays_found; exact F1|].
  split; [exact F2|].
  rewrite Bal. destruct (read_balance db A aid) as [b|e];
    [|simpl; congruence].
  destruct (Dec.ltb b q).
  - unfold render.
    destruct (format_currency_amount (PyDecimal q) dec); simpl;
      [destruct (format_currency_amount (PyDecimal b) dec); simpl|];
      congruence.
  - rewrite transfer_currency_calm by exact H2. simpl.
    unfold render.
    destruct (format_currency_amount (PyDecimal q) dec); simpl;
      rewrite K2, K1; reflexivity.
Qed.

Lemma positive_amount (amount : Dec.Decimal) :
  (0 < Dec.value amount)%Q -> Dec.leb amount Dec.zero = false.
Proof.
  intros P. destruct (Dec.leb amount Dec.zero) eqn:L; [|reflexivity].
  apply DecFacts.leb_value in L. rewrite DecFacts.value_zero in L.
  exfalso. exact (Qlt_not_le _ _ P L).
Qed.

Lemma ltb_by_value (a b : Dec.Decimal) :
  Dec.ltb a b = true <-> (Dec.value a < Dec.value b)%Q.
Proof. apply DecFacts.ltb_value. Qed.

Lemma funded_or_not (db d : Tables) (r : result Dec.Decimal) (q : Dec.Decimal)
    (d' : Tables) :
  d' = match r with
       | Ok b => if Dec.ltb b q then db else d
       | Raise _ => db
       end ->
  (forall e, r = Raise e -> d' = db) /\
  (forall b, r = Ok b ->
     ((Dec.value b < Dec.value q)%Q -> d' = db) /\
     ((Dec.value q <= Dec.value b)%Q -> d' = d)).
Proof.
  intros ->. split; [intros e ->; reflexivity|]. intros b ->. split; intros V.
  - apply ltb_by_value in V. rewrite V. reflexivity.
  - destruct (Dec.ltb b q) eqn:L; [|reflexivity].
    apply ltb_by_value in L. exfalso. exact (Qlt_not_le _ _ L V).
Qed.

(** /pay after its checks of the arguments. *)
Lemma pay_currency_command_calm (env : Env) (db : Tables) (i : Interaction)
    (to_user : Member) (symbol : string) (amount : Dec.Decimal)
    (memo : option string) (g aid : Z) (s nm : string) (dec : Z)
    (q : Dec.Decimal) :
  env_faults env = [] ->
  i_guild i = Some g ->
  m_id to_user <> i_user_id i ->
  (0 < Dec.value amount)%Q ->
  hd_error (select_asset g symbol db) = Some (aid, s, nm, dec) ->
  Dec.quantize_down amount (Dec.quantum_exponent dec) = Some q ->
  exists d0 A B extra,
    quiet db d0 /\
    rows (accounts d0) = rows (accounts db) ++ extra /\
    hd_error (select_account_id (user_account_name (i_user_id i)) g d0) = Some A /\
    hd_error (select_account_id (user_account_name (m_id to_user)) g d0) = Some B /\
    fst (pay_currency_command env db i to_user symbol amount memo)
    = match read_balance db A aid with
      | Ok b =>
          if Dec.ltb b q then db
          else posted g A B aid q
                 (DescPay (i_display_name i) (m_display_name to_user)
                    (memo_suffix memo))
                 (hd 0 (env_clock env)) d0
      | Raise _ => db
      end.
Proof.
  intros Hf Hg Hne Pos Sel Qz. unfold pay_currency_command. rewrite Hg.
  replace (m_id to_user =? i_user_id i) with false
    by (symmetry; apply Z.eqb_neq; exact Hne).
  rewrite (positive_amount _ Pos).
  unfold with_connection, get_asset_by_symbol.
  set (c0 := connect db (env_faults env) (env_clock env)).
  assert (H0 : faults c0 = []) by exact Hf.
  unfold bind at 1. rewrite fetch_one_calm by exact H0.
  change (working c0) with db. rewrite Sel.
  unfold bind at 1. unfold quantize. rewrite Qz. unfold ret at 1.
  destruct (posting_command_calm db g aid dec
              (user_account_name (i_user_id i))
              (ensure_user_account (i_user_id i) g) (m_id to_user) q
              (DescPay (i_display_name i) (m_display_name to_user)
                 (memo_suffix memo))
              (fun b => InsufficientBalance q b) (PayDone q s) PayError c0 H0
              eq_refl eq_refl (ensure_user_account_quiet _ _)
              (ensure_user_account_provides _ _))
    as (d0 & A & B & extra & Q & R & FA & FB & Run).
  exists d0, A, B, extra.
  split; [exact Q|]. split; [exact R|]. split; [exact FA|]. split; [exact FB|].
  change (hd 0 (env_clock env)) with (hd 0 (clock c0)). rewrite <- Run.
  match goal with
  | |- fst (let (r, c) := ?body c0 in _) = _ => destruct (body c0); reflexivity
  end.
Qed.

(** /give after its checks of the arguments. *)
Lemma give_currency_command_calm (env : Env) (db : Tables) (i : Interaction)
    (user : Member) (symbol : string) (amount : Dec.Decimal)
    (memo : option string) (g aid : Z) (s nm : string) (dec : Z)
    (q : Dec.Decimal) :
  env_faults env = [] ->
  is_guild_manager i = true ->
  i_guild i = Some g ->
  (0 < Dec.value amount)%Q ->
  hd_error (select_asset g symbol db) = Some (aid, s, nm, dec) ->
  Dec.quantize_down amount (Dec.quantum_exponent dec) = Some q ->
  exists d0 A B extra,
    quiet db d0 /\
    rows (accounts d0) = rows (accounts db) ++ extra /\
    hd_error (select_account_id "treasury" g d0) = Some A /\
    hd_error (select_account_id (user_account_name (m_id user)) g d0) = Some B /\
    fst (give_currency_command env db i user symbol amount memo)
    = match read_balance db A aid with
      | Ok b =>
          if Dec.ltb b q then db
          else posted g A B aid q
                 (DescGive (m_display_name user) (memo_suffix memo))
                 (hd 0 (env_clock env)) d0
      | Raise _ => db
      end.
Proof.
  intros Hf Hm Hg Pos Sel Qz. unfold give_currency_command. rewrite Hm, Hg.
  cbn [negb]. rewrite (positive_amount _ Pos).
  unfold with_connection, get_asset_by_symbol.
  set (c0 := connect db (env_faults env) (env_clock env)).
  assert (H0 : faults c0 = []) by exact Hf.
  unfold bind at 1. rewrite fetch_one_calm by exact H0.
  change (working c0) with db. rewrite Sel.
  unfold bind at 1. unfold quantize. rewrite Qz. unfold ret at 1.
  destruct (posting_command_calm db g aid dec "treasury"
              (ensure_treasury_account g) (m_id user) q
              (DescGive (m_display_name user) (memo_suffix memo))
              (fun b => TreasuryInsufficient q b) (GiveDone q s) GiveError c0 H0
              eq_refl eq_refl (ensure_treasury_account_quiet _)
              (ensure_treasury_account_provides _))
    as (d0 & A & B & extra & Q & R & FA & FB & Run).
  exists d0, A, B, extra.
  split; [exact Q|]. split; [exact R|]. split; [exact FA|]. split; [exact FB|].
  change (hd 0 (env_clock env)) with (hd 0 (clock c0)). rewrite <- Run.
  match goal with
  | |- fst (let (r, c) := ?body c0 in _) = _ => destruct (body c0); reflexivity
  end.
Qed.

(** X6.  /pay when the storage does not fail, for an asset of the guild,
    another member and a positive amount that quantizes to [q]: the
    payer's account and the payee's account are found under their names
    ["user:<id>"], or created (nothing else is touched before the
    posting); then the balance of the payer's account is read as
    [balance_of] reads it, from the floating-point sum of SQLite, and
    - when the sum cannot be computed, or the balance read is below [q],
      the database stays exactly as it was (the accounts just created
      are gone too);
    - otherwise the database is the posting of [- q] on the payer's
      account and [q] on the payee's, whatever becomes of the reply. *)
Theorem pay_debits_payer_when_funded (env : Env) (db : Tables) (i : Interaction)
    (to_user : Member) (symbol : string) (amount : Dec.Decimal)
    (memo : option string) (guild_id asset_id : Z) (s name : string)
    (decimals : Z) (q : Dec.Decimal) :
  env_faults env = [] ->
  i_guild i = Some guild_id ->
  m_id to_user <> i_user_id i ->
  (0 < Dec.value amount)%Q ->
  hd_error (select_asset guild_id symbol db) = Some (asset_id, s, name, decimals) ->
  Dec.quantize_down amount (Dec.quantum_exponent decimals) = Some q ->
  exists d0 payer payee new_accounts,
    quiet db d0 /\
    rows (accounts d0) = rows (accounts db) ++ new_accounts /\
    hd_error (select_account_id (user_account_name (i_user_id i)) guild_id d0)
    = Some payer /\
    hd_error (select_account_id (user_account_name (m_id to_user)) guild_id d0)
    = Some payee /\
    (forall e, read_balance db payer asset_id = Raise e ->
       fst (pay_currency_command env db i to_user symbol amount memo) = db) /\
    (forall b, read_balance db payer asset_id = Ok b ->
       ((Dec.value b < Dec.value q)%Q ->
        fst (pay_currency_command env db i to_user symbol amount memo) = db) /\
       ((Dec.value q <= Dec.value b)%Q ->
        fst (pay_currency_command env db i to_user symbol amount memo)
        = posted guild_id payer payee asset_id q
            (DescPay (i_display_name i) (m_display_name to_user)
               (memo_suffix memo))
            (hd 0 (env_clock env)) d0)).
Proof.
  intros Hf Hg Hne Pos Sel Qz.
  destruct (pay_currency_command_calm env db i to_user symbol amount memo
              guild_id asset_id s name decimals q Hf Hg Hne Pos Sel Qz)
    as (d0 & A & B & extra & Q & R & FA & FB & Run).
  exists d0, A, B, extra.
  split; [exact Q|]. split; [exact R|]. split; [exact FA|]. split; [exact FB|].
  apply funded_or_not. exact Run.
Qed.

Lemma pay_debits_payer_when_funded_witness :
  exists d0 payer payee new_accounts,
    quiet gold_ledger d0 /\
    rows (accounts d0) = rows (accounts gold_ledger) ++ new_accounts /\
    hd_error (select_account_id (user_account_name 2) 7 d0) = Some payer /\
    hd_error (select_account_id (user_account_name 3) 7 d0) = Some payee /\
    (forall e, read_balance gold_ledger payer 1 = Raise e ->
       fst (pay_currency_command calm gold_ledger alice_interaction bob "GOLD"
              (Dec.mk 30019 (-3)) None) = gold_ledger) /\
    (forall b, read_balance gold_ledger payer 1 = Ok b ->
       ((Dec.value b < Dec.value (Dec.mk 3001 (-2)))%Q ->
        fst (pay_currency_command calm gold_ledger alice_interaction bob "GOLD"
               (Dec.mk 30019 (-3)) None) = gold_ledger) /\
       ((Dec.value (Dec.mk 3001 (-2)) <= Dec.value b)%Q ->
        fst (pay_currency_command calm gold_ledger alice_interaction bob "GOLD"
               (Dec.mk 30019 (-3)) None)
        = posted 7 payer payee 1 (Dec.mk 3001 (-2))
            (DescPay "alice" "bob" (memo_suffix None))
            (hd 0 (env_clock calm)) d0)).
Proof.
  apply (pay_debits_payer_when_funded calm gold_ledger alice_interaction bob "GOLD"
           (Dec.mk 30019 (-3)) None 7 1 "GOLD" "Gold" 2 (Dec.mk 3001 (-2))).
  - reflexivity.
  - reflexivity.
  - discriminate.
  - reflexivity.
  - reflexivity.
  - reflexivity.
Defined.

(** X7.  /give when the storage does not fail, by a manager of the guild,
    for an asset of the guild and a positive amount that quantizes to
    [q]: the treasury account of the guild and the account of the member
    are found or created; then the balance of the treasury is read as
    [balance_of] reads it, from the floating-point sum of SQLite; the
    database stays exactly as it was when the sum cannot be computed or
    the balance read is below [q], and otherwise it is the posting of
    [- q] on the treasury and [q] on the member's account, whatever
    becomes of the reply: /give issues from the treasury, it mints
    nothing. *)
Theorem give_debits_treasury_when_funded (env : Env) (db : Tables)
    (i : Interaction) (user : Member) (symbol : string) (amount : Dec.Decimal)
    (memo : option string) (guild_id asset_id : Z) (s name : string)
    (decimals : Z) (q : Dec.Decimal) :
  env_faults env = [] ->
  is_guild_manager i = true ->
  i_guild i = Some guild_id ->
  (0 < Dec.value amount)%Q ->
  hd_error (select_asset guild_id symbol db) = Some (asset_id, s, name, decimals) ->
  Dec.quantize_down amount (Dec.quantum_exponent decimals) = Some q ->
  exists d0 treasury account new_accounts,
    quiet db d0 /\
    rows (accounts d0) = rows (accounts db) ++ new_accounts /\
    hd_error (select_account_id "treasury" guild_id d0) = Some treasury /\
    hd_error (select_account_id (user_account_name (m_id user)) guild_id d0)
    = Some account /\
    (forall e, read_balance db treasury asset_id = Raise e ->
       fst (give_currency_command env db i user symbol amount memo) = db) /\
    (forall b, read_balance db treasury asset_id = Ok b ->
       ((Dec.value b < Dec.value q)%Q ->
        fst (give_currency_command env db i user symbol amount memo) = db) /\
       ((Dec.value q <= Dec.value b)%Q ->
        fst (give_currency_command env db i user symbol amount memo)
        = posted guild_id treasury account asset_id q
            (DescGive (m_display_name user) (memo_suffix memo))
            (hd 0 (env_clock env)) d0)).
Proof.
  intros Hf Hm Hg Pos Sel Qz.
  destruct (give_currency_command_calm env db i user symbol amount memo
              guild_id asset_id s name decimals q Hf Hm Hg Pos Sel Qz)
    as (d0 & A & B & extra & Q & R & FA & FB & Run).
  exists d0, A, B, extra.
  split; [exact Q|]. split; [exact R|]. split; [exact FA|]. split; [exact FB|].
  apply funded_or_not. exact Run.
Qed.

Lemma give_debits_treasury_when_funded_witness :
  exists d0 treasury account new_accounts,
    quiet gold_ledger d0 /\
    rows (accounts d0) = rows (accounts gold_ledger) ++ new_accounts /\
    hd_error (select_account_id "treasury" 7 d0) = Some treasury /\
    hd_error (select_account_id (user_account_name 3) 7 d0) = Some account /\
    (forall e, read_balance gold_ledger treasury 1 = Raise e ->
       fst (give_currency_command calm gold_ledger admin bob "GOLD"
              (Dec.mk 5 0) None) = gold_ledger) /\
    (forall b, read_balance gold_ledger treasury 1 = Ok b ->
       ((Dec.value b < Dec.value (Dec.mk 500 (-2)))%Q ->
        fst (give_currency_command calm gold_ledger admin bob "GOLD"
               (Dec.mk 5 0) None) = gold_ledger) /\
       ((Dec.value (Dec.mk 500 (-2)) <= Dec.value b)%Q ->
        fst (give_currency_command calm gold_ledger admin bob "GOLD"
               (Dec.mk 5 0) None)
        = posted 7 treasury account 1 (Dec.mk 500 (-2))
            (DescGive "bob" (memo_suffix None)) (hd 0 (env_clock calm)) d0)).
Proof.
  apply (give_debits_treasury_when_funded calm gold_ledger admin bob "GOLD"
           (Dec.mk 5 0) None 7 1 "GOLD" "Gold" 2 (Dec.mk 500 (-2))).
  - reflexivity.
  - reflexivity.
  - reflexivity.
  - reflexivity.
  - reflexivity.
  - reflexivity.
Defined.

(* ====================================================================== *)
(** * An amount below the smallest unit of the asset *)






(* ====================================================================== *)
(** * A new currency *)

(** The tables after the INSERT of an asset and the find-or-create of the
    treasury account, with [t] as the [accounts] table. *)
Definition with_asset (g : Z) (s nm : string) (dec : Z) (t : Table account_row)
    (d : Tables) : Tables :=
  set_accounts t
    (set_assets
       (mk_table (rows (assets d) ++ [mk_asset (seq (assets d) + 1) g s nm dec])
          (seq (assets d) + 1))
       d).

Lemma create_asset_calm (g : Z) (s nm : string) (dec : Z) (supply : Dec.Decimal)
    (c : Conn) :
  faults c = [] ->
  hd_error (select_asset_id g s (working c)) = None ->
  exists T t c1,
    create_asset g s nm dec supply c
    = (Ok (true, MsgCreated s nm, Some (seq (assets (working c)) + 1)), c1) /\
    hd_error (map acc_id (filter (account_key "treasury" g) (rows t))) = Some T /\
    committed c1
    = if Dec.ltb Dec.zero supply
      then posted_single g T (seq (assets (working c)) + 1) supply
             (DescInitialSupply s) (hd 0 (clock c))
             (with_asset g s nm dec t (working c))
      else with_asset g s nm dec t (working c).
Proof.
  intros H E. unfold create_asset, try_except. unfold bind at 1.
  rewrite fetch_one_calm by exact H. rewrite E.
  unfold bind at 1. rewrite execute_calm by exact H. unfold insert_asset.
  rewrite (filter_none_existsb _ _ _ E). cbn [insert_row fst snd].
  unfold bind at 1.
  match goal with |- context [ensure_treasury_account g ?c0] =>
    destruct (ensure_treasury_account_calm g c0 H) as (T & t & -> & F & _) end.
  exists T, t.
  destruct (Dec.ltb Dec.zero supply).
  - unfold bind at 1. rewrite single_posting_calm by exact H.
    eexists. split; [reflexivity|]. split; [exact F|]. reflexivity.
  - eexists. split; [reflexivity|]. split; [exact F|]. reflexivity.
Qed.

(** No entry is booked in an asset that does not exist yet. *)
Lemma no_entry_of_next_asset (d : Tables) (a : Z) :
  keyed d -> linked d ->
  filter (entry_of a (seq (assets d) + 1)) (rows (ledger_entries d)) = [].
Proof.
  intros K L. apply filter_nothing. intros e He.
  destruct (entry_links d L e He) as (g & _ & _ & (r & Ir & Fr & _)).
  pose proof (assets_seq d K) as B. rewrite Forall_forall in B.
  specialize (B r Ir). unfold entry_of.
  replace (e_asset_id e =? seq (assets d) + 1) with false
    by (symmetry; apply Z.eqb_neq; lia).
  apply andb_false_r.
Qed.

Lemma held_without_entries (d : Tables) (a x : Z) :
  filter (entry_of a x) (rows (ledger_entries d)) = [] ->
  (Dec.value (held d a x) == 0)%Q.
Proof. intros E. rewrite held_value, E. reflexivity. Qed.

Lemma supply_value (n : Z) :
  0 <= n ->
  (Dec.value (if Dec.ltb Dec.zero (Dec.of_int n) then Dec.of_int n else Dec.zero)
   == inject_Z n)%Q.
Proof.
  intros N. destruct (Dec.ltb Dec.zero (Dec.of_int n)) eqn:L.
  - apply DecFacts.value_of_int.
  - assert (n = 0).
    { destruct (Z.eq_dec n 0) as [Z0 | NZ]; [exact Z0 | exfalso].
      assert (T : Dec.ltb Dec.zero (Dec.of_int n) = true).
      { apply DecFacts.ltb_value.
        rewrite DecFacts.value_zero, DecFacts.value_of_int.
        change 0%Q with (inject_Z 0). rewrite <- (Zlt_Qlt 0 n). lia. }
      congruence. }
    subst n. reflexivity.
Qed.

(** What [balance_of] reads from a pair whose only entry is a whole amount
    that fits in 64 bits, and from a pair without entry: SQLite adds
    nothing, and nothing is rounded. *)
Lemma read_whole_entry (d : Tables) (a x n : Z) :
  int64 n = true ->
  map e_amount (filter (entry_of a x) (rows (ledger_entries d)))
  = (if Dec.ltb Dec.zero (Dec.of_int n) then [Dec.of_int n] else []) ->
  exists b,
    read_balance d a x = Ok b /\
    (Dec.value b
     == Dec.value (if Dec.ltb Dec.zero (Dec.of_int n) then Dec.of_int n
                   else Dec.zero))%Q.
Proof.
  intros Fits E. unfold read_balance, select_balance.
  change (fun e => (e_account_id e =? a) && (e_asset_id e =? x))
    with (entry_of a x).
  rewrite <- (map_map e_amount cast_as_decimal), E.
  destruct (Dec.ltb Dec.zero (Dec.of_int n)).
  - cbn [map]. unfold cast_as_decimal. cbn [Dec.of_int Dec.expo Dec.coef].
    rewrite Z.eqb_refl, Fits. cbn [andb].
    cbv [sum_row sql_sum fold_left sumStep approx overflow iSum orb].
    rewrite Z.add_0_l, Fits. cbv [overflow approx iSum hd_error].
    eexists. split; [reflexivity|]. cbn [or_zero decimal_of_number].
    destruct (Dec.is_zero (Dec.of_int n)) eqn:Z0; [|reflexivity].
    apply DecFacts.is_zero_value in Z0. rewrite Z0. reflexivity.
  - exists Dec.zero. split; reflexivity.
Qed.

(** X9.  /create by a manager of the guild, with a valid symbol that the
    guild does not use yet and a supply that is not negative, in a
    database the commands produced and with a storage that does not fail:
    the asset gets the next id of [assets] and is found under its symbol
    with the name and the decimals given; the treasury account of the
    guild exists afterwards and holds exactly the initial supply of the
    new asset, which is also what [balance_of] reads from it when the
    supply fits in 64 bits; every other account holds none of it (nothing
    of an older currency, deleted or not, comes back under the new id);
    and no holding in another asset changes.  (What an account holds is
    the exact sum of its entries.) *)
Theorem created_currency_starts_in_treasury (env : Env) (db : Tables)
    (i : Interaction) (symbol name : string) (decimals initial_supply : Z)
    (guild_id : Z) :
  env_faults env = [] ->
  reachable db ->
  is_guild_manager i = true ->
  i_guild i = Some guild_id ->
  is_valid_currency_symbol symbol = true ->
  0 <= initial_supply ->
  hd_error (select_asset_id guild_id symbol db) = None ->
  exists db' treasury,
    fst (create_currency_command env db i symbol name decimals initial_supply) = db' /\
    hd_error (select_asset guild_id symbol db')
    = Some (seq (assets db) + 1, symbol, name, decimals) /\
    hd_error (select_account_id "treasury" guild_id db') = Some treasury /\
    (Dec.value (held db' treasury (seq (assets db) + 1))
     == inject_Z initial_supply)%Q /\
    (initial_supply < 2 ^ 63 ->
     exists b,
       read_balance db' treasury (seq (assets db) + 1) = Ok b /\
       (Dec.value b == inject_Z initial_supply)%Q) /\
    (forall a, a <> treasury ->
       (Dec.value (held db' a (seq (assets db) + 1)) == 0)%Q) /\
    (forall a y, y <> seq (assets db) + 1 ->
       (Dec.value (held db' a y) == Dec.value (held db a y))%Q).
Proof.
  intros Hf R Hm Hg Hv Hs Fresh.
  pose proof (reachable_keyed db R) as K. pose proof (reachable_linked db R) as L.
  set (aid := seq (assets db) + 1).
  assert (Run : exists T t,
    hd_error (map acc_id (filter (account_key "treasury" guild_id) (rows t)))
    = Some T /\
    fst (create_currency_command env db i symbol name decimals initial_supply)
    = if Dec.ltb Dec.zero (Dec.of_int initial_supply)
      then posted_single guild_id T aid (Dec.of_int initial_supply)
             (DescInitialSupply symbol) (hd 0 (env_clock env))
             (with_asset guild_id symbol name decimals t db)
      else with_asset guild_id symbol name decimals t db).
  { unfold create_currency_command. rewrite Hm, Hg, Hv. cbn [negb].
    replace (Dec.ltb (Dec.of_int initial_supply) Dec.zero) with false.
    2:{ symmetry. destruct (Dec.ltb _ _) eqn:N; [|reflexivity].
        apply DecFacts.ltb_value in N.
        rewrite DecFacts.value_zero, DecFacts.value_of_int in N.
        change 0%Q with (inject_Z 0) in N.
        rewrite <- (Zlt_Qlt initial_supply 0) in N. lia. }
    unfold with_connection, bind.
    destruct (create_asset_calm guild_id symbol name decimals
                (Dec.of_int initial_supply)
                (connect db (env_faults env) (env_clock env)) Hf Fresh)
      as (T & t & c1 & -> & F & C).
    exists T, t. split; [exact F|]. simpl. unfold render.
    destruct (format_currency_amount (PyDecimal (Dec.of_int initial_supply))
                decimals); exact C. }
  destruct Run as (T & t & F & Run).
  exists (fst (create_currency_command env db i symbol name decimals initial_supply)), T.
  split; [reflexivity|]. rewrite Run.
  assert (Sel : hd_error (select_asset guild_id symbol
                            (with_asset guild_id symbol name decimals t db))
                = Some (aid, symbol, name, decimals)).
  { unfold select_asset, with_asset. simpl.
    apply (filter_none_app _ asset_info_of _ (mk_asset _ _ _ _ _)).
    - unfold select_asset_id in Fresh.
      destruct (filter (asset_key guild_id symbol) (rows (assets db)));
        [reflexivity | discriminate].
    - unfold asset_key. simpl. rewrite Z.eqb_refl, string_eqb_refl. reflexivity. }
  assert (Bal : forall a y,
    (Dec.value
       (held (if Dec.ltb Dec.zero (Dec.of_int initial_supply)
                 then posted_single guild_id T aid (Dec.of_int initial_supply)
                        (DescInitialSupply symbol) (hd 0%Z (env_clock env))
                        (with_asset guild_id symbol name decimals t db)
                 else with_asset guild_id symbol name decimals t db) a y)
     == Dec.value (held db a y)
        + (if (T =? a) && (aid =? y)
           then Dec.value (if Dec.ltb Dec.zero (Dec.of_int initial_supply)
                           then Dec.of_int initial_supply else Dec.zero)
           else 0))%Q).
  { intros a y. destruct (Dec.ltb Dec.zero (Dec.of_int initial_supply)).
    - rewrite held_posted_single.
      rewrite (held_same_entries db (with_asset _ _ _ _ _ db)) by reflexivity.
      reflexivity.
    - rewrite (held_same_entries db (with_asset _ _ _ _ _ db)) by reflexivity.
      destruct ((T =? a) && (aid =? y)); [rewrite DecFacts.value_zero|]; ring. }
  split; [destruct (Dec.ltb _ _); exact Sel|].
  split; [destruct (Dec.ltb _ _); exact F|].
  split; [|split; [|split]].
  - rewrite Bal, !Z.eqb_refl. simpl.
    rewrite (held_without_entries db T aid (no_entry_of_next_asset db T K L)).
    rewrite supply_value by exact Hs. ring.
  - intros Fits.
    destruct (read_whole_entry
                (if Dec.ltb Dec.zero (Dec.of_int initial_supply)
                 then posted_single guild_id T aid (Dec.of_int initial_supply)
                        (DescInitialSupply symbol) (hd 0%Z (env_clock env))
                        (with_asset guild_id symbol name decimals t db)
                 else with_asset guild_id symbol name decimals t db)
                T aid initial_supply) as (b & Rb & Vb).
    + unfold int64. apply andb_true_iff. split; [apply Z.leb_le | apply Z.ltb_lt];
        lia.
    + pose proof (no_entry_of_next_asset db T K L) as NE. fold aid in NE.
      destruct (Dec.ltb Dec.zero (Dec.of_int initial_supply)).
      * unfold posted_single, with_asset. cbn [ledger_entries rows set_accounts
                                               set_assets].
        rewrite filter_app, NE. cbn [app filter].
        rewrite entry_of_mk, !Z.eqb_refl. reflexivity.
      * unfold with_asset. cbn [ledger_entries rows set_accounts set_assets].
        rewrite NE. reflexivity.
    + exists b. split; [exact Rb|]. rewrite Vb. apply supply_value. exact Hs.
  - intros a Na. rewrite Bal.
    replace (T =? a) with false by (symmetry; apply Z.eqb_neq; congruence).
    simpl.
    rewrite (held_without_entries db a aid (no_entry_of_next_asset db a K L)).
    ring.
  - intros a y Ny. rewrite Bal.
    replace (aid =? y) with false by (symmetry; apply Z.eqb_neq; congruence).
    rewrite andb_false_r. ring.
Qed.

Lemma created_currency_starts_in_treasury_witness :
  exists db' treasury,
    fst (create_currency_command calm gold_ledger admin "SILVER" "Silver" 0 500) = db' /\
    hd_error (select_asset 7 "SILVER" db')
    = Some (seq (assets gold_ledger) + 1, "SILVER", "Silver", 0) /\
    hd_error (select_account_id "treasury" 7 db') = Some treasury /\
    (Dec.value (held db' treasury (seq (assets gold_ledger) + 1))
     == inject_Z 500)%Q /\
    (500 < 2 ^ 63 ->
     exists b,
       read_balance db' treasury (seq (assets gold_ledger) + 1) = Ok b /\
       (Dec.value b == inject_Z 500)%Q) /\
    (forall a, a <> treasury ->
       (Dec.value (held db' a (seq (assets gold_ledger) + 1)) == 0)%Q) /\
    (forall a y, y <> seq (assets gold_ledger) + 1 ->
       (Dec.value (held db' a y) == Dec.value (held gold_ledger a y))%Q).
Proof.
  apply (created_currency_starts_in_treasury calm gold_ledger admin "SILVER"
           "Silver" 0 500 7).
  - reflexivity.
  - exact gold_ledger_reachable.
  - reflexivity.
  - reflexivity.
  - reflexivity.
  - lia.
  - reflexivity.
Defined.

(* ====================================================================== *)
(** * Accounts by name *)

(** [str] of an [int] tells the integers apart. *)
Lemma str_int_injective (n m : Z) : str_int n = str_int m -> n = m.
Proof.
  unfold str_int. intros E. apply DecimalZ.to_int_inj.
  assert (Some (Z.to_int n) = Some (Z.to_int m)) as [= ->]; [|reflexivity].
  rewrite <- (NilZero.isi (Z.to_int n)), <- (NilZero.isi (Z.to_int m)).
  - rewrite E. reflexivity.
  - destruct m; simpl; try discriminate.
    intros [= N]. exact (Unsigned.to_uint_nonnil _ N).
  - destruct m; simpl; try discriminate.
    intros [= N]. exact (Unsigned.to_uint_nonnil _ N).
  - destruct n; simpl; try discriminate.
    intros [= N]. exact (Unsigned.to_uint_nonnil _ N).
  - destruct n; simpl; try discriminate.
    intros [= N]. exact (Unsigned.to_uint_nonnil _ N).
Qed.

Lemma user_account_name_injective (u u' : Z) :
  user_account_name u = user_account_name u' -> u = u'.
Proof.
  unfold user_account_name. simpl. intros [= E]. exact (str_int_injective _ _ E).
Qed.

Lemma keyed_same (d d' : Tables) :
  assets d' = assets d -> accounts d' = accounts d ->
  transactions d' = transactions d -> keyed d -> keyed d'.
Proof. intros EA EC ET [AK AS CK CS TK TS]. split; rewrite ?EA, ?EC, ?ET; assumption. Qed.

(** The find-or-create of an account row when the storage does not fail:
    the row is found under its name afterwards, the rows that were there
    stay in place, and the primary keys hold. *)
Lemma account_found_or_created (uid : option Z) (g : Z) (name : string)
    (ty : account_type) (c : Conn) :
  faults c = [] -> keyed (working c) ->
  exists id c1 extra,
    (existing <- fetch_one (select_account_id name g) ;;
     match existing with
     | Some id => ret id
     | None => execute (insert_account uid g name ty)
     end) c = (Ok id, c1) /\
    faults c1 = [] /\ keyed (working c1) /\
    rows (accounts (working c1)) = rows (accounts (working c)) ++ extra /\
    hd_error (select_account_id name g (working c1)) = Some id.
Proof.
  intros H K. unfold bind. rewrite fetch_one_calm by exact H.
  destruct (hd_error (select_account_id name g (working c))) as [id|] eqn:E.
  - exists id, c, []. rewrite app_nil_r. auto.
  - rewrite execute_calm by exact H.
    destruct (insert_account uid g name ty (working c)) as [[id d']|e] eqn:I.
    + pose proof (keyed_new_account _ _ _ _ _ _ _ I K) as K'.
      unfold insert_account in I. rewrite (filter_none_existsb _ _ _ E) in I.
      injection I as <- <-.
      eexists _, _, [_]. split; [reflexivity|]. split; [exact H|].
      split; [exact K'|]. split; [reflexivity|].
      unfold select_account_id. simpl.
      apply (filter_none_app _ acc_id _ (mk_account _ _ _ _ _ _) E).
      unfold account_key. simpl. rewrite string_eqb_refl, Z.eqb_refl. reflexivity.
    + exfalso. unfold insert_account in I.
      rewrite (filter_none_existsb _ _ _ E) in I. discriminate.
Qed.

Lemma ensure_user_account_keyed (u g : Z) (c : Conn) :
  faults c = [] -> keyed (working c) ->
  exists id c1 extra,
    ensure_user_account u g c = (Ok id, c1) /\
    faults c1 = [] /\ keyed (working c1) /\
    rows (accounts (working c1)) = rows (accounts (working c)) ++ extra /\
    hd_error (select_account_id (user_account_name u) g (working c1)) = Some id.
Proof.
  intros H K. unfold ensure_user_account. unfold bind at 1.
  destruct (upsert_user_calm u c H) as (uid & c0 & E0 & H0 & _ & Ha & _).
  destruct (quietly_run _ _ _ _ (upsert_user_quiet u) E0) as (_ & _ & (QA & QT & _)).
  rewrite E0.
  assert (K0 : keyed (working c0)) by (apply (keyed_same (working c)); assumption).
  destruct (account_found_or_created (Some uid) g (user_account_name u) TUser c0
              H0 K0) as (id & c1 & extra & E1 & H1 & K1 & R1 & F1).
  exists id, c1, extra. rewrite <- Ha. auto.
Qed.

Lemma found_row (name : string) (g id : Z) (d : Tables) :
  hd_error (select_account_id name g d) = Some id ->
  exists r, In r (rows (accounts d)) /\ acc_id r = id /\
            acc_name r = name /\ acc_guild_id r = g.
Proof.
  intros H. destruct (hd_error_filter_In _ _ _ _ H) as (r & I & K & E).
  unfold account_key in K. apply andb_true_iff in K. destruct K as [K1 K2].
  apply String.eqb_eq in K1. apply Z.eqb_eq in K2. exists r. auto.
Qed.

(** Two lookups that find the same id found the same name and guild. *)
Lemma one_id_one_name (d : Tables) (name name' : string) (g g' id : Z) :
  keyed d ->
  hd_error (select_account_id name g d) = Some id ->
  hd_error (select_account_id name' g' d) = Some id ->
  name = name' /\ g = g'.
Proof.
  intros K F F'.
  destruct (found_row _ _ _ _ F) as (r & I & Ei & En & Eg).
  destruct (found_row _ _ _ _ F') as (r' & I' & Ei' & En' & Eg').
  assert (r = r')
    by (apply (NoDup_map_injective acc_id _ _ _ (accounts_key d K) I I'); congruence).
  subst r'. split; congruence.
Qed.

(** X10.  Accounts are per user and per guild.  With a storage that does
    not fail and under the primary key of the tables,
    [ensure_user_account] for a user and a guild and then for a second
    user and guild returns the same account id exactly when the user and
    the guild are the same: two members never share an account, and a
    member has one account in each guild. *)
Theorem accounts_are_per_user_and_guild (u g u' g' : Z) (c : Conn) :
  faults c = [] -> keyed (working c) ->
  exists id id' c1 c2,
    ensure_user_account u g c = (Ok id, c1) /\
    ensure_user_account u' g' c1 = (Ok id', c2) /\
    (id = id' <-> u = u' /\ g = g').
Proof.
  intros H K.
  destruct (ensure_user_account_keyed u g c H K)
    as (id & c1 & x1 & E1 & H1 & K1 & R1 & F1).
  destruct (ensure_user_account_keyed u' g' c1 H1 K1)
    as (id' & c2 & x2 & E2 & H2 & K2 & R2 & F2).
  exists id, id', c1, c2. split; [exact E1|]. split; [exact E2|].
  assert (F1' : hd_error (select_account_id (user_account_name u) g (working c2))
                = Some id)
    by (unfold select_account_id; rewrite R2; apply found_stays_found; exact F1).
  split.
  - intros <-. destruct (one_id_one_name _ _ _ _ _ _ K2 F1' F2) as [En Eg].
    split; [exact (user_account_name_injective _ _ En) | exact Eg].
  - intros [<- <-]. congruence.
Qed.

Lemma accounts_are_per_user_and_guild_witness :
  exists id id' c1 c2,
    ensure_user_account 2 7 (connect gold_ledger [] []) = (Ok id, c1) /\
    ensure_user_account 2 8 c1 = (Ok id', c2) /\
    (id = id' <-> 2 = 2 /\ 7 = 8).
Proof.
  apply (accounts_are_per_user_and_guild 2 7 2 8 (connect gold_ledger [] [])).
  - reflexivity.
  - exact (reachable_keyed gold_ledger gold_ledger_reachable).
Defined.

(** X11.  The treasury account and the burn account of a guild.  With a
    storage that does not fail and under the primary key of the tables:
    [ensure_treasury_account] and then [ensure_burn_account] return two
    different account ids; afterwards [account_id_by_name] finds each of
    them under its name ("treasury", "burn") and changes nothing, and a
    second call of either function returns the same id and inserts
    nothing. *)
Theorem treasury_and_burn_accounts (guild_id : Z) (c : Conn) :
  faults c = [] -> keyed (working c) ->
  exists treasury burn c1 c2,
    ensure_treasury_account guild_id c = (Ok treasury, c1) /\
    ensure_burn_account guild_id c1 = (Ok burn, c2) /\
    treasury <> burn /\
    account_id_by_name "treasury" guild_id c2 = (Ok (Some treasury), c2) /\
    account_id_by_name "burn" guild_id c2 = (Ok (Some burn), c2) /\
    ensure_treasury_account guild_id c2 = (Ok treasury, c2) /\
    ensure_burn_account guild_id c2 = (Ok burn, c2).
Proof.
  intros H K. unfold ensure_treasury_account, ensure_burn_account. cbv zeta.
  destruct (account_found_or_created None guild_id "treasury" TTreasury c H K)
    as (T & c1 & x1 & E1 & H1 & K1 & R1 & F1).
  destruct (account_found_or_created None guild_id "burn" TBurn c1 H1 K1)
    as (B & c2 & x2 & E2 & H2 & K2 & R2 & F2).
  exists T, B, c1, c2. split; [exact E1|]. split; [exact E2|].
  assert (F1' : hd_error (select_account_id "treasury" guild_id (working c2)) = Some T)
    by (unfold select_account_id; rewrite R2; apply found_stays_found; exact F1).
  split.
  { intros <-. destruct (one_id_one_name _ _ _ _ _ _ K2 F1' F2) as [En _].
    discriminate. }
  unfold account_id_by_name, bind.
  rewrite !fetch_one_calm by exact H2. rewrite F1', F2. repeat split.
Qed.

Lemma treasury_and_burn_accounts_witness :
  exists treasury burn c1 c2,
    ensure_treasury_account 7 (connect gold_ledger [] []) = (Ok treasury, c1) /\
    ensure_burn_account 7 c1 = (Ok burn, c2) /\
    treasury <> burn /\
    account_id_by_name "treasury" 7 c2 = (Ok (Some treasury), c2) /\
    account_id_by_name "burn" 7 c2 = (Ok (Some burn), c2) /\
    ensure_treasury_account 7 c2 = (Ok treasury, c2) /\
    ensure_burn_account 7 c2 = (Ok burn, c2).
Proof.
  apply (treasury_and_burn_accounts 7 (connect gold_ledger [] [])).
  - reflexivity.
  - exact (reachable_keyed gold_ledger gold_ledger_reachable).
Defined.

(* ====================================================================== *)
(** * Who can take from an account *)

(** The interaction a command was issued with. *)
Definition issuer (cmd : command) : Interaction :=
  match cmd with
  | Create i _ _ _ _ => i
  | Pay i _ _ _ _ => i
  | Give i _ _ _ _ => i
  | Delete i _ => i
  | FixDb i _ _ => i
  end.

(** /pay under any storage: nothing, or one posting from the account of
    the member who issued it. *)
Lemma pay_currency_command_effect (env : Env) (db : Tables) (i : Interaction)
    (to_user : Member) (symbol : string) (amount : Dec.Decimal)
    (memo : option string) :
  fst (pay_currency_command env db i to_user symbol amount memo) = db \/
  exists g aid q d0 A B,
    i_guild i = Some g /\ quiet db d0 /\ (0 <= Dec.value q)%Q /\
    hd_error (select_account_id (user_account_name (i_user_id i)) g d0) = Some A /\
    fst (pay_currency_command env db i to_user symbol amount memo)
    = posted g A B aid q
        (DescPay (i_display_name i) (m_display_name to_user) (memo_suffix memo))
        (hd 0 (env_clock env)) d0.
Proof.
  destruct (pay_currency_command_atomic env db i to_user symbol amount memo)
    as [Same | Calm]; [left; exact Same|].
  rewrite Calm. clear Calm.
  destruct (i_guild i) as [g|] eqn:G;
    [|left; unfold pay_currency_command; rewrite G; reflexivity].
  destruct (Z.eqb_spec (m_id to_user) (i_user_id i)) as [Self | Other].
  { left. unfold pay_currency_command. rewrite G.
    replace (m_id to_user =? i_user_id i) with true
      by (symmetry; apply Z.eqb_eq; exact Self).
    reflexivity. }
  assert (NotSelf : (m_id to_user =? i_user_id i) = false)
    by (apply Z.eqb_neq; exact Other).
  destruct (Dec.leb amount Dec.zero) eqn:L.
  { left. unfold pay_currency_command. rewrite G, NotSelf, L. reflexivity. }
  assert (Pos : (0 < Dec.value amount)%Q).
  { apply Qnot_le_lt. intros V.
    rewrite <- DecFacts.value_zero in V. apply DecFacts.leb_value in V.
    congruence. }
  destruct (hd_error (select_asset g symbol db)) as [[[[aid s] nm] dec]|] eqn:Sel.
  2:{ left. unfold pay_currency_command. rewrite G, NotSelf, L.
      unfold with_connection, get_asset_by_symbol, bind.
      rewrite fetch_one_calm by reflexivity. simpl. rewrite Sel. reflexivity. }
  destruct (Dec.quantize_down amount (Dec.quantum_exponent dec)) as [q|] eqn:Qz.
  2:{ left. unfold pay_currency_command. rewrite G, NotSelf, L.
      unfold with_connection, get_asset_by_symbol, bind.
      rewrite fetch_one_calm by reflexivity. simpl. rewrite Sel.
      unfold quantize. rewrite Qz. reflexivity. }
  destruct (pay_currency_command_calm (without_faults env) db i to_user symbol
              amount memo g aid s nm dec q eq_refl G Other Pos Sel Qz)
    as (d0 & A & B & extra & Q & _ & FA & _ & Run).
  rewrite Run.
  destruct (read_balance db A aid) as [b|e]; [|left; reflexivity].
  destruct (Dec.ltb b q); [left; reflexivity|].
  right. exists g, aid, q, d0, A, B.
  split; [reflexivity|]. split; [exact Q|].
  split; [exact (quantized_not_negative amount q dec L Qz)|].
  split; [exact FA|]. reflexivity.
Qed.

(** A holding that went down under a posting went down on the paying
    account. *)
Lemma debited_account (g A B x : Z) (q : Dec.Decimal) (desc : description)
    (now : timestamp) (d : Tables) (a y : Z) :
  (0 <= Dec.value q)%Q ->
  (Dec.value (held (posted g A B x q desc now d) a y)
   < Dec.value (held d a y))%Q ->
  a = A.
Proof.
  intros Pos Less. rewrite held_posted in Less.
  destruct (Z.eqb_spec A a) as [E | N]; [symmetry; exact E|]. exfalso.
  cbn [andb] in Less.
  destruct ((B =? a) && (x =? y)); lra.
Qed.

(** A command of somebody who is no manager of the guild, other than
    /pay, changes nothing. *)
Lemma managers_only (env : Env) (cmd : command) (db : Tables) :
  is_guild_manager (issuer cmd) = false ->
  match cmd with
  | Pay _ _ _ _ _ => True
  | _ => fst (run_command env cmd db) = db
  end.
Proof.
  intros NM. destruct cmd as [i s n d z | i m s a memo | i m s a memo | i s | i c s];
    cbn [run_command issuer] in *.
  - unfold create_currency_command. rewrite NM. reflexivity.
  - exact I.
  - unfold give_currency_command. rewrite NM. reflexivity.
  - unfold delete_currency_command. rewrite NM. reflexivity.
  - unfold fix_database. rewrite NM. reflexivity.
Qed.

(** X13.  Nobody takes from somebody else's account.  Whatever the storage
    does: when a command leaves what an account holds of some asset (the
    exact sum of its entries) lower than it was, then either the command
    is a /pay and the account is the one of the member who issued it (the
    account found under the name ["user:<id>"] of that member in the
    guild), or the command was issued by a manager of the guild. *)
Theorem members_spend_only_their_own (env : Env) (cmd : command) (db : Tables)
    (account_id asset_id : Z) :
  (Dec.value (held (fst (run_command env cmd db)) account_id asset_id)
   < Dec.value (held db account_id asset_id))%Q ->
  match cmd with
  | Pay i _ _ _ _ =>
      exists guild_id,
        i_guild i = Some guild_id /\
        hd_error (select_account_id (user_account_name (i_user_id i)) guild_id
                    (fst (run_command env cmd db)))
        = Some account_id
  | _ => is_guild_manager (issuer cmd) = true
  end.
Proof.
  intros Less.
  assert (Others :
    match cmd with
    | Pay _ _ _ _ _ => True
    | _ => is_guild_manager (issuer cmd) = true
    end).
  { destruct (is_guild_manager (issuer cmd)) eqn:Mg.
    - destruct cmd; exact I || reflexivity.
    - pose proof (managers_only env cmd db Mg) as Same.
      destruct cmd; try exact I;
        (rewrite Same in Less; exfalso; exact (Qlt_irrefl _ Less)). }
  destruct cmd as [i s n d z | i to_user symbol amount memo | | |];
    try exact Others.
  cbn [run_command] in *.
  destruct (pay_currency_command_effect env db i to_user symbol amount memo)
    as [Same | (g & aid & q & d0 & A & B & G & Q & Pos & FA & Run)].
  - rewrite Same in Less. exfalso. exact (Qlt_irrefl _ Less).
  - rewrite Run in *. exists g. split; [exact G|].
    assert (Bal : held db account_id asset_id = held d0 account_id asset_id).
    { symmetry. apply held_same_entries. apply Q. }
    rewrite Bal in Less.
    rewrite <- (debited_account g A B aid q _ _ d0 account_id asset_id Pos Less)
      in FA.
    exact FA.
Qed.

Lemma members_spend_only_their_own_witness :
  exists guild_id,
    i_guild alice_interaction = Some guild_id /\
    hd_error
      (select_account_id (user_account_name (i_user_id alice_interaction)) guild_id
         (fst (run_command calm
                 (Pay alice_interaction bob "GOLD" (Dec.mk 10 0) None)
                 gold_ledger)))
    = Some 2.
Proof.
  apply (members_spend_only_their_own calm
           (Pay alice_interaction bob "GOLD" (Dec.mk 10 0) None) gold_ledger 2 1).
  vm_compute. reflexivity.
Defined.

(* ====================================================================== *)
(** * The handlers that read commit nothing *)

Lemma reading_connection_closed (env : Env) (db : Tables) (body : M reading) :
  no_commit body -> fst (reading_connection env db body) = db.
Proof.
  intros N. unfold reading_connection.
  specialize (N (connect db (env_faults env) (env_clock env))).
  destruct (body _) as [r c]. exact N.
Qed.

Lemma choices_connection_closed (env : Env) (db : Tables)
    (body : M (list Choice + exn)) :
  no_commit body -> fst (choices_connection env db body) = db.
Proof.
  intros N. unfold choices_connection.
  specialize (N (connect db (env_faults env) (env_clock env))).
  destruct (body _) as [r c]. exact N.
Qed.

Lemma no_commit_get_treasury_balances (g : Z) :
  no_commit (get_treasury_balances g).
Proof.
  unfold get_treasury_balances, account_id_by_name.
  apply no_commit_bind; [apply no_commit_fetch_one|]. intros [T|];
    [|apply no_commit_ret].
  destruct (T =? 0); [apply no_commit_ret | apply no_commit_fetch_all_sum].
Qed.

Lemma no_commit_pay_choices (current : string) (account : Z)
    (assets : list asset_info) :
  forall choices, no_commit (pay_choices current account assets choices).
Proof.
  induction assets as [|[[[aid sym] nm] dec] assets IH]; intros choices;
    cbn [pay_choices].
  - apply no_commit_ret.
  - destruct (matches current sym nm); [|apply IH].
    apply no_commit_bind; [apply no_commit_balance_of|]. intros b.
    destruct (format_currency_amount _ _); [|apply no_commit_ret].
    destruct (Dec.ltb Dec.zero b); apply IH.
Qed.

Lemma balance_command_closed (env : Env) (db : Tables) (i : Interaction)
    (symbol : option string) :
  fst (balance_command env db i symbol) = db.
Proof.
  unfold balance_command. destruct (i_guild i) as [g|]; [|reflexivity].
  apply reading_connection_closed.
  destruct (truthy symbol).
  - unfold get_asset_by_symbol.
    apply no_commit_bind; [apply no_commit_fetch_one|]. intros [[[[aid s] nm] dec]|];
      [|apply no_commit_ret].
    apply no_commit_bind; [apply no_commit_ensure_user_account|]. intros a.
    apply no_commit_bind; [apply no_commit_balance_of|]. intros b.
    destruct (format_currency_amount _ _); apply no_commit_ret.
  - apply no_commit_bind; [apply no_commit_ensure_user_account|]. intros a.
    apply no_commit_bind; [apply no_commit_fetch_all_sum|]. intros [|r l];
      [apply no_commit_ret|].
    destruct (format_balances _); apply no_commit_ret.
Qed.

Lemma treasury_command_closed (env : Env) (db : Tables) (i : Interaction)
    (symbol : option string) :
  fst (treasury_command env db i symbol) = db.
Proof.
  unfold treasury_command. destruct (negb (is_guild_manager i)); [reflexivity|].
  destruct (i_guild i) as [g|]; [|reflexivity].
  apply reading_connection_closed.
  destruct (truthy symbol).
  - unfold get_asset_by_symbol.
    apply no_commit_bind; [apply no_commit_fetch_one|]. intros [[[[aid s] nm] dec]|];
      [|apply no_commit_ret].
    apply no_commit_bind; [apply no_commit_ensure_treasury_account|]. intros a.
    apply no_commit_bind; [apply no_commit_balance_of|]. intros b.
    destruct (format_currency_amount _ _); apply no_commit_ret.
  - apply no_commit_bind; [apply no_commit_get_treasury_balances|]. intros [|r l];
      [apply no_commit_ret|].
    destruct (format_balances _); apply no_commit_ret.
Qed.

Lemma list_currencies_closed (env : Env) (db : Tables) (i : Interaction) :
  fst (list_currencies env db i) = db.
Proof.
  unfold list_currencies. destruct (i_guild i) as [g|]; [|reflexivity].
  apply reading_connection_closed. unfold get_guild_assets.
  apply no_commit_try; [|intros e; apply no_commit_ret].
  apply no_commit_bind; [apply no_commit_fetch_all|].
  intros [|r l]; apply no_commit_ret.
Qed.

Lemma pay_symbol_autocomplete_closed (env : Env) (db : Tables)
    (i : Interaction) (current : string) :
  fst (pay_symbol_autocomplete env db i current) = db.
Proof.
  unfold pay_symbol_autocomplete. destruct (i_guild i) as [g|]; [|reflexivity].
  apply choices_connection_closed. unfold get_guild_assets.
  apply no_commit_bind; [apply no_commit_fetch_all|]. intros assets.
  apply no_commit_bind; [apply no_commit_ensure_user_account|]. intros a.
  apply no_commit_bind; [apply no_commit_pay_choices|].
  intros [l|e]; apply no_commit_ret.
Qed.

Lemma general_symbol_autocomplete_closed (env : Env) (db : Tables)
    (i : Interaction) (current : string) :
  fst (general_symbol_autocomplete env db i current) = db.
Proof.
  unfold general_symbol_autocomplete. destruct (i_guild i) as [g|]; [|reflexivity].
  apply choices_connection_closed. unfold get_guild_assets.
  apply no_commit_bind; [apply no_commit_fetch_all|]. intros assets.
  apply no_commit_ret.
Qed.

(** X14.  The handlers that read leave the database as it was, whatever
    the storage does and whatever they answer: /bal, /treasury and the
    autocompletion of /pay call [ensure_user_account] and
    [ensure_treasury_account], which insert the rows they miss, but no
    handler of the five commits, so a member who only asks for a balance
    gets no [users] row and no account. *)
Theorem reading_changes_nothing (env : Env) (db : Tables) (i : Interaction)
    (symbol : option string) (current : string) :
  fst (balance_command env db i symbol) = db /\
  fst (treasury_command env db i symbol) = db /\
  fst (list_currencies env db i) = db /\
  fst (pay_symbol_autocomplete env db i current) = db /\
  fst (general_symbol_autocomplete env db i current) = db.
Proof.
  split; [apply balance_command_closed|].
  split; [apply treasury_command_closed|].
  split; [apply list_currencies_closed|].
  split; [apply pay_symbol_autocomplete_closed|].
  apply general_symbol_autocomplete_closed.
Qed.

(* ====================================================================== *)
(** * What the lists show *)

(** Under [UNIQUE(guild_id, symbol)], the asset rows of a guild are the
    rows the lookup by symbol finds. *)
Lemma asset_row_found (g : Z) (a : asset_row) (d : Tables) :
  unique_symbols d ->
  In a (rows (assets d)) -> a_guild_id a = g ->
  hd_error (select_asset g (a_symbol a) d) = Some (asset_info_of a).
Proof.
  intros U I G. unfold select_asset.
  assert (K : asset_key g (a_symbol a) a = true)
    by (apply asset_key_spec; rewrite G; reflexivity).
  assert (F : In a (filter (asset_key g (a_symbol a)) (rows (assets d))))
    by (apply filter_In; auto).
  destruct (filter (asset_key g (a_symbol a)) (rows (assets d))) as [|b l] eqn:E;
    [contradiction|].
  assert (One : filter (asset_key g (a_symbol a)) (rows (assets d)) = [b]).
  { apply (unique_key_filter (fun a => (a_guild_id a, a_symbol a)) _
             (g, a_symbol a)); [|exact U|rewrite E; reflexivity].
    intros x Kx. apply asset_key_spec, Kx. }
  rewrite E in One. injection One as ->. destruct F as [<- | []]. reflexivity.
Qed.

Lemma found_asset_row (g : Z) (s : string) (info : asset_info) (d : Tables) :
  hd_error (select_asset g s d) = Some info ->
  exists a, In a (rows (assets d)) /\ a_guild_id a = g /\ a_symbol a = s /\
            asset_info_of a = info.
Proof.
  intros H. destruct (hd_error_filter_In _ _ _ _ H) as (a & I & K & E).
  apply asset_key_spec in K. injection K as G S. exists a. auto.
Qed.

Lemma listed_assets (g : Z) (info : asset_info) (d : Tables) :
  In info (select_guild_assets g d) <->
  exists a, In a (rows (assets d)) /\ a_guild_id a = g /\ asset_info_of a = info.
Proof.
  unfold select_guild_assets. rewrite in_map_iff. split.
  - intros (a & E & I). apply (proj1 (in_order_by_symbol _ _)) in I.
    apply filter_In in I. destruct I as [I G]. apply Z.eqb_eq in G.
    exists a. auto.
  - intros (a & I & G & E). exists a. split; [exact E|].
    apply in_order_by_symbol, filter_In. split; [exact I|].
    apply Z.eqb_eq, G.
Qed.

(** X15.  /list, the autocompletion and /fix_db without a symbol go through
    the rows of [get_guild_assets]; the other commands look a currency up
    with [get_asset_by_symbol].  When the storage does not fail, under the
    UNIQUE constraint of [assets], the two agree: a row is in the list of
    the guild exactly when the lookup of its symbol in the guild finds
    that row; neither changes the connection. *)
Theorem guild_assets_are_the_assets_found (guild_id : Z) (c : Conn) :
  faults c = [] -> unique_symbols (working c) ->
  exists assets,
    get_guild_assets guild_id c = (Ok assets, c) /\
    forall asset_id symbol name decimals,
      In (asset_id, symbol, name, decimals) assets <->
      get_asset_by_symbol guild_id symbol c
      = (Ok (Some (asset_id, symbol, name, decimals)), c).
Proof.
  intros H U. exists (select_guild_assets guild_id (working c)).
  unfold get_guild_assets, get_asset_by_symbol.
  rewrite fetch_all_calm by exact H. split; [reflexivity|].
  intros asset_id symbol name decimals. rewrite fetch_one_calm by exact H.
  rewrite listed_assets. split.
  - intros (a & I & G & E).
    pose proof (asset_row_found guild_id a (working c) U I G) as F.
    rewrite E in F.
    assert (S : a_symbol a = symbol) by (injection E as _ S _ _; exact S).
    rewrite S in F. rewrite F. reflexivity.
  - intros [= F]. destruct (found_asset_row _ _ _ _ F) as (a & I & G & _ & E).
    exists a. auto.
Qed.

Lemma guild_assets_are_the_assets_found_witness :
  exists assets,
    get_guild_assets 7 (connect gold_ledger [] []) = (Ok assets, connect gold_ledger [] []) /\
    forall asset_id symbol name decimals,
      In (asset_id, symbol, name, decimals) assets <->
      get_asset_by_symbol 7 symbol (connect gold_ledger [] [])
      = (Ok (Some (asset_id, symbol, name, decimals)), connect gold_ledger [] []).
Proof.
  apply (guild_assets_are_the_assets_found 7 (connect gold_ledger [] []));
    [reflexivity | apply reachable_wf, gold_ledger_reachable].
Defined.

(** ** Balances *)

Lemma sum_row_shape (l : list number) (sums : list (option number)) :
  sum_row l = Ok sums -> exists s, sums = [s].
Proof.
  unfold sum_row. destruct (sql_sum l) as [s|e]; [|discriminate].
  intros [= <-]. exists s. reflexivity.
Qed.

(** The one error of a sum is the overflow of its integers. *)
Lemma sum_row_raises (l : list number) (e : exn) :
  sum_row l = Raise e -> e = OperationalError.
Proof.
  unfold sum_row, sql_sum. destruct l as [|x l]; [discriminate|].
  destruct (overflow _); [intros [= <-]; reflexivity|].
  destruct (approx _); discriminate.
Qed.

Lemma balance_groups_raises (having : bool) (A : Z) (d : Tables)
    (l : list asset_row) (e : exn) :
  balance_groups having A d l = Raise e -> e = OperationalError.
Proof.
  induction l as [|a l IH]; cbn [balance_groups]; [discriminate|].
  destruct (select_balance A (a_id a) d) as [sums|e1] eqn:S.
  - destruct (balance_groups having A d l) as [rest|e2].
    + destruct (hd None sums) as [total|]; [|discriminate].
      destruct (having && _); discriminate.
    + intros [= <-]. apply IH. reflexivity.
  - intros [= <-]. exact (sum_row_raises _ _ S).
Qed.

Lemma in_balance_groups (having : bool) (A : Z) (d : Tables)
    (l : list asset_row) :
  forall found,
    balance_groups having A d l = Ok found ->
    forall s n b dec,
      In (s, n, b, dec) found <->
      exists a total,
        In a l /\ (a_symbol a, a_name a, a_decimals a) = (s, n, dec) /\
        select_balance A (a_id a) d = Ok [Some total] /\
        b = decimal_of_number total /\
        (having = true -> Dec.ltb Dec.zero b = true).
Proof.
  induction l as [|a l IH]; cbn [balance_groups]; intros found E s n b dec.
  - injection E as <-. split; [intros [] | intros (a & t & [] & _)].
  - destruct (select_balance A (a_id a) d) as [sums|e1] eqn:S; [|discriminate].
    destruct (sum_row_shape _ _ S) as (r & ->).
    destruct (balance_groups having A d l) as [rest|e2]; [|discriminate].
    specialize (IH rest eq_refl s n b dec). cbn [hd] in E.
    assert (Skip : found = rest ->
              (forall total, r = Some total ->
                 having = true /\
                 Dec.ltb Dec.zero (decimal_of_number total) = false) ->
              In (s, n, b, dec) found <->
              exists a0 total,
                In a0 (a :: l) /\
                (a_symbol a0, a_name a0, a_decimals a0) = (s, n, dec) /\
                select_balance A (a_id a0) d = Ok [Some total] /\
                b = decimal_of_number total /\
                (having = true -> Dec.ltb Dec.zero b = true)).
    { intros -> No. rewrite IH. split.
      - intros (a0 & t & I & R). exists a0, t. split; [right; exact I | exact R].
      - intros (a0 & t & [<- | I] & Ea & Sa & Eb & P).
        + exfalso. rewrite S in Sa. injection Sa as ->.
          destruct (No t eq_refl) as (Hv & F). specialize (P Hv).
          rewrite Eb in P. congruence.
        + exists a0, t. auto. }
    destruct r as [total|].
    + destruct (having && negb (Dec.ltb Dec.zero (decimal_of_number total)))
        eqn:H.
      * injection E as <-. apply Skip; [reflexivity|].
        intros t [= <-]. apply andb_true_iff in H. destruct H as [-> H].
        apply negb_true_iff in H. auto.
      * injection E as <-. split.
        -- intros [[= <- <- <- <-] | I].
           ++ exists a, total. split; [left; reflexivity|].
              split; [reflexivity|]. split; [exact S|]. split; [reflexivity|].
              intros ->. cbn [andb] in H. apply negb_false_iff in H. exact H.
           ++ apply IH in I. destruct I as (a0 & t & I & R).
              exists a0, t. split; [right; exact I | exact R].
        -- intros (a0 & t & [<- | I] & Ea & Sa & Eb & P).
           ++ left. rewrite S in Sa. injection Sa as <-.
              injection Ea as <- <- <-. rewrite Eb. reflexivity.
           ++ right. apply IH. exists a0, t. auto.
    + injection E as <-. apply Skip; [reflexivity | discriminate].
Qed.

Lemma in_select_balances (having : bool) (A g : Z) (d : Tables)
    (found : list balance_row) (s n : string) (b : Dec.Decimal) (dec : Z) :
  select_balances having A g d = Ok found ->
  In (s, n, b, dec) found <->
  exists a total,
    In a (rows (assets d)) /\ a_guild_id a = g /\
    (a_symbol a, a_name a, a_decimals a) = (s, n, dec) /\
    select_balance A (a_id a) d = Ok [Some total] /\
    b = decimal_of_number total /\
    (having = true -> Dec.ltb Dec.zero b = true).
Proof.
  unfold select_balances. intros E.
  rewrite (in_balance_groups _ _ _ _ _ E). split.
  - intros (a & t & I & R). apply (proj1 (in_order_by_symbol _ _)) in I.
    apply filter_In in I. destruct I as [I G]. apply Z.eqb_eq in G.
    exists a, t. auto.
  - intros (a & t & I & G & R). exists a, t. split; [|exact R].
    apply in_order_by_symbol, filter_In. split; [exact I|]. apply Z.eqb_eq, G.
Qed.

(** A sum above zero is the Decimal [balance_of] returns. *)
Lemma positive_sum_is_balance (d : Tables) (A x : Z) (b : Dec.Decimal) :
  (exists total,
     select_balance A x d = Ok [Some total] /\ b = decimal_of_number total /\
     Dec.ltb Dec.zero b = true) <->
  (read_balance d A x = Ok b /\ (0 < Dec.value b)%Q).
Proof.
  unfold read_balance. split.
  - intros (t & -> & -> & P). apply DecFacts.ltb_value in P.
    rewrite DecFacts.value_zero in P. split; [|exact P]. cbn [hd_error or_zero].
    destruct (Dec.is_zero (decimal_of_number t)) eqn:Z0; [|reflexivity].
    apply DecFacts.is_zero_value in Z0. rewrite Z0 in P.
    exfalso. exact (Qlt_irrefl _ P).
  - destruct (select_balance A x d) as [sums|e] eqn:S; [|intros [[=] _]].
    destruct (sum_row_shape _ _ S) as (r & ->). cbn [hd_error].
    intros [[= E] P]. destruct r as [t|]; cbn [or_zero] in E.
    + destruct (Dec.is_zero (decimal_of_number t)).
      * subst b. exfalso. exact (Qlt_irrefl _ P).
      * exists t. split; [reflexivity|]. split; [symmetry; exact E|].
        apply DecFacts.ltb_value. rewrite DecFacts.value_zero. exact P.
    + subst b. exfalso. exact (Qlt_irrefl _ P).
Qed.

(** X16.  The list of /bal is the list of what [balance_of] reads.  When
    the storage does not fail, under the UNIQUE constraint of [assets]:
    the query of [get_user_balances] raises the error of a [SUM] whose
    integers overflow, or it returns its rows, and then it has a row
    [(symbol, name, balance, decimals)] exactly when
    [get_asset_by_symbol] finds an asset of the guild under [symbol],
    with that name and those decimals, and [balance_of] returns [balance]
    for the account in that asset, and [balance] is above zero.  The
    query changes nothing. *)
Theorem user_balances_are_the_holdings (account_id guild_id : Z) (c : Conn) :
  faults c = [] -> unique_symbols (working c) ->
  get_user_balances account_id guild_id c = (Raise OperationalError, c) \/
  exists balances,
    get_user_balances account_id guild_id c = (Ok balances, c) /\
    forall symbol name balance decimals,
      In (symbol, name, balance, decimals) balances <->
      exists asset_id,
        get_asset_by_symbol guild_id symbol c
        = (Ok (Some (asset_id, symbol, name, decimals)), c) /\
        balance_of account_id asset_id c = (Ok balance, c) /\
        (0 < Dec.value balance)%Q.
Proof.
  intros H U. unfold get_user_balances, get_asset_by_symbol.
  rewrite fetch_all_sum_calm by exact H.
  destruct (select_balances true account_id guild_id (working c))
    as [found|e] eqn:Sb.
  2:{ left. unfold select_balances in Sb.
      rewrite (balance_groups_raises _ _ _ _ _ Sb). reflexivity. }
  right. exists found. split; [reflexivity|].
  intros symbol name b decimals. rewrite fetch_one_calm by exact H.
  rewrite (in_select_balances _ _ _ _ _ _ _ _ _ Sb). split.
  - intros (a & t & I & G & [= S N D] & Sum & Eb & P). exists (a_id a).
    rewrite balance_of_calm by exact H.
    destruct (proj1 (positive_sum_is_balance (working c) account_id (a_id a) b))
      as [Rb Pb]; [exists t; auto|].
    pose proof (asset_row_found guild_id a (working c) U I G) as F.
    unfold asset_info_of in F. rewrite S, N, D in F. rewrite F, Rb. auto.
  - intros (asset_id & [= F] & Bal & P).
    rewrite balance_of_calm in Bal by exact H.
    assert (Rb : read_balance (working c) account_id asset_id = Ok b).
    { destruct (read_balance (working c) account_id asset_id);
        injection Bal as Bal; congruence. }
    destruct (found_asset_row _ _ _ _ F) as (a & I & G & S & [= Ei _ En Ed]).
    destruct (proj2 (positive_sum_is_balance (working c) account_id asset_id b)
                (conj Rb P)) as (t & Sum & Eb & Pb).
    exists a, t. split; [exact I|]. split; [exact G|].
    split; [rewrite S, En, Ed; reflexivity|].
    rewrite Ei. split; [exact Sum|]. split; [exact Eb | intros _; exact Pb].
Qed.

Lemma user_balances_are_the_holdings_witness :
  exists balances,
    get_user_balances 2 7 (connect gold_ledger [] [])
    = (Ok balances, connect gold_ledger [] []) /\
    forall symbol name balance decimals,
      In (symbol, name, balance, decimals) balances <->
      exists asset_id,
        get_asset_by_symbol 7 symbol (connect gold_ledger [] [])
        = (Ok (Some (asset_id, symbol, name, decimals)), connect gold_ledger [] []) /\
        balance_of 2 asset_id (connect gold_ledger [] [])
        = (Ok balance, connect gold_ledger [] []) /\
        (0 < Dec.value balance)%Q.
Proof.
  destruct (user_balances_are_the_holdings 2 7 (connect gold_ledger [] [])
              eq_refl (proj1 (reachable_wf _ gold_ledger_reachable)))
    as [Overflow | Rows]; [|exact Rows].
  vm_compute in Overflow. discriminate.
Defined.

(* ====================================================================== *)
(** * The list of /bal *)

(** The decimals of a row of a balance query. *)
Definition row_decimals (r : balance_row) : Z := snd r.

(** The line of a row whose asset has no decimals: [str(int(balance))]. *)
Definition whole_line (r : balance_row) : balance_line :=
  let '(symbol, name, balance, decimals) := r in
  (str_int (int_of balance), symbol, name).

(** The rows of a balance query hold numbers, not Decimals: the loop gets
    past the rows of assets without decimals only. *)
Lemma format_balances_whole (balances : list balance_row) :
  format_balances balances
  = if forallb (fun r => row_decimals r =? 0) balances
    then inl (map whole_line balances) else inr AttributeError.
Proof.
  induction balances as [|[[[s n] b] dec] l IH]; [reflexivity|].
  cbn [format_balances forallb map whole_line row_decimals snd].
  unfold format_currency_amount. destruct (dec =? 0); [|reflexivity].
  rewrite IH. destruct (forallb _ l); reflexivity.
Qed.

Lemma select_balances_same (having : bool) (A g : Z) (d d' : Tables) :
  assets d' = assets d -> ledger_entries d' = ledger_entries d ->
  select_balances having A g d' = select_balances having A g d.
Proof.
  intros EA EL. unfold select_balances. rewrite EA.
  induction (order_by_symbol _) as [|a l IH]; [reflexivity|].
  cbn [balance_groups]. rewrite IH. unfold select_balance. rewrite EL.
  reflexivity.
Qed.

Lemma select_balances_no_entries (having : bool) (A g : Z) (d : Tables) :
  (forall e, In e (rows (ledger_entries d)) -> e_account_id e <> A) ->
  select_balances having A g d = Ok [].
Proof.
  intros None. unfold select_balances.
  induction (order_by_symbol _) as [|a l IH]; [reflexivity|].
  cbn [balance_groups]. rewrite IH. unfold select_balance.
  rewrite (filter_nothing _ (rows (ledger_entries d))); [reflexivity|].
  intros e He. apply andb_false_iff. left. apply Z.eqb_neq, None, He.
Qed.

(** An account that was just created has no entry. *)
Lemma created_account_has_no_entry (name : string) (g id : Z)
    (db d1 : Tables) (extra : list account_row) :
  keyed d1 -> linked db ->
  rows (accounts d1) = rows (accounts db) ++ extra ->
  hd_error (select_account_id name g db) = None ->
  hd_error (select_account_id name g d1) = Some id ->
  forall e, In e (rows (ledger_entries db)) -> e_account_id e <> id.
Proof.
  intros K L R Missing Found e He Same.
  destruct (entry_links db L e He) as (g' & _ & (r & Ir & Er & _) & _).
  destruct (found_row _ _ _ _ Found) as (r' & Ir' & Er' & Nr' & Gr').
  assert (r' = r).
  { apply (NoDup_map_injective acc_id _ _ _ (accounts_key d1 K)).
    - exact Ir'.
    - rewrite R. apply in_or_app. left. exact Ir.
    - congruence. }
  subst r'. unfold select_account_id in Missing.
  assert (In r (filter (account_key name g) (rows (accounts db)))).
  { apply filter_In. split; [exact Ir|]. unfold account_key.
    rewrite Nr', Gr', String.eqb_refl, Z.eqb_refl. reflexivity. }
  destruct (filter (account_key name g) (rows (accounts db)));
    [contradiction | discriminate].
Qed.

(** What /bal finds for the member in the committed tables: the rows of
    the query of [get_user_balances] for the account under the member's
    name, or the error of that query; no row when there is no such
    account. *)
Definition holdings (user_id guild_id : Z) (db : Tables)
    : result (list balance_row) :=
  match hd_error (select_account_id (user_account_name user_id) guild_id db) with
  | Some account => select_balances true account guild_id db
  | None => Ok []
  end.

Lemma get_user_balances_of_member (u g : Z) (db : Tables) (ts : list timestamp) :
  keyed db -> linked db ->
  exists id c1,
    ensure_user_account u g (connect db [] ts) = (Ok id, c1) /\
    faults c1 = [] /\
    select_balances true id g (working c1) = holdings u g db.
Proof.
  intros K L.
  destruct (ensure_user_account_keyed u g (connect db [] ts) eq_refl K)
    as (id & c1 & extra & E & H1 & K1 & R1 & F1).
  destruct (quietly_run _ _ _ _ (ensure_user_account_quiet u g) E)
    as (_ & _ & (QA & _ & QL)).
  exists id, c1. split; [exact E|]. split; [exact H1|].
  rewrite (select_balances_same true id g db (working c1) QA QL).
  unfold holdings.
  destruct (hd_error (select_account_id (user_account_name u) g db))
    as [A|] eqn:Sel.
  - assert (F : hd_error (select_account_id (user_account_name u) g (working c1))
                = Some A).
    { unfold select_account_id. rewrite R1. apply found_stays_found. exact Sel. }
    rewrite F in F1. injection F1 as <-. reflexivity.
  - apply select_balances_no_entries.
    exact (created_account_has_no_entry _ g id db (working c1) extra K1 L R1 Sel F1).
Qed.

(** X17.  /bal without a symbol, with a storage that does not fail, in a
    database the commands produced.  The rows come from the query of
    [get_user_balances], whose balance column holds the number SQLite
    returns from its [SUM], an integer or a double, not a [Decimal];
    [format_currency_amount] converts such a number with [int] when the
    asset has 0 decimals and calls [quantize] on it otherwise.  So the
    handler
    - is left by the error of the query when a sum of integers overflows;
    - answers that the member holds nothing when no sum is above zero
      (also for a member who has no account: the one it creates is not
      kept);
    - lists every row as [str(int(balance))] when every currency listed
      has 0 decimals;
    - is left by an [AttributeError], and sends nothing, as soon as a
      currency with other decimals is listed. *)
Theorem balance_list_of_whole_currencies (env : Env) (db : Tables)
    (i : Interaction) (symbol : option string) (guild_id : Z) :
  env_faults env = [] -> reachable db ->
  i_guild i = Some guild_id -> truthy symbol = false ->
  snd (balance_command env db i symbol)
  = match holdings (i_user_id i) guild_id db with
    | Raise e => Broke e
    | Ok [] => Shown NoBalances
    | Ok found =>
        if forallb (fun r => row_decimals r =? 0) found
        then Shown (BalancesReport (map whole_line found))
        else Broke AttributeError
    end.
Proof.
  intros Hf R G Tr. unfold balance_command. rewrite G, Tr.
  unfold reading_connection. rewrite Hf.
  destruct (get_user_balances_of_member (i_user_id i) guild_id db (env_clock env)
              (reachable_keyed db R) (reachable_linked db R))
    as (id & c1 & E & H1 & Sel).
  unfold bind at 1. rewrite E. unfold bind at 1. unfold get_user_balances.
  rewrite fetch_all_sum_calm by exact H1. rewrite Sel.
  destruct (holdings (i_user_id i) guild_id db) as [[|r l]|e] eqn:Held;
    try reflexivity.
  rewrite format_balances_whole.
  destruct (forallb _ (r :: l)); reflexivity.
Qed.

Lemma balance_list_of_whole_currencies_witness :
  snd (balance_command calm gold_ledger alice_interaction None)
  = match holdings (i_user_id alice_interaction) 7 gold_ledger with
    | Raise e => Broke e
    | Ok [] => Shown NoBalances
    | Ok found =>
        if forallb (fun r => row_decimals r =? 0) found
        then Shown (BalancesReport (map whole_line found))
        else Broke AttributeError
    end.
Proof.
  apply (balance_list_of_whole_currencies calm gold_ledger alice_interaction
           None 7);
    [reflexivity | exact gold_ledger_reachable | reflexivity | reflexivity].
Defined.

(* ====================================================================== *)
(** * What the autocompletion offers *)

(** The choice stands for a row of [assets] that matches [current]. *)
Definition offers (current : string) (assets : list asset_info) (ch : Choice)
    : Prop :=
  exists asset_id name decimals,
    In (asset_id, choice_value ch, name, decimals) assets /\
    matches current (choice_value ch) name = true.

Lemma offers_more (current : string) (info : asset_info)
    (assets : list asset_info) (ch : Choice) :
  offers current assets ch -> offers current (info :: assets) ch.
Proof.
  intros (id & n & d & I & Mt). exists id, n, d. split; [right; exact I | exact Mt].
Qed.

Lemma general_choices_offered (current : string) (assets : list asset_info) :
  forall choices ch,
    In ch (general_choices current assets choices) ->
    In ch choices \/ offers current assets ch.
Proof.
  induction assets as [|[[[aid sym] nm] dec] assets IH]; intros choices ch I;
    cbn [general_choices] in I.
  - left. exact I.
  - destruct (matches current sym nm) eqn:Mt.
    + destruct (IH _ _ I) as [Old | New].
      * apply in_app_or in Old. destruct Old as [Old | [<- | []]].
        -- left. exact Old.
        -- right. exists aid, nm, dec. split; [left; reflexivity | exact Mt].
      * right. apply offers_more, New.
    + destruct (IH _ _ I) as [Old | New]; [left; exact Old|].
      right. apply offers_more, New.
Qed.

Lemma pay_choices_offered (current : string) (account : Z)
    (assets : list asset_info) :
  forall choices c l c1 ch,
    pay_choices current account assets choices c = (Ok (inl l), c1) ->
    In ch l -> In ch choices \/ offers current assets ch.
Proof.
  induction assets as [|[[[aid sym] nm] dec] assets IH];
    intros choices c l c1 ch E I; cbn [pay_choices] in E.
  - injection E as <- _. left. exact I.
  - destruct (matches current sym nm) eqn:Mt.
    + unfold bind in E.
      destruct (balance_of account aid c) as [[b|e] c2]; [|discriminate].
      destruct (format_currency_amount (PyDecimal b) dec); [|discriminate].
      assert (Step : forall name_of,
                pay_choices current account assets
                  (choices ++ [mk_choice name_of sym]) c2 = (Ok (inl l), c1) ->
                In ch choices \/
                offers current ((aid, sym, nm, dec) :: assets) ch).
      { intros name_of E'. destruct (IH _ _ _ _ ch E' I) as [Old | New].
        - apply in_app_or in Old. destruct Old as [Old | [<- | []]].
          + left. exact Old.
          + right. exists aid, nm, dec. split; [left; reflexivity | exact Mt].
        - right. apply offers_more, New. }
      destruct (Dec.ltb Dec.zero b); exact (Step _ E).
    + destruct (IH _ _ _ _ ch E I) as [Old | New]; [left; exact Old|].
      right. apply offers_more, New.
Qed.

Lemma in_first (n : nat) (l : list Choice) (ch : Choice) :
  In ch (firstn n l) -> In ch l.
Proof.
  intros I. rewrite <- (firstn_skipn n l). apply in_or_app. left. exact I.
Qed.

(** A row offered from the list of the guild is found by the lookup. *)
Lemma offered_is_found (current : string) (g : Z) (db : Tables) (ch : Choice) :
  unique_symbols db ->
  offers current (select_guild_assets g db) ch ->
  exists asset_id name decimals,
    hd_error (select_asset g (choice_value ch) db)
    = Some (asset_id, choice_value ch, name, decimals) /\
    matches current (choice_value ch) name = true.
Proof.
  intros U (id & n & d & I & Mt). exists id, n, d. split; [|exact Mt].
  apply listed_assets in I. destruct I as (a & Ia & G & E).
  pose proof (asset_row_found g a db U Ia G) as F. rewrite E in F.
  assert (S : a_symbol a = choice_value ch) by (injection E as _ S _ _; exact S).
  rewrite S in F. exact F.
Qed.

Lemma pay_symbol_autocomplete_offers (env : Env) (db : Tables)
    (i : Interaction) (current : string) (ch : Choice) :
  In ch (snd (pay_symbol_autocomplete env db i current)) ->
  exists g, i_guild i = Some g /\ offers current (select_guild_assets g db) ch.
Proof.
  unfold pay_symbol_autocomplete. destruct (i_guild i) as [g|]; [|intros []].
  intros I. exists g. split; [reflexivity|].
  unfold choices_connection, get_guild_assets in I. unfold bind at 1 in I.
  set (c0 := connect db (env_faults env) (env_clock env)) in I.
  destruct (fetch_all_sound (select_guild_assets g) c0) as (_ & _ & _ & Rows).
  destruct (fetch_all (select_guild_assets g) c0) as [[assets|e] c1];
    [|destruct I].
  rewrite (Rows assets eq_refl) in I. change (working c0) with db in I.
  unfold bind at 1 in I.
  destruct (ensure_user_account (i_user_id i) g c1) as [[A|e] c2]; [|destruct I].
  unfold bind in I.
  destruct (pay_choices current A (select_guild_assets g db) [] c2)
    as [[[l|e]|e] c3] eqn:E; cbn [snd ret] in I; try contradiction.
  apply in_first in I.
  destruct (pay_choices_offered _ _ _ _ _ _ _ ch E I) as [[] | O]. exact O.
Qed.

Lemma general_symbol_autocomplete_offers (env : Env) (db : Tables)
    (i : Interaction) (current : string) (ch : Choice) :
  In ch (snd (general_symbol_autocomplete env db i current)) ->
  exists g, i_guild i = Some g /\ offers current (select_guild_assets g db) ch.
Proof.
  unfold general_symbol_autocomplete. destruct (i_guild i) as [g|]; [|intros []].
  intros I. exists g. split; [reflexivity|].
  unfold choices_connection, get_guild_assets, bind in I.
  set (c0 := connect db (env_faults env) (env_clock env)) in I.
  destruct (fetch_all_sound (select_guild_assets g) c0) as (_ & _ & _ & Rows).
  destruct (fetch_all (select_guild_assets g) c0) as [[assets|e] c1];
    [|destruct I].
  rewrite (Rows assets eq_refl) in I. change (working c0) with db in I.
  cbn [snd ret] in I. apply in_first in I.
  destruct (general_choices_offered _ _ _ ch I) as [[] | O]. exact O.
Qed.

Lemma pay_symbol_autocomplete_short (env : Env) (db : Tables)
    (i : Interaction) (current : string) :
  (List.length (snd (pay_symbol_autocomplete env db i current)) <= 25)%nat.
Proof.
  unfold pay_symbol_autocomplete. destruct (i_guild i) as [g|]; [|simpl; lia].
  unfold choices_connection, bind.
  destruct (get_guild_assets g _) as [[assets|e] c1]; [|simpl; lia].
  destruct (ensure_user_account _ _ c1) as [[A|e] c2]; [|simpl; lia].
  destruct (pay_choices _ _ _ _ c2) as [[[l|e]|e] c3]; cbn [snd ret List.length];
    try lia.
  apply firstn_le_length.
Qed.

Lemma general_symbol_autocomplete_short (env : Env) (db : Tables)
    (i : Interaction) (current : string) :
  (List.length (snd (general_symbol_autocomplete env db i current)) <= 25)%nat.
Proof.
  unfold general_symbol_autocomplete. destruct (i_guild i) as [g|]; [|simpl; lia].
  unfold choices_connection, bind.
  destruct (get_guild_assets g _) as [[assets|e] c1]; cbn [snd ret List.length];
    [|lia].
  apply firstn_le_length.
Qed.

(** X18.  What the two autocompletions of a symbol offer, whatever the
    storage does, under the UNIQUE constraint of [assets]: at most 25
    choices, and the value of every choice is the symbol of a currency of
    the guild, one that [get_asset_by_symbol] finds and whose symbol or
    name contains what the member typed, letter case aside.  Outside a
    guild nothing is offered. *)
Theorem suggestions_are_currencies (env : Env) (db : Tables) (i : Interaction)
    (current : string) (choices : list Choice) :
  unique_symbols db ->
  choices = snd (pay_symbol_autocomplete env db i current) \/
  choices = snd (general_symbol_autocomplete env db i current) ->
  (List.length choices <= 25)%nat /\
  forall ch, In ch choices ->
    exists guild_id asset_id name decimals,
      i_guild i = Some guild_id /\
      hd_error (select_asset guild_id (choice_value ch) db)
      = Some (asset_id, choice_value ch, name, decimals) /\
      matches current (choice_value ch) name = true.
Proof.
  intros U Which.
  assert (Found : forall ch,
    (exists g, i_guild i = Some g /\ offers current (select_guild_assets g db) ch) ->
    exists guild_id asset_id name decimals,
      i_guild i = Some guild_id /\
      hd_error (select_asset guild_id (choice_value ch) db)
      = Some (asset_id, choice_value ch, name, decimals) /\
      matches current (choice_value ch) name = true).
  { intros ch (g & G & O).
    destruct (offered_is_found current g db ch U O) as (id & n & d & F & Mt).
    exists g, id, n, d. auto. }
  destruct Which as [-> | ->].
  - split; [apply pay_symbol_autocomplete_short|].
    intros ch I. apply Found, (pay_symbol_autocomplete_offers env db i current ch I).
  - split; [apply general_symbol_autocomplete_short|].
    intros ch I.
    apply Found, (general_symbol_autocomplete_offers env db i current ch I).
Qed.

Lemma suggestions_are_currencies_witness :
  (List.length (snd (pay_symbol_autocomplete calm gold_ledger alice_interaction "go"))
   <= 25)%nat /\
  forall ch,
    In ch (snd (pay_symbol_autocomplete calm gold_ledger alice_interaction "go")) ->
    exists guild_id asset_id name decimals,
      i_guild alice_interaction = Some guild_id /\
      hd_error (select_asset guild_id (choice_value ch) gold_ledger)
      = Some (asset_id, choice_value ch, name, decimals) /\
      matches "go" (choice_value ch) name = true.
Proof.
  apply (suggestions_are_currencies calm gold_ledger alice_interaction "go"
           (snd (pay_symbol_autocomplete calm gold_ledger alice_interaction "go")));
    [apply reachable_wf, gold_ledger_reachable | left; reflexivity].
Defined.

(* ====================================================================== *)
(** * The text of an amount reads back as the amount *)

(** The value of a decimal digit. *)
Definition digit_of (c : ascii) : option Z :=
  let n := N_of_ascii c in
  if ((48 <=? n) && (n <=? 57))%N then Some (Z.of_N n - 48) else None.

(** The number written by the digits of [s] after the digits of [acc]. *)
Fixpoint read_digits (s : string) (acc : Z) : option Z :=
  match s with
  | EmptyString => Some acc
  | String c s' =>
      match digit_of c with
      | Some k => read_digits s' (10 * acc + k)
      | None => None
      end
  end.

(** The text before the first point, and the text after it. *)
Fixpoint split_point (s : string) : string * option string :=
  match s with
  | EmptyString => (EmptyString, None)
  | String c s' =>
      if Ascii.eqb c "." then (EmptyString, Some s')
      else let (i, f) := split_point s' in (String c i, f)
  end.

(** [Decimal(s)] for a numeral without a sign: digits, possibly a point
    and more digits, and a digit at least. *)
Definition unsigned_decimal (s : string) : option Dec.Decimal :=
  let (i, f) := split_point s in
  match read_digits i 0, f with
  | Some m, None => if (i =? "")%string then None else Some (Dec.mk m 0)
  | Some m, Some f =>
      if ((i =? "") && (f =? ""))%string then None
      else
        match read_digits f m with
        | Some n => Some (Dec.mk n (- Z.of_nat (String.length f)))
        | None => None
        end
  | None, _ => None
  end.

(** [Decimal(s)] for a numeral [s], with a minus sign before it or none;
    a text of another form has no value here. *)
Definition decimal_of_string (s : string) : option Dec.Decimal :=
  match s with
  | EmptyString => None
  | String c s' =>
      if Ascii.eqb c "-" then option_map Dec.neg (unsigned_decimal s')
      else unsigned_decimal s
  end.

(** ** Strings *)

Lemma append_empty (s : string) : (s ++ "")%string = s.
Proof. induction s as [|c s IH]; simpl; [reflexivity | rewrite IH; reflexivity]. Qed.

Lemma append_append (s t u : string) :
  ((s ++ t) ++ u)%string = (s ++ (t ++ u))%string.
Proof. induction s as [|c s IH]; simpl; [reflexivity | rewrite IH; reflexivity]. Qed.

Lemma length_of_append (s t : string) :
  String.length (s ++ t) = (String.length s + String.length t)%nat.
Proof. induction s as [|c s IH]; simpl; [reflexivity | rewrite IH; reflexivity]. Qed.

Lemma length_of_zeros (n : nat) : String.length (zeros n) = n.
Proof. induction n as [|n IH]; simpl; [reflexivity | rewrite IH; reflexivity]. Qed.

Lemma substring_whole (s : string) : substring 0 (String.length s) s = s.
Proof. induction s as [|c s IH]; simpl; [reflexivity | rewrite IH; reflexivity]. Qed.

Lemma substring_cut (s : string) :
  forall k, (k <= String.length s)%nat ->
    (substring 0 k s ++ substring k (String.length s - k) s)%string = s /\
    String.length (substring 0 k s) = k.
Proof.
  induction s as [|c s IH]; intros k Hk; simpl in Hk.
  - assert (k = 0)%nat by lia. subst k. split; reflexivity.
  - destruct k as [|k].
    + split; [|reflexivity]. simpl. rewrite substring_whole. reflexivity.
    + destruct (IH k) as [E L]; [lia|]. simpl. rewrite E, L. split; reflexivity.
Qed.

(** ** Digits *)

Lemma digit_not_point (c : ascii) (k : Z) :
  digit_of c = Some k -> Ascii.eqb c "." = false /\ Ascii.eqb c "-" = false.
Proof.
  intros D. split; apply Ascii.eqb_neq; intros ->; discriminate.
Qed.

Lemma read_digits_append (s t : string) :
  forall acc,
    read_digits (s ++ t) acc
    = match read_digits s acc with
      | Some m => read_digits t m
      | None => None
      end.
Proof.
  induction s as [|c s IH]; intros acc; simpl; [reflexivity|].
  destruct (digit_of c); [apply IH | reflexivity].
Qed.

Lemma read_zeros (n : nat) :
  forall acc, read_digits (zeros n) acc = Some (acc * 10 ^ Z.of_nat n).
Proof.
  induction n as [|n IH]; intros acc.
  - simpl. f_equal. lia.
  - cbn [zeros read_digits]. change (digit_of "0") with (Some 0). cbv iota beta.
    rewrite IH. f_equal. rewrite Nat2Z.inj_succ, Z.pow_succ_r by lia. lia.
Qed.

Lemma read_digits_after (d : Decimal.uint) :
  forall acc : positive,
    read_digits (NilEmpty.string_of_uint d) (Z.pos acc)
    = Some (Z.pos (Pos.of_uint_acc d acc)).
Proof.
  induction d as [|d IH|d IH|d IH|d IH|d IH|d IH|d IH|d IH|d IH|d IH];
    intros acc; [reflexivity|..];
    cbn [NilEmpty.string_of_uint read_digits Pos.of_uint_acc];
    match goal with
    | |- context [digit_of ?c] =>
        let k := eval vm_compute in (digit_of c) in
        change (digit_of c) with k; cbv iota
    end;
    rewrite <- IH; f_equal; lia.
Qed.

Lemma read_digits_of_uint (d : Decimal.uint) :
  read_digits (NilEmpty.string_of_uint d) 0 = Some (Z.of_N (Pos.of_uint d)).
Proof.
  induction d as [|d IH|d IH|d IH|d IH|d IH|d IH|d IH|d IH|d IH|d IH];
    [reflexivity | exact IH |..];
    cbn [NilEmpty.string_of_uint read_digits Pos.of_uint];
    match goal with
    | |- context [digit_of ?c] =>
        let k := eval vm_compute in (digit_of c) in
        change (digit_of c) with k; cbv iota
    end;
    cbn [Z.mul Z.add Z.of_N]; apply read_digits_after.
Qed.

(** [str(n)] writes [n]. *)
Lemma read_str_int (n : Z) : 0 <= n -> read_digits (str_int n) 0 = Some n.
Proof.
  intros N. unfold str_int. destruct n as [|p|p]; [reflexivity| |lia].
  cbn [Z.to_int NilZero.string_of_int].
  assert (E : NilZero.string_of_uint (Pos.to_uint p)
              = NilEmpty.string_of_uint (Pos.to_uint p)).
  { pose proof (Unsigned.to_uint_nonnil p) as NN.
    destruct (Pos.to_uint p); [contradiction|reflexivity..]. }
  rewrite E, read_digits_of_uint, Unsigned.of_to. reflexivity.
Qed.

Lemma str_int_not_empty (n : Z) : 0 <= n -> str_int n <> "".
Proof.
  intros N. unfold str_int. destruct n as [|p|p]; [discriminate| |lia].
  cbn [Z.to_int NilZero.string_of_int].
  pose proof (Unsigned.to_uint_nonnil p) as NN.
  destruct (Pos.to_uint p); [contradiction|discriminate..].
Qed.

(** [str(n)] for a negative [n]. *)
Lemma str_int_negative (n : Z) :
  n < 0 -> str_int n = String "-" (str_int (- n)).
Proof.
  intros N. unfold str_int. destruct n as [|p|p]; [lia|lia|]. reflexivity.
Qed.

(** ** [rstrip] *)

Lemma rstrip_keeps (c : ascii) (s t : string) :
  rstrip c t <> "" -> rstrip c (s ++ t) = (s ++ rstrip c t)%string.
Proof.
  intros NE. induction s as [|x s IH]; [reflexivity|].
  cbn [append rstrip]. rewrite IH.
  destruct (s ++ rstrip c t)%string eqn:E; [|reflexivity].
  exfalso. destruct s; [exact (NE E) | discriminate].
Qed.

Lemma rstrip_drops (c : ascii) (s t : string) :
  rstrip c t = "" -> rstrip c (s ++ t) = rstrip c s.
Proof.
  intros E. induction s as [|x s IH]; [exact E|].
  cbn [append rstrip]. rewrite IH. reflexivity.
Qed.

Lemma rstrip_zeros (s : string) :
  exists j, s = (rstrip "0" s ++ zeros j)%string.
Proof.
  induction s as [|x s (j & IH)]; [exists 0%nat; reflexivity|].
  cbn [rstrip]. destruct (rstrip "0" s) as [|y r] eqn:R.
  - simpl in IH. destruct (Ascii.eqb_spec x "0") as [-> | N].
    + exists (S j). rewrite IH at 1. reflexivity.
    + exists j. rewrite IH at 1. reflexivity.
  - exists j. rewrite IH at 1. reflexivity.
Qed.

Lemma rstrip_point_of_digits (s : string) :
  forall acc n, read_digits s acc = Some n -> rstrip "." s = s.
Proof.
  induction s as [|x s IH]; intros acc n R; [reflexivity|].
  cbn [read_digits] in R. destruct (digit_of x) as [k|] eqn:D; [|discriminate].
  cbn [rstrip]. rewrite (IH _ _ R).
  destruct s; [|reflexivity].
  rewrite (proj1 (digit_not_point x k D)). reflexivity.
Qed.

Lemma split_point_of_digits (i rest : string) :
  forall acc m, read_digits i acc = Some m ->
    split_point (i ++ rest)
    = (let (i', f) := split_point rest in ((i ++ i')%string, f)).
Proof.
  induction i as [|x i IH]; intros acc m R.
  - simpl. destruct (split_point rest); reflexivity.
  - cbn [read_digits] in R. destruct (digit_of x) as [k|] eqn:D; [|discriminate].
    cbn [append split_point]. rewrite (proj1 (digit_not_point x k D)).
    rewrite (IH _ _ R). destruct (split_point rest); reflexivity.
Qed.

(** ** The parts of the text *)

(** The digits before the point are [m], and with the digits after it
    they are [|c|]. *)
Lemma fixed_point_parts (c : Z) (d : nat) :
  exists ip fp m,
    fixed_point c d = (ip ++ "." ++ fp)%string /\
    ip <> "" /\ String.length fp = d /\
    read_digits ip 0 = Some m /\ read_digits fp m = Some (Z.abs c).
Proof.
  unfold fixed_point.
  set (digits0 := str_int (Z.abs c)).
  set (digits := (zeros (S d - String.length digits0) ++ digits0)%string).
  assert (Len : (S d <= String.length digits)%nat).
  { unfold digits. rewrite length_of_append, length_of_zeros. lia. }
  set (k := (String.length digits - d)%nat).
  destruct (substring_cut digits k) as [Cut Lk]; [unfold k; lia|].
  replace (String.length digits - k)%nat with d in Cut by (unfold k; lia).
  assert (Rd : read_digits digits 0 = Some (Z.abs c)).
  { unfold digits. rewrite read_digits_append, read_zeros. rewrite Z.mul_0_l.
    apply read_str_int. lia. }
  rewrite <- Cut in Rd. rewrite read_digits_append in Rd.
  destruct (read_digits (substring 0 k digits) 0) as [m|] eqn:Ri; [|discriminate].
  exists (substring 0 k digits), (substring k d digits), m.
  split; [reflexivity|]. split.
  - intros E. rewrite E in Lk. simpl in Lk. unfold k in Lk. lia.
  - split; [|split; [exact Ri | exact Rd]].
    assert (L : String.length (substring 0 k digits ++ substring k d digits)
                = String.length digits) by (rewrite Cut; reflexivity).
    rewrite length_of_append, Lk in L. unfold k in L |- *. lia.
Qed.

Lemma rstrip_zeros_after_point (fp : string) :
  rstrip "0" (String "." fp) = String "." (rstrip "0" fp).
Proof. cbn [rstrip]. destruct (rstrip "0" fp); reflexivity. Qed.

Lemma unsigned_decimal_whole (ip : string) (m : Z) :
  ip <> "" -> read_digits ip 0 = Some m ->
  unsigned_decimal ip = Some (Dec.mk m 0).
Proof.
  intros NE R. unfold unsigned_decimal.
  pose proof (split_point_of_digits ip "" 0 m R) as S.
  rewrite append_empty in S. simpl in S. rewrite append_empty in S.
  rewrite S, R. destruct (String.eqb_spec ip ""); [contradiction|reflexivity].
Qed.

Lemma unsigned_decimal_fraction (ip fp : string) (m n : Z) :
  ip <> "" -> read_digits ip 0 = Some m -> read_digits fp m = Some n ->
  unsigned_decimal (ip ++ "." ++ fp)
  = Some (Dec.mk n (- Z.of_nat (String.length fp))).
Proof.
  intros NE Ri Rf. unfold unsigned_decimal.
  rewrite (split_point_of_digits ip ("." ++ fp) 0 m Ri).
  cbn [append split_point]. change (Ascii.eqb "." ".") with true. cbv iota.
  rewrite append_empty, Ri, Rf.
  destruct (String.eqb_spec ip ""); [contradiction|reflexivity].
Qed.

(** A numeral that starts with a digit has no sign. *)
Lemma decimal_of_digits (ip rest : string) (m : Z) :
  ip <> "" -> read_digits ip 0 = Some m ->
  decimal_of_string (ip ++ rest) = unsigned_decimal (ip ++ rest).
Proof.
  intros NE R. destruct ip as [|x ip]; [contradiction|].
  cbn [read_digits] in R. destruct (digit_of x) as [k|] eqn:D; [|discriminate].
  cbn [append decimal_of_string]. rewrite (proj2 (digit_not_point x k D)).
  reflexivity.
Qed.

Lemma ten_pow_back (j a : nat) (n : Z) :
  (inject_Z (n * 10 ^ Z.of_nat j) * 10 ^ (- Z.of_nat (a + j))
   == inject_Z n * 10 ^ (- Z.of_nat a))%Q.
Proof.
  rewrite inject_Z_mult, DecFacts.inject_ten_pow by lia.
  replace (- Z.of_nat a) with (Z.of_nat j + - Z.of_nat (a + j)) by lia.
  rewrite DecFacts.ten_pow_split. ring.
Qed.

Lemma rstrip_point_before_digits (s : string) (acc n : Z) :
  s <> "" -> read_digits s acc = Some n ->
  rstrip "." ("." ++ s) = ("." ++ s)%string.
Proof.
  intros NE R. change ("." ++ s)%string with (String "." s).
  cbn [rstrip]. rewrite (rstrip_point_of_digits s acc n R).
  destruct s; [contradiction | reflexivity].
Qed.

(** The text after the two [rstrip] reads back as the number written. *)
Lemma stripped_reads_back (negative : bool) (ip fp : string) (m n : Z) :
  ip <> "" -> read_digits ip 0 = Some m -> read_digits fp m = Some n ->
  exists d,
    decimal_of_string
      (rstrip "."
         (rstrip "0"
            ((if negative then "-" else "") ++ ip ++ "." ++ fp)%string))
    = Some d /\
    (Dec.value d
     == inject_Z (if negative then - n else n)
        * 10 ^ (- Z.of_nat (String.length fp)))%Q.
Proof.
  intros NE Ri Rf.
  set (sign := if negative then "-" else "").
  assert (Assoc : forall u, (sign ++ ip ++ u)%string = ((sign ++ ip) ++ u)%string)
    by (intros u; rewrite append_append; reflexivity).
  assert (Pre : rstrip "." (sign ++ ip) = (sign ++ ip)%string).
  { rewrite rstrip_keeps; rewrite (rstrip_point_of_digits ip 0 m Ri);
      [reflexivity | exact NE]. }
  destruct (rstrip_zeros fp) as (j & Fp).
  set (fp' := rstrip "0" fp) in *.
  assert (Strip0 :
    rstrip "0" (sign ++ ip ++ "." ++ fp)%string
    = (sign ++ ip ++ "." ++ fp')%string).
  { rewrite !Assoc. change ("." ++ fp)%string with (String "." fp).
    rewrite rstrip_keeps; rewrite rstrip_zeros_after_point; [reflexivity|].
    discriminate. }
  rewrite Strip0. clear Strip0.
  rewrite Fp, read_digits_append in Rf.
  destruct (read_digits fp' m) as [n'|] eqn:Rf'; [|discriminate].
  rewrite read_zeros in Rf. injection Rf as <-.
  assert (Len : String.length fp = (String.length fp' + j)%nat)
    by (rewrite Fp at 1; rewrite length_of_append, length_of_zeros; reflexivity).
  rewrite Len.
  assert (Sign : forall u,
    decimal_of_string (sign ++ ip ++ u)%string
    = if negative then option_map Dec.neg (unsigned_decimal (ip ++ u))
      else unsigned_decimal (ip ++ u)).
  { intros u. unfold sign. destruct negative; [reflexivity|].
    apply (decimal_of_digits ip u m NE Ri). }
  assert (Value : forall k e,
    (Dec.value (if negative then Dec.neg (Dec.mk k e) else Dec.mk k e)
     == inject_Z (if negative then - k else k) * 10 ^ e)%Q).
  { intros k e. destruct negative; reflexivity. }
  assert (Back : forall a k,
    (inject_Z (if negative then - k else k) * 10 ^ (- Z.of_nat a)
     == inject_Z (if negative then - (k * 10 ^ Z.of_nat j) else k * 10 ^ Z.of_nat j)
        * 10 ^ (- Z.of_nat (a + j)))%Q).
  { intros a k. destruct negative.
    - rewrite <- (ten_pow_back j a (- k)).
      replace (- k * 10 ^ Z.of_nat j) with (- (k * 10 ^ Z.of_nat j)) by lia.
      reflexivity.
    - rewrite <- (ten_pow_back j a k). reflexivity. }
  destruct fp' as [|y fp''] eqn:Efp.
  - (* nothing is left after the point: the point goes too *)
    cbn [read_digits] in Rf'. injection Rf' as <-.
    assert (Strip1 : rstrip "." (sign ++ ip ++ "." ++ "")%string
                     = (sign ++ ip ++ "")%string).
    { rewrite !Assoc. rewrite rstrip_drops by reflexivity.
      rewrite append_empty. exact Pre. }
    rewrite Strip1, Sign, append_empty.
    rewrite (unsigned_decimal_whole ip m NE Ri).
    exists (if negative then Dec.neg (Dec.mk m 0) else Dec.mk m 0).
    split; [destruct negative; reflexivity|].
    rewrite Value. apply (Back 0%nat m).
  - (* digits are left after the point *)
    assert (Last : rstrip "." ("." ++ String y fp'') = ("." ++ String y fp'')%string).
    { apply (rstrip_point_before_digits (String y fp'') m n'); [discriminate|].
      exact Rf'. }
    assert (Strip1 : rstrip "." (sign ++ ip ++ "." ++ String y fp'')%string
                     = (sign ++ ip ++ "." ++ String y fp'')%string).
    { rewrite !Assoc. rewrite rstrip_keeps; rewrite Last; [reflexivity|].
      discriminate. }
    rewrite Strip1, Sign.
    rewrite (unsigned_decimal_fraction ip (String y fp'') m n' NE Ri Rf').
    exists (if negative
            then Dec.neg (Dec.mk n' (- Z.of_nat (String.length (String y fp''))))
            else Dec.mk n' (- Z.of_nat (String.length (String y fp'')))).
    split; [destruct negative; reflexivity|].
    rewrite Value. apply Back.
Qed.

(** ** The amount *)

(** [quantize] gives the exponent asked for and keeps the sign. *)
Lemma quantized_shape (a q : Dec.Decimal) (e : Z) :
  Dec.quantize_down a e = Some q ->
  Dec.expo q = e /\
  (Dec.coef a < 0 -> Dec.coef q <= 0) /\ (0 <= Dec.coef a -> 0 <= Dec.coef q).
Proof.
  unfold Dec.quantize_down.
  destruct (Dec.coef a =? 0); [intros [= <-]; simpl; lia|].
  destruct (_ <=? Z.abs (Dec.coef a)); [discriminate|].
  destruct (e <=? Dec.expo a) eqn:Le; intros [= <-]; simpl.
  - apply Z.leb_le in Le.
    assert (0 < 10 ^ (Dec.expo a - e)) by (apply Z.pow_pos_nonneg; lia).
    split; [reflexivity|]. split; nia.
  - apply Z.leb_gt in Le.
    assert (P : 0 < 10 ^ (e - Dec.expo a)) by (apply Z.pow_pos_nonneg; lia).
    split; [reflexivity|]. split; intros S.
    + replace (Dec.coef a) with (- - Dec.coef a) by lia.
      rewrite Z.quot_opp_l by lia.
      assert (0 <= Z.quot (- Dec.coef a) (10 ^ (e - Dec.expo a)))
        by (apply Z.quot_pos; lia).
      lia.
    + apply Z.quot_pos; lia.
Qed.

(** Without decimals the amount is cut to [int(amount)]. *)
Lemma quantized_to_int (a q : Dec.Decimal) :
  Dec.quantize_down a (Dec.quantum_exponent 0) = Some q ->
  q = Dec.mk (int_of a) 0.
Proof.
  unfold Dec.quantize_down, Dec.quantum_exponent, int_of. simpl (- 0).
  destruct (Dec.coef a =? 0) eqn:Z0.
  - apply Z.eqb_eq in Z0. intros [= <-]. rewrite Z0.
    destruct (0 <=? Dec.expo a) eqn:Le; [reflexivity|].
    apply Z.leb_gt in Le.
    rewrite Z.quot_0_l; [reflexivity|].
    apply Z.pow_nonzero; lia.
  - destruct (_ <=? Z.abs (Dec.coef a)); [discriminate|].
    destruct (0 <=? Dec.expo a); intros [= <-]; f_equal.
    rewrite Z.sub_0_r. reflexivity.
Qed.

(** [str(n)] reads back as [n]. *)
Lemma decimal_of_str_int (n : Z) :
  decimal_of_string (str_int n)
  = Some (if n <? 0 then Dec.neg (Dec.mk (- n) 0) else Dec.mk n 0).
Proof.
  destruct (Z.ltb_spec n 0) as [Neg | Pos].
  - rewrite (str_int_negative n Neg). cbn [decimal_of_string].
    change (Ascii.eqb "-" "-") with true. cbv iota.
    rewrite (unsigned_decimal_whole (str_int (- n)) (- n));
      [reflexivity | apply str_int_not_empty; lia | apply read_str_int; lia].
  - pose proof (decimal_of_digits (str_int n) "" n (str_int_not_empty n Pos)
                  (read_str_int n Pos)) as E.
    rewrite append_empty in E. rewrite E.
    apply unsigned_decimal_whole;
      [apply str_int_not_empty | apply read_str_int]; exact Pos.
Qed.

(** The text of an amount that was cut to decimals above zero. *)
Lemma quantized_text (a q : Dec.Decimal) (decimals : Z) :
  0 < decimals ->
  Dec.quantize_down a (Dec.quantum_exponent decimals) = Some q ->
  exists d,
    decimal_of_string
      (rstrip "."
         (rstrip "0"
            ((if (Dec.coef a <? 0)%Z then "-" else "")
             ++ fixed_point (Dec.coef q) (Z.to_nat decimals))%string))
    = Some d /\
    (Dec.value d == Dec.value q)%Q.
Proof.
  intros D Qz. destruct (quantized_shape a q _ Qz) as (Ex & Neg & Pos).
  destruct (fixed_point_parts (Dec.coef q) (Z.to_nat decimals))
    as (ip & fp & m & -> & NE & Len & Ri & Rf).
  destruct (stripped_reads_back (Dec.coef a <? 0) ip fp m (Z.abs (Dec.coef q))
              NE Ri Rf) as (d & Read & Val).
  exists d. split; [exact Read|].
  rewrite Val, Len, Z2Nat.id by lia.
  unfold Dec.value. rewrite Ex. unfold Dec.quantum_exponent.
  destruct (Z.ltb_spec (Dec.coef a) 0) as [S | S].
  - replace (- Z.abs (Dec.coef q)) with (Dec.coef q) by (specialize (Neg S); lia).
    reflexivity.
  - replace (Z.abs (Dec.coef q)) with (Dec.coef q) by (specialize (Pos S); lia).
    reflexivity.
Qed.

Lemma value_of_str_int (n : Z) :
  (Dec.value (if n <? 0 then Dec.neg (Dec.mk (- n) 0) else Dec.mk n 0)
   == Dec.value (Dec.mk n 0))%Q.
Proof.
  destruct (n <? 0); unfold Dec.value; simpl Dec.coef; simpl Dec.expo;
    [rewrite Z.opp_involutive|]; reflexivity.
Qed.

(** X19.  The text [format_currency_amount] gives for a [Decimal] reads
    back as the amount cut to the decimals.  For decimals that are not
    negative and an amount that [quantize] can cut to them (the result has
    at most 28 digits), the function returns a text, the text is a numeral
    ([Decimal(text)] is defined), and its value is exactly the value of
    the amount quantized with ROUND_DOWN: removing the zeros at the end and
    the point changes the look, not the number, and the zeros of the
    integral part stay. *)
Theorem formatted_amount_reads_back (a : Dec.Decimal) (decimals : Z)
    (q : Dec.Decimal) :
  0 <= decimals ->
  Dec.quantize_down a (Dec.quantum_exponent decimals) = Some q ->
  exists text d,
    format_currency_amount (PyDecimal a) decimals = Text text /\
    decimal_of_string text = Some d /\
    (Dec.value d == Dec.value q)%Q.
Proof.
  intros D Qz. unfold format_currency_amount.
  destruct (Z.eqb_spec decimals 0) as [-> | NZ].
  - eexists _, _. split; [reflexivity|]. split; [apply decimal_of_str_int|].
    rewrite (quantized_to_int a q Qz). apply value_of_str_int.
  - rewrite Qz. replace (decimals <? 0) with false by (symmetry; apply Z.ltb_ge, D).
    destruct (quantized_text a q decimals) as (d & Read & Val); [lia | exact Qz|].
    eexists _, d. split; [reflexivity|]. split; [exact Read | exact Val].
Qed.

Lemma formatted_amount_reads_back_witness :
  exists text d,
    format_currency_amount (PyDecimal (Dec.mk (-12345) (-3))) 2 = Text text /\
    decimal_of_string text = Some d /\
    (Dec.value d == Dec.value (Dec.mk (-1234) (-2)))%Q.
Proof.
  apply (formatted_amount_reads_back (Dec.mk (-12345) (-3)) 2 (Dec.mk (-1234) (-2)));
    [lia | reflexivity].
Defined.

(* ====================================================================== *)
(** * History is kept *)

(** From [d] to [d'] no row of [users], [accounts] or [transactions] was
    changed or removed, no entry was changed, an entry was removed only
    with every asset row of its asset id, and every asset row is an old
    one or has an id that was never handed out. *)
Record kept (d d' : Tables) : Prop := mk_kept
  { kept_users : exists new, rows (users d') = rows (users d) ++ new;
    kept_accounts : exists new, rows (accounts d') = rows (accounts d) ++ new;
    kept_transactions :
      exists new, rows (transactions d') = rows (transactions d) ++ new;
    kept_entries :
      forall e, In e (rows (ledger_entries d)) ->
        In e (rows (ledger_entries d')) \/
        forall a, In a (rows (assets d')) -> a_id a <> e_asset_id e;
    kept_assets :
      forall a, In a (rows (assets d')) ->
        In a (rows (assets d)) \/ seq (assets d) < a_id a;
    kept_counter : seq (assets d) <= seq (assets d') }.

Lemma nothing_new {A : Type} (l : list A) : exists new, l = l ++ new.
Proof. exists []. symmetry. apply app_nil_r. Qed.

Lemma kept_refl (d : Tables) : kept d d.
Proof.
  split; try apply nothing_new; auto. lia.
Qed.

(** Only rows of [users] or [accounts] were added. *)
Lemma kept_quiet (d d' : Tables) :
  quiet d d' ->
  (exists new, rows (users d') = rows (users d) ++ new) ->
  (exists new, rows (accounts d') = rows (accounts d) ++ new) ->
  kept d d'.
Proof.
  intros (EA & ET & EL) U C. split; auto.
  - rewrite ET. apply nothing_new.
  - rewrite EL. auto.
  - rewrite EA. auto.
  - rewrite EA. lia.
Qed.

(** Only a transaction row and entries were added. *)
Lemma kept_posting (d d' : Tables) (t : transaction_row) (new : list entry_row) :
  users d' = users d -> assets d' = assets d -> accounts d' = accounts d ->
  rows (transactions d') = rows (transactions d) ++ [t] ->
  rows (ledger_entries d') = rows (ledger_entries d) ++ new ->
  kept d d'.
Proof.
  intros EU EA EC ET EL. split.
  - rewrite EU. apply nothing_new.
  - rewrite EC. apply nothing_new.
  - exists [t]. exact ET.
  - intros e He. left. rewrite EL. apply in_or_app. left. exact He.
  - rewrite EA. auto.
  - rewrite EA. lia.
Qed.

Lemma kept_trans (d1 d2 d3 : Tables) :
  keyed d1 -> linked d1 -> kept d1 d2 -> kept d2 d3 -> kept d1 d3.
Proof.
  intros K L [(u1 & U1) (c1 & C1) (t1 & T1) E1 A1 S1]
               [(u2 & U2) (c2 & C2) (t2 & T2) E2 A2 S2].
  split.
  - exists (u1 ++ u2). rewrite U2, U1, app_assoc. reflexivity.
  - exists (c1 ++ c2). rewrite C2, C1, app_assoc. reflexivity.
  - exists (t1 ++ t2). rewrite T2, T1, app_assoc. reflexivity.
  - intros e He. destruct (E1 e He) as [In2 | Gone]; [exact (E2 e In2)|].
    right. intros a Ha Ea.
    destruct (entry_links d1 L e He) as (g & _ & _ & (r & Ir & Er & _)).
    pose proof (assets_seq d1 K) as B. rewrite Forall_forall in B.
    specialize (B r Ir).
    destruct (A2 a Ha) as [Old | Fresh]; [exact (Gone a Old Ea) | lia].
  - intros a Ha. destruct (A2 a Ha) as [Old | Fresh].
    + exact (A1 a Old).
    + right. lia.
  - lia.
Qed.

Lemma kept_step (d d' : Tables) : tx_step d d' -> keyed d -> linked d -> kept d d'.
Proof.
  induction 1 as [d | d1 d2 d3 S1 IH1 _ IH2 | u d d' id E | u uid g d d' id _ E
                 | g d d' id E | g s nm dec d d' id E
                 | d g A B x q desc now _ _ _ _ _
                 | d g T x supply s now _ _ _
                 | d g T x adj s now _ _ _
                 | d x];
    intros K L.
  - apply kept_refl.
  - apply (kept_trans d1 d2 d3 K L (IH1 K L)).
    apply IH2; [exact (keyed_step _ _ S1 K) | exact (linked_step _ _ S1 L)].
  - apply kept_quiet; [exact (insert_user_quiet _ _ _ _ E)| |].
    + rewrite (insert_user_rows _ _ _ _ E). simpl. eexists. reflexivity.
    + rewrite (insert_user_rows _ _ _ _ E). simpl. apply nothing_new.
  - apply kept_quiet; [exact (insert_account_quiet _ _ _ _ _ _ _ E)| |].
    + rewrite (insert_account_rows _ _ _ _ _ _ _ E). simpl. apply nothing_new.
    + rewrite (insert_account_rows _ _ _ _ _ _ _ E). simpl. eexists. reflexivity.
  - apply kept_quiet; [exact (insert_account_quiet _ _ _ _ _ _ _ E)| |].
    + rewrite (insert_account_rows _ _ _ _ _ _ _ E). simpl. apply nothing_new.
    + rewrite (insert_account_rows _ _ _ _ _ _ _ E). simpl. eexists. reflexivity.
  - rewrite (insert_asset_rows _ _ _ _ _ _ _ E).
    split; simpl; try apply nothing_new; auto; [|lia].
    intros a Ha. apply in_app_or in Ha. destruct Ha as [Ha | [<- | []]];
      [left; exact Ha | right; simpl; lia].
  - eapply kept_posting; reflexivity.
  - eapply kept_posting; reflexivity.
  - eapply kept_posting; reflexivity.
  - unfold deleted, delete_rows.
    split; simpl; try apply nothing_new; [| |lia].
    + intros e He. destruct (e_asset_id e =? x) eqn:Ex.
      * right. intros a Ha. apply filter_In in Ha. destruct Ha as [_ Na].
        apply Z.eqb_eq in Ex. rewrite Ex. intros Ea. rewrite Ea in Na.
        rewrite Z.eqb_refl in Na. discriminate.
      * left. apply filter_In. split; [exact He|]. rewrite Ex. reflexivity.
    + intros a Ha. apply filter_In in Ha. left. apply Ha.
Qed.

(** X22.  No command rewrites history.  Whatever a command does to a
    database the commands produced, and whatever the storage does under
    it: the rows of [users], [accounts] and [transactions] stay as they
    are, in their order, and rows are only added after them; every ledger
    entry stays as it is, unless no asset row with its asset id is left
    (only /delete removes entries, those of the asset it deletes); and an
    asset row that was not there before has an id above every id handed
    out before: the id of a deleted asset is not used again. *)
Theorem history_is_kept (env : Env) (cmd : command) (db : Tables) :
  reachable db ->
  (exists new,
     rows (users (fst (run_command env cmd db))) = rows (users db) ++ new) /\
  (exists new,
     rows (accounts (fst (run_command env cmd db))) = rows (accounts db) ++ new) /\
  (exists new,
     rows (transactions (fst (run_command env cmd db)))
     = rows (transactions db) ++ new) /\
  (forall e, In e (rows (ledger_entries db)) ->
     In e (rows (ledger_entries (fst (run_command env cmd db)))) \/
     forall a, In a (rows (assets (fst (run_command env cmd db)))) ->
               a_id a <> e_asset_id e) /\
  (forall a, In a (rows (assets (fst (run_command env cmd db)))) ->
     In a (rows (assets db)) \/
     forall old, In old (rows (assets db)) -> a_id old < a_id a).
Proof.
  intros R.
  pose proof (reachable_keyed db R) as K.
  destruct (kept_step db _ (run_command_tx env cmd db) K (reachable_linked db R))
    as [U C T E A _].
  split; [exact U|]. split; [exact C|]. split; [exact T|]. split; [exact E|].
  intros a Ha. destruct (A a Ha) as [Old | Fresh]; [left; exact Old|].
  right. intros old Io. pose proof (assets_seq db K) as B.
  rewrite Forall_forall in B. specialize (B old Io). lia.
Qed.

Lemma history_is_kept_witness :
  (exists new,
     rows (users (fst (run_command calm (Delete admin "GOLD") gold_ledger)))
     = rows (users gold_ledger) ++ new) /\
  (exists new,
     rows (accounts (fst (run_command calm (Delete admin "GOLD") gold_ledger)))
     = rows (accounts gold_ledger) ++ new) /\
  (exists new,
     rows (transactions (fst (run_command calm (Delete admin "GOLD") gold_ledger)))
     = rows (transactions gold_ledger) ++ new) /\
  (forall e, In e (rows (ledger_entries gold_ledger)) ->
     In e (rows (ledger_entries
                   (fst (run_command calm (Delete admin "GOLD") gold_ledger)))) \/
     forall a,
       In a (rows (assets (fst (run_command calm (Delete admin "GOLD") gold_ledger)))) ->
       a_id a <> e_asset_id e) /\
  (forall a,
     In a (rows (assets (fst (run_command calm (Delete admin "GOLD") gold_ledger)))) ->
     In a (rows (assets gold_ledger)) \/
     forall old, In old (rows (assets gold_ledger)) -> a_id old < a_id a).
Proof.
  apply (history_is_kept calm (Delete admin "GOLD") gold_ledger).
  exact gold_ledger_reachable.
Defined.
